(** * clinicsay-interview: the Doctoralia scraper and the appointment generator

    A shallow embedding of the extraction, validation and synthesis code of
    [scrapers/doctoralia.scraper.ts] (both revisions kept in the repository:
    the city-indexed crawl and the specialty-indexed crawl) and of
    [generators/appointment.generator.ts], followed by the properties that
    the specification states about them.

    Conventions of the embedding
    - a JavaScript string is the list of its UTF-16 code units ([list Z]);
      literals are written with [lit], which decodes the UTF-8 bytes of a
      Rocq string literal;
    - [toLowerCase]/[toUpperCase] are modelled on Basic Latin and the Latin-1
      Supplement, the repertoire of the names and keywords of the source;
      code units above U+00FF have no case mapping in the model;
    - a [Date] is its time value, the milliseconds since the epoch, or an
      [Invalid Date]; local time is read in a time zone, and the scrapers run
      in a zone with a fixed offset from UTC;
    - the number that [parseInt] makes of a variable of the environment is an
      integer or [NaN];
    - [Math.random()] is a rational in [0,1) supplied by the environment, and
      the arithmetic on it is exact;
    - the network, the clock, the file system and the random source form an
      abstract world that is threaded through the crawl. *)

From Stdlib Require Import ZArith List String Ascii QArith Qround Lqa Lia Bool.
From stdpp Require Import base decidable option list gmap sets.
Import ListNotations.
Open Scope Z_scope.

(* ================================================================== *)
(** * Part I. The embedding                                            *)
(* ================================================================== *)

(** ** Strings *)

Abbreviation jsstring := (list Z).

(** UTF-8 decoding of the bytes of a literal (one to three byte forms). *)
Fixpoint utf8_units (bs : list Z) : jsstring :=
  match bs with
  | [] => []
  | b0 :: r0 =>
      if b0 <? 128 then b0 :: utf8_units r0
      else match r0 with
           | [] => []
           | b1 :: r1 =>
               if b0 <? 224 then (b0 mod 32 * 64 + b1 mod 64) :: utf8_units r1
               else match r1 with
                    | [] => []
                    | b2 :: r2 =>
                        (b0 mod 16 * 4096 + b1 mod 64 * 64 + b2 mod 64)
                          :: utf8_units r2
                    end
           end
  end.

Definition lit (s : string) : jsstring :=
  utf8_units (List.map (fun a => Z.of_N (N_of_ascii a)) (list_ascii_of_string s)).

(** [WhiteSpace] and [LineTerminator] of ECMAScript: what [String.prototype.trim]
    strips and what the regular expression class [\s] matches. *)
Definition isWhiteSpace (c : Z) : bool :=
  ((9 <=? c) && (c <=? 13)) || (c =? 32) || (c =? 160) || (c =? 5760)
  || ((8192 <=? c) && (c <=? 8202)) || (c =? 8232) || (c =? 8233)
  || (c =? 8239) || (c =? 8287) || (c =? 12288) || (c =? 65279).

(** The class [\d]. *)
Definition isDigit (c : Z) : bool := (48 <=? c) && (c <=? 57).

(** The classes [[A-Z]] and [[a-z]]. *)
Definition isAsciiUpper (c : Z) : bool := (65 <=? c) && (c <=? 90).
Definition isAsciiLower (c : Z) : bool := (97 <=? c) && (c <=? 122).

(** Lower-case mapping of one code unit: A-Z, and U+00C0-U+00DE but the
    multiplication sign U+00D7. *)
Definition toLowerUnit (c : Z) : Z :=
  if isAsciiUpper c then c + 32
  else if (192 <=? c) && (c <=? 222) && negb (c =? 215) then c + 32
  else c.

(** Upper-case mapping of one code unit: a-z, U+00E0-U+00FE but the division
    sign U+00F7, and the three Latin-1 letters whose upper case leaves
    Latin-1: sharp s (two units), y with diaeresis and the micro sign. *)
Definition toUpperUnits (c : Z) : jsstring :=
  if isAsciiLower c then [c - 32]
  else if (224 <=? c) && (c <=? 254) && negb (c =? 247) then [c - 32]
  else if c =? 223 then [83; 83]
  else if c =? 255 then [376]
  else if c =? 181 then [924]
  else [c].

Definition toLowerCase (s : jsstring) : jsstring := List.map toLowerUnit s.

Definition toUpperCase (s : jsstring) : jsstring := List.flat_map toUpperUnits s.

(** [s.startsWith(p)]. *)
Fixpoint startsWith (s p : jsstring) : bool :=
  match p, s with
  | [], _ => true
  | a :: p', b :: s' => (a =? b) && startsWith s' p'
  | _ :: _, [] => false
  end.

(** [s.includes(sub)]. *)
Fixpoint includes (s sub : jsstring) : bool :=
  startsWith s sub
  || match s with
     | [] => false
     | _ :: r => includes r sub
     end.

(** [a === b] on strings. *)
Fixpoint strictEq (a b : jsstring) : bool :=
  match a, b with
  | [], [] => true
  | x :: a', y :: b' => (x =? y) && strictEq a' b'
  | _, _ => false
  end.

(** The rest of a string after the longest prefix in a character class
    (what a greedy [c*] leaves). *)
Fixpoint skipWhile (p : Z -> bool) (s : jsstring) : jsstring :=
  match s with
  | [] => []
  | c :: r => if p c then skipWhile p r else s
  end.

Definition trimStart (s : jsstring) : jsstring := skipWhile isWhiteSpace s.

Definition trimEnd (s : jsstring) : jsstring := rev (trimStart (rev s)).

Definition trim (s : jsstring) : jsstring := trimEnd (trimStart s).

(** [s.split(sep)] for a separator of one code unit. *)
Fixpoint split (sep : Z) (s : jsstring) : list jsstring :=
  match s with
  | [] => [[]]
  | c :: r =>
      if c =? sep then [] :: split sep r
      else match split sep r with
           | h :: t => (c :: h) :: t
           | [] => [[c]]
           end
  end.

(** Truthiness of a string: the empty string is falsy. *)
Definition truthy (s : jsstring) : bool :=
  match s with [] => false | _ :: _ => true end.

(** ** Regular expressions

    A pattern is embedded as its matcher: the length of the match that starts
    at the head of the string, if there is one. The patterns of the source
    are sequences of a character, a greedy class repetition and an end
    anchor, for which the greedy choice is the only one that can succeed; none
    of them matches the empty string. *)

Definition matcher := jsstring -> option nat.

(** The length of the longest prefix in a character class. *)
Fixpoint spanLen (p : Z -> bool) (s : jsstring) : nat :=
  match s with
  | [] => 0
  | c :: r => if p c then S (spanLen p r) else 0
  end.

(** [s.replace(/re/g, by)]: the matches are found from left to right, each
    search resuming after the previous match; [skip] counts the units of the
    current match still to pass over. *)
Fixpoint replaceAllFrom (m : matcher) (by_ : jsstring) (skip : nat) (s : jsstring)
  : jsstring :=
  match s with
  | [] => []
  | c :: r =>
      match skip with
      | S k => replaceAllFrom m by_ k r
      | O =>
          match m s with
          | Some (S k) => by_ ++ replaceAllFrom m by_ k r
          | _ => c :: replaceAllFrom m by_ 0 r
          end
      end
  end.

Definition replaceAll (m : matcher) (by_ : jsstring) (s : jsstring) : jsstring :=
  replaceAllFrom m by_ 0 s.

(** [s.replace(/re/, by)]: the leftmost match only. *)
Fixpoint replaceFirst (m : matcher) (by_ : jsstring) (s : jsstring) : jsstring :=
  match m s with
  | Some n => by_ ++ skipn n s
  | None =>
      match s with
      | [] => []
      | c :: r => c :: replaceFirst m by_ r
      end
  end.

(** [s.replace(/^re/, by)]: a match can only start the string. *)
Definition replaceAtStart (m : matcher) (by_ : jsstring) (s : jsstring) : jsstring :=
  match m s with
  | Some n => by_ ++ skipn n s
  | None => s
  end.

(** [s.split(/re/)[0]]: the text before the leftmost match, all of it when
    there is none. *)
Fixpoint beforeFirst (m : matcher) (s : jsstring) : jsstring :=
  match m s with
  | Some _ => []
  | None =>
      match s with
      | [] => []
      | c :: r => c :: beforeFirst m r
      end
  end.

(** [/\s+/] *)
Definition reSpaces : matcher := fun s =>
  match spanLen isWhiteSpace s with
  | O => None
  | n => Some n
  end.

(** A pattern of one character, as [/\n/] and [/\t/]. *)
Definition reUnit (c0 : Z) : matcher := fun s =>
  match s with
  | c :: _ => if c =? c0 then Some 1%nat else None
  | [] => None
  end.

(** [/,\s*,/] *)
Definition reCommaSpacesComma : matcher := fun s =>
  match s with
  | 44 :: r =>
      match skipWhile isWhiteSpace r with
      | 44 :: _ => Some (S (S (spanLen isWhiteSpace r)))
      | _ => None
      end
  | _ => None
  end.

(** [/^\s*,\s*/], tried at the start of the string. *)
Definition reLeadingComma : matcher := fun s =>
  match skipWhile isWhiteSpace s with
  | 44 :: r => Some (spanLen isWhiteSpace s + 1 + spanLen isWhiteSpace r)%nat
  | _ => None
  end.

(** [/\s*,\s*$/] *)
Definition reTrailingComma : matcher := fun s =>
  match skipWhile isWhiteSpace s with
  | 44 :: r =>
      match skipWhile isWhiteSpace r with
      | [] => Some (length s)
      | _ :: _ => None
      end
  | _ => None
  end.

(** [/\s+,/] *)
Definition reSpacesComma : matcher := fun s =>
  match spanLen isWhiteSpace s with
  | O => None
  | n =>
      match skipWhile isWhiteSpace s with
      | 44 :: _ => Some (S n)
      | _ => None
      end
  end.

(** [/,\s+/] *)
Definition reCommaSpaces : matcher := fun s =>
  match s with
  | 44 :: r =>
      match spanLen isWhiteSpace r with
      | O => None
      | n => Some (S n)
      end
  | _ => None
  end.

(** [/\s+\d{5}$/] *)
Definition rePostalCode : matcher := fun s =>
  match spanLen isWhiteSpace s with
  | O => None
  | S _ =>
      let r := skipWhile isWhiteSpace s in
      if (length r =? 5)%nat && forallb isDigit r then Some (length s) else None
  end.

(** [/\d/] anywhere in the string: [text.match(/\d/)] is truthy. *)
Definition hasDigit (s : jsstring) : bool := existsb isDigit s.

(** Comparison of one unit under the [i] flag against an ASCII pattern
    character: only ASCII letters fold. *)
Definition foldUnit (c : Z) : Z := if isAsciiLower c then c - 32 else c.

(** A literal under the [i] flag at the head of the string. *)
Fixpoint startsWithFold (s p : jsstring) : bool :=
  match p, s with
  | [], _ => true
  | a :: p', b :: s' => (foldUnit a =? foldUnit b) && startsWithFold s' p'
  | _ :: _, [] => false
  end.

(** An alternation of literals under the [i] flag: the first alternative
    that matches, with the length it consumes. *)
Fixpoint firstAlternative (alts : list jsstring) (s : jsstring) : option nat :=
  match alts with
  | [] => None
  | a :: rest =>
      if startsWithFold s a then Some (length a) else firstAlternative rest s
  end.

(** ** The record shapes of the scraper *)

Inductive Modality := in_person | online.

Record TreatmentData := {
  name : jsstring;
  price : option Z;
  currency : option jsstring;
  durationMinutes : option Z
}.

(** A [Date]: its time value, the milliseconds since the epoch, or the
    [Invalid Date] that [new Date] makes of what it cannot read. *)
Inductive JsDate :=
| DateOf (t : Z)
| InvalidDate.

Record AvailabilityData := {
  startAt : JsDate;
  endAt : JsDate;
  modality : Modality
}.

Record DoctorData := {
  fullName : jsstring;
  specialty : jsstring;
  city : jsstring;
  address : jsstring;
  phoneCountryCode : jsstring;
  phoneNumber : jsstring;
  rating : option Q;
  reviewCount : Z;
  profileUrl : jsstring;
  treatments : list TreatmentData;
  availability : list AvailabilityData
}.

(** ** Numbers and the random source *)

(** A value of [Math.random()]: a rational in [0,1). *)
Record Unit01 := {
  draw : Q;
  draw_range : (0 <= draw)%Q /\ (draw < 1)%Q
}.

(** [Math.floor(r * n)] for an integer [n]. *)
Definition floorScaled (r : Unit01) (n : Z) : Z := Qfloor (draw r * inject_Z n).

(** [Math.round(q)]: the nearest integer, halves upwards. *)
Definition mathRound (q : Q) : Z := Qfloor (q + (1 # 2)).

(** The decimal digits of a non-negative integer, most significant first, as
    [String(n)] writes them; [fuel] bounds the number of digits. *)
Fixpoint digitsFrom (fuel : nat) (n : Z) (acc : jsstring) : jsstring :=
  match fuel with
  | O => acc
  | S f =>
      let acc' := (48 + n mod 10) :: acc in
      if n <? 10 then acc' else digitsFrom f (n / 10) acc'
  end.

Definition numberToString (n : Z) : jsstring :=
  digitsFrom (S (Z.to_nat (Z.log2 n))) n [].

(** [xs[i]]: [undefined] out of range. *)
Definition index {A : Type} (xs : list A) (i : Z) : option A :=
  if i <? 0 then None else nth_error xs (Z.to_nat i).

(** A number that [parseInt] read from the environment is an integer or
    [NaN], written [None]. Every comparison with [NaN] is false, and
    [Math.min] of [NaN] is [NaN]. *)

(** [a >= b] *)
Definition numGe (a : Z) (b : option Z) : bool :=
  match b with
  | Some n => n <=? a
  | None => false
  end.

(** [a < b] *)
Definition numLt (a : Z) (b : option Z) : bool :=
  match b with
  | Some n => a <? n
  | None => false
  end.

(** The number, and 0 for [NaN]: a loop that goes on while [i < n] makes as
    many turns for [NaN] as for 0. *)
Definition numOr0 (n : option Z) : Z :=
  match n with
  | Some k => k
  | None => 0
  end.

(** The turns of [for (let i = 0; i < n; i++)]: none when [n] is [NaN]. *)
Definition turns (n : option Z) : nat :=
  match n with
  | Some k => Z.to_nat k
  | None => 0
  end.

(** [Math.min(a, b)] *)
Definition mathMin (a : option Z) (b : Z) : option Z :=
  match a with
  | Some n => Some (Z.min n b)
  | None => None
  end.

(** The integers [a, a+1, ..., a+n-1] of a counting loop. *)
Fixpoint countFrom (a : Z) (n : nat) : list Z :=
  match n with
  | O => []
  | S k => a :: countFrom (a + 1) k
  end.

(** ** Dates

    A time value is in milliseconds. A time zone gives the offset of local
    time from UTC at an instant ([offsetAt]) and the offset that it takes for
    a local time ([offsetFor]), which settles the local times that a change
    of the offset repeats or skips. [fixedZone tz] is always [tz]
    milliseconds ahead of UTC. *)

Definition msPerHour : Z := 3600000.
Definition msPerDay : Z := 86400000.

Record Zone := {
  offsetAt : Z -> Z;
  offsetFor : Z -> Z
}.

Definition fixedZone (tz : Z) : Zone :=
  {| offsetAt := fun _ => tz; offsetFor := fun _ => tz |}.

(** [TimeClip]: a time value more than 8.64e15 ms from the epoch is no
    date. *)
Definition maxTime : Z := 8640000000000000.

Definition timeClip (t : Z) : JsDate :=
  if Z.abs t <=? maxTime then DateOf t else InvalidDate.

Section Dates.

Variable zone : Zone.

Definition localTime (t : Z) : Z := t + offsetAt zone t.

(** The instant of a local time. *)
Definition utc (local : Z) : Z := local - offsetFor zone local.

Definition localDay (t : Z) : Z := localTime t / msPerDay.

Definition timeInDay (t : Z) : Z := localTime t mod msPerDay.

(** [d.getDay()]: 0 is Sunday; day 0 of the epoch was a Thursday. *)
Definition getDay (t : Z) : Z := (localDay t + 4) mod 7.

(** [d.getHours()] *)
Definition getHours (t : Z) : Z := timeInDay t / msPerHour.

(** [d.setHours(h)]: minutes, seconds and milliseconds are kept; hours past
    23 run into the next day. *)
Definition setHours (t : Z) (h : Z) : Z :=
  utc (localDay t * msPerDay + h * msPerHour + timeInDay t mod msPerHour).

(** [d.setHours(h, 0, 0, 0)] *)
Definition setHoursSharp (t : Z) (h : Z) : Z :=
  utc (localDay t * msPerDay + h * msPerHour).

(** [d.setDate(today.getDate() + n)] on a copy [d] of [today]: a day of the
    month past the end of the month runs into the next months, so the date
    moves by [n] days at the same local time. *)
Definition addDays (t : Z) (n : Z) : Z := utc (localTime t + n * msPerDay).

(** [end.setHours(d.getHours() + 1)] on a copy [end] of [d]: the hours of an
    [Invalid Date] are [NaN] and leave it invalid; the new time value is
    clipped. *)
Definition nextHour (d : JsDate) : JsDate :=
  match d with
  | DateOf t => timeClip (setHours t (getHours t + 1))
  | InvalidDate => InvalidDate
  end.

End Dates.

(** ** Effects

    A computation runs in a store and either returns or throws. *)

Inductive Error :=
| NoDoctorsFound
| HttpError (status : option Z)
| TypeError.

Inductive Outcome (A : Type) :=
| Return (a : A)
| Throw (e : Error).

Arguments Return {A} a.
Arguments Throw {A} e.

Definition M (S A : Type) : Type := S -> Outcome A * S.

Definition ret {S A : Type} (a : A) : M S A := fun s => (Return a, s).

Definition throw {S A : Type} (e : Error) : M S A := fun s => (Throw e, s).

Definition bind {S A B : Type} (m : M S A) (k : A -> M S B) : M S B :=
  fun s =>
    match m s with
    | (Return a, s') => k a s'
    | (Throw e, s') => (Throw e, s')
    end.

(** [try { m } catch (e) { h e }] *)
Definition tryCatch {S A : Type} (m : M S A) (h : Error -> M S A) : M S A :=
  fun s =>
    match m s with
    | (Return a, s') => (Return a, s')
    | (Throw e, s') => h e s'
    end.

Declare Scope js_scope.
Delimit Scope js_scope with js.
Notation "'do' x <- m ; k" := (bind m (fun x => k))
  (at level 10, x name, m at level 100, k at level 200) : js_scope.
Notation "'run' m ; k" := (bind m (fun _ => k))
  (at level 10, m at level 100, k at level 200) : js_scope.

(** The same for code that has no store. *)
Definition andThen {A B : Type} (o : Outcome A) (k : A -> Outcome B) : Outcome B :=
  match o with
  | Return a => k a
  | Throw e => Throw e
  end.

Definition attempt {A : Type} (o : Outcome A) (h : Error -> Outcome A) : Outcome A :=
  match o with
  | Return a => Return a
  | Throw e => h e
  end.

Notation "'get' x <- o ; k" := (andThen o (fun x => k))
  (at level 10, x name, o at level 100, k at level 200) : js_scope.

(** The store of a scraper: the world outside and the set of the profile
    URLs accepted so far. *)
Record Store (W : Type) := {
  world : W;
  scrapedUrls : gset jsstring
}.

Arguments world {W} s.
Arguments scrapedUrls {W} s.

(** A step of the world that cannot fail. *)
Definition liftWorld {W A : Type} (f : W -> A * W) : M (Store W) A :=
  fun st =>
    let (a, w) := f (world st) in
    (Return a, {| world := w; scrapedUrls := scrapedUrls st |}).

(** A step of the world that may throw. *)
Definition callWorld {W A : Type} (f : W -> Outcome A * W) : M (Store W) A :=
  fun st =>
    let (o, w) := f (world st) in
    (o, {| world := w; scrapedUrls := scrapedUrls st |}).

(** [this.scrapedUrls.has(url)] and [this.scrapedUrls.add(url)] *)
Definition hasUrl {W : Type} (url : jsstring) : M (Store W) bool :=
  fun st => (Return (bool_decide (url ∈ scrapedUrls st)), st).

Definition addUrl {W : Type} (url : jsstring) : M (Store W) unit :=
  fun st =>
    (Return tt, {| world := world st; scrapedUrls := {[url]} ∪ scrapedUrls st |}).

(** [s || fallback] on an attribute that may be absent. *)
Definition orElse (s : option jsstring) (fallback : jsstring) : jsstring :=
  match s with
  | Some v => if truthy v then v else fallback
  | None => fallback
  end.

(** [Math.floor(Math.random() * 90000000 + 10000000)] after a leading 9. *)
Definition phoneOf (r : Unit01) : jsstring :=
  57 :: numberToString (Qfloor (draw r * inject_Z 90000000 + inject_Z 10000000)).

(** [/^9\d{8}$/] *)
Definition isPhonePattern (s : jsstring) : bool :=
  match s with
  | 57 :: r => (length r =? 8)%nat && forallb isDigit r
  | _ => false
  end.

(** One synthesized service: [Math.round(Math.random() * 200 + 50)] soles
    and one of three durations. *)
Definition mockTreatment (nm : jsstring) (r1 r2 : Unit01) : TreatmentData :=
  {| name := nm;
     price := Some (mathRound (draw r1 * inject_Z 200 + inject_Z 50));
     currency := Some (lit "PEN");
     durationMinutes := index [30; 45; 60] (floorScaled r2 3) |}.

Section Synthesis.

Context {W : Type}.
Variable random : W -> Unit01 * W.

(** [names.map(name => ({ name, price: ..., currency: 'PEN', durationMinutes: ... }))] *)
Fixpoint mockTreatments (names : list jsstring) (w : W) : list TreatmentData * W :=
  match names with
  | [] => ([], w)
  | nm :: rest =>
      let (r1, w1) := random w in
      let (r2, w2) := random w1 in
      let (ts, w3) := mockTreatments rest w2 in
      (mockTreatment nm r1 r2 :: ts, w3)
  end.

(** The first entry of the table whose key the normalised specialty includes. *)
Definition lookupTreatments (mapping : list (jsstring * list jsstring))
  (specialty : jsstring) : list jsstring :=
  let normalized := toLowerCase specialty in
  match find (fun entry => includes normalized (fst entry)) mapping with
  | Some entry => snd entry
  | None => [lit "Consulta general"]
  end.

End Synthesis.

(** ** Normal forms of an address *)

(** What the specification asks of a normalised address. *)

(** Every white-space unit is the space U+0020: no newline, no tab. *)
Definition onlyPlainSpaces (s : jsstring) : bool :=
  forallb (fun c => negb (isWhiteSpace c) || (c =? 32)) s.

Definition headIs (p : Z -> bool) (s : jsstring) : bool :=
  match s with
  | c :: _ => p c
  | [] => false
  end.

(** A test on every pair of neighbours. *)
Fixpoint adjacentAll (ok : Z -> Z -> bool) (s : jsstring) : bool :=
  match s with
  | [] => true
  | c :: r =>
      match r with
      | d :: _ => ok c d
      | [] => true
      end && adjacentAll ok r
  end.

(** No two white-space units in a row. *)
Definition singleSpaced (s : jsstring) : bool :=
  adjacentAll (fun c d => negb (isWhiteSpace c && isWhiteSpace d)) s.

(** No white space at either end. *)
Definition noOuterSpace (s : jsstring) : bool :=
  negb (headIs isWhiteSpace s) && negb (headIs isWhiteSpace (rev s)).

(** No comma at either end. *)
Definition noOuterComma (s : jsstring) : bool :=
  negb (headIs (Z.eqb 44) s) && negb (headIs (Z.eqb 44) (rev s)).

(** No two commas in a row. *)
Definition noDoubledComma (s : jsstring) : bool :=
  adjacentAll (fun c d => negb ((c =? 44) && (d =? 44))) s.

(** No white space just before a comma. *)
Definition noSpaceBeforeComma (s : jsstring) : bool :=
  adjacentAll (fun c d => negb (isWhiteSpace c && (d =? 44))) s.

(** Every comma is followed by exactly one space and then by something that
    is not white space. *)
Fixpoint oneSpaceAfterComma (s : jsstring) : bool :=
  match s with
  | [] => true
  | c :: r =>
      (negb (c =? 44)
       || match r with
          | 32 :: r' => negb (headIs isWhiteSpace r')
          | _ => false
          end)
      && oneSpaceAfterComma r
  end.

(** The normal form that the claim on [cleanAddress] words. *)
Definition commaClean (s : jsstring) : bool :=
  onlyPlainSpaces s && singleSpaced s && noOuterSpace s && noOuterComma s
  && noDoubledComma s && oneSpaceAfterComma s.

(** ** The city-indexed scraper *)

Module CityScraper.

(** One entry of a search page. *)
Module DoctorSearchResult.
Record t := {
  doctorId : jsstring;
  doctorName : jsstring;
  doctorUrl : jsstring;
  addressId : jsstring;
  specialty : jsstring;
  city : jsstring;
  rating : option Q;
  reviewCount : Z
}.
End DoctorSearchResult.

(** The attributes of one [data-id="result-item"] card of a search page, as
    [card.attr] reads them; an absent attribute is [None]. *)
Record ResultCard := {
  dataResultId : option jsstring;
  dataDoctorName : option jsstring;
  dataDoctorUrl : option jsstring;
  dataAddressId : option jsstring;
  dataSpecializationName : option jsstring;
  dataStarsRating : option jsstring;
  dataOpinionsCount : option jsstring
}.

(** A profile page as the extractors query it; a query may raise.
    - [addressBlocks]: per [[itemprop="address"]] element, the text of its
      first [span.text-truncate];
    - [streetAddressSpan]: [None] when no [street-address] node exists, else
      the text of the first [span.text-truncate] under its parent;
    - [metaStreetAddress]: the [content] of [meta[itemprop="streetAddress"]];
    - [layoutSpans]: per [div.overflow-hidden, div.d-flex] element, the texts
      of its spans;
    - [paragraphSpans]: per [p.m-0] element, the text of its first
      [span.text-truncate];
    - [metaTelephone]: the [content] of [meta[itemprop="telephone"]];
    - [bodyText]: the text of [body];
    - [serviceItems]: per [li[data-id="service-item"]] element, the text of
      its [h3[itemprop="availableService"]] and the text of its [.mr-1];
    - [serviceHeadings]: per [h3.h5.font-weight-bold] element, its text and
      the text of the [.mr-1] under its parent. *)
Record ProfileDoc := {
  addressBlocks : Outcome (list jsstring);
  streetAddressSpan : Outcome (option jsstring);
  metaStreetAddress : Outcome (option jsstring);
  layoutSpans : Outcome (list (list jsstring));
  paragraphSpans : Outcome (list jsstring);
  metaTelephone : Outcome (option jsstring);
  bodyText : Outcome jsstring;
  serviceItems : Outcome (list (Outcome (jsstring * jsstring)));
  serviceHeadings : Outcome (list (Outcome (jsstring * jsstring)))
}.

(** One item of the slot endpoint; [start] is the date that
    [new Date(slot.start)] makes of what the item holds there, an
    [Invalid Date] when it holds nothing that reads as a date. *)
Record Slot := {
  booked : bool;
  booking_url : option jsstring;
  start : JsDate
}.

(** What the scraper asks of the outside world. *)
Record Host (W : Type) := {
  random : W -> Unit01 * W;
  clock : W -> Z * W;
  getSearchPage : jsstring -> Z -> W -> Outcome (list ResultCard) * W;
  getProfile : jsstring -> W -> Outcome ProfileDoc * W;
  getSlots : jsstring -> jsstring -> Z -> W -> Outcome (list Slot) * W;
  writeFiles : list DoctorData -> W -> Outcome unit * W;
  sleep : Z -> W -> unit * W;
  parseFloat : jsstring -> option Q;
  parseInt : jsstring -> option Z
}.

Arguments random {W} h.
Arguments clock {W} h.
Arguments getSearchPage {W} h.
Arguments getProfile {W} h.
Arguments getSlots {W} h.
Arguments writeFiles {W} h.
Arguments sleep {W} h.
Arguments parseFloat {W} h.
Arguments parseInt {W} h.

(** What the constructor reads; [tzOffset] is the offset of the zone that
    the process runs in. *)
Record Config := {
  baseUrl : jsstring;
  cities : list jsstring;
  maxDoctorsPerCity : option Z;
  maxPages : Z;
  useRealAvailability : bool;
  tzOffset : Z
}.

Definition cleanAddress (addr : jsstring) : jsstring :=
  let s1 := replaceAll reSpaces (lit " ") addr in
  let s2 := replaceAll (reUnit 10) [] s1 in
  let s3 := replaceAll (reUnit 9) [] s2 in
  let s4 := replaceAll reCommaSpacesComma (lit ",") s3 in
  let s5 := replaceAtStart reLeadingComma [] s4 in
  let s6 := replaceFirst reTrailingComma [] s5 in
  let s7 := replaceAll reSpacesComma (lit ",") s6 in
  let s8 := replaceAll reCommaSpaces (lit ", ") s7 in
  trim s8.

(** [streetSpan.split(/\s+\d{5}$/)[0]] *)
Definition withoutPostalCode (text : jsstring) : jsstring :=
  beforeFirst rePostalCode text.

(** [/^(Dr\.|Dra\.|Ps\s)/i] *)
Definition looksLikeName (text : jsstring) : bool :=
  startsWithFold text (lit "Dr.") || startsWithFold text (lit "Dra.")
  || (startsWithFold text (lit "Ps") && headIs isWhiteSpace (skipn 2 text)).

(** Method 1: the first address block whose street span is long enough and
    cleans to something that is not a licence number. *)
Fixpoint addressFromBlocks (blocks : list jsstring) : jsstring :=
  match blocks with
  | [] => []
  | raw :: rest =>
      let streetSpan := trim raw in
      if truthy streetSpan && (10 <? Z.of_nat (length streetSpan)) then
        let cleaned := cleanAddress (withoutPostalCode streetSpan) in
        if truthy cleaned && negb (includes cleaned (lit "Núm. Colegiado"))
        then cleaned
        else addressFromBlocks rest
      else addressFromBlocks rest
  end.

(** Method 2 *)
Definition addressFromStreetNode (node : option jsstring) : option jsstring :=
  match node with
  | None => None
  | Some raw =>
      let text := trim raw in
      if truthy text && (10 <? Z.of_nat (length text))
      then Some (cleanAddress (withoutPostalCode text))
      else None
  end.

(** Method 3 *)
Definition addressFromMeta (metaStreet : option jsstring) : option jsstring :=
  match metaStreet with
  | None => None
  | Some content =>
      if truthy content && (5 <? Z.of_nat (length content))
      then Some (cleanAddress content)
      else None
  end.

(** Method 4, the inner loop over the spans of one container. *)
Fixpoint addressFromSpans (spans : list jsstring) : option jsstring :=
  match spans with
  | [] => None
  | raw :: rest =>
      let text := trim raw in
      let lower := toLowerCase text in
      if (15 <? Z.of_nat (length text)) && hasDigit text
         && (includes lower (lit "calle") || includes lower (lit "av.")
             || includes lower (lit "avenida") || includes lower (lit "jr")
             || includes lower (lit "urb")
             || includes lower (lit "psicoterapia online"))
         && (negb (looksLikeName text) && negb (includes text (lit "Clínica"))
             && negb (includes text (lit "Centro"))
             && negb (includes text (lit "Hospital")))
      then Some (cleanAddress (withoutPostalCode text))
      else addressFromSpans rest
  end.

(** Method 4, the outer loop: it stops at the first container that leaves a
    non-empty [addr]. *)
Fixpoint addressFromContainers (containers : list (list jsstring)) (addr : jsstring)
  : jsstring :=
  match containers with
  | [] => addr
  | spans :: rest =>
      let addr' := match addressFromSpans spans with
                   | Some found => found
                   | None => addr
                   end in
      if truthy addr' then addr' else addressFromContainers rest addr'
  end.

(** Method 5 *)
Fixpoint addressFromParagraphs (paragraphs : list jsstring) (addr : jsstring)
  : jsstring :=
  match paragraphs with
  | [] => addr
  | raw :: rest =>
      let text := trim raw in
      let lower := toLowerCase text in
      if truthy text && (15 <? Z.of_nat (length text)) && hasDigit text
         && (includes lower (lit "calle") || includes lower (lit "av.")
             || includes lower (lit "urb.") || includes lower (lit "jr")
             || includes lower (lit "psicoterapia online"))
         && negb (looksLikeName text)
      then cleanAddress (withoutPostalCode text)
      else addressFromParagraphs rest addr
  end.

(** [extractAddress]: the five methods in order inside one [try], any
    exception giving [null]. *)
Definition extractAddress (doc : ProfileDoc) : Outcome (option jsstring) :=
  attempt
    (get blocks <- addressBlocks doc;
     let addr1 := addressFromBlocks blocks in
     if truthy addr1 then Return (Some addr1)
     else
       get node <- streetAddressSpan doc;
       match addressFromStreetNode node with
       | Some addr2 => Return (Some addr2)
       | None =>
           get metaStreet <- metaStreetAddress doc;
           match addressFromMeta metaStreet with
           | Some addr3 => Return (Some addr3)
           | None =>
               get containers <- layoutSpans doc;
               let addr4 := addressFromContainers containers addr1 in
               if truthy addr4 then Return (Some addr4)
               else
                 get paragraphs <- paragraphSpans doc;
                 let addr5 := addressFromParagraphs paragraphs addr4 in
                 if truthy addr5 then Return (Some addr5) else Return None
           end
       end)%js
    (fun _ => Return None).

(** [/\+51\s*/] *)
Definition reCountryCode : matcher := fun s =>
  if startsWith s (lit "+51")
  then Some (3 + spanLen isWhiteSpace (skipn 3 s))%nat
  else None.

(** [/\s/] *)
Definition reOneSpace : matcher := fun s =>
  match s with
  | c :: _ => if isWhiteSpace c then Some 1%nat else None
  | [] => None
  end.

(** [9\d{8}] at the head of the string. *)
Definition nineDigits (s : jsstring) : bool :=
  match s with
  | 57 :: r => (8 <=? length r)%nat && forallb isDigit (firstn 8 r)
  | _ => false
  end.

(** [/(\+51\s?)?9\d{8}/]: with the country code when it is there and the
    number follows it, else the bare number. *)
Definition rePhone : matcher := fun s =>
  let bare := if nineDigits s then Some 9%nat else None in
  if startsWith s (lit "+51") then
    let r := skipn 3 s in
    if headIs isWhiteSpace r then
      if nineDigits (skipn 1 r) then Some 13%nat else bare
    else if nineDigits r then Some 12%nat else bare
  else bare.

(** [text.match(re)[0]]: the text of the leftmost match. *)
Fixpoint firstMatch (m : matcher) (s : jsstring) : option jsstring :=
  match m s with
  | Some n => Some (firstn n s)
  | None =>
      match s with
      | [] => None
      | _ :: r => firstMatch m r
      end
  end.

(** [s.replace('+51', '')]: the first occurrence of a literal. *)
Definition reLiteral (p : jsstring) : matcher := fun s =>
  if startsWith s p then Some (length p) else None.

(** [/S\/\s*(\d+)/] at the head of the string: the digits it captures. *)
Definition priceAt (s : jsstring) : option jsstring :=
  match s with
  | 83 :: 47 :: r =>
      let r' := skipWhile isWhiteSpace r in
      match spanLen isDigit r' with
      | O => None
      | n => Some (firstn n r')
      end
  | _ => None
  end.

(** [priceText.match(/S\/\s*(\d+)/)]: the capture of the leftmost match. *)
Fixpoint firstPrice (s : jsstring) : option jsstring :=
  match priceAt s with
  | Some digits => Some digits
  | None =>
      match s with
      | [] => None
      | _ :: r => firstPrice r
      end
  end.

(** [parseInt] of a string of decimal digits. *)
Definition parseDigits (digits : jsstring) : Z :=
  fold_left (fun acc c => acc * 10 + (c - 48)) digits 0.

(** The service that one item of the page gives. *)
Definition serviceOf (nm priceText : jsstring) : TreatmentData :=
  let priceMatch := firstPrice (trim priceText) in
  {| name := nm;
     price := match priceMatch with
              | Some digits => Some (parseDigits digits)
              | None => None
              end;
     currency := match priceMatch with
                 | Some _ => Some (lit "PEN")
                 | None => None
                 end;
     durationMinutes := Some 30 |}.

(** One [each] loop of [extractTreatments] over the items of a selector: a
    name is taken once, whatever its case; an item that raises ends the loop
    (the flag), what was pushed before stays. *)
Fixpoint readServices (items : list (Outcome (jsstring * jsstring)))
  (seen : gset jsstring) (treatments : list TreatmentData)
  : bool * gset jsstring * list TreatmentData :=
  match items with
  | [] => (false, seen, treatments)
  | Throw _ :: _ => (true, seen, treatments)
  | Return (rawName, priceText) :: rest =>
      let nm := trim rawName in
      if negb (truthy nm) then readServices rest seen treatments
      else
        let nameLower := toLowerCase nm in
        if bool_decide (nameLower ∈ seen) then readServices rest seen treatments
        else readServices rest ({[nameLower]} ∪ seen) (treatments ++ [serviceOf nm priceText])
  end.

(** [extractTreatments]: the service items, the headings when the items gave
    nothing; any exception is swallowed. *)
Definition extractTreatments (doc : ProfileDoc) : list TreatmentData :=
  match serviceItems doc with
  | Throw _ => []
  | Return items =>
      match readServices items ∅ [] with
      | (true, _, treatments) => treatments
      | (false, seen, treatments) =>
          if (Z.of_nat (length treatments) =? 0) then
            match serviceHeadings doc with
            | Throw _ => treatments
            | Return headings => snd (readServices headings seen treatments)
            end
          else treatments
      end
  end.

Definition blacklist : list jsstring :=
  [lit "clínica"; lit "centro médico"; lit "hospital"; lit "policlínico";
   lit "servicios médicos"].

Definition isValidDoctor (doctor : DoctorData) : bool :=
  let name := toLowerCase (fullName doctor) in
  if existsb (fun word => includes name word) blacklist then false
  else if strictEq (fullName doctor) (toUpperCase (fullName doctor))
          && includes (fullName doctor) (lit " ")
  then false
  else (2 <=? Z.of_nat (length (split 32 (trim (fullName doctor))))).

Definition mapping : list (jsstring * list jsstring) :=
  [(lit "cardio", [lit "Consulta cardiológica"; lit "Electrocardiograma"; lit "Ecocardiograma"]);
   (lit "derma", [lit "Consulta dermatológica"; lit "Tratamiento acné"; lit "Peeling"]);
   (lit "pediatr", [lit "Consulta pediátrica"; lit "Control niño sano"; lit "Vacunación"]);
   (lit "psico", [lit "Terapia individual"; lit "Terapia pareja"; lit "Evaluación psicológica"]);
   (lit "psiquiatr", [lit "Consulta psiquiátrica"; lit "Evaluación"; lit "Seguimiento"]);
   (lit "dent", [lit "Limpieza dental"; lit "Blanqueamiento"; lit "Ortodoncia"]);
   (lit "nutri", [lit "Consulta nutricional"; lit "Plan alimenticio"])].

(** [/^(Dr\.|Dra\.|Ps\.?|Odont\.|Lic\.|Mg\.)\s*/gi]: the alternatives in
    order, the optional dot taken when it is there. *)
Definition titles : list jsstring :=
  [lit "Dr."; lit "Dra."; lit "Ps."; lit "Ps"; lit "Odont."; lit "Lic."; lit "Mg."].

Definition reTitle : matcher := fun s =>
  match firstAlternative titles s with
  | Some n => Some (n + spanLen isWhiteSpace (skipn n s))%nat
  | None => None
  end.

(** The two blocks of one working day. Their dates are within two weeks of
    the clock's, and within the range of dates as that is. *)
Definition dayBlocks (zone : Zone) (date : Z) (isOnline : bool)
  : list AvailabilityData :=
  if (getDay zone date =? 0) || (getDay zone date =? 6) then []
  else
    let morning := DateOf (setHoursSharp zone date 9) in
    let morningEnd := DateOf (setHoursSharp zone date 13) in
    let afternoon := DateOf (setHoursSharp zone date 15) in
    let afternoonEnd := DateOf (setHoursSharp zone date 19) in
    let modality := if isOnline then online else in_person in
    [ {| startAt := morning; endAt := morningEnd; modality := modality |};
      {| startAt := afternoon; endAt := afternoonEnd; modality := modality |} ].

(** The loop [for (let day = 1; day <= 14; day++)] from a given [today]. *)
Definition mockAvailabilityFrom (zone : Zone) (today : Z) (isOnline : bool)
  : list AvailabilityData :=
  flat_map (fun day => dayBlocks zone (addDays zone today day) isOnline)
    (countFrom 1 14).

(** The accepted slots of the endpoint: from the date made of the item's
    [start] to the next hour of the local clock. *)
Definition slotAvailability (zone : Zone) (slots : list Slot) : list AvailabilityData :=
  flat_map
    (fun slot =>
       if negb (booked slot) && truthy (orElse (booking_url slot) [])
       then
         let startAt := start slot in
         let endAt := nextHour zone startAt in
         [ {| startAt := startAt; endAt := endAt; modality := in_person |} ]
       else [])
    slots.

Section Crawl.

Context {W : Type}.
Variable host : Host W.
Variable cfg : Config.

Local Open Scope js_scope.

Definition parseSearchResults (cards : list ResultCard) (city : jsstring)
  : list DoctorSearchResult.t :=
  flat_map
    (fun card =>
       let doctorId := orElse (dataResultId card) [] in
       let doctorName := orElse (dataDoctorName card) [] in
       let doctorUrl := orElse (dataDoctorUrl card) [] in
       let addressId := orElse (dataAddressId card) [] in
       let specialty := orElse (dataSpecializationName card) [] in
       let ratingStr := orElse (dataStarsRating card) [] in
       let reviewStr := orElse (dataOpinionsCount card) [] in
       let rating := if truthy ratingStr then parseFloat host ratingStr else None in
       let reviewCount := if truthy reviewStr then parseInt host reviewStr else Some 0 in
       if truthy doctorId && truthy doctorName && truthy doctorUrl then
         [ {| DoctorSearchResult.doctorId := doctorId;
              DoctorSearchResult.doctorName := doctorName;
              DoctorSearchResult.doctorUrl := doctorUrl;
              DoctorSearchResult.addressId := addressId;
              DoctorSearchResult.specialty := specialty;
              DoctorSearchResult.city := city;
              DoctorSearchResult.rating :=
                match rating with
                | Some q =>
                    if negb (Qeq_bool q 0) && Qle_bool 0 q && Qle_bool q (inject_Z 5)
                    then Some q else None
                | None => None
                end;
              DoctorSearchResult.reviewCount :=
                match reviewCount with
                | Some n => n
                | None => 0
                end |} ]
       else [])
    cards.

Definition generatePhone : M (Store W) jsstring :=
  do r <- liftWorld (random host);
  ret (phoneOf r).

Definition extractPhone (doc : ProfileDoc) : M (Store W) jsstring :=
  tryCatch
    (do phoneMeta <- (fun st => (metaTelephone doc, st));
     if truthy (orElse phoneMeta []) then
       ret (replaceAll reOneSpace [] (replaceFirst reCountryCode [] (orElse phoneMeta [])))
     else
       do body <- (fun st => (bodyText doc, st));
       match firstMatch rePhone body with
       | Some matched =>
           ret (replaceFirst (reLiteral (lit "+51")) [] (replaceAll reOneSpace [] matched))
       | None => generatePhone
       end)
    (fun _ => generatePhone).

Definition generateMockTreatments (specialty : jsstring)
  : M (Store W) (list TreatmentData) :=
  liftWorld (mockTreatments (random host) (lookupTreatments mapping specialty)).

Definition generateMockAvailability (isOnline : bool)
  : M (Store W) (list AvailabilityData) :=
  do today <- liftWorld (clock host);
  ret (mockAvailabilityFrom (fixedZone (tzOffset cfg)) today isOnline).

Definition fetchAvailability (doctorId addressId : jsstring)
  : M (Store W) (list AvailabilityData) :=
  tryCatch
    (do today <- liftWorld (clock host);
     do slots <- callWorld (getSlots host doctorId addressId today);
     ret (slotAvailability (fixedZone (tzOffset cfg)) slots))
    (fun _ => ret []).

Definition scrapeDoctorProfile (result : DoctorSearchResult.t)
  : M (Store W) (option DoctorData) :=
  tryCatch
    (do doc <- callWorld (getProfile host (DoctorSearchResult.doctorUrl result));
     let fullName :=
       trim (replaceAtStart reTitle [] (DoctorSearchResult.doctorName result)) in
     do extracted <- (fun st => (extractAddress doc, st));
     let address :=
       orElse extracted (lit "Consultorio en " ++ DoctorSearchResult.city result) in
     do phoneNumber <- extractPhone doc;
     let treatments := extractTreatments doc in
     do finalTreatments <-
       (if (0 <? Z.of_nat (length treatments)) then ret treatments
        else generateMockTreatments (DoctorSearchResult.specialty result));
     let isOnline := includes (toLowerCase address) (lit "online") in
     do availability <-
       (if useRealAvailability cfg && truthy (DoctorSearchResult.addressId result)
        then
          do fetched <- fetchAvailability (DoctorSearchResult.doctorId result)
                          (DoctorSearchResult.addressId result);
          if (Z.of_nat (length fetched) =? 0) then generateMockAvailability isOnline
          else ret fetched
        else generateMockAvailability isOnline);
     ret (Some {| fullName := fullName;
                  specialty := DoctorSearchResult.specialty result;
                  city := DoctorSearchResult.city result;
                  address := address;
                  phoneCountryCode := lit "+51";
                  phoneNumber := phoneNumber;
                  rating := DoctorSearchResult.rating result;
                  reviewCount := DoctorSearchResult.reviewCount result;
                  profileUrl := DoctorSearchResult.doctorUrl result;
                  treatments := finalTreatments;
                  availability := availability |}))
    (fun _ => ret None).

(** What one turn of the page loop decides. *)
Inductive PageStep :=
| StopPaging
| NextPage (found : list DoctorSearchResult.t).

Fixpoint fetchPages (pages : list Z) (city : jsstring)
  (searchResults : list DoctorSearchResult.t)
  : M (Store W) (list DoctorSearchResult.t) :=
  match pages with
  | [] => ret searchResults
  | page :: rest =>
      do step <-
        tryCatch
          (do cards <- callWorld (getSearchPage host city page);
           let pageResults := parseSearchResults cards city in
           if (Z.of_nat (length pageResults) =? 0) then ret StopPaging
           else
             run liftWorld (sleep host 500);
             ret (NextPage pageResults))
          (fun _ => ret (NextPage []));
      match step with
      | StopPaging => ret searchResults
      | NextPage found => fetchPages rest city (searchResults ++ found)
      end
  end.

Fixpoint scrapeProfiles (searchResults : list DoctorSearchResult.t)
  (processed : Z) (doctors : list DoctorData) : M (Store W) (list DoctorData) :=
  match searchResults with
  | [] => ret doctors
  | result :: rest =>
      if numGe processed (maxDoctorsPerCity cfg) then ret doctors
      else
        do seen <- hasUrl (DoctorSearchResult.doctorUrl result);
        if (seen : bool) then scrapeProfiles rest processed doctors
        else
          do accepted <-
            tryCatch
              (do doctor <- scrapeDoctorProfile result;
               match doctor with
               | Some d =>
                   if isValidDoctor d then
                     run addUrl (DoctorSearchResult.doctorUrl result);
                     run liftWorld (sleep host 400);
                     ret (Some d)
                   else ret None
               | None => ret None
               end)
              (fun _ => ret None);
          match accepted with
          | Some d => scrapeProfiles rest (processed + 1) (doctors ++ [d])
          | None => scrapeProfiles rest processed doctors
          end
  end.

Definition scrapeDoctorsByCity (city : jsstring) : M (Store W) (list DoctorData) :=
  do searchResults <-
    fetchPages (countFrom 1 (Z.to_nat (maxPages cfg))) city [];
  scrapeProfiles searchResults 0 [].

Definition saveJsonFiles (doctors : list DoctorData) : M (Store W) unit :=
  tryCatch (callWorld (writeFiles host doctors)) (fun _ => ret tt).

(** The loop over the cities of [scrapeDoctors]. *)
Fixpoint scrapeCities (cities : list jsstring) (allDoctors : list DoctorData)
  : M (Store W) (list DoctorData) :=
  match cities with
  | [] => ret allDoctors
  | city :: rest =>
      do cityDoctors <- scrapeDoctorsByCity (trim city);
      scrapeCities rest (allDoctors ++ cityDoctors)
  end.

Definition scrapeDoctors : M (Store W) (list DoctorData) :=
  tryCatch
    (do allDoctors <- scrapeCities (cities cfg) [];
     if (Z.of_nat (length allDoctors) =? 0) then throw NoDoctorsFound
     else
       run saveJsonFiles allDoctors;
       ret allDoctors)
    (fun error => throw error).

End Crawl.

End CityScraper.

(** ** The specialty-indexed scraper *)

Module SpecialtyScraper.

(** What [parseDoctorCard] reads from one card of a listing.
    - [linkHref], [linkText]: the [href] and the text of the card itself when
      it is an anchor, else of its first [a[href*="/"]];
    - [itempropName]: the text of the first [[itemprop="name"]];
    - [dataDoctorName]: the attribute [data-doctor-name];
    - [headingText]: the text of the first [h3, h4];
    - [descriptionText]: the text of the first
      [.text-body, .specialty, [itemprop="medicalSpecialty"]];
    - [ratingValueText], [reviewCountText]: the texts of
      [[itemprop="ratingValue"]] and [[itemprop="reviewCount"]]. *)
Record CardElt := {
  linkHref : option jsstring;
  linkText : jsstring;
  itempropName : jsstring;
  dataDoctorName : option jsstring;
  headingText : jsstring;
  descriptionText : jsstring;
  ratingValueText : jsstring;
  reviewCountText : jsstring
}.

(** A card of a page: reading it may raise. *)
Definition Card : Type := Outcome CardElt.

(** A listing page: the elements of
    [[data-doctor-id], .search-item, article[itemtype*="Physician"]] and the
    elements of [a[href*="/"]]. *)
Record ListingPage := {
  doctorCards : list Card;
  anchors : list Card
}.

Record Host (W : Type) := {
  random : W -> Unit01 * W;
  clock : W -> Z * W;
  getListing : jsstring -> W -> Outcome ListingPage * W;
  getHomepage : jsstring -> W -> Outcome (list Card) * W;
  parseFloat : jsstring -> option Q;
  parseInt : jsstring -> option Z;
  normalizeNFD : jsstring -> jsstring
}.

Arguments random {W} h.
Arguments clock {W} h.
Arguments getListing {W} h.
Arguments getHomepage {W} h.
Arguments parseFloat {W} h.
Arguments parseInt {W} h.
Arguments normalizeNFD {W} h.

Record Config := {
  baseUrl : jsstring;
  cities : list jsstring;
  specialties : list jsstring;
  maxDoctorsPerSpecialty : option Z;
  tzOffset : Z
}.

Definition clinicKeywords : list jsstring :=
  [lit "clínica"; lit "clinica"; lit "centro"; lit "hospital";
   lit "policlínico"; lit "policlinico"; lit "consultorio";
   lit "servicios médicos"; lit "holodoc"; lit "avansalud";
   lit "centenario"; lit "internacional"; lit "stella maris";
   lit "cerebro"; lit "san pablo"; lit "digestalud"].

(** [[A-Z][a-z]+] at the head of the string: what is left after it. *)
Definition capitalisedWord (s : jsstring) : option jsstring :=
  match s with
  | c :: r =>
      if isAsciiUpper c then
        match r with
        | l :: r' =>
            if isAsciiLower l then Some (skipWhile isAsciiLower r')
            else None
        | [] => None
        end
      else None
  | [] => None
  end.

(** [/^[A-Z][a-z]+ [A-Z][a-z]+/]: the first word is matched greedily, so
    the space has to follow all of its lower-case letters. *)
Definition hasPersonName (s : jsstring) : bool :=
  match capitalisedWord s with
  | Some (32 :: r) =>
      match capitalisedWord r with
      | Some _ => true
      | None => false
      end
  | _ => false
  end.

Definition isValidDoctor (doctor : DoctorData) : bool :=
  let nameLower := toLowerCase (fullName doctor) in
  if existsb (fun keyword => includes nameLower keyword) clinicKeywords then false
  else if strictEq (fullName doctor) (toUpperCase (fullName doctor))
          && includes (fullName doctor) (lit " ")
  then false
  else if strictEq (fullName doctor) (specialty doctor) then false
  else if hasPersonName (fullName doctor) then true
  else true.

Definition treatmentsBySpecialty : list (jsstring * list jsstring) :=
  [(lit "cardio", [lit "Consulta cardiológica"; lit "Electrocardiograma"; lit "Ecocardiograma"; lit "Holter"]);
   (lit "derma", [lit "Consulta dermatológica"; lit "Tratamiento acné"; lit "Peeling"; lit "Criocirugía"]);
   (lit "pediatr", [lit "Consulta pediátrica"; lit "Control niño sano"; lit "Vacunación"]);
   (lit "psico", [lit "Terapia individual"; lit "Terapia pareja"; lit "Evaluación psicológica"]);
   (lit "psiquiatr", [lit "Consulta psiquiátrica"; lit "Evaluación"; lit "Seguimiento"]);
   (lit "dent", [lit "Limpieza dental"; lit "Blanqueamiento"; lit "Ortodoncia"]);
   (lit "nutri", [lit "Consulta nutricional"; lit "Plan alimenticio"; lit "Seguimiento"])].

(** [/^(Dr\.|Dra\.|Ps\.?|Nut\.|Odont\.|Lic\.|Mg\.|Ph\.D\.)\s*/gi] *)
Definition titles : list jsstring :=
  [lit "Dr."; lit "Dra."; lit "Ps."; lit "Ps"; lit "Nut."; lit "Odont.";
   lit "Lic."; lit "Mg."; lit "Ph.D."].

Definition reTitle : matcher := fun s =>
  match firstAlternative titles s with
  | Some n => Some (n + spanLen isWhiteSpace (skipn n s))%nat
  | None => None
  end.

(** [/^(Dr\.|Dra\.|Ps\.|Lic\.|Mg\.)/i] and [/^(Dr\.|Dra\.|Ps\.|Lic\.)/i] *)
Definition linkTitles : list jsstring :=
  [lit "Dr."; lit "Dra."; lit "Ps."; lit "Lic."; lit "Mg."].

Definition headingTitles : list jsstring :=
  [lit "Dr."; lit "Dra."; lit "Ps."; lit "Lic."].

Definition hasTitle (alts : list jsstring) (s : jsstring) : bool :=
  match firstAlternative alts s with
  | Some _ => true
  | None => false
  end.

(** [/\/[a-z]+-[a-z]+-[a-z]+/] somewhere in the string. *)
Definition lowerWord (s : jsstring) : option jsstring :=
  match s with
  | c :: r => if isAsciiLower c then Some (skipWhile isAsciiLower r) else None
  | [] => None
  end.

Definition threeWordsAt (s : jsstring) : bool :=
  match s with
  | 47 :: r =>
      match lowerWord r with
      | Some (45 :: r1) =>
          match lowerWord r1 with
          | Some (45 :: r2) =>
              match lowerWord r2 with
              | Some _ => true
              | None => false
              end
          | _ => false
          end
      | _ => false
      end
  | _ => false
  end.

Fixpoint hasThreeWords (s : jsstring) : bool :=
  threeWordsAt s
  || match s with
     | [] => false
     | _ :: r => hasThreeWords r
     end.

(** The filter of the alternative selector. *)
Definition looksLikeProfileLink (elt : CardElt) : bool :=
  let href := orElse (linkHref elt) [] in
  let text := toLowerCase (linkText elt) in
  (includes href (lit "/dr-") || includes href (lit "/dra-") || hasThreeWords href)
  && negb (includes href (lit "clinica"))
  && negb (includes href (lit "centro"))
  && negb (includes href (lit "hospital"))
  && negb (includes text (lit "clínica"))
  && negb (includes text (lit "centro médico")).

Fixpoint filterLinks (links : list Card) : Outcome (list Card) :=
  match links with
  | [] => Return []
  | link :: rest =>
      (get elt <- link;
       get kept <- filterLinks rest;
       Return (if looksLikeProfileLink elt then link :: kept else kept))%js
  end.

Definition dayBlocks (zone : Zone) (date : Z) : list AvailabilityData :=
  if (getDay zone date =? 0) || (getDay zone date =? 6) then []
  else
    let morningStart := DateOf (setHoursSharp zone date 9) in
    let morningEnd := DateOf (setHoursSharp zone date 13) in
    let afternoonStart := DateOf (setHoursSharp zone date 15) in
    let afternoonEnd := DateOf (setHoursSharp zone date 19) in
    [ {| startAt := morningStart; endAt := morningEnd; modality := in_person |};
      {| startAt := afternoonStart; endAt := afternoonEnd; modality := in_person |} ].

Definition mockAvailabilityFrom (zone : Zone) (today : Z) : list AvailabilityData :=
  flat_map (fun day => dayBlocks zone (addDays zone today day)) (countFrom 1 14).

Section Crawl.

Context {W : Type}.
Variable host : Host W.
Variable cfg : Config.

Local Open Scope js_scope.

Definition normalizeSlug (text : jsstring) : jsstring :=
  let lowered := toLowerCase text in
  let decomposed := normalizeNFD host lowered in
  let unmarked := List.filter (fun c => negb ((768 <=? c) && (c <=? 879))) decomposed in
  let dashed := replaceAll reSpaces (lit "-") unmarked in
  List.filter (fun c => isAsciiLower c || isDigit c || (c =? 45)) dashed.

Definition generatePhoneNumber : M (Store W) jsstring :=
  do r <- liftWorld (random host);
  ret (phoneOf r).

(** [parseFloat((Math.random() * 2 + 3).toFixed(1))] *)
Definition generateRandomRating : M (Store W) Q :=
  do r <- liftWorld (random host);
  ret (inject_Z (mathRound ((draw r * inject_Z 2 + inject_Z 3) * inject_Z 10)) / inject_Z 10)%Q.

Definition generateRandomReviewCount : M (Store W) Z :=
  do r <- liftWorld (random host);
  ret (floorScaled r 200 + 10).

Definition generateMockTreatments (specialty : jsstring)
  : M (Store W) (list TreatmentData) :=
  liftWorld (mockTreatments (random host) (lookupTreatments treatmentsBySpecialty specialty)).

Definition generateMockAvailability : M (Store W) (list AvailabilityData) :=
  do today <- liftWorld (clock host);
  ret (mockAvailabilityFrom (fixedZone (tzOffset cfg)) today).

Definition parseDoctorCard (card : Card) (defaultSpecialty defaultCity : jsstring)
  : M (Store W) (option DoctorData) :=
  tryCatch
    (do elt <- (fun st => (card, st));
     let href := orElse (linkHref elt) [] in
     if negb (truthy href) then ret None
     else
       let profileUrl :=
         if startsWith href (lit "http") then href
         else if startsWith href (lit "/") then baseUrl cfg ++ href
         else baseUrl cfg ++ lit "/" ++ href in
       let name1 := trim (itempropName elt) in
       let name2 := if truthy name1 then name1 else orElse (dataDoctorName elt) [] in
       let name3 :=
         if truthy name2 then name2
         else
           let linkText := trim (linkText elt) in
           if hasTitle linkTitles linkText || hasPersonName linkText then linkText
           else name2 in
       let name4 :=
         if truthy name3 then name3
         else
           let heading := trim (headingText elt) in
           if truthy heading && hasTitle headingTitles heading then heading
           else name3 in
       if negb (truthy name4) then ret None
       else
         let fullName := trim (replaceAtStart reTitle [] name4) in
         let descriptionText := trim (descriptionText elt) in
         let parts :=
           List.filter truthy (List.map trim (split 44 descriptionText)) in
         let extractedSpecialty :=
           if truthy descriptionText then
             match parts with
             | p0 :: _ =>
                 if negb (includes (toLowerCase p0) (lit "clínica"))
                    && negb (includes (toLowerCase p0) (lit "centro"))
                 then p0 else defaultSpecialty
             | [] => defaultSpecialty
             end
           else defaultSpecialty in
         let extractedCity :=
           if truthy descriptionText then
             match parts with
             | _ :: p1 :: _ => p1
             | _ => defaultCity
             end
           else defaultCity in
         let ratingText := trim (ratingValueText elt) in
         let parsedRating :=
           if truthy ratingText then
             match parseFloat host ratingText with
             | Some q =>
                 if Qle_bool 0 q && Qle_bool q (inject_Z 5) then Some q else None
             | None => None
             end
           else None in
         do rating <-
           (match parsedRating with
            | Some q => ret q
            | None => generateRandomRating
            end);
         let reviewText := trim (reviewCountText elt) in
         do reviewCount <-
           (if truthy reviewText
            then ret (parseInt host (List.filter isDigit reviewText))
            else do n <- generateRandomReviewCount; ret (Some n));
         do phoneNumber <- generatePhoneNumber;
         do finalReviewCount <-
           (match reviewCount with
            | Some n => ret n
            | None => generateRandomReviewCount
            end);
         do treatments <- generateMockTreatments extractedSpecialty;
         do availability <- generateMockAvailability;
         ret (Some {| fullName := fullName;
                      specialty := extractedSpecialty;
                      city := extractedCity;
                      address := lit "Consultorio en " ++ extractedCity;
                      phoneCountryCode := lit "+51";
                      phoneNumber := phoneNumber;
                      rating := Some rating;
                      reviewCount := finalReviewCount;
                      profileUrl := profileUrl;
                      treatments := treatments;
                      availability := availability |}))
    (fun _ => ret None).

(** The loop of [parseStandardCards]; the array [doctors] that the source
    fills in place is passed along. *)
Fixpoint parseStandardCards (cards : list Card) (specialty city : jsstring)
  (parsed : Z) (doctors : list DoctorData) : M (Store W) (list DoctorData) :=
  match cards with
  | [] => ret doctors
  | card :: rest =>
      if negb (numLt parsed (maxDoctorsPerSpecialty cfg)) then ret doctors
      else
        do accepted <-
          tryCatch
            (do doctor <- parseDoctorCard card specialty city;
             match doctor with
             | Some d =>
                 do seen <- hasUrl (profileUrl d);
                 if negb seen then
                   if isValidDoctor d then
                     run addUrl (profileUrl d);
                     ret (Some d)
                   else ret None
                 else ret None
             | None => ret None
             end)
            (fun _ => ret None);
        match accepted with
        | Some d => parseStandardCards rest specialty city (parsed + 1) (doctors ++ [d])
        | None => parseStandardCards rest specialty city parsed doctors
        end
  end.

Definition scrapeDoctorsFromHomepage (specialty city : jsstring)
  : M (Store W) (list DoctorData) :=
  tryCatch
    (do doctorCards <- callWorld (getHomepage host (baseUrl cfg));
     parseStandardCards doctorCards specialty city 0 [])
    (fun _ => ret []).

(** [scrapeDoctorsBySpecialtyAndCity]. Whatever throws inside the [try]
    throws before [parseStandardCards] has run, so [doctors] is still empty
    in the handler. *)
Definition scrapeDoctorsBySpecialtyAndCity (specialty city : jsstring)
  : M (Store W) (list DoctorData) :=
  tryCatch
    (let specialtySlug := normalizeSlug specialty in
     let citySlug := normalizeSlug city in
     let url := baseUrl cfg ++ lit "/" ++ specialtySlug ++ lit "/" ++ citySlug in
     do page <- callWorld (getListing host url);
     if (0 <? Z.of_nat (length (doctorCards page)))
     then parseStandardCards (doctorCards page) specialty city 0 []
     else
       do alternativeCards <- (fun st => (filterLinks (anchors page), st));
       if (0 <? Z.of_nat (length alternativeCards))
       then parseStandardCards alternativeCards specialty city 0 []
       else ret [])
    (fun error =>
       match error with
       | HttpError (Some 404) => scrapeDoctorsFromHomepage specialty city
       | _ => ret []
       end).

Fixpoint scrapeCities (specialty : jsstring) (cities : list jsstring)
  (doctors : list DoctorData) : M (Store W) (list DoctorData) :=
  match cities with
  | [] => ret doctors
  | city :: rest =>
      do cityDoctors <- scrapeDoctorsBySpecialtyAndCity (trim specialty) (trim city);
      scrapeCities specialty rest (doctors ++ cityDoctors)
  end.

Fixpoint scrapeSpecialties (specialties : list jsstring) (doctors : list DoctorData)
  : M (Store W) (list DoctorData) :=
  match specialties with
  | [] => ret doctors
  | specialty :: rest =>
      do doctors' <- scrapeCities specialty (cities cfg) doctors;
      scrapeSpecialties rest doctors'
  end.

Definition scrapeDoctors : M (Store W) (list DoctorData) :=
  tryCatch
    (do doctors <- scrapeSpecialties (specialties cfg) [];
     if (Z.of_nat (length doctors) =? 0) then throw NoDoctorsFound
     else ret doctors)
    (fun error => throw error).

End Crawl.

End SpecialtyScraper.

(** ** The appointment generator *)

Module AppointmentGenerator.

Inductive Status := scheduled | completed | cancelled.

Record AppointmentData := {
  doctorId : Z;
  patientId : Z;
  treatmentId : Z;
  startAt : Z;
  endAt : Z;
  status : Status
}.

(** A stored availability block, with its two dates as time values. *)
Record AvailabilityRow := {
  start_at : Z;
  end_at : Z
}.

(** A stored doctor; its treatments and the patients are given by their ids. *)
Record Doctor := {
  id : Z;
  availability : list AvailabilityRow;
  treatments : list Z
}.

Definition slotDuration : Z := 30 * 60 * 1000.

Section Generator.

Context {W : Type}.
Variable random : W -> Unit01 * W.

(** [parseInt] of the variable of the environment: [NaN] is [None]. *)
Variable numAppointmentsPerDoctor : option Z.

Definition statusOf (rand : Unit01) : Status :=
  if Qle_bool (7 # 10) (draw rand) then
    if Qle_bool (9 # 10) (draw rand) then cancelled else completed
  else scheduled.

Definition generateAppointment (doctor : Doctor) (patients : list Z) (w : W)
  : Outcome (option AppointmentData) * W :=
  let (r1, w1) := random w in
  let (r2, w2) := random w1 in
  let (r3, w3) := random w2 in
  let chosen :=
    index (availability doctor) (floorScaled r1 (Z.of_nat (length (availability doctor)))) in
  let treatment :=
    index (treatments doctor) (floorScaled r2 (Z.of_nat (length (treatments doctor)))) in
  let patient := index patients (floorScaled r3 (Z.of_nat (length patients))) in
  match chosen with
  | None => (Throw TypeError, w3)
  | Some block =>
      let startDate := start_at block in
      let endDate := end_at block in
      let availabilityDuration := endDate - startDate in
      let maxSlots := availabilityDuration / slotDuration in
      if maxSlots <=? 0 then (Return None, w3)
      else
        let (r4, w4) := random w3 in
        let randomSlot := floorScaled r4 maxSlots in
        let startAt := startDate + randomSlot * slotDuration in
        let endAt := startAt + slotDuration in
        if endDate <? endAt then (Return None, w4)
        else
          let (rand, w5) := random w4 in
          match patient, treatment with
          | Some p, Some t =>
              (Return (Some {| doctorId := id doctor; patientId := p;
                               treatmentId := t; startAt := startAt;
                               endAt := endAt; status := statusOf rand |}), w5)
          | _, _ => (Throw TypeError, w5)
          end
  end.

(** The inner loop of [generate]: [n] attempts for one doctor, an exception
    of an attempt being caught and logged. *)
Fixpoint attempts (n : nat) (doctor : Doctor) (patients : list Z)
  (appointments : list AppointmentData) (w : W) : list AppointmentData * W :=
  match n with
  | O => (appointments, w)
  | S k =>
      match generateAppointment doctor patients w with
      | (Return (Some appointment), w') =>
          attempts k doctor patients (appointments ++ [appointment]) w'
      | (_, w') => attempts k doctor patients appointments w'
      end
  end.

Fixpoint generateFrom (doctors : list Doctor) (patients : list Z)
  (appointments : list AppointmentData) (w : W) : list AppointmentData * W :=
  match doctors with
  | [] => (appointments, w)
  | doctor :: rest =>
      if (Z.of_nat (length (availability doctor)) =? 0)
      then generateFrom rest patients appointments w
      else if (Z.of_nat (length (treatments doctor)) =? 0)
      then generateFrom rest patients appointments w
      else
        let numAppointments :=
          mathMin numAppointmentsPerDoctor (Z.of_nat (length (availability doctor)) * 4) in
        let (appointments', w') :=
          attempts (turns numAppointments) doctor patients appointments w in
        generateFrom rest patients appointments' w'
  end.

Definition generate (doctors : list Doctor) (patients : list Z) (w : W)
  : list AppointmentData * W :=
  generateFrom doctors patients [] w.

End Generator.

End AppointmentGenerator.

(** ** Specification-side notions *)

(** A Hoare triple for a computation: from a store that satisfies [P] it
    either returns a value and a store in [Q] or throws with the store in [E]. *)
Definition triple {S A : Type} (P : S -> Prop) (m : M S A)
  (Q : A -> S -> Prop) (E : Error -> S -> Prop) : Prop :=
  forall s, P s ->
    match m s with
    | (Return a, s') => Q a s'
    | (Throw e, s') => E e s'
    end.

(** A computation that leaves the set of accepted URLs as it is, and whose
    value, if it returns one, satisfies [Q]; it may throw. *)
Definition mayReturn {W A : Type} (m : M (Store W) A) (Q : A -> Prop) : Prop :=
  forall U,
    triple (fun s => scrapedUrls s = U) m
      (fun a s' => Q a /\ scrapedUrls s' = U)
      (fun _ s' => scrapedUrls s' = U).

(** The same for a computation that never throws. *)
Definition returns {W A : Type} (m : M (Store W) A) (Q : A -> Prop) : Prop :=
  forall U,
    triple (fun s => scrapedUrls s = U) m
      (fun a s' => Q a /\ scrapedUrls s' = U)
      (fun _ _ => False).

(** The records [doctors] are a batch accepted since the URL set was [U0]:
    their URLs are pairwise distinct, recorded in the set, and new to [U0]. *)
Definition freshBatch {W : Type} (U0 : gset jsstring) (doctors : list DoctorData)
  (s : Store W) : Prop :=
  U0 ⊆ scrapedUrls s
  /\ NoDup (List.map profileUrl doctors)
  /\ forall u, u ∈ List.map profileUrl doctors -> u ∈ scrapedUrls s /\ u ∉ U0.

(** The records collected so far have pairwise distinct URLs, all of them
    recorded in the set. *)
Definition distinctUrls {W : Type} (doctors : list DoctorData) (s : Store W) : Prop :=
  NoDup (List.map profileUrl doctors)
  /\ forall u, u ∈ List.map profileUrl doctors -> u ∈ scrapedUrls s.

(** An appointment inside an availability block, thirty minutes long. *)
Definition insideBlock (a : AppointmentGenerator.AppointmentData)
  (b : AppointmentGenerator.AvailabilityRow) : Prop :=
  AppointmentGenerator.start_at b <= AppointmentGenerator.startAt a
  /\ AppointmentGenerator.endAt a = AppointmentGenerator.startAt a + 30 * 60 * 1000
  /\ AppointmentGenerator.endAt a <= AppointmentGenerator.end_at b.

(** What [generate] promises of an appointment: it lies inside a block of
    the doctor it names. *)
Definition wellPlaced (doctors : list AppointmentGenerator.Doctor)
  (a : AppointmentGenerator.AppointmentData) : Prop :=
  exists doctor block,
    In doctor doctors
    /\ AppointmentGenerator.doctorId a = AppointmentGenerator.id doctor
    /\ In block (AppointmentGenerator.availability doctor)
    /\ insideBlock a block.

(** [slot.endAt > slot.startAt]: false when either is an [Invalid Date]. *)
Definition endsAfterStart (slot : AvailabilityData) : Prop :=
  match startAt slot, endAt slot with
  | DateOf s, DateOf e => s < e
  | _, _ => False
  end.

(** The slots of a record end after they start. *)
Definition slotsOrdered (slots : list AvailabilityData) : Prop :=
  Forall endsAfterStart slots.

Definition isDate (d : JsDate) : bool :=
  match d with
  | DateOf _ => true
  | InvalidDate => false
  end.

(** Every slot whose end is a date ends after it starts. *)
Definition datedSlotsOrdered (slots : list AvailabilityData) : Prop :=
  Forall (fun slot => isDate (endAt slot) = true -> endsAfterStart slot) slots.

(** A slot that ends one hour after it starts, if that is still a date; a
    slot without a start has no end either. *)
Definition hourFromStart (slot : AvailabilityData) : Prop :=
  match startAt slot with
  | DateOf t => endAt slot = timeClip (t + msPerHour)
  | InvalidDate => endAt slot = InvalidDate
  end.

(** The number of whitespace-separated tokens of a string: the maximal runs
    of code units that are not white space. *)
Fixpoint countTokens (afterSpace : bool) (s : jsstring) : nat :=
  match s with
  | [] => 0
  | c :: r =>
      if isWhiteSpace c then countTokens true r
      else ((if afterSpace then 1 else 0) + countTokens false r)%nat
  end.

Definition tokenCount (s : jsstring) : nat := countTokens true s.

(** The synthesis table: no key of it occurs in the normalised specialty. *)
Definition unmatched (mapping : list (jsstring * list jsstring)) (specialty : jsstring)
  : Prop :=
  forall key, In key (List.map fst mapping) -> includes (toLowerCase specialty) key = false.

(** What the specification asks of a synthesized service. *)
Definition wellFormedService (t : TreatmentData) : Prop :=
  (exists p, price t = Some p /\ 50 <= p <= 250)
  /\ currency t = Some (lit "PEN")
  /\ (exists d, durationMinutes t = Some d /\ (d = 30 \/ d = 45 \/ d = 60)).

(** A sample record around a name and a category. *)
Definition sampleDoctor (nm sp : jsstring) : DoctorData :=
  {| fullName := nm; specialty := sp; city := lit "Lima";
     address := lit "Av. Test"; phoneCountryCode := lit "+51";
     phoneNumber := lit "912345678"; rating := Some (9 # 2)%Q;
     reviewCount := 100; profileUrl := lit "https://test.com";
     treatments := []; availability := [] |}.

(** ** A sample world

    A world that counts its random draws, with one search page that lists the
    same doctor twice, a second page that fails, a profile page without any
    address on it, a slot endpoint that is down and a disk that cannot be
    written. *)

Definition sampleDraw (n : nat) : Unit01.
Proof.
  refine {| draw := Z.of_nat (n mod 10) # 10 |}.
  pose proof (Nat.mod_upper_bound n 10 ltac:(lia)).
  unfold Qle, Qlt. cbn [Qnum Qden]. lia.
Defined.

Definition sampleRandom (n : nat) : Unit01 * nat := (sampleDraw n, S n).

(** 2025-12-01T08:00:00Z, a Monday. *)
Definition sampleNow : Z := 1764576000000.

Definition sampleCard : CityScraper.ResultCard :=
  {| CityScraper.dataResultId := Some (lit "123");
     CityScraper.dataDoctorName := Some (lit "Dra. Ana Torres Vega");
     CityScraper.dataDoctorUrl := Some (lit "https://www.doctoralia.pe/ana-torres-vega");
     CityScraper.dataAddressId := Some (lit "45");
     CityScraper.dataSpecializationName := Some (lit "Traumatólogo");
     CityScraper.dataStarsRating := Some (lit "4.5");
     CityScraper.dataOpinionsCount := Some (lit "100") |}.

Definition sampleProfile : CityScraper.ProfileDoc :=
  {| CityScraper.addressBlocks := Return [];
     CityScraper.streetAddressSpan := Return None;
     CityScraper.metaStreetAddress := Return None;
     CityScraper.layoutSpans := Return [];
     CityScraper.paragraphSpans := Return [];
     CityScraper.metaTelephone := Return None;
     CityScraper.bodyText := Return (lit "Dra. Ana Torres Vega, Lima");
     CityScraper.serviceItems := Return [];
     CityScraper.serviceHeadings := Throw TypeError |}.

(** A profile page with an address block, a phone number in its text and
    three service items, one of them a repeat and one unreadable. *)
Definition sampleFullProfile : CityScraper.ProfileDoc :=
  {| CityScraper.addressBlocks :=
       Return [lit "  Av. Javier Prado Este 1066,  San Isidro   15036 "];
     CityScraper.streetAddressSpan := Return None;
     CityScraper.metaStreetAddress := Return None;
     CityScraper.layoutSpans := Return [];
     CityScraper.paragraphSpans := Return [];
     CityScraper.metaTelephone := Return None;
     CityScraper.bodyText := Return (lit "Llama al +51 987654321 hoy");
     CityScraper.serviceItems :=
       Return [Return (lit " Consulta ", lit "Desde S/ 120");
               Return (lit "CONSULTA", lit "");
               Throw TypeError];
     CityScraper.serviceHeadings := Return [] |}.

(** A profile page whose every query raises. *)
Definition brokenProfile : CityScraper.ProfileDoc :=
  {| CityScraper.addressBlocks := Throw TypeError;
     CityScraper.streetAddressSpan := Throw TypeError;
     CityScraper.metaStreetAddress := Throw TypeError;
     CityScraper.layoutSpans := Throw TypeError;
     CityScraper.paragraphSpans := Throw TypeError;
     CityScraper.metaTelephone := Throw TypeError;
     CityScraper.bodyText := Throw TypeError;
     CityScraper.serviceItems := Throw TypeError;
     CityScraper.serviceHeadings := Throw TypeError |}.

Definition sampleCityHost : CityScraper.Host nat :=
  {| CityScraper.random := sampleRandom;
     CityScraper.clock := fun w => (sampleNow, w);
     CityScraper.getSearchPage := fun _ page w =>
       (if page =? 1 then Return [sampleCard; sampleCard]
        else if page =? 2 then Throw (HttpError (Some 500))
        else Return [], w);
     CityScraper.getProfile := fun _ w => (Return sampleProfile, w);
     CityScraper.getSlots := fun _ _ _ w => (Throw (HttpError None), w);
     CityScraper.writeFiles := fun _ w => (Throw TypeError, w);
     CityScraper.sleep := fun _ w => (tt, w);
     CityScraper.parseFloat := fun _ => Some (9 # 2)%Q;
     CityScraper.parseInt := fun _ => Some 100 |}.

Definition sampleCityConfig : CityScraper.Config :=
  {| CityScraper.baseUrl := lit "https://www.doctoralia.pe";
     CityScraper.cities := [lit "Lima"];
     CityScraper.maxDoctorsPerCity := Some 45;
     CityScraper.maxPages := 3;
     CityScraper.useRealAvailability := true;
     CityScraper.tzOffset := 0 |}.



Definition sampleResult : CityScraper.DoctorSearchResult.t :=
  {| CityScraper.DoctorSearchResult.doctorId := lit "123";
     CityScraper.DoctorSearchResult.doctorName := lit "Dra. Ana Torres Vega";
     CityScraper.DoctorSearchResult.doctorUrl := lit "https://www.doctoralia.pe/ana-torres-vega";
     CityScraper.DoctorSearchResult.addressId := lit "45";
     CityScraper.DoctorSearchResult.specialty := lit "Traumatólogo";
     CityScraper.DoctorSearchResult.city := lit "Lima";
     CityScraper.DoctorSearchResult.rating := Some (9 # 2)%Q;
     CityScraper.DoctorSearchResult.reviewCount := 100 |}.

Definition sampleCardElt : SpecialtyScraper.CardElt :=
  {| SpecialtyScraper.linkHref := Some (lit "/ana-torres-vega");
     SpecialtyScraper.linkText := lit "Dra. Ana Torres Vega";
     SpecialtyScraper.itempropName := lit "Dra. Ana Torres Vega";
     SpecialtyScraper.dataDoctorName := None;
     SpecialtyScraper.headingText := [];
     SpecialtyScraper.descriptionText := lit "Traumatólogo, Lima";
     SpecialtyScraper.ratingValueText := lit "4.5";
     SpecialtyScraper.reviewCountText := lit "100 opiniones" |}.

Definition sampleSpecialtyHost : SpecialtyScraper.Host nat :=
  {| SpecialtyScraper.random := sampleRandom;
     SpecialtyScraper.clock := fun w => (sampleNow, w);
     SpecialtyScraper.getListing := fun _ w =>
       (Return {| SpecialtyScraper.doctorCards :=
                    [Return sampleCardElt; Throw TypeError; Return sampleCardElt];
                  SpecialtyScraper.anchors := [] |}, w);
     SpecialtyScraper.getHomepage := fun _ w => (Throw (HttpError None), w);
     SpecialtyScraper.parseFloat := fun _ => Some (9 # 2)%Q;
     SpecialtyScraper.parseInt := fun _ => Some 100;
     SpecialtyScraper.normalizeNFD := fun s => s |}.

Definition sampleSpecialtyConfig : SpecialtyScraper.Config :=
  {| SpecialtyScraper.baseUrl := lit "https://www.doctoralia.pe";
     SpecialtyScraper.cities := [lit "Lima"];
     SpecialtyScraper.specialties := [lit "traumatologia"];
     SpecialtyScraper.maxDoctorsPerSpecialty := Some 15;
     SpecialtyScraper.tzOffset := 0 |}.

Definition emptyStore : Store nat := {| world := 0%nat; scrapedUrls := ∅ |}.

(** A stored doctor with the morning block of 2025-12-01, two treatments. *)
Definition sampleStoredDoctor : AppointmentGenerator.Doctor :=
  {| AppointmentGenerator.id := 1;
     AppointmentGenerator.availability :=
       [ {| AppointmentGenerator.start_at := 1764579600000;
            AppointmentGenerator.end_at := 1764594000000 |} ];
     AppointmentGenerator.treatments := [1; 2] |}.

(** A stored doctor with the same block and no treatment. *)
Definition sampleIdleDoctor : AppointmentGenerator.Doctor :=
  {| AppointmentGenerator.id := 2;
     AppointmentGenerator.availability :=
       [ {| AppointmentGenerator.start_at := 1764579600000;
            AppointmentGenerator.end_at := 1764594000000 |} ];
     AppointmentGenerator.treatments := [] |}.

(** ** Notions of the further properties *)

(** The four properties that every result of [cleanAddress] has. *)
Definition normalAddress (s : jsstring) : bool :=
  onlyPlainSpaces s && singleSpaced s && noOuterSpace s && noSpaceBeforeComma s.

(** The strings that [cleanAddress] leaves as they are. *)
Definition alreadyClean (s : jsstring) : bool :=
  normalAddress s && noOuterComma s && noDoubledComma s.

(** The string ends with white space or a comma. *)
Definition endsLoose (s : jsstring) : bool :=
  headIs (fun c => isWhiteSpace c || (c =? 44)) (rev s).

(** A block of the synthetic schedule as seen in the zone [tz]: four hours
    from 9:00 or from 15:00 on a day from Monday to Friday, one to fourteen
    days after [today]. *)
Definition officeBlock (tz today : Z) (m : Modality) (slot : AvailabilityData) : Prop :=
  exists s,
    startAt slot = DateOf s
    /\ (timeInDay (fixedZone tz) s = 9 * msPerHour
        \/ timeInDay (fixedZone tz) s = 15 * msPerHour)
    /\ endAt slot = DateOf (s + 4 * msPerHour)
    /\ 1 <= getDay (fixedZone tz) s <= 5
    /\ 1 <= localDay (fixedZone tz) s - localDay (fixedZone tz) today <= 14
    /\ modality slot = m.

(** The number of blocks on the day [day] days after a day of the week [g]. *)
Definition blocksOn (g day : Z) : nat :=
  if ((g + day) mod 7 =? 0) || ((g + day) mod 7 =? 6) then 0%nat else 2%nat.

(** No white space anywhere in the string. *)
Definition noWhiteSpace (s : jsstring) : bool :=
  forallb (fun c => negb (isWhiteSpace c)) s.

(** The names of the services of a record, case folded as the scraper
    compares them. *)
Definition foldedNames (ts : list TreatmentData) : list jsstring :=
  List.map (fun t => toLowerCase (name t)) ts.

(** A service as [extractTreatments] reads it from a page: a trimmed,
    non-empty name, thirty minutes, and either no price and no currency or a
    price in soles. *)
Definition listedService (t : TreatmentData) : Prop :=
  truthy (name t) = true
  /\ noOuterSpace (name t) = true
  /\ durationMinutes t = Some 30
  /\ ((price t = None /\ currency t = None)
      \/ (exists p, price t = Some p /\ 0 <= p /\ currency t = Some (lit "PEN"))).

(** The invariant of the loops of [extractTreatments]. *)
Definition servicesSeen (seen : gset jsstring) (ts : list TreatmentData) : Prop :=
  NoDup (foldedNames ts)
  /\ (forall n, n ∈ foldedNames ts -> n ∈ seen)
  /\ List.Forall listedService ts.

(** The page gives a telephone in its meta data. *)
Definition hasTelephoneMeta (doc : CityScraper.ProfileDoc) : bool :=
  match CityScraper.metaTelephone doc with
  | Return (Some v) => truthy v
  | _ => false
  end.

(** The date one hour later on the local clock of [zone]. *)
Definition localHourLater (zone : Zone) (d : JsDate) : JsDate :=
  match d with
  | DateOf t => timeClip (utc zone (localTime zone t + msPerHour))
  | InvalidDate => InvalidDate
  end.




(** A rating of the search page that the scraper keeps. *)
Definition positiveRating (r : option Q) : Prop :=
  match r with
  | Some q => (0 < q)%Q /\ (q <= inject_Z 5)%Q
  | None => True
  end.

(** An entry of a search page as [parseSearchResults] passes it on. *)
Definition listedResult (city : jsstring) (r : CityScraper.DoctorSearchResult.t) : Prop :=
  truthy (CityScraper.DoctorSearchResult.doctorId r) = true
  /\ truthy (CityScraper.DoctorSearchResult.doctorName r) = true
  /\ truthy (CityScraper.DoctorSearchResult.doctorUrl r) = true
  /\ CityScraper.DoctorSearchResult.city r = city
  /\ positiveRating (CityScraper.DoctorSearchResult.rating r).

(** Whenever the computation returns, its value satisfies [Q]. *)
Definition always {S A : Type} (m : M S A) (Q : A -> Prop) : Prop :=
  forall s a s', m s = (Return a, s') -> Q a.

(** What both scrapers fill in of a record, whatever the page gave. *)
Definition completeRecord (d : DoctorData) : Prop :=
  noOuterSpace (fullName d) = true
  /\ truthy (address d) = true
  /\ phoneCountryCode d = lit "+51"
  /\ noWhiteSpace (phoneNumber d) = true
  /\ treatments d <> []
  /\ NoDup (foldedNames (treatments d))
  /\ availability d <> [].

(** A record of the city-indexed scraper. *)
Definition cityRecord (cfg : CityScraper.Config) (d : DoctorData) : Prop :=
  CityScraper.isValidDoctor d = true
  /\ completeRecord d
  /\ positiveRating (rating d)
  /\ In (city d) (List.map trim (CityScraper.cities cfg)).

(** The names of every entry of a synthesis table are distinct, whatever
    their case, and there is at least one. *)
Definition distinctEntries (mapping : list (jsstring * list jsstring)) : bool :=
  forallb (fun entry =>
             bool_decide (NoDup (List.map toLowerCase (snd entry)))
             && negb (Nat.eqb (length (snd entry)) 0))
          mapping.

(** The configuration of the city-indexed scraper with another cap. *)
Definition withCap (cfg : CityScraper.Config) (cap : option Z) : CityScraper.Config :=
  {| CityScraper.baseUrl := CityScraper.baseUrl cfg;
     CityScraper.cities := CityScraper.cities cfg;
     CityScraper.maxDoctorsPerCity := cap;
     CityScraper.maxPages := CityScraper.maxPages cfg;
     CityScraper.useRealAvailability := CityScraper.useRealAvailability cfg;
     CityScraper.tzOffset := CityScraper.tzOffset cfg |}.

(** A profile URL of the specialty-indexed scraper: the link of the card
    when it is absolute, else the base URL, a slash and the path. *)
Definition absoluteUrl (cfg : SpecialtyScraper.Config) (url : jsstring) : Prop :=
  startsWith url (lit "http") = true
  \/ exists path, url = SpecialtyScraper.baseUrl cfg ++ lit "/" ++ path.

(** A record of the specialty-indexed scraper. *)
Definition specialtyRecord (cfg : SpecialtyScraper.Config) (d : DoctorData) : Prop :=
  SpecialtyScraper.isValidDoctor d = true
  /\ completeRecord d
  /\ (exists q, rating d = Some q /\ (0 <= q)%Q /\ (q <= inject_Z 5)%Q)
  /\ isPhonePattern (phoneNumber d) = true
  /\ address d = lit "Consultorio en " ++ city d
  /\ List.Forall wellFormedService (treatments d)
  /\ length (availability d) = 20%nat
  /\ absoluteUrl cfg (profileUrl d).

(** The profile URLs of a list of records, as a set. *)
Definition urlsOf (doctors : list DoctorData) : gset jsstring :=
  list_to_set (List.map profileUrl doctors).

(** The URL set holds nothing but [U0] and the URLs of [doctors]. *)
Definition onlyBatch {W : Type} (U0 : gset jsstring) (doctors : list DoctorData)
  (s : Store W) : Prop :=
  scrapedUrls s ⊆ U0 ∪ urlsOf doctors.

(** An appointment of [doctor] with one of the [patients]: a treatment of
    that doctor, and one of the disjoint half-hour slots that fill a block of
    that doctor from its start. *)
Definition bookedWith (doctor : AppointmentGenerator.Doctor) (patients : list Z)
  (a : AppointmentGenerator.AppointmentData) : Prop :=
  AppointmentGenerator.doctorId a = AppointmentGenerator.id doctor
  /\ In (AppointmentGenerator.treatmentId a) (AppointmentGenerator.treatments doctor)
  /\ In (AppointmentGenerator.patientId a) patients
  /\ exists block slot,
       In block (AppointmentGenerator.availability doctor)
       /\ 0 <= slot
       /\ AppointmentGenerator.startAt a
          = AppointmentGenerator.start_at block + slot * AppointmentGenerator.slotDuration
       /\ AppointmentGenerator.endAt a
          = AppointmentGenerator.start_at block
            + (slot + 1) * AppointmentGenerator.slotDuration
       /\ AppointmentGenerator.endAt a <= AppointmentGenerator.end_at block.

Definition booked (doctors : list AppointmentGenerator.Doctor) (patients : list Z)
  (a : AppointmentGenerator.AppointmentData) : Prop :=
  exists doctor, In doctor doctors /\ bookedWith doctor patients a.

(** The number of attempts that [generate] makes for a doctor: none when
    the doctor has no block or no treatment, or when the number per doctor
    is [NaN] or negative. *)
Definition quota (numAppointmentsPerDoctor : option Z)
  (doctor : AppointmentGenerator.Doctor) : nat :=
  match AppointmentGenerator.availability doctor, AppointmentGenerator.treatments doctor with
  | [], _ => 0%nat
  | _, [] => 0%nat
  | _, _ =>
      match numAppointmentsPerDoctor with
      | Some n =>
          Z.to_nat
            (Z.min n (Z.of_nat (length (AppointmentGenerator.availability doctor)) * 4))
      | None => 0%nat
      end
  end.

(** Every block of the doctor has room for a half-hour slot. *)
Definition roomy (doctor : AppointmentGenerator.Doctor) : Prop :=
  forall block,
    In block (AppointmentGenerator.availability doctor) ->
    AppointmentGenerator.start_at block + AppointmentGenerator.slotDuration
    <= AppointmentGenerator.end_at block.

(** The appointments that [generate] makes for one doctor of its list: not
    more than the attempts, all of them with that doctor, and as many as the
    attempts when there is a patient and room in every block. *)
Definition doctorShare (numAppointmentsPerDoctor : option Z) (patients : list Z)
  (doctor : AppointmentGenerator.Doctor)
  (share : list AppointmentGenerator.AppointmentData) : Prop :=
  (length share <= quota numAppointmentsPerDoctor doctor)%nat
  /\ List.Forall (bookedWith doctor patients) share
  /\ (patients <> [] -> roomy doctor ->
      length share = quota numAppointmentsPerDoctor doctor).

(** ** The patient generator *)

(** [numPatients] is what [parseInt] made of the environment, [NaN] being
    [None]; the logger is left out, here and below. *)
Module PatientGenerator.

Record PatientData := {
  fullName : jsstring;
  documentNumber : jsstring;
  phoneNumber : jsstring;
  email : jsstring
}.

Definition firstNames : list jsstring :=
  [lit "Juan"; lit "María"; lit "Carlos"; lit "Ana"; lit "Luis"; lit "Carmen";
   lit "José"; lit "Rosa"; lit "Miguel"; lit "Patricia"; lit "Pedro"; lit "Laura";
   lit "Diego"; lit "Sofia"; lit "Fernando"].

Definition lastNames : list jsstring :=
  [lit "García"; lit "Rodríguez"; lit "López"; lit "Martínez"; lit "Sánchez";
   lit "Pérez"; lit "Gómez"; lit "Fernández"; lit "Torres"; lit "Ramírez";
   lit "Flores"; lit "Vega"].

Definition domains : list jsstring :=
  [lit "gmail.com"; lit "hotmail.com"; lit "yahoo.com"; lit "outlook.com"].

(** [`${x}`] of an array element: [undefined] is written out. *)
Definition orUndefined (x : option jsstring) : jsstring :=
  match x with
  | Some s => s
  | None => lit "undefined"
  end.

Section Generator.

Context {W : Type}.
Variable random : W -> Unit01 * W.
Variable numPatients : option Z.

Definition generateDNI (w : W) : jsstring * W :=
  let (r, w1) := random w in
  (numberToString (Qfloor (draw r * inject_Z 90000000 + inject_Z 10000000)), w1).

Definition generatePhoneNumber (w : W) : jsstring * W :=
  let (r, w1) := random w in
  (phoneOf r, w1).

(** [firstName.toLowerCase()] raises on [undefined]. *)
Definition generateEmail (firstName lastName : option jsstring) (w : W)
  : Outcome jsstring * W :=
  let (r1, w1) := random w in
  let domain := index domains (floorScaled r1 (Z.of_nat (length domains))) in
  let (r2, w2) := random w1 in
  let randomNum := floorScaled r2 999 in
  match firstName, lastName with
  | Some first, Some last =>
      (Return (toLowerCase first ++ lit "." ++ toLowerCase last
               ++ numberToString randomNum ++ lit "@" ++ orUndefined domain), w2)
  | _, _ => (Throw TypeError, w2)
  end.

(** One turn of the loop of [generate]. *)
Definition generatePatient (w : W) : Outcome PatientData * W :=
  let (r1, w1) := random w in
  let firstName := index firstNames (floorScaled r1 (Z.of_nat (length firstNames))) in
  let (r2, w2) := random w1 in
  let lastName1 := index lastNames (floorScaled r2 (Z.of_nat (length lastNames))) in
  let (r3, w3) := random w2 in
  let lastName2 := index lastNames (floorScaled r3 (Z.of_nat (length lastNames))) in
  let fullName :=
    orUndefined firstName ++ lit " " ++ orUndefined lastName1 ++ lit " "
    ++ orUndefined lastName2 in
  let (documentNumber, w4) := generateDNI w3 in
  let (phoneNumber, w5) := generatePhoneNumber w4 in
  match generateEmail firstName lastName1 w5 with
  | (Return email, w6) =>
      (Return {| fullName := fullName; documentNumber := documentNumber;
                 phoneNumber := phoneNumber; email := email |}, w6)
  | (Throw e, w6) => (Throw e, w6)
  end.

(** The loop [for (let i = 0; i < this.numPatients; i++)]. *)
Fixpoint generateLoop (n : nat) (patients : list PatientData) (w : W)
  : Outcome (list PatientData) * W :=
  match n with
  | O => (Return patients, w)
  | S k =>
      match generatePatient w with
      | (Return patient, w') => generateLoop k (patients ++ [patient]) w'
      | (Throw e, w') => (Throw e, w')
      end
  end.

Definition generate (w : W) : Outcome (list PatientData) * W :=
  generateLoop (turns numPatients) [] w.

End Generator.

End PatientGenerator.

(** A patient as the generator makes it: three names of its lists, a
    document number of eight digits that does not start with a zero, a phone
    number of nine digits that starts with a nine, and an address made of the
    first two names in lower case, a number below 999 and one of the four
    domains. *)
Definition generatedPatient (p : PatientGenerator.PatientData) : Prop :=
  (exists first last1 last2,
      In first PatientGenerator.firstNames
      /\ In last1 PatientGenerator.lastNames
      /\ In last2 PatientGenerator.lastNames
      /\ PatientGenerator.fullName p = first ++ lit " " ++ last1 ++ lit " " ++ last2
      /\ exists digits domain,
           PatientGenerator.email p
           = toLowerCase first ++ lit "." ++ toLowerCase last1 ++ digits
             ++ lit "@" ++ domain
           /\ forallb isDigit digits = true
           /\ (1 <= length digits <= 3)%nat
           /\ In domain PatientGenerator.domains)
  /\ (length (PatientGenerator.documentNumber p) = 8%nat
      /\ forallb isDigit (PatientGenerator.documentNumber p) = true
      /\ headIs (Z.eqb 48) (PatientGenerator.documentNumber p) = false)
  /\ isPhonePattern (PatientGenerator.phoneNumber p) = true.

(** A random source that always draws the same value. *)
Definition constantSource {W : Type} (r : Unit01) (w : W) : Unit01 * W := (r, w).

(** ** Waiting for the database *)

(** The options are integers. The promise around the socket is the call
    [connect] of the host. *)
Module WaitForDb.

Record Options := {
  host : jsstring;
  port : Z;
  maxAttempts : option Z;
  delayMs : option Z
}.

(** What [wait] asks of the outside world: a connection to a port, which
    succeeds or raises (also on its timeout), and a timer. *)
Record Host (W : Type) := {
  connect : jsstring -> Z -> W -> Outcome unit * W;
  sleep : Z -> W -> unit * W
}.

Arguments connect {W} h.
Arguments sleep {W} h.

(** How [wait] ends: it returns, or it throws the error that names the
    number of attempts. *)
Inductive Result :=
| Ready
| NotAvailable (attempts : Z).

Section Wait.

Context {W : Type}.
Variable h : Host W.

(** The loop [for (let attempt = 1; attempt <= maxAttempts; attempt++)];
    [fuel] bounds the number of turns. *)
Fixpoint waitLoop (fuel : nat) (attempt : Z) (dbHost : jsstring) (dbPort : Z)
  (maxAttempts delayMs : Z) (w : W) : Result * W :=
  match fuel with
  | O => (Ready, w)
  | S k =>
      if attempt <=? maxAttempts then
        match connect h dbHost dbPort w with
        | (Return _, w1) =>
            let (_, w2) := sleep h 3000 w1 in
            (Ready, w2)
        | (Throw _, w1) =>
            if attempt =? maxAttempts then (NotAvailable maxAttempts, w1)
            else
              let (_, w2) := sleep h delayMs w1 in
              waitLoop k (attempt + 1) dbHost dbPort maxAttempts delayMs w2
        end
      else (Ready, w)
  end.

Definition wait (options : Options) (w : W) : Result * W :=
  let maxAttempts := match maxAttempts options with Some n => n | None => 30 end in
  let delayMs := match delayMs options with Some n => n | None => 2000 end in
  waitLoop (Z.to_nat maxAttempts) 1 (host options) (port options) maxAttempts delayMs w.

End Wait.

End WaitForDb.

(** What a world that keeps a log shows of a run. *)
Inductive WaitEvent :=
| Connected (ok : bool)
| Slept (ms : Z).

(** The log of [n] failed attempts, each followed by the delay. *)
Fixpoint failedAttempts (n : nat) (delayMs : Z) : list WaitEvent :=
  match n with
  | O => []
  | S k => Connected false :: Slept delayMs :: failedAttempts k delayMs
  end.

(** A world that is its log, with a port that opens at the attempt
    [opensAt] (counted from the connections in the log). *)
Definition connectionsIn (log : list WaitEvent) : nat :=
  length (List.filter (fun e => match e with Connected _ => true | Slept _ => false end) log).

Definition loggingHost (opensAt : nat) : WaitForDb.Host (list WaitEvent) :=
  {| WaitForDb.connect := fun _ _ log =>
       if (opensAt <=? S (connectionsIn log))%nat
       then (Return tt, log ++ [Connected true])
       else (Throw (HttpError None), log ++ [Connected false]);
     WaitForDb.sleep := fun ms log => (tt, log ++ [Slept ms]) |}.

Definition defaultOptions : WaitForDb.Options :=
  {| WaitForDb.host := lit "db"; WaitForDb.port := 5432;
     WaitForDb.maxAttempts := None; WaitForDb.delayMs := None |}.

(** ** The error tracker *)

(** [printSummary] only prints and is left out. *)
Module ErrorTracker.

(** What [details?.message || details] keeps of the third argument: nothing
    when there is none, the message of an error that has a non-empty one,
    else the value itself. *)
Inductive Details :=
| NoDetails
| Message (text : jsstring)
| Value (e : Error).

Record ErrorReport := {
  step : jsstring;
  message : jsstring;
  details : Details;
  timestamp : Z
}.

Definition keptDetails (messageOf : Error -> option jsstring) (details : option Error)
  : Details :=
  match details with
  | None => NoDetails
  | Some e =>
      match messageOf e with
      | Some text => if truthy text then Message text else Value e
      | None => Value e
      end
  end.

(** The static array [errors] is the state. *)
Definition addError (messageOf : Error -> option jsstring) (now : Z)
  (step message : jsstring) (details : option Error) (errors : list ErrorReport)
  : list ErrorReport :=
  errors ++ [ {| step := step; message := message;
                 details := keptDetails messageOf details; timestamp := now |} ].

Definition getErrors (errors : list ErrorReport) : list ErrorReport := errors.

Definition hasErrors (errors : list ErrorReport) : bool :=
  0 <? Z.of_nat (length errors).

Definition getErrorCount (errors : list ErrorReport) : Z := Z.of_nat (length errors).

Definition getErrorsByStep (wanted : jsstring) (errors : list ErrorReport)
  : list ErrorReport :=
  List.filter (fun e => strictEq (step e) wanted) errors.

Definition clear (errors : list ErrorReport) : list ErrorReport := [].

End ErrorTracker.

(** ** The migration service *)

(** The service that drops treatments of one name before it inserts them.
    A rating is a number or [null]; [NaN] is left out. *)
Module MigrationService.

(** The row that [prisma.doctors.create] is given. *)
Module DoctorRow.
Record t := {
  full_name : jsstring;
  specialty : jsstring;
  city : jsstring;
  address : jsstring;
  phone_country_code : jsstring;
  phone_number : jsstring;
  rating : option Q;
  review_count : Z;
  source_profile_url : jsstring
}.
End DoctorRow.

Module TreatmentRow.
Record t := {
  doctor_id : Z;
  name : jsstring;
  price : option Z;
  currency : option jsstring;
  duration_minutes : option Z
}.
End TreatmentRow.

Module Stats.
Record t := {
  doctors : Z;
  treatments : Z;
  availability : Z;
  patients : Z;
  appointments : Z
}.
End Stats.

(** The database client and the clock, as the service uses them; every
    call of the client may raise. [messageOf] is the [message] of what was
    raised, if it has one. *)
Record Host (W : Type) := {
  createDoctor : DoctorRow.t -> W -> Outcome Z * W;
  createTreatment : TreatmentRow.t -> W -> Outcome Z * W;
  createAvailability :
    Z -> AvailabilityData -> W -> Outcome AppointmentGenerator.AvailabilityRow * W;
  createPatient : PatientGenerator.PatientData -> W -> Outcome Z * W;
  createAppointment : AppointmentGenerator.AppointmentData -> W -> Outcome unit * W;
  countRows : W -> Outcome Stats.t * W;
  clock : W -> Z * W;
  messageOf : Error -> option jsstring
}.

Arguments createDoctor {W} h.
Arguments createTreatment {W} h.
Arguments createAvailability {W} h.
Arguments createPatient {W} h.
Arguments createAppointment {W} h.
Arguments countRows {W} h.
Arguments clock {W} h.
Arguments messageOf {W} h.

(** The state of the process: the world outside and the static array of the
    error tracker. *)
Record Process (W : Type) := {
  outside : W;
  errors : list ErrorTracker.ErrorReport
}.

Arguments outside {W} p.
Arguments errors {W} p.

(** A call of the client. *)
Definition callDb {W A : Type} (f : W -> Outcome A * W) : M (Process W) A :=
  fun st =>
    let (o, w) := f (outside st) in
    (o, {| outside := w; errors := errors st |}).

(** [`${id}`] of a bigint. *)
Definition bigintToString (n : Z) : jsstring :=
  if n <? 0 then lit "-" ++ numberToString (- n) else numberToString n.

(** [rating !== null && (isNaN(rating) || rating > 5.0 || rating < 0)]:
    such a rating becomes [null]. *)
Definition validRating (rating : option Q) : option Q :=
  match rating with
  | Some q =>
      if negb (Qle_bool q (inject_Z 5)) || negb (Qle_bool 0 q) then None else Some q
  | None => None
  end.

Definition doctorRow (doctor : DoctorData) : DoctorRow.t :=
  {| DoctorRow.full_name := fullName doctor;
     DoctorRow.specialty := specialty doctor;
     DoctorRow.city := city doctor;
     DoctorRow.address := address doctor;
     DoctorRow.phone_country_code := phoneCountryCode doctor;
     DoctorRow.phone_number := phoneNumber doctor;
     DoctorRow.rating := validRating (rating doctor);
     DoctorRow.review_count := reviewCount doctor;
     DoctorRow.source_profile_url := profileUrl doctor |}.

Definition treatmentRow (doctorId : Z) (treatment : TreatmentData) : TreatmentRow.t :=
  {| TreatmentRow.doctor_id := doctorId;
     TreatmentRow.name := name treatment;
     TreatmentRow.price := price treatment;
     TreatmentRow.currency := currency treatment;
     TreatmentRow.duration_minutes := durationMinutes treatment |}.

(** [treatments.reduce(...)]: a treatment is kept when no treatment kept
    before it has its name, whatever the case. *)
Definition unique (treatments : list TreatmentData) : list TreatmentData :=
  fold_left
    (fun acc t =>
       if existsb (fun x => strictEq (toLowerCase (name x)) (toLowerCase (name t))) acc
       then acc else acc ++ [t])
    treatments [].

Section Service.

Context {W : Type}.
Variable host : Host W.

Local Open Scope js_scope.

(** [ErrorTracker.addError(step, message, error)] *)
Definition addError (step message : jsstring) (error : Error) : M (Process W) unit :=
  fun st =>
    let (now, w) := clock host (outside st) in
    (Return tt,
     {| outside := w;
        errors := ErrorTracker.addError (messageOf host) now step message (Some error)
                    (errors st) |}).

(** [for (const item of items) { ... }] around a variable of the function. *)
Fixpoint forEach {A B : Type} (items : list A) (body : A -> B -> M (Process W) B)
  (acc : B) : M (Process W) B :=
  match items with
  | [] => ret acc
  | item :: rest =>
      do acc' <- body item acc;
      forEach rest body acc'
  end.

Definition insertTreatments (doctorId : Z) (treatments : list TreatmentData)
  : M (Process W) (list Z) :=
  forEach (unique treatments)
    (fun treatment inserted =>
       tryCatch
         (do id <- callDb (createTreatment host (treatmentRow doctorId treatment));
          ret (inserted ++ [id]))
         (fun error =>
            run addError (lit "INSERT_TREATMENTS")
                  (lit "Failed: " ++ name treatment) error;
            ret inserted))
    [].

Definition insertAvailability (doctorId : Z) (availability : list AvailabilityData)
  : M (Process W) (list AppointmentGenerator.AvailabilityRow) :=
  forEach availability
    (fun slot inserted =>
       tryCatch
         (do result <- callDb (createAvailability host doctorId slot);
          ret (inserted ++ [result]))
         (fun error =>
            run addError (lit "INSERT_AVAILABILITY")
                  (lit "Failed for doctor " ++ bigintToString doctorId) error;
            ret inserted))
    [].

Definition insertDoctors (doctors : list DoctorData)
  : M (Process W) (list AppointmentGenerator.Doctor) :=
  forEach doctors
    (fun doctor inserted =>
       tryCatch
         (do id <- callDb (createDoctor host (doctorRow doctor));
          do treatments <- insertTreatments id (treatments doctor);
          do availability <- insertAvailability id (availability doctor);
          ret (inserted ++ [ {| AppointmentGenerator.id := id;
                                AppointmentGenerator.availability := availability;
                                AppointmentGenerator.treatments := treatments |} ]))
         (fun error =>
            run addError (lit "INSERT_DOCTORS") (lit "Failed: " ++ fullName doctor) error;
            ret inserted))
    [].

Definition insertPatients (patients : list PatientGenerator.PatientData)
  : M (Process W) (list Z) :=
  forEach patients
    (fun patient inserted =>
       tryCatch
         (do id <- callDb (createPatient host patient);
          ret (inserted ++ [id]))
         (fun error =>
            run addError (lit "INSERT_PATIENTS")
                  (lit "Failed: " ++ PatientGenerator.fullName patient) error;
            ret inserted))
    [].

(** The loop of [insertAppointments] around its counter. *)
Definition countAppointments (appointments : list AppointmentGenerator.AppointmentData)
  : M (Process W) Z :=
  forEach appointments
    (fun apt count =>
       tryCatch
         (run callDb (createAppointment host apt);
          ret (count + 1))
         (fun error =>
            run addError (lit "INSERT_APPOINTMENTS") (lit "Failed") error;
            ret count))
    0.

(** The counter is logged and dropped. *)
Definition insertAppointments (appointments : list AppointmentGenerator.AppointmentData)
  : M (Process W) unit :=
  run countAppointments appointments;
  ret tt.

Definition getStats : M (Process W) Stats.t := callDb (countRows host).

End Service.

End MigrationService.

(** A computation of the service that never throws: it returns a value and
    adds the reports [new] to the tracker, all of them for one of [steps],
    such that [Q] holds. *)
Definition reports {W A : Type} (steps : list jsstring)
  (m : M (MigrationService.Process W) A)
  (Q : A -> list ErrorTracker.ErrorReport -> Prop) : Prop :=
  forall st, exists a st' new,
    m st = (Return a, st')
    /\ MigrationService.errors st' = MigrationService.errors st ++ new
    /\ List.Forall (fun e => In (ErrorTracker.step e) steps) new
    /\ Q a new.

(** The reports for one step among some reports. *)
Definition reportsFor (wanted : jsstring) (reports : list ErrorTracker.ErrorReport)
  : nat :=
  length (ErrorTracker.getErrorsByStep wanted reports).

(** What [insertDoctors] returns for the doctors it could create: as many
    treatments and slots as the record has, or fewer. *)
Definition insertedFrom (doctor : DoctorData) (row : AppointmentGenerator.Doctor)
  : Prop :=
  (length (AppointmentGenerator.treatments row)
   <= length (MigrationService.unique (treatments doctor)))%nat
  /\ (length (AppointmentGenerator.availability row) <= length (availability doctor))%nat.

(** ** The pipeline *)

(** [main] for either scraper; what it returns stands for the code given to
    [process.exit]. *)
Module Pipeline.

(** What [main] reads of the environment and asks of the outside world
    besides what its parts ask: the port to wait for, the sizes, the
    connection of the client and the count of the doctors stored. *)
Record Host (W : Type) := {
  dbHost : jsstring;
  dbPort : Z;
  numPatients : option Z;
  numAppointmentsPerDoctor : option Z;
  waiting : WaitForDb.Host W;
  connectDb : W -> Outcome unit * W;
  disconnectDb : W -> Outcome unit * W;
  countDoctors : W -> Outcome Z * W;
  service : MigrationService.Host W;
  random : W -> Unit01 * W
}.

Arguments dbHost {W} h.
Arguments dbPort {W} h.
Arguments numPatients {W} h.
Arguments numAppointmentsPerDoctor {W} h.
Arguments waiting {W} h.
Arguments connectDb {W} h.
Arguments disconnectDb {W} h.
Arguments countDoctors {W} h.
Arguments service {W} h.
Arguments random {W} h.

(** How the [try] block of [main] ends: by one of its two [process.exit(0)],
    or by an exception. *)
Inductive Failure :=
| DatabaseNotAvailable (attempts : Z)
| Raised (e : Error)
| NoDoctorsData.

Inductive Ending :=
| Skipped (existingDoctors : Z)
| Completed
| Failed (f : Failure).

Section Main.

Context {W : Type}.
Variable host : Host W.

(** [scraper.scrapeDoctors()] on a new scraper: the method of either
    scraper, its set of URLs empty. *)
Variable scrapeDoctors : M (Store W) (list DoctorData).

Definition runScraper (w : W) : Outcome (list DoctorData) * W :=
  let (o, st) := scrapeDoctors {| world := w; scrapedUrls := ∅ |} in
  (o, world st).

(** [Database.disconnect()]: what it raises is caught. *)
Definition disconnect (st : MigrationService.Process W) : MigrationService.Process W :=
  {| MigrationService.outside := snd (disconnectDb host (MigrationService.outside st));
     MigrationService.errors := MigrationService.errors st |}.

Definition withWorld (st : MigrationService.Process W) (w : W)
  : MigrationService.Process W :=
  {| MigrationService.outside := w; MigrationService.errors := MigrationService.errors st |}.

(** The steps after the scraper has returned. *)
Definition migrate (doctorsData : list DoctorData) (st : MigrationService.Process W)
  : Ending * MigrationService.Process W :=
  if (Z.of_nat (length doctorsData) =? 0) then (Failed NoDoctorsData, st)
  else
    match MigrationService.insertDoctors (service host) doctorsData st with
    | (Throw e, st1) => (Failed (Raised e), st1)
    | (Return insertedDoctors, st1) =>
        match PatientGenerator.generate (random host) (numPatients host)
                (MigrationService.outside st1) with
        | (Throw e, w2) => (Failed (Raised e), withWorld st1 w2)
        | (Return patientsData, w2) =>
            match MigrationService.insertPatients (service host) patientsData
                    (withWorld st1 w2) with
            | (Throw e, st3) => (Failed (Raised e), st3)
            | (Return insertedPatients, st3) =>
                let (appointmentsData, w4) :=
                  AppointmentGenerator.generate (random host)
                    (numAppointmentsPerDoctor host) insertedDoctors insertedPatients
                    (MigrationService.outside st3) in
                match MigrationService.insertAppointments (service host) appointmentsData
                        (withWorld st3 w4) with
                | (Throw e, st5) => (Failed (Raised e), st5)
                | (Return _, st5) =>
                    match MigrationService.getStats (service host) st5 with
                    | (Throw e, st6) => (Failed (Raised e), st6)
                    | (Return _, st6) => (Completed, st6)
                    end
                end
            end
        end
    end.

(** The [try] block of [main]. *)
Definition tryBlock (st : MigrationService.Process W)
  : Ending * MigrationService.Process W :=
  match WaitForDb.wait (waiting host)
          {| WaitForDb.host := dbHost host; WaitForDb.port := dbPort host;
             WaitForDb.maxAttempts := None; WaitForDb.delayMs := None |}
          (MigrationService.outside st) with
  | (WaitForDb.NotAvailable n, w1) => (Failed (DatabaseNotAvailable n), withWorld st w1)
  | (WaitForDb.Ready, w1) =>
      match connectDb host w1 with
      | (Throw e, w2) => (Failed (Raised e), withWorld st w2)
      | (Return _, w2) =>
          match countDoctors host w2 with
          | (Throw e, w3) => (Failed (Raised e), withWorld st w3)
          | (Return existingDoctors, w3) =>
              if 0 <? existingDoctors then
                match MigrationService.getStats (service host) (withWorld st w3) with
                | (Throw e, st4) => (Failed (Raised e), st4)
                | (Return _, st4) => (Skipped existingDoctors, st4)
                end
              else
                let cleared :=
                  {| MigrationService.outside := w3;
                     MigrationService.errors :=
                       ErrorTracker.clear (MigrationService.errors st) |} in
                match runScraper w3 with
                | (Throw e, w4) => (Failed (Raised e), withWorld cleared w4)
                | (Return doctorsData, w4) => migrate doctorsData (withWorld cleared w4)
                end
          end
      end
  end.

(** [main]: the code that the process exits with. *)
Definition main (st : MigrationService.Process W) : Z * MigrationService.Process W :=
  let (ending, st') := tryBlock st in
  match ending with
  | Failed _ => (1, disconnect st')
  | _ => (0, disconnect st')
  end.

End Main.

End Pipeline.

(** The five steps that add reports to the tracker. *)
Definition insertSteps : list jsstring :=
  [lit "INSERT_DOCTORS"; lit "INSERT_TREATMENTS"; lit "INSERT_AVAILABILITY";
   lit "INSERT_PATIENTS"; lit "INSERT_APPOINTMENTS"].

(** A sample database: it stores doctors, slots and patients, and refuses
    treatments and appointments. *)
Definition sampleService : MigrationService.Host nat :=
  {| MigrationService.createDoctor := fun _ w => (Return 1, w);
     MigrationService.createTreatment := fun _ w => (Throw TypeError, w);
     MigrationService.createAvailability := fun _ slot w =>
       match startAt slot, endAt slot with
       | DateOf s, DateOf e =>
           (Return {| AppointmentGenerator.start_at := s;
                      AppointmentGenerator.end_at := e |}, w)
       | _, _ => (Throw TypeError, w)
       end;
     MigrationService.createPatient := fun _ w => (Return 7, w);
     MigrationService.createAppointment := fun _ w => (Throw TypeError, w);
     MigrationService.countRows := fun w =>
       (Return {| MigrationService.Stats.doctors := 1;
                  MigrationService.Stats.treatments := 0;
                  MigrationService.Stats.availability := 20;
                  MigrationService.Stats.patients := 2;
                  MigrationService.Stats.appointments := 0 |}, w);
     MigrationService.clock := fun w => (sampleNow, w);
     MigrationService.messageOf := fun _ => None |}.

(** A sample environment around it, with [existingDoctors] doctors stored
    before the run. *)
Definition samplePipelineHost (existingDoctors : Z) : Pipeline.Host nat :=
  {| Pipeline.dbHost := lit "db";
     Pipeline.dbPort := 5432;
     Pipeline.numPatients := Some 2;
     Pipeline.numAppointmentsPerDoctor := Some 2;
     Pipeline.waiting :=
       {| WaitForDb.connect := fun _ _ w => (Return tt, w);
          WaitForDb.sleep := fun _ w => (tt, w) |};
     Pipeline.connectDb := fun w => (Return tt, w);
     Pipeline.disconnectDb := fun w => (Throw TypeError, w);
     Pipeline.countDoctors := fun w => (Return existingDoctors, w);
     Pipeline.service := sampleService;
     Pipeline.random := sampleRandom |}.

Definition sampleProcess : MigrationService.Process nat :=
  {| MigrationService.outside := 0%nat; MigrationService.errors := [] |}.

(* ================================================================== *)
(** * Part II. Properties                                              *)
(* ================================================================== *)

(** ** Strings: basic facts *)

Lemma startsWith_app (p r : jsstring) : startsWith (p ++ r) p = true.
Proof.
  induction p as [|a p IH]; simpl; [destruct r; reflexivity|].
  rewrite Z.eqb_refl. exact IH.
Qed.

Lemma startsWith_inv (s p : jsstring) :
  startsWith s p = true -> exists r, s = p ++ r.
Proof.
  revert s. induction p as [|a p IH]; intros s H.
  - exists s. reflexivity.
  - destruct s as [|b s]; simpl in H; [discriminate|].
    apply andb_true_iff in H as [Hab Hs]. apply Z.eqb_eq in Hab. subst b.
    destruct (IH _ Hs) as [r ->]. exists r. reflexivity.
Qed.

Lemma includes_unfold (s sub : jsstring) :
  includes s sub
  = startsWith s sub || match s with [] => false | _ :: r => includes r sub end.
Proof. destruct s; reflexivity. Qed.

Lemma includes_app (pre sub post : jsstring) :
  includes (pre ++ sub ++ post) sub = true.
Proof.
  induction pre as [|c pre IH].
  - rewrite includes_unfold. simpl app. rewrite startsWith_app. reflexivity.
  - change (startsWith (c :: pre ++ sub ++ post) sub
            || includes (pre ++ sub ++ post) sub = true).
    rewrite IH. apply orb_true_r.
Qed.

Lemma includes_inv (s sub : jsstring) :
  includes s sub = true -> exists pre post, s = pre ++ sub ++ post.
Proof.
  induction s as [|c s IH]; rewrite includes_unfold; intros H.
  - rewrite orb_false_r in H. apply startsWith_inv in H as [r Hr].
    exists [], r. exact Hr.
  - apply orb_true_iff in H as [H|H].
    + apply startsWith_inv in H as [r Hr]. exists [], r. exact Hr.
    + destruct (IH H) as (pre & post & ->). exists (c :: pre), post. reflexivity.
Qed.

Lemma includes_unit (s : jsstring) (c : Z) : includes s [c] = true <-> In c s.
Proof.
  split.
  - intros H. apply includes_inv in H as (pre & post & ->).
    apply in_or_app. right. left. reflexivity.
  - intros H. apply in_split in H as (pre & post & ->).
    apply (includes_app pre [c] post).
Qed.

Lemma strictEq_spec (a b : jsstring) : strictEq a b = true <-> a = b.
Proof.
  revert b. induction a as [|x a IH]; intros [|y b]; simpl; split;
    try congruence; try reflexivity.
  - intros H. apply andb_true_iff in H as [Hx Ha]. apply Z.eqb_eq in Hx.
    apply IH in Ha. congruence.
  - intros [= -> ->]. rewrite Z.eqb_refl. apply IH. reflexivity.
Qed.

Lemma toLowerCase_app (a b : jsstring) :
  toLowerCase (a ++ b) = toLowerCase a ++ toLowerCase b.
Proof. apply List.map_app. Qed.

Lemma toLowerCase_app_inv (s a b : jsstring) :
  toLowerCase s = a ++ b ->
  exists s1 s2, s = s1 ++ s2 /\ toLowerCase s1 = a /\ toLowerCase s2 = b.
Proof.
  revert s. induction a as [|x a IH]; intros s H.
  - exists [], s. auto.
  - destruct s as [|c s]; [discriminate|]. simpl in H. injection H as Hx H.
    destruct (IH _ H) as (s1 & s2 & -> & H1 & H2).
    exists (c :: s1), s2. simpl. repeat split; congruence.
Qed.

(** A string contains a term "as a case-insensitive substring": some
    substring of it lower-cases to the term. *)
Definition containsTerm (terms : list jsstring) (nm : jsstring) : Prop :=
  exists pre sub post, nm = pre ++ sub ++ post /\ In (toLowerCase sub) terms.

Lemma containsTerm_existsb (terms : list jsstring) (nm : jsstring) :
  existsb (fun word => includes (toLowerCase nm) word) terms = true
  <-> containsTerm terms nm.
Proof.
  rewrite existsb_exists. split.
  - intros (kw & Hin & Hinc).
    apply includes_inv in Hinc as (pre & post & Heq).
    apply toLowerCase_app_inv in Heq as (s1 & s23 & -> & H1 & H23).
    apply toLowerCase_app_inv in H23 as (s2 & s3 & -> & H2 & H3).
    exists s1, s2, s3. split; [reflexivity|]. rewrite H2. exact Hin.
  - intros (pre & sub & post & -> & Hin).
    exists (toLowerCase sub). split; [exact Hin|].
    rewrite !toLowerCase_app. apply includes_app.
Qed.

(** The name is its own upper-casing and has a space in it. *)
Definition upperMultiWord (nm : jsstring) : Prop :=
  nm = toUpperCase nm /\ In 32 nm.

Lemma upperMultiWord_test (nm : jsstring) :
  strictEq nm (toUpperCase nm) && includes nm (lit " ") = true
  <-> upperMultiWord nm.
Proof.
  unfold upperMultiWord. rewrite andb_true_iff, strictEq_spec.
  change (lit " ") with [32]. rewrite includes_unit. reflexivity.
Qed.

Lemma split_length (sep : Z) (s : jsstring) :
  (2 <= length (split sep s))%nat <-> In sep s.
Proof.
  induction s as [|c s IH]; simpl.
  - split; [lia | tauto].
  - destruct (Z.eqb_spec c sep) as [->|Hne].
    + split; [auto|]. intros _. simpl.
      assert (1 <= length (split sep s))%nat; [|lia].
      destruct s; simpl; [lia|].
      destruct (_ =? _); simpl; [lia|]. destruct (split sep s); simpl; lia.
    + assert (E : length (match split sep s with
                          | h :: t => (c :: h) :: t
                          | [] => [[c]]
                          end) = length (split sep s) \/ split sep s = []).
      { destruct (split sep s); simpl; auto. }
      destruct E as [E|E].
      * rewrite E, IH. split; [auto|]. intros [?|?]; [congruence|assumption].
      * exfalso. destruct s; simpl in E; [discriminate|].
        destruct (_ =? _); [discriminate|]. destruct (split sep s); discriminate.
Qed.

(** ** Tokens *)

Lemma countTokens_app_space (p : bool) (a b : jsstring) (c : Z) :
  isWhiteSpace c = true ->
  countTokens p (a ++ c :: b) = (countTokens p a + countTokens true b)%nat.
Proof.
  intros Hc. revert p. induction a as [|x a IH]; intros p; simpl.
  - rewrite Hc. reflexivity.
  - destruct (isWhiteSpace x); rewrite IH; lia.
Qed.

Lemma countTokens_pos (s : jsstring) :
  (exists c, In c s /\ isWhiteSpace c = false) -> (1 <= countTokens true s)%nat.
Proof.
  induction s as [|x s IH]; intros (c & Hin & Hc); simpl.
  - destruct Hin.
  - destruct (isWhiteSpace x) eqn:Hx; [|lia].
    apply IH. destruct Hin as [->|Hin]; [congruence|]. eauto.
Qed.

Lemma skipWhile_head (p : Z -> bool) (s : jsstring) :
  match skipWhile p s with [] => True | c :: _ => p c = false end.
Proof.
  induction s as [|x s IH]; simpl; [exact I|].
  destruct (p x) eqn:Hx; [exact IH | exact Hx].
Qed.

Lemma trimEnd_last (s t : jsstring) (c : Z) :
  trimEnd s = t ++ [c] -> isWhiteSpace c = false.
Proof.
  unfold trimEnd, trimStart. intros H.
  pose proof (skipWhile_head isWhiteSpace (rev s)) as Hh.
  apply (f_equal (@rev Z)) in H. rewrite rev_involutive, rev_app_distr in H.
  simpl in H. rewrite H in Hh. exact Hh.
Qed.

Lemma skipWhile_suffix (p : Z -> bool) (s : jsstring) :
  exists l, s = l ++ skipWhile p s /\ Forall (fun c => p c = true) l.
Proof.
  induction s as [|x s IH]; simpl.
  - exists []. split; [reflexivity | constructor].
  - destruct (p x) eqn:Hx.
    + destruct IH as (l & Hl & Hall). exists (x :: l). split.
      * simpl. congruence.
      * constructor; assumption.
    + exists []. split; [reflexivity | constructor].
Qed.

Lemma trimEnd_prefix (s : jsstring) :
  exists r, s = trimEnd s ++ r /\ Forall (fun c => isWhiteSpace c = true) r.
Proof.
  unfold trimEnd, trimStart.
  destruct (skipWhile_suffix isWhiteSpace (rev s)) as (l & Hl & Hall).
  exists (rev l). split.
  - rewrite <- rev_app_distr, <- Hl, rev_involutive. reflexivity.
  - apply List.Forall_forall. intros c Hc. apply in_rev in Hc.
    revert c Hc. apply List.Forall_forall. exact Hall.
Qed.

Lemma trimEnd_head (s : jsstring) (c : Z) (r : jsstring) :
  s = c :: r -> isWhiteSpace c = false ->
  exists r', trimEnd s = c :: r'.
Proof.
  intros -> Hc. destruct (trimEnd_prefix (c :: r)) as (w & Hw & Hall).
  destruct (trimEnd (c :: r)) as [|x t] eqn:E.
  - simpl in Hw. subst w. inversion Hall; congruence.
  - injection Hw as -> _. eauto.
Qed.

(** A trimmed name with a white space inside has at least two tokens. *)
Lemma trim_space_two_tokens (s : jsstring) (c : Z) :
  In c (trim s) -> isWhiteSpace c = true -> (2 <= tokenCount (trim s))%nat.
Proof.
  intros Hin Hc. unfold tokenCount.
  apply in_split in Hin as (a & b & E). rewrite E.
  rewrite countTokens_app_space by exact Hc.
  assert (Ha : (1 <= countTokens true a)%nat).
  { unfold trim in E.
    pose proof (skipWhile_head isWhiteSpace s) as Hh. fold (trimStart s) in Hh.
    destruct (trimStart s) as [|x t] eqn:Et.
    - unfold trimEnd in E. simpl in E. destruct a; discriminate.
    - destruct (trimEnd_head (x :: t) x t eq_refl Hh) as (r' & Hr').
      rewrite Hr' in E. destruct a as [|y a].
      + injection E as -> _. congruence.
      + injection E as -> _. apply countTokens_pos. exists y. split; [left; reflexivity | exact Hh]. }
  assert (Hb : (1 <= countTokens true b)%nat).
  { apply countTokens_pos.
    destruct (@exists_last _ (a ++ c :: b)) as (t & z & Ez).
    { destruct a; discriminate. }
    assert (Hz : isWhiteSpace z = false).
    { apply (trimEnd_last (trimStart s) t z). fold (trim s). congruence. }
    exists z. split; [|exact Hz].
    destruct (@exists_last _ b) as (b' & z' & Eb).
    { intros ->. rewrite Ez in *.
      assert (t ++ [z] = a ++ [c]) as Hz' by congruence.
      apply app_inj_tail in Hz' as [_ ->]. congruence. }
    subst b. rewrite app_comm_cons, app_assoc in Ez.
    apply app_inj_tail in Ez as [_ ->]. apply in_or_app. right. left. reflexivity. }
  lia.
Qed.

(** ** The validators, rule by rule *)

(** The city-indexed validator accepts exactly when none of its three rules
    fires. *)
Lemma city_isValidDoctor_iff (d : DoctorData) :
  CityScraper.isValidDoctor d = true
  <-> ~ containsTerm CityScraper.blacklist (fullName d)
      /\ ~ upperMultiWord (fullName d)
      /\ (2 <= length (split 32 (trim (fullName d))))%nat.
Proof.
  unfold CityScraper.isValidDoctor.
  rewrite <- containsTerm_existsb, <- upperMultiWord_test.
  destruct (existsb _ _); [intuition congruence|].
  destruct (_ && _); [intuition congruence|].
  rewrite Z.leb_le. split.
  - intros H. repeat split; try congruence. lia.
  - intros (_ & _ & H). lia.
Qed.

(** The specialty-indexed validator accepts exactly when none of its three
    rules fires. *)
Lemma specialty_isValidDoctor_iff (d : DoctorData) :
  SpecialtyScraper.isValidDoctor d = true
  <-> ~ containsTerm SpecialtyScraper.clinicKeywords (fullName d)
      /\ ~ upperMultiWord (fullName d)
      /\ fullName d <> specialty d.
Proof.
  unfold SpecialtyScraper.isValidDoctor.
  rewrite <- containsTerm_existsb, <- upperMultiWord_test.
  rewrite <- (strictEq_spec (fullName d) (specialty d)).
  destruct (existsb _ _); [intuition congruence|].
  destruct (_ && _); [intuition congruence|].
  destruct (strictEq _ _); [intuition congruence|].
  destruct (SpecialtyScraper.hasPersonName _); intuition congruence.
Qed.

Example city_rejects_clinic :
  CityScraper.isValidDoctor (sampleDoctor (lit "Clínica San Pablo") (lit "General")) = false.
Proof. vm_compute. reflexivity. Qed.

Example city_accepts_person :
  CityScraper.isValidDoctor (sampleDoctor (lit "Juan Pérez García") (lit "Cardiólogo")) = true.
Proof. vm_compute. reflexivity. Qed.

Example city_rejects_upper :
  CityScraper.isValidDoctor (sampleDoctor (lit "CENTRO MEDICO INTERNACIONAL") (lit "General")) = false.
Proof. vm_compute. reflexivity. Qed.

Example specialty_rejects_clinic :
  SpecialtyScraper.isValidDoctor (sampleDoctor (lit "Clínica San Pablo") (lit "General")) = false.
Proof. vm_compute. reflexivity. Qed.

Example specialty_accepts_person :
  SpecialtyScraper.isValidDoctor (sampleDoctor (lit "Juan Pérez García") (lit "Cardiólogo")) = true.
Proof. vm_compute. reflexivity. Qed.

(** C1, as amended. A record whose full name contains, as a case-insensitive
    substring, a term of the validator's own denylist is rejected: the five
    terms of [CityScraper.blacklist] for the city-indexed validator, the
    sixteen terms of [SpecialtyScraper.clinicKeywords] for the
    specialty-indexed one. *)
Theorem denylisted_name_rejected (d : DoctorData) :
  (containsTerm CityScraper.blacklist (fullName d) ->
   CityScraper.isValidDoctor d = false)
  /\ (containsTerm SpecialtyScraper.clinicKeywords (fullName d) ->
      SpecialtyScraper.isValidDoctor d = false).
Proof.
  split; intros H; apply not_true_is_false; intros Hv.
  - apply city_isValidDoctor_iff in Hv. tauto.
  - apply specialty_isValidDoctor_iff in Hv. tauto.
Qed.

Lemma denylisted_name_rejected_witness :
  CityScraper.isValidDoctor
    (sampleDoctor (lit "Hospital Rebagliati") (lit "General")) = false
  /\ SpecialtyScraper.isValidDoctor
       (sampleDoctor (lit "Hospital Rebagliati") (lit "General")) = false.
Proof.
  assert (Hc : forall terms, In (lit "hospital") terms ->
               containsTerm terms (lit "Hospital Rebagliati")).
  { intros terms Hin. exists [], (lit "Hospital"), (lit " Rebagliati").
    split; [reflexivity | exact Hin]. }
  split.
  - apply (proj1 (denylisted_name_rejected
                    (sampleDoctor (lit "Hospital Rebagliati") (lit "General")))).
    apply Hc. vm_compute. tauto.
  - apply (proj2 (denylisted_name_rejected
                    (sampleDoctor (lit "Hospital Rebagliati") (lit "General")))).
    apply Hc. vm_compute. tauto.
Defined.

(** The claim C1 as worded lists 'centro' among the terms; the city-indexed
    validator lists 'centro médico' instead and accepts a name that contains
    'centro' alone. *)
Lemma city_accepts_centro_alone :
  In (lit "centro") SpecialtyScraper.clinicKeywords
  /\ containsTerm [lit "centro"] (lit "Juan Centro Pérez")
  /\ CityScraper.isValidDoctor
       (sampleDoctor (lit "Juan Centro Pérez") (lit "Cardiólogo")) = true.
Proof.
  split; [vm_compute; tauto|]. split; [|vm_compute; reflexivity].
  exists (lit "Juan "), (lit "Centro"), (lit " Pérez").
  split; [reflexivity | left; reflexivity].
Qed.

(** C5, as amended. In the city-indexed validator a record whose trimmed name
    has fewer than two whitespace-separated tokens is rejected, and a record
    is accepted exactly when none of that validator's rules fires (denylist,
    all-caps multi-word, fewer than two parts of the trimmed name split on the
    space character). The specialty-indexed validator has no token rule: it
    accepts exactly when none of denylist, all-caps multi-word and
    name-equals-category fires. *)
Theorem validator_accepts_by_default (d : DoctorData) :
  ((tokenCount (trim (fullName d)) < 2)%nat ->
   CityScraper.isValidDoctor d = false)
  /\ (~ containsTerm CityScraper.blacklist (fullName d) ->
      ~ upperMultiWord (fullName d) ->
      ~ (length (split 32 (trim (fullName d))) < 2)%nat ->
      CityScraper.isValidDoctor d = true)
  /\ (~ containsTerm SpecialtyScraper.clinicKeywords (fullName d) ->
      ~ upperMultiWord (fullName d) ->
      fullName d <> specialty d ->
      SpecialtyScraper.isValidDoctor d = true).
Proof.
  split; [|split].
  - intros Htok. apply not_true_is_false. intros Hv.
    apply city_isValidDoctor_iff in Hv as (_ & _ & Hlen).
    apply split_length in Hlen.
    pose proof (trim_space_two_tokens (fullName d) 32 Hlen eq_refl). lia.
  - intros H1 H2 H3. apply city_isValidDoctor_iff. repeat split; try assumption. lia.
  - intros H1 H2 H3. apply specialty_isValidDoctor_iff. tauto.
Qed.

(** The claim C5 as worded fails on the specialty-indexed validator: a
    one-token name is accepted there. *)
Lemma specialty_accepts_single_token :
  (tokenCount (trim (lit "Rosa")) < 2)%nat
  /\ SpecialtyScraper.isValidDoctor
       (sampleDoctor (lit "Rosa") (lit "Cardiología")) = true.
Proof. split; [vm_compute; lia | vm_compute; reflexivity]. Qed.

Example cleanAddress_spaces :
  CityScraper.cleanAddress (lit "Calle   el   Palmar   181") = lit "Calle el Palmar 181".
Proof. vm_compute. reflexivity. Qed.

Example cleanAddress_commas :
  CityScraper.cleanAddress (lit ", Calle 123 ,") = lit "Calle 123".
Proof. vm_compute. reflexivity. Qed.

Example cleanAddress_normalises_commas :
  CityScraper.cleanAddress (lit "Urb Pando  ,  ,  Lima") = lit "Urb Pando, Lima".
Proof. vm_compute. reflexivity. Qed.

Example cleanAddress_breaks :
  CityScraper.cleanAddress [67; 97; 108; 108; 101; 10; 101; 108; 9; 80; 97; 108; 109; 97; 114; 10; 49; 56; 49]
  = lit "Calle el Palmar 181".
Proof. vm_compute. reflexivity. Qed.

(** ** Global replacement: unfolding and induction *)

Lemma replaceAllFrom_skip (m : matcher) (b : jsstring) (k : nat) (s : jsstring) :
  replaceAllFrom m b k s = replaceAll m b (skipn k s).
Proof.
  revert k. induction s as [|c r IH]; intros [|k]; try reflexivity.
  simpl. apply IH.
Qed.

Lemma replaceAll_cons (m : matcher) (b : jsstring) (c : Z) (r : jsstring) :
  replaceAll m b (c :: r)
  = match m (c :: r) with
    | Some (S k) => b ++ replaceAll m b (skipn k r)
    | _ => c :: replaceAll m b r
    end.
Proof.
  unfold replaceAll at 1. simpl.
  destruct (m (c :: r)) as [[|k]|]; try reflexivity.
  rewrite replaceAllFrom_skip. reflexivity.
Qed.

Lemma replaceAll_ind (m : matcher) (b : jsstring) (Q : jsstring -> jsstring -> Prop) :
  Q [] [] ->
  (forall c r, (forall k, m (c :: r) <> Some (S k)) ->
               Q r (replaceAll m b r) -> Q (c :: r) (c :: replaceAll m b r)) ->
  (forall c r k, m (c :: r) = Some (S k) ->
                 Q (skipn k r) (replaceAll m b (skipn k r)) ->
                 Q (c :: r) (b ++ replaceAll m b (skipn k r))) ->
  forall s, Q s (replaceAll m b s).
Proof.
  intros Hnil Hcopy Hmatch s.
  remember (length s) as n eqn:Hn.
  assert (Hle : (length s <= n)%nat) by lia. clear Hn.
  revert s Hle. induction n as [|n IH]; intros [|c r] Hle; simpl in Hle;
    try exact Hnil; try lia.
  rewrite replaceAll_cons.
  destruct (m (c :: r)) as [[|k]|] eqn:Hm.
  - apply Hcopy; [intros k; congruence | apply IH; lia].
  - apply (Hmatch c r k Hm). apply IH.
    rewrite length_skipn. lia.
  - apply Hcopy; [intros k; congruence | apply IH; lia].
Qed.

Lemma skipn_spanLen (p : Z -> bool) (s : jsstring) :
  skipn (spanLen p s) s = skipWhile p s.
Proof.
  induction s as [|c r IH]; simpl; [reflexivity|].
  destruct (p c); [exact IH | reflexivity].
Qed.

Lemma skipWhile_headIs (p : Z -> bool) (s : jsstring) :
  headIs p (skipWhile p s) = false.
Proof.
  pose proof (skipWhile_head p s) as H.
  destruct (skipWhile p s); [reflexivity | exact H].
Qed.

(** ** Tests on neighbours: closure under taking parts *)

Lemma adjacentAll_tail (ok : Z -> Z -> bool) (c : Z) (r : jsstring) :
  adjacentAll ok (c :: r) = true -> adjacentAll ok r = true.
Proof. simpl. intros H. apply andb_true_iff in H. tauto. Qed.

Lemma adjacentAll_skipn (ok : Z -> Z -> bool) (k : nat) (s : jsstring) :
  adjacentAll ok s = true -> adjacentAll ok (skipn k s) = true.
Proof.
  revert s. induction k as [|k IH]; intros [|c r] H; simpl; try assumption.
  apply IH. exact (adjacentAll_tail ok c r H).
Qed.

Lemma adjacentAll_app_r (ok : Z -> Z -> bool) (a b : jsstring) :
  adjacentAll ok (a ++ b) = true -> adjacentAll ok b = true.
Proof.
  induction a as [|c a IH]; intros H; [exact H|].
  apply IH. exact (adjacentAll_tail ok c _ H).
Qed.

Lemma adjacentAll_app_l (ok : Z -> Z -> bool) (a b : jsstring) :
  adjacentAll ok (a ++ b) = true -> adjacentAll ok a = true.
Proof.
  induction a as [|c a IH]; intros H; [reflexivity|].
  simpl in H. apply andb_true_iff in H as [H1 H2]. simpl.
  rewrite (IH H2), andb_true_r.
  destruct a as [|d a]; [reflexivity | exact H1].
Qed.

Lemma forallb_skipn (f : Z -> bool) (k : nat) (s : jsstring) :
  forallb f s = true -> forallb f (skipn k s) = true.
Proof.
  revert s. induction k as [|k IH]; intros [|c r] H; simpl; try assumption.
  simpl in H. apply andb_true_iff in H as [_ H]. apply IH. exact H.
Qed.

Lemma trim_infix (s : jsstring) : exists l r, s = l ++ trim s ++ r.
Proof.
  destruct (skipWhile_suffix isWhiteSpace s) as (l & Hl & _).
  destruct (trimEnd_prefix (trimStart s)) as (r & Hr & _).
  exists l, r. unfold trim. rewrite <- Hr. exact Hl.
Qed.

Lemma adjacentAll_trim (ok : Z -> Z -> bool) (s : jsstring) :
  adjacentAll ok s = true -> adjacentAll ok (trim s) = true.
Proof.
  destruct (trim_infix s) as (l & r & E). intros H. rewrite E in H.
  apply adjacentAll_app_r in H. apply adjacentAll_app_l in H. exact H.
Qed.

Lemma forallb_trim (f : Z -> bool) (s : jsstring) :
  forallb f s = true -> forallb f (trim s) = true.
Proof.
  destruct (trim_infix s) as (l & r & E). intros H. rewrite E in H.
  rewrite !forallb_app in H.
  apply andb_true_iff in H as [_ H]. apply andb_true_iff in H as [H _]. exact H.
Qed.

Lemma noOuterSpace_trim (s : jsstring) : noOuterSpace (trim s) = true.
Proof.
  unfold noOuterSpace, trim. apply andb_true_iff. split; apply negb_true_iff.
  - pose proof (skipWhile_headIs isWhiteSpace s) as Hh. fold (trimStart s) in Hh.
    destruct (trimStart s) as [|x t] eqn:Et; [reflexivity|].
    simpl in Hh.
    destruct (trimEnd_head (x :: t) x t eq_refl Hh) as (r' & ->). exact Hh.
  - unfold trimEnd at 1. rewrite rev_involutive. apply skipWhile_headIs.
Qed.

(** ** The replacement steps of [cleanAddress] *)

Lemma replaceAll_forallb (f : Z -> bool) (m : matcher) (b s : jsstring) :
  forallb f b = true -> forallb f s = true -> forallb f (replaceAll m b s) = true.
Proof.
  intros Hb. apply (replaceAll_ind m b (fun s o => forallb f s = true -> forallb f o = true)).
  - auto.
  - intros c r _ IH H. simpl in *. apply andb_true_iff in H as [Hc Hr].
    rewrite Hc, (IH Hr). reflexivity.
  - intros c r k _ IH H. simpl in H. apply andb_true_iff in H as [_ Hr].
    rewrite forallb_app, Hb. apply IH, forallb_skipn, Hr.
Qed.

Lemma reSpaces_match (c : Z) (r : jsstring) (k : nat) :
  reSpaces (c :: r) = Some (S k) ->
  isWhiteSpace c = true /\ skipn k r = skipWhile isWhiteSpace r.
Proof.
  unfold reSpaces. simpl. destruct (isWhiteSpace c); [|discriminate].
  intros [= <-]. split; [reflexivity | apply skipn_spanLen].
Qed.

Lemma reSpaces_no_match (c : Z) (r : jsstring) :
  (forall k, reSpaces (c :: r) <> Some (S k)) -> isWhiteSpace c = false.
Proof.
  unfold reSpaces. simpl. destruct (isWhiteSpace c); [|reflexivity].
  intros H. exfalso. eapply H. reflexivity.
Qed.

(** Step 1: every run of white space becomes one space. *)
Lemma collapse_spaces (s : jsstring) :
  onlyPlainSpaces (replaceAll reSpaces (lit " ") s) = true
  /\ singleSpaced (replaceAll reSpaces (lit " ") s) = true
  /\ (headIs isWhiteSpace (replaceAll reSpaces (lit " ") s) = true ->
      headIs isWhiteSpace s = true).
Proof.
  apply (replaceAll_ind reSpaces (lit " ")
           (fun s o => onlyPlainSpaces o = true /\ singleSpaced o = true
                       /\ (headIs isWhiteSpace o = true -> headIs isWhiteSpace s = true))).
  - repeat split; auto.
  - intros c r Hno (H1 & H2 & H3). apply reSpaces_no_match in Hno.
    unfold onlyPlainSpaces, singleSpaced in *. split; [|split].
    + simpl. rewrite Hno. exact H1.
    + simpl. rewrite H2, Hno. destruct (replaceAll _ _ r); reflexivity.
    + simpl. rewrite Hno. discriminate.
  - intros c r k Hm (H1 & H2 & H3). apply reSpaces_match in Hm as [Hc Hk].
    change (lit " ") with [32] in *. simpl app.
    unfold onlyPlainSpaces, singleSpaced in *. split; [|split].
    + simpl. exact H1.
    + simpl. rewrite H2, andb_true_r.
      destruct (replaceAll _ _ (skipn k r)) as [|d o] eqn:E; [reflexivity|].
      simpl in H3. destruct (isWhiteSpace d) eqn:Hd; [|reflexivity].
      specialize (H3 eq_refl). rewrite Hk, skipWhile_headIs in H3. discriminate.
    + intros _. exact Hc.
Qed.

Lemma onlyPlainSpaces_not_in (s : jsstring) (c : Z) :
  onlyPlainSpaces s = true -> isWhiteSpace c = true -> c <> 32 -> ~ In c s.
Proof.
  unfold onlyPlainSpaces. rewrite forallb_forall. intros H Hc Hne Hin.
  specialize (H c Hin). rewrite Hc in H. simpl in H. apply Z.eqb_eq in H. contradiction.
Qed.

(** Steps 2 and 3: a character that does not occur is not replaced. *)
Lemma replaceAll_reUnit_absent (c0 : Z) (b s : jsstring) :
  ~ In c0 s -> replaceAll (reUnit c0) b s = s.
Proof.
  apply (replaceAll_ind (reUnit c0) b (fun s o => ~ In c0 s -> o = s)).
  - reflexivity.
  - intros c r _ IH Hnot. f_equal. apply IH. intros Hin. apply Hnot. right. exact Hin.
  - intros c r k Hm _ Hnot. exfalso. apply Hnot. left.
    unfold reUnit in Hm. destruct (Z.eqb_spec c c0); [assumption | discriminate].
Qed.

(** Replacing matches by one unit that is not white space keeps the string
    single-spaced. *)
Lemma replaceAll_singleSpaced_unit (m : matcher) (x : Z) (s : jsstring) :
  isWhiteSpace x = false ->
  singleSpaced s = true ->
  singleSpaced (replaceAll m [x] s) = true
  /\ (headIs isWhiteSpace (replaceAll m [x] s) = true -> headIs isWhiteSpace s = true).
Proof.
  intros Hx.
  apply (replaceAll_ind m [x]
           (fun s o => singleSpaced s = true ->
                       singleSpaced o = true
                       /\ (headIs isWhiteSpace o = true -> headIs isWhiteSpace s = true))).
  - auto.
  - intros c r _ IH H. unfold singleSpaced in *.
    pose proof (adjacentAll_tail _ _ _ H) as Hr.
    destruct (IH Hr) as [IH1 IH2]. split; [|auto].
    simpl. rewrite IH1, andb_true_r.
    destruct (replaceAll m [x] r) as [|d o]; [reflexivity|].
    destruct (isWhiteSpace c) eqn:Hc; [|reflexivity].
    destruct (isWhiteSpace d) eqn:Hd; [|reflexivity].
    simpl in IH2. specialize (IH2 Hd).
    destruct r as [|e r]; [discriminate|]. simpl in H, IH2.
    rewrite Hc, IH2 in H. discriminate.
  - intros c r k _ IH H. unfold singleSpaced in *.
    pose proof (adjacentAll_skipn _ k _ (adjacentAll_tail _ _ _ H)) as Hr.
    destruct (IH Hr) as [IH1 _]. split.
    + simpl. rewrite IH1, Hx. destruct (replaceAll _ _ _); reflexivity.
    + simpl. rewrite Hx. discriminate.
Qed.

Lemma reCommaSpaces_match (c : Z) (r : jsstring) (k : nat) :
  reCommaSpaces (c :: r) = Some (S k) ->
  c = 44 /\ headIs isWhiteSpace r = true /\ skipn k r = skipWhile isWhiteSpace r.
Proof.
  unfold reCommaSpaces.
  destruct (Z.eq_dec c 44) as [->|Hne].
  - destruct (spanLen isWhiteSpace r) as [|n] eqn:En; [discriminate|].
    intros [= <-]. split; [reflexivity|]. split.
    + destruct r as [|d r]; [discriminate|]. simpl in *.
      destruct (isWhiteSpace d); [reflexivity | discriminate].
    + rewrite <- En. apply skipn_spanLen.
  - intros H. exfalso.
    destruct c as [|p|p]; try discriminate.
    do 6 (destruct p as [p|p|]; try discriminate). congruence.
Qed.

(** Step 8: white space after a comma becomes one space. *)
Lemma space_after_comma_singleSpaced (s : jsstring) :
  singleSpaced s = true ->
  singleSpaced (replaceAll reCommaSpaces (lit ", ") s) = true
  /\ (headIs isWhiteSpace (replaceAll reCommaSpaces (lit ", ") s) = true ->
      headIs isWhiteSpace s = true).
Proof.
  apply (replaceAll_ind reCommaSpaces (lit ", ")
           (fun s o => singleSpaced s = true ->
                       singleSpaced o = true
                       /\ (headIs isWhiteSpace o = true -> headIs isWhiteSpace s = true))).
  - auto.
  - intros c r _ IH H. unfold singleSpaced in *.
    pose proof (adjacentAll_tail _ _ _ H) as Hr.
    destruct (IH Hr) as [IH1 IH2]. split; [|auto].
    simpl. rewrite IH1, andb_true_r.
    destruct (replaceAll _ _ r) as [|d o]; [reflexivity|].
    destruct (isWhiteSpace c) eqn:Hc; [|reflexivity].
    destruct (isWhiteSpace d) eqn:Hd; [|reflexivity].
    simpl in IH2. specialize (IH2 Hd).
    destruct r as [|e r]; [discriminate|]. simpl in H, IH2.
    rewrite Hc, IH2 in H. discriminate.
  - intros c r k Hm IH H. apply reCommaSpaces_match in Hm as (-> & _ & Hk).
    unfold singleSpaced in *.
    pose proof (adjacentAll_skipn _ k _ (adjacentAll_tail _ _ _ H)) as Hr.
    destruct (IH Hr) as [IH1 IH2]. change (lit ", ") with [44; 32] in *. split.
    + simpl. rewrite IH1, andb_true_r.
      destruct (replaceAll _ _ (skipn k r)) as [|d o]; [reflexivity|].
      destruct (isWhiteSpace d) eqn:Hd; [|reflexivity].
      simpl in IH2. specialize (IH2 Hd).
      rewrite Hk, skipWhile_headIs in IH2. discriminate.
    + simpl. discriminate.
Qed.

Lemma replaceAtStart_suffix (m : matcher) (s : jsstring) :
  exists k, replaceAtStart m [] s = skipn k s.
Proof.
  unfold replaceAtStart. destruct (m s) as [n|].
  - exists n. reflexivity.
  - exists 0%nat. reflexivity.
Qed.

Lemma reTrailingComma_to_end (s : jsstring) (n : nat) :
  reTrailingComma s = Some n -> n = length s.
Proof.
  unfold reTrailingComma.
  destruct (skipWhile isWhiteSpace s) as [|c r]; [discriminate|].
  destruct c as [|p|p]; try discriminate.
  do 6 (destruct p as [p|p|]; try discriminate).
  destruct (skipWhile isWhiteSpace r); [|discriminate]. congruence.
Qed.

(** Step 6: the match of [/\s*,\s*$/] runs to the end, what is left is a
    prefix. *)
Lemma strip_trailing_comma_prefix (s : jsstring) :
  exists r, s = replaceFirst reTrailingComma [] s ++ r.
Proof.
  induction s as [|c s IH].
  - exists []. reflexivity.
  - simpl. destruct (reTrailingComma (c :: s)) as [n|] eqn:Hm.
    + exists (c :: s). apply reTrailingComma_to_end in Hm. subst n.
      rewrite skipn_all. reflexivity.
    + destruct IH as (r & Hr). exists r. simpl. congruence.
Qed.

Lemma reSpacesComma_match (s : jsstring) (k : nat) :
  reSpacesComma s = Some k ->
  headIs (Z.eqb 44) (skipWhile isWhiteSpace s) = true.
Proof.
  unfold reSpacesComma. destruct (spanLen isWhiteSpace s); [discriminate|].
  destruct (skipWhile isWhiteSpace s) as [|c r]; [discriminate|].
  destruct (Z.eqb_spec 44 c) as [<-|Hne]; [reflexivity|].
  destruct c as [|p|p]; try discriminate.
  do 6 (destruct p as [p|p|]; try discriminate). congruence.
Qed.

Lemma headIs_comma_inv (s : jsstring) :
  headIs (Z.eqb 44) s = true -> exists t, s = 44 :: t.
Proof.
  destruct s as [|d t]; [discriminate|]. unfold headIs.
  intros H. apply Z.eqb_eq in H. subst d. eauto.
Qed.

Lemma reSpacesComma_after_space (c : Z) (r : jsstring) :
  isWhiteSpace c = true ->
  headIs (Z.eqb 44) (skipWhile isWhiteSpace r) = true ->
  exists k, reSpacesComma (c :: r) = Some (S k).
Proof.
  intros Hc Hh. apply headIs_comma_inv in Hh as (t & Ht).
  unfold reSpacesComma. simpl. rewrite Hc, Ht. eauto.
Qed.

(** Step 7: no white space is left before a comma. *)
Lemma strip_space_before_comma (s : jsstring) :
  noSpaceBeforeComma (replaceAll reSpacesComma (lit ",") s) = true
  /\ (headIs (Z.eqb 44) (replaceAll reSpacesComma (lit ",") s) = true ->
      headIs (Z.eqb 44) (skipWhile isWhiteSpace s) = true).
Proof.
  apply (replaceAll_ind reSpacesComma (lit ",")
           (fun s o => noSpaceBeforeComma o = true
                       /\ (headIs (Z.eqb 44) o = true ->
                           headIs (Z.eqb 44) (skipWhile isWhiteSpace s) = true))).
  - auto.
  - intros c r Hno (IH1 & IH2). unfold noSpaceBeforeComma in *. split.
    + simpl. rewrite IH1, andb_true_r.
      destruct (replaceAll _ _ r) as [|d o]; [reflexivity|].
      destruct (isWhiteSpace c) eqn:Hc; [|reflexivity].
      destruct (d =? 44) eqn:Hd; [|reflexivity].
      exfalso. apply Z.eqb_eq in Hd. subst d.
      destruct (reSpacesComma_after_space c r Hc (IH2 (Z.eqb_refl 44))) as (k & Hk).
      exact (Hno k Hk).
    + intros Hc. apply headIs_comma_inv in Hc as (t & [= -> _]). reflexivity.
  - intros c r k Hm (IH1 & IH2). change (lit ",") with [44] in *.
    unfold noSpaceBeforeComma in *. split.
    + simpl. rewrite IH1. destruct (replaceAll _ _ _); reflexivity.
    + intros _. exact (reSpacesComma_match _ _ Hm).
Qed.

Lemma adjacentAll_head (ok : Z -> Z -> bool) (c d : Z) (r : jsstring) :
  adjacentAll ok (c :: d :: r) = true -> ok c d = true.
Proof.
  intros H. change (ok c d && adjacentAll ok (d :: r) = true) in H.
  apply andb_true_iff in H. tauto.
Qed.

Lemma spaces_then_comma (r : jsstring) :
  noSpaceBeforeComma r = true ->
  headIs isWhiteSpace r = true ->
  headIs (Z.eqb 44) (skipWhile isWhiteSpace r) = false.
Proof.
  unfold noSpaceBeforeComma.
  induction r as [|d r IH]; intros Hn Hw; [reflexivity|].
  change (isWhiteSpace d = true) in Hw.
  change (skipWhile isWhiteSpace (d :: r))
    with (if isWhiteSpace d then skipWhile isWhiteSpace r else d :: r).
  rewrite Hw. destruct r as [|e r]; [reflexivity|].
  pose proof (adjacentAll_head _ _ _ _ Hn) as Hde. cbv beta in Hde.
  rewrite Hw in Hde.
  pose proof (adjacentAll_tail _ _ _ Hn) as Hn'.
  destruct (isWhiteSpace e) eqn:He.
  - apply IH; [exact Hn' | exact He].
  - change (skipWhile isWhiteSpace (e :: r))
      with (if isWhiteSpace e then skipWhile isWhiteSpace r else e :: r).
    rewrite He. unfold headIs. rewrite Z.eqb_sym.
    apply negb_true_iff. exact Hde.
Qed.

(** Step 8 keeps commas free of white space before them. *)
Lemma space_after_comma_noSpaceBefore (s : jsstring) :
  noSpaceBeforeComma s = true ->
  noSpaceBeforeComma (replaceAll reCommaSpaces (lit ", ") s) = true
  /\ (headIs (Z.eqb 44) (replaceAll reCommaSpaces (lit ", ") s) = true ->
      headIs (Z.eqb 44) s = true).
Proof.
  apply (replaceAll_ind reCommaSpaces (lit ", ")
           (fun s o => noSpaceBeforeComma s = true ->
                       noSpaceBeforeComma o = true
                       /\ (headIs (Z.eqb 44) o = true -> headIs (Z.eqb 44) s = true))).
  - auto.
  - intros c r _ IH H.
    pose proof (adjacentAll_tail _ _ _ H) as Hr.
    destruct (IH Hr) as [IH1 IH2]. split; [|auto].
    unfold noSpaceBeforeComma in *. simpl. rewrite IH1, andb_true_r.
    destruct (replaceAll _ _ r) as [|d o]; [reflexivity|].
    destruct (isWhiteSpace c) eqn:Hc; [|reflexivity].
    destruct (d =? 44) eqn:Hd; [|reflexivity].
    apply Z.eqb_eq in Hd. subst d. specialize (IH2 (Z.eqb_refl 44)).
    apply headIs_comma_inv in IH2 as (t & ->).
    unfold noSpaceBeforeComma in H. simpl in H. rewrite Hc in H. discriminate.
  - intros c r k Hm IH H. apply reCommaSpaces_match in Hm as (-> & Hw & Hk).
    pose proof (adjacentAll_tail _ _ _ H) as Hr.
    destruct (IH (adjacentAll_skipn _ k _ Hr)) as [IH1 IH2].
    change (lit ", ") with [44; 32] in *. split; [|reflexivity].
    unfold noSpaceBeforeComma in *. simpl. rewrite IH1, andb_true_r.
    destruct (replaceAll _ _ (skipn k r)) as [|d o]; [reflexivity|].
    destruct (d =? 44) eqn:Hd; [|reflexivity].
    apply Z.eqb_eq in Hd. subst d. specialize (IH2 (Z.eqb_refl 44)).
    rewrite Hk, (spaces_then_comma r Hr Hw) in IH2. discriminate.
Qed.

(** C4, as amended. For every raw address string the result of cleanAddress
    has no white space other than the space character (so no newline and no
    tab), no two spaces in a row, no white space at either end and no white
    space before a comma; and the two examples of the specification come out
    as stated. *)
Theorem cleanAddress_normal_form (raw : jsstring) :
  onlyPlainSpaces (CityScraper.cleanAddress raw) = true
  /\ singleSpaced (CityScraper.cleanAddress raw) = true
  /\ noOuterSpace (CityScraper.cleanAddress raw) = true
  /\ noSpaceBeforeComma (CityScraper.cleanAddress raw) = true
  /\ CityScraper.cleanAddress (lit "Calle   el   Palmar   181") = lit "Calle el Palmar 181"
  /\ CityScraper.cleanAddress (lit ", Calle 123 ,") = lit "Calle 123".
Proof.
  unfold CityScraper.cleanAddress.
  destruct (collapse_spaces raw) as (P1 & S1 & _).
  set (s1 := replaceAll reSpaces (lit " ") raw) in *.
  rewrite (replaceAll_reUnit_absent 10 [] s1)
    by (apply onlyPlainSpaces_not_in; [exact P1 | reflexivity | lia]).
  rewrite (replaceAll_reUnit_absent 9 [] s1)
    by (apply onlyPlainSpaces_not_in; [exact P1 | reflexivity | lia]).
  set (s4 := replaceAll reCommaSpacesComma (lit ",") s1).
  assert (P4 : onlyPlainSpaces s4 = true)
    by (apply replaceAll_forallb; [reflexivity | exact P1]).
  assert (S4 : singleSpaced s4 = true)
    by (apply (replaceAll_singleSpaced_unit _ 44); [reflexivity | exact S1]).
  destruct (replaceAtStart_suffix reLeadingComma s4) as (k & E5).
  set (s5 := replaceAtStart reLeadingComma [] s4) in *.
  assert (P5 : onlyPlainSpaces s5 = true)
    by (rewrite E5; apply forallb_skipn, P4).
  assert (S5 : singleSpaced s5 = true)
    by (rewrite E5; apply adjacentAll_skipn, S4).
  destruct (strip_trailing_comma_prefix s5) as (r & E6).
  set (s6 := replaceFirst reTrailingComma [] s5) in *.
  assert (P6 : onlyPlainSpaces s6 = true).
  { unfold onlyPlainSpaces in *. rewrite E6, forallb_app in P5.
    apply andb_true_iff in P5. tauto. }
  assert (S6 : singleSpaced s6 = true).
  { unfold singleSpaced in *. rewrite E6 in S5.
    exact (adjacentAll_app_l _ _ _ S5). }
  destruct (strip_space_before_comma s6) as (C7 & _).
  set (s7 := replaceAll reSpacesComma (lit ",") s6) in *.
  assert (P7 : onlyPlainSpaces s7 = true)
    by (apply replaceAll_forallb; [reflexivity | exact P6]).
  assert (S7 : singleSpaced s7 = true)
    by (apply (replaceAll_singleSpaced_unit _ 44); [reflexivity | exact S6]).
  set (s8 := replaceAll reCommaSpaces (lit ", ") s7).
  assert (P8 : onlyPlainSpaces s8 = true)
    by (apply replaceAll_forallb; [reflexivity | exact P7]).
  assert (S8 : singleSpaced s8 = true)
    by (apply space_after_comma_singleSpaced, S7).
  assert (C8 : noSpaceBeforeComma s8 = true)
    by (apply space_after_comma_noSpaceBefore, C7).
  split; [apply forallb_trim, P8|].
  split; [apply adjacentAll_trim, S8|].
  split; [apply noOuterSpace_trim|].
  split; [apply adjacentAll_trim, C8|].
  split; vm_compute; reflexivity.
Qed.

(** The claim C4 as worded fails where a comma is followed by no white space:
    [cleanAddress] leaves "Lima,Peru" as it is. *)
Lemma cleanAddress_keeps_bare_comma :
  CityScraper.cleanAddress (lit "Lima,Peru") = lit "Lima,Peru"
  /\ oneSpaceAfterComma (CityScraper.cleanAddress (lit "Lima,Peru")) = false
  /\ commaClean (CityScraper.cleanAddress (lit "Lima,Peru")) = false.
Proof. repeat split; vm_compute; reflexivity. Qed.

(** Three commas in a row leave two. *)
Example cleanAddress_triple_comma :
  CityScraper.cleanAddress (lit "a,,,b") = lit "a,,b".
Proof. vm_compute. reflexivity. Qed.

(** ** Numbers *)

Lemma floor_bounds (x : Q) (lo hi : Z) :
  (inject_Z lo <= x)%Q -> (x < inject_Z hi)%Q -> lo <= Qfloor x < hi.
Proof.
  intros Hlo Hhi. split.
  - rewrite <- (Qfloor_Z lo). apply Qfloor_resp_le. exact Hlo.
  - rewrite Zlt_Qlt. eapply Qle_lt_trans; [apply Qfloor_le | exact Hhi].
Qed.

Lemma floorScaled_range (r : Unit01) (n : Z) : 0 < n -> 0 <= floorScaled r n < n.
Proof.
  intros Hn. destruct r as [q [H0 H1]]. unfold floorScaled.
  cbn [draw]. apply floor_bounds.
  - apply Qmult_le_0_compat; [exact H0|].
    change 0%Q with (inject_Z 0). rewrite <- Zle_Qle. lia.
  - rewrite <- (Qmult_1_l (inject_Z n)) at 2. apply Qmult_lt_compat_r; [|exact H1].
    change 0%Q with (inject_Z 0). rewrite <- Zlt_Qlt. lia.
Qed.

Lemma price_range (r : Unit01) :
  50 <= mathRound (draw r * inject_Z 200 + inject_Z 50) <= 250.
Proof.
  destruct r as [q [H0 H1]]. cbn [draw]. unfold mathRound.
  assert (50 <= Qfloor (q * inject_Z 200 + inject_Z 50 + (1 # 2)) < 251); [|lia].
  apply floor_bounds; unfold inject_Z; lra.
Qed.

Lemma phone_number_range (r : Unit01) :
  10000000 <= Qfloor (draw r * inject_Z 90000000 + inject_Z 10000000) < 100000000.
Proof.
  destruct r as [q [H0 H1]]. cbn [draw].
  apply floor_bounds; unfold inject_Z; lra.
Qed.

Lemma isDigit_mod (n : Z) : isDigit (48 + n mod 10) = true.
Proof.
  unfold isDigit. pose proof (Z.mod_pos_bound n 10 ltac:(lia)).
  apply andb_true_iff. split; apply Z.leb_le; lia.
Qed.

Lemma digitsFrom_digits (k : nat) :
  forall (fuel : nat) (n : Z) (acc : jsstring),
    (k < fuel)%nat ->
    0 <= n < 10 ^ Z.of_nat (S k) ->
    (k = 0%nat \/ 10 ^ Z.of_nat k <= n) ->
    exists ds, digitsFrom fuel n acc = ds ++ acc
               /\ length ds = S k /\ forallb isDigit ds = true.
Proof.
  induction k as [|k IH]; intros fuel n acc Hf Hn Hlow;
    (destruct fuel as [|f]; [lia|]); cbn [digitsFrom].
  - change (10 ^ Z.of_nat 1) with 10 in Hn.
    destruct (Z.ltb_spec n 10) as [_|?]; [|lia].
    exists [48 + n mod 10]. repeat split.
    cbn [forallb]. rewrite isDigit_mod. reflexivity.
  - destruct Hlow as [?|Hlow]; [lia|].
    rewrite Nat2Z.inj_succ, Z.pow_succ_r in Hlow by lia.
    rewrite (Nat2Z.inj_succ (S k)), Z.pow_succ_r in Hn by lia.
    assert (Hp : 0 < 10 ^ Z.of_nat k) by (apply Z.pow_pos_nonneg; lia).
    destruct (Z.ltb_spec n 10) as [?|_]; [nia|].
    destruct (IH f (n / 10) ((48 + n mod 10) :: acc)) as (ds & E & Hlen & Hd).
    + lia.
    + split; [apply Z.div_pos; lia|].
      apply Z.div_lt_upper_bound; lia.
    + right. apply Z.div_le_lower_bound; lia.
    + exists (ds ++ [48 + n mod 10]). rewrite E, <- app_assoc. repeat split.
      * rewrite length_app, Hlen. simpl. lia.
      * rewrite forallb_app, Hd. cbn [forallb]. rewrite isDigit_mod. reflexivity.
Qed.

Lemma phoneOf_pattern (r : Unit01) : isPhonePattern (phoneOf r) = true.
Proof.
  unfold phoneOf, numberToString.
  pose proof (phone_number_range r) as Hn.
  set (n := Qfloor _) in *.
  destruct (digitsFrom_digits 7 (S (Z.to_nat (Z.log2 n))) n []) as (ds & E & Hlen & Hd).
  - assert (Z.log2 10000000 <= Z.log2 n) by (apply Z.log2_le_mono; lia).
    change (Z.log2 10000000) with 23 in H. lia.
  - change (10 ^ Z.of_nat 8) with 100000000. lia.
  - right. change (10 ^ Z.of_nat 7) with 10000000. lia.
  - rewrite E, app_nil_r. unfold isPhonePattern. rewrite Hlen, Hd. reflexivity.
Qed.

(** C9. Every synthesized phone number is a 9 followed by eight decimal
    digits, whatever the random source draws: it matches [/^9\d{8}$/], in
    [generatePhone] of the city-indexed scraper and in [generatePhoneNumber]
    of the specialty-indexed one. *)
Theorem synthesized_phone_matches (W : Type)
  (hc : CityScraper.Host W) (hs : SpecialtyScraper.Host W) (st : Store W) :
  (exists phone st',
      CityScraper.generatePhone hc st = (Return phone, st')
      /\ isPhonePattern phone = true)
  /\ (exists phone st',
         SpecialtyScraper.generatePhoneNumber hs st = (Return phone, st')
         /\ isPhonePattern phone = true).
Proof.
  split.
  - unfold CityScraper.generatePhone, bind, liftWorld, ret.
    destruct (CityScraper.random hc (world st)) as [r w].
    eexists _, _. split; [reflexivity | apply phoneOf_pattern].
  - unfold SpecialtyScraper.generatePhoneNumber, bind, liftWorld, ret.
    destruct (SpecialtyScraper.random hs (world st)) as [r w].
    eexists _, _. split; [reflexivity | apply phoneOf_pattern].
Qed.

(** ** Synthesized services *)

Lemma mockTreatment_wellFormed (nm : jsstring) (r1 r2 : Unit01) :
  wellFormedService (mockTreatment nm r1 r2).
Proof.
  unfold wellFormedService, mockTreatment. cbn [price currency durationMinutes].
  split; [|split].
  - eexists. split; [reflexivity | apply price_range].
  - reflexivity.
  - pose proof (floorScaled_range r2 3 ltac:(lia)) as H.
    assert (E : floorScaled r2 3 = 0 \/ floorScaled r2 3 = 1 \/ floorScaled r2 3 = 2) by lia.
    destruct E as [-> | [-> | ->]]; cbn; eexists; split; try reflexivity; lia.
Qed.

Lemma mockTreatments_spec {W : Type} (random : W -> Unit01 * W)
  (names : list jsstring) (w : W) :
  List.map name (fst (mockTreatments random names w)) = names
  /\ Forall wellFormedService (fst (mockTreatments random names w)).
Proof.
  revert w. induction names as [|nm rest IH]; intros w; cbn [mockTreatments].
  - split; [reflexivity | constructor].
  - destruct (random w) as [r1 w1]. destruct (random w1) as [r2 w2].
    specialize (IH w2). destruct (mockTreatments random rest w2) as [ts w3].
    cbn [fst] in *. destruct IH as [IHn IHw]. split.
    + cbn [List.map]. rewrite IHn. reflexivity.
    + constructor; [apply mockTreatment_wellFormed | exact IHw].
Qed.

Lemma lookupTreatments_unmatched (mapping : list (jsstring * list jsstring))
  (specialty : jsstring) :
  unmatched mapping specialty ->
  lookupTreatments mapping specialty = [lit "Consulta general"].
Proof.
  unfold unmatched, lookupTreatments. intros H.
  assert (E : find (fun entry => includes (toLowerCase specialty) (fst entry)) mapping = None).
  { induction mapping as [|e m IH]; [reflexivity|]. cbn [find].
    rewrite (H (fst e)) by (left; reflexivity).
    apply IH. intros key Hk. apply H. right. exact Hk. }
  rewrite E. reflexivity.
Qed.

(** C8. For a specialty whose normalised form contains no key of the table,
    generateMockTreatments returns exactly one service, named "Consulta
    general"; and every service it synthesizes, for any specialty, has a
    price in [50, 250], the currency 'PEN' and a duration of 30, 45 or 60
    minutes. This holds in both scrapers. *)
Theorem synthesized_services (W : Type)
  (hc : CityScraper.Host W) (hs : SpecialtyScraper.Host W)
  (specialty : jsstring) (st : Store W) :
  (exists ts st',
      CityScraper.generateMockTreatments hc specialty st = (Return ts, st')
      /\ Forall wellFormedService ts
      /\ (unmatched CityScraper.mapping specialty ->
          exists t, ts = [t] /\ name t = lit "Consulta general"))
  /\ (exists ts st',
         SpecialtyScraper.generateMockTreatments hs specialty st = (Return ts, st')
         /\ Forall wellFormedService ts
         /\ (unmatched SpecialtyScraper.treatmentsBySpecialty specialty ->
             exists t, ts = [t] /\ name t = lit "Consulta general")).
Proof.
  split.
  - unfold CityScraper.generateMockTreatments, liftWorld.
    pose proof (mockTreatments_spec (CityScraper.random hc)
                  (lookupTreatments CityScraper.mapping specialty) (world st)) as [Hn Hw].
    destruct (mockTreatments _ _ _) as [ts w]. cbn [fst] in *.
    eexists _, _. split; [reflexivity|]. split; [exact Hw|].
    intros Hu. rewrite (lookupTreatments_unmatched _ _ Hu) in Hn.
    destruct ts as [|t [|t' ts]]; try discriminate.
    exists t. split; [reflexivity|]. injection Hn as Hn. exact Hn.
  - unfold SpecialtyScraper.generateMockTreatments, liftWorld.
    pose proof (mockTreatments_spec (SpecialtyScraper.random hs)
                  (lookupTreatments SpecialtyScraper.treatmentsBySpecialty specialty)
                  (world st)) as [Hn Hw].
    destruct (mockTreatments _ _ _) as [ts w]. cbn [fst] in *.
    eexists _, _. split; [reflexivity|]. split; [exact Hw|].
    intros Hu. rewrite (lookupTreatments_unmatched _ _ Hu) in Hn.
    destruct ts as [|t [|t' ts]]; try discriminate.
    exists t. split; [reflexivity|]. injection Hn as Hn. exact Hn.
Qed.

(** ** Reasoning on computations *)

Section Logic.

Context {S : Type}.

Lemma triple_ret {A : Type} (P : S -> Prop) (a : A) (Q : A -> S -> Prop)
  (E : Error -> S -> Prop) :
  (forall s, P s -> Q a s) -> triple P (ret a) Q E.
Proof. intros H s Hs. apply H, Hs. Qed.

Lemma triple_throw {A : Type} (P : S -> Prop) (e : Error) (Q : A -> S -> Prop)
  (E : Error -> S -> Prop) :
  (forall s, P s -> E e s) -> triple P (throw e) Q E.
Proof. intros H s Hs. apply H, Hs. Qed.

Lemma triple_bind {A B : Type} (P : S -> Prop) (m : M S A) (k : A -> M S B)
  (R : A -> S -> Prop) (Q : B -> S -> Prop) (E : Error -> S -> Prop) :
  triple P m R E -> (forall a, triple (R a) (k a) Q E) -> triple P (bind m k) Q E.
Proof.
  intros Hm Hk s Hs. unfold bind. specialize (Hm s Hs).
  destruct (m s) as [[a|e] s1]; [apply (Hk a s1 Hm) | exact Hm].
Qed.

Lemma triple_tryCatch {A : Type} (P : S -> Prop) (m : M S A) (h : Error -> M S A)
  (Q : A -> S -> Prop) (R E : Error -> S -> Prop) :
  triple P m Q R -> (forall e, triple (R e) (h e) Q E) -> triple P (tryCatch m h) Q E.
Proof.
  intros Hm Hh s Hs. unfold tryCatch. specialize (Hm s Hs).
  destruct (m s) as [[a|e] s1]; [exact Hm | apply (Hh e s1 Hm)].
Qed.

Lemma triple_conseq {A : Type} (P P' : S -> Prop) (m : M S A)
  (Q Q' : A -> S -> Prop) (E E' : Error -> S -> Prop) :
  triple P' m Q' E' ->
  (forall s, P s -> P' s) ->
  (forall a s, Q' a s -> Q a s) ->
  (forall e s, E' e s -> E e s) ->
  triple P m Q E.
Proof.
  intros Hm HP HQ HE s Hs. specialize (Hm s (HP s Hs)).
  destruct (m s) as [[a|e] s1]; [apply HQ, Hm | apply HE, Hm].
Qed.

End Logic.

Section UrlKeeping.

Context {W : Type}.

Lemma returns_ret {A : Type} (a : A) (Q : A -> Prop) :
  Q a -> returns (W := W) (ret a) Q.
Proof. intros H U s Hs. split; assumption. Qed.

Lemma returns_weaken {A : Type} (m : M (Store W) A) (Q Q' : A -> Prop) :
  returns m Q' -> (forall a, Q' a -> Q a) -> returns m Q.
Proof.
  intros Hm HQ U s Hs. specialize (Hm U s Hs).
  destruct (m s) as [[a|e] s1]; [|exact Hm]. destruct Hm. split; auto.
Qed.

Lemma mayReturn_weaken {A : Type} (m : M (Store W) A) (Q Q' : A -> Prop) :
  mayReturn m Q' -> (forall a, Q' a -> Q a) -> mayReturn m Q.
Proof.
  intros Hm HQ U s Hs. specialize (Hm U s Hs).
  destruct (m s) as [[a|e] s1]; [|exact Hm]. destruct Hm. split; auto.
Qed.

Lemma mayReturn_of_returns {A : Type} (m : M (Store W) A) (Q : A -> Prop) :
  returns m Q -> mayReturn m Q.
Proof.
  intros Hm U s Hs. specialize (Hm U s Hs).
  destruct (m s) as [[a|e] s1]; [exact Hm | destruct Hm].
Qed.

Lemma returns_bind {A B : Type} (m : M (Store W) A) (k : A -> M (Store W) B)
  (R : A -> Prop) (Q : B -> Prop) :
  returns m R -> (forall a, R a -> returns (k a) Q) -> returns (bind m k) Q.
Proof.
  intros Hm Hk U s Hs. unfold bind. specialize (Hm U s Hs).
  destruct (m s) as [[a|e] s1]; [|exact Hm]. destruct Hm as [Ha Hu].
  apply (Hk a Ha U s1 Hu).
Qed.

Lemma mayReturn_bind {A B : Type} (m : M (Store W) A) (k : A -> M (Store W) B)
  (R : A -> Prop) (Q : B -> Prop) :
  mayReturn m R -> (forall a, R a -> mayReturn (k a) Q) -> mayReturn (bind m k) Q.
Proof.
  intros Hm Hk U s Hs. unfold bind. specialize (Hm U s Hs).
  destruct (m s) as [[a|e] s1]; [|exact Hm]. destruct Hm as [Ha Hu].
  apply (Hk a Ha U s1 Hu).
Qed.

Lemma returns_tryCatch {A : Type} (m : M (Store W) A) (h : Error -> M (Store W) A)
  (Q : A -> Prop) :
  mayReturn m Q -> (forall e, returns (h e) Q) -> returns (tryCatch m h) Q.
Proof.
  intros Hm Hh U s Hs. unfold tryCatch. specialize (Hm U s Hs).
  destruct (m s) as [[a|e] s1]; [exact Hm | apply (Hh e U s1 Hm)].
Qed.

Lemma returns_liftWorld {A : Type} (f : W -> A * W) (Q : A -> Prop) :
  (forall w, Q (fst (f w))) -> returns (liftWorld f) Q.
Proof.
  intros H U s Hs. unfold liftWorld. specialize (H (world s)).
  destruct (f (world s)) as [a w]. split; [exact H | exact Hs].
Qed.

Lemma mayReturn_callWorld {A : Type} (f : W -> Outcome A * W) :
  mayReturn (callWorld f) (fun _ => True).
Proof.
  intros U s Hs. unfold callWorld.
  destruct (f (world s)) as [[a|e] w]; [split; [exact I | exact Hs] | exact Hs].
Qed.

Lemma mayReturn_outcome {A : Type} (o : Outcome A) :
  mayReturn (W := W) (fun st => (o, st)) (fun a => o = Return a).
Proof.
  intros U s Hs. destruct o as [a|e]; [split; [reflexivity | exact Hs] | exact Hs].
Qed.

End UrlKeeping.

(** ** Dates *)

Lemma numLt_numOr0 (a : Z) (n : option Z) : numLt a n = true -> a < numOr0 n.
Proof.
  destruct n as [k|]; cbn [numLt numOr0]; [|discriminate]. apply Z.ltb_lt.
Qed.

Lemma setHours_local (zone : Zone) (t : Z) :
  setHours zone t (getHours zone t + 1) = utc zone (localTime zone t + msPerHour).
Proof.
  unfold setHours, getHours, localDay, timeInDay. f_equal.
  generalize (localTime zone t). intros l. unfold msPerDay, msPerHour.
  pose proof (Z.div_mod l 86400000 ltac:(lia)) as H1.
  pose proof (Z.div_mod (l mod 86400000) 3600000 ltac:(lia)) as H2.
  lia.
Qed.

Lemma nextHour_local (zone : Zone) (d : JsDate) :
  nextHour zone d = localHourLater zone d.
Proof.
  destruct d as [t|]; [|reflexivity].
  unfold nextHour, localHourLater. rewrite setHours_local. reflexivity.
Qed.

Lemma localHourLater_fixed (tz t : Z) :
  localHourLater (fixedZone tz) (DateOf t) = timeClip (t + msPerHour).
Proof.
  unfold localHourLater, utc, localTime, fixedZone. cbn [offsetAt offsetFor].
  f_equal. lia.
Qed.

Lemma setHours_next (tz t : Z) :
  setHours (fixedZone tz) t (getHours (fixedZone tz) t + 1) = t + msPerHour.
Proof.
  rewrite setHours_local. unfold utc, localTime, fixedZone. cbn [offsetAt offsetFor]. lia.
Qed.

Lemma timeClip_cases (t : Z) :
  (Z.abs t <= maxTime /\ timeClip t = DateOf t)
  \/ (maxTime < Z.abs t /\ timeClip t = InvalidDate).
Proof.
  unfold timeClip. destruct (Z.abs t <=? maxTime) eqn:E; [left | right].
  - apply Z.leb_le in E. split; [exact E | reflexivity].
  - apply Z.leb_gt in E. split; [exact E | reflexivity].
Qed.

(** A slot of one hour whose end is a date ends after its start. *)
Lemma hourFromStart_ordered (slot : AvailabilityData) :
  hourFromStart slot -> isDate (endAt slot) = true -> endsAfterStart slot.
Proof.
  unfold hourFromStart, endsAfterStart. destruct (startAt slot) as [t|]; intros H Hd.
  - rewrite H in Hd |- *. destruct (timeClip_cases (t + msPerHour)) as [[_ E]|[_ E]];
      rewrite E in Hd |- *; [unfold msPerHour; lia | discriminate Hd].
  - rewrite H in Hd. discriminate Hd.
Qed.

Lemma city_dayBlocks_ordered (tz date : Z) (isOnline : bool) :
  slotsOrdered (CityScraper.dayBlocks (fixedZone tz) date isOnline).
Proof.
  unfold slotsOrdered, CityScraper.dayBlocks.
  destruct (_ || _); [constructor|].
  repeat constructor; unfold endsAfterStart; cbn [startAt endAt];
    unfold setHoursSharp, utc, fixedZone, msPerHour; cbn [offsetFor]; lia.
Qed.

Lemma specialty_dayBlocks_ordered (tz date : Z) :
  slotsOrdered (SpecialtyScraper.dayBlocks (fixedZone tz) date).
Proof.
  unfold slotsOrdered, SpecialtyScraper.dayBlocks.
  destruct (_ || _); [constructor|].
  repeat constructor; unfold endsAfterStart; cbn [startAt endAt];
    unfold setHoursSharp, utc, fixedZone, msPerHour; cbn [offsetFor]; lia.
Qed.

Lemma Forall_flat_map_all {A B : Type} (P : B -> Prop) (f : A -> list B) (xs : list A) :
  (forall x, Forall P (f x)) -> Forall P (flat_map f xs).
Proof.
  intros H. induction xs as [|x xs IH]; cbn [flat_map].
  - constructor.
  - apply Forall_app. split; [apply H | exact IH].
Qed.

Lemma slotsOrdered_flat_map {A : Type} (f : A -> list AvailabilityData) (xs : list A) :
  (forall x, slotsOrdered (f x)) -> slotsOrdered (flat_map f xs).
Proof. apply Forall_flat_map_all. Qed.

Lemma city_mockAvailability_ordered (tz today : Z) (isOnline : bool) :
  slotsOrdered (CityScraper.mockAvailabilityFrom (fixedZone tz) today isOnline).
Proof.
  apply slotsOrdered_flat_map. intros day. apply city_dayBlocks_ordered.
Qed.

Lemma specialty_mockAvailability_ordered (tz today : Z) :
  slotsOrdered (SpecialtyScraper.mockAvailabilityFrom (fixedZone tz) today).
Proof.
  apply slotsOrdered_flat_map. intros day. apply specialty_dayBlocks_ordered.
Qed.

Lemma slotAvailability_hours (tz : Z) (slots : list CityScraper.Slot) :
  Forall hourFromStart (CityScraper.slotAvailability (fixedZone tz) slots).
Proof.
  apply Forall_flat_map_all. intros slot.
  destruct (_ && _); [|constructor].
  repeat constructor. unfold hourFromStart. cbn [startAt endAt].
  rewrite nextHour_local. destruct (CityScraper.start slot) as [t|]; [|reflexivity].
  apply localHourLater_fixed.
Qed.

(** ** The city-indexed crawl *)

Section CityCrawl.
Context {W : Type}.
Variable host : CityScraper.Host W.
Variable cfg : CityScraper.Config.

Lemma city_generatePhone_returns :
  returns (CityScraper.generatePhone host) (fun p => isPhonePattern p = true).
Proof.
  unfold CityScraper.generatePhone.
  eapply returns_bind; [apply returns_liftWorld with (Q := fun _ => True); auto|].
  intros r _. apply returns_ret. apply phoneOf_pattern.
Qed.

Lemma city_extractPhone_returns (doc : CityScraper.ProfileDoc) :
  returns (CityScraper.extractPhone host doc) (fun _ => True).
Proof.
  assert (Hgen : returns (CityScraper.generatePhone host) (fun _ : jsstring => True)).
  { eapply returns_weaken; [apply city_generatePhone_returns | auto]. }
  unfold CityScraper.extractPhone.
  apply returns_tryCatch; [|intros e; exact Hgen].
  eapply mayReturn_bind; [apply mayReturn_outcome|]. intros phoneMeta _.
  destruct (truthy _); [apply mayReturn_of_returns, returns_ret; exact I|].
  eapply mayReturn_bind; [apply mayReturn_outcome|]. intros body _.
  apply mayReturn_of_returns.
  destruct (CityScraper.firstMatch _ _); [apply returns_ret; exact I | exact Hgen].
Qed.

Lemma city_generateMockTreatments_returns (specialty : jsstring) :
  returns (CityScraper.generateMockTreatments host specialty) (Forall wellFormedService).
Proof.
  unfold CityScraper.generateMockTreatments. apply returns_liftWorld.
  intros w. apply mockTreatments_spec.
Qed.

Lemma city_generateMockAvailability_returns (isOnline : bool) :
  returns (CityScraper.generateMockAvailability host cfg isOnline) slotsOrdered.
Proof.
  unfold CityScraper.generateMockAvailability.
  eapply returns_bind; [apply returns_liftWorld with (Q := fun _ => True); auto|].
  intros today _. apply returns_ret. apply city_mockAvailability_ordered.
Qed.

Lemma city_fetchAvailability_returns (doctorId addressId : jsstring) :
  returns (CityScraper.fetchAvailability host cfg doctorId addressId)
    (Forall hourFromStart).
Proof.
  unfold CityScraper.fetchAvailability.
  apply returns_tryCatch; [|intros e; apply returns_ret; constructor].
  eapply mayReturn_bind;
    [apply mayReturn_of_returns, returns_liftWorld with (Q := fun _ => True); auto|].
  intros today _.
  eapply mayReturn_bind; [apply mayReturn_callWorld|].
  intros slots _. apply mayReturn_of_returns, returns_ret.
  apply slotAvailability_hours.
Qed.

Lemma datedSlots_of_ordered (slots : list AvailabilityData) :
  slotsOrdered slots -> datedSlotsOrdered slots.
Proof.
  unfold slotsOrdered, datedSlotsOrdered. intros H.
  eapply List.Forall_impl; [|exact H]. intros slot Hs _. exact Hs.
Qed.

Lemma datedSlots_of_hours (slots : list AvailabilityData) :
  Forall hourFromStart slots -> datedSlotsOrdered slots.
Proof.
  unfold datedSlotsOrdered. intros H.
  eapply List.Forall_impl; [|exact H]. intros slot Hs. apply hourFromStart_ordered, Hs.
Qed.

Lemma city_scrapeDoctorProfile_returns (result : CityScraper.DoctorSearchResult.t) :
  returns (CityScraper.scrapeDoctorProfile host cfg result)
    (fun o => forall d, o = Some d ->
       profileUrl d = CityScraper.DoctorSearchResult.doctorUrl result
       /\ datedSlotsOrdered (availability d)
       /\ (CityScraper.useRealAvailability cfg = false -> slotsOrdered (availability d))).
Proof.
  unfold CityScraper.scrapeDoctorProfile.
  apply returns_tryCatch; [|intros e; apply returns_ret; discriminate].
  eapply mayReturn_bind; [apply mayReturn_callWorld|]. intros doc _. cbv zeta.
  eapply mayReturn_bind; [apply mayReturn_outcome|]. intros extracted _.
  apply mayReturn_of_returns.
  eapply returns_bind; [apply city_extractPhone_returns|]. intros phone _.
  eapply returns_bind with (R := fun _ => True).
  { destruct (0 <? _).
    - apply returns_ret. exact I.
    - eapply returns_weaken; [apply city_generateMockTreatments_returns | auto]. }
  intros ts _.
  assert (Hmock : forall isOnline,
             returns (CityScraper.generateMockAvailability host cfg isOnline)
               (fun av => datedSlotsOrdered av
                          /\ (CityScraper.useRealAvailability cfg = false ->
                              slotsOrdered av))).
  { intros isOnline.
    eapply returns_weaken; [apply city_generateMockAvailability_returns|].
    intros av Hav. split; [apply datedSlots_of_ordered, Hav | intros _; exact Hav]. }
  eapply returns_bind
    with (R := fun av => datedSlotsOrdered av
                         /\ (CityScraper.useRealAvailability cfg = false ->
                             slotsOrdered av)).
  { destruct (CityScraper.useRealAvailability cfg) eqn:Hreal; cbn [andb].
    - destruct (truthy _).
      + eapply returns_bind; [apply city_fetchAvailability_returns|].
        intros fetched Hf. destruct (_ =? 0).
        * apply Hmock.
        * apply returns_ret. split; [apply datedSlots_of_hours, Hf | discriminate].
      + apply Hmock.
    - apply Hmock. }
  intros av [Hav Hoff]. apply returns_ret. intros d [= <-].
  split; [reflexivity|]. split; [exact Hav | exact Hoff].
Qed.

Lemma city_fetchPages_returns (pages : list Z) (city : jsstring) :
  forall found, returns (CityScraper.fetchPages host pages city found) (fun _ => True).
Proof.
  induction pages as [|page rest IH]; intros found; cbn [CityScraper.fetchPages].
  - apply returns_ret. exact I.
  - eapply returns_bind with (R := fun _ => True).
    + apply returns_tryCatch; [|intros e; apply returns_ret; exact I].
      eapply mayReturn_bind; [apply mayReturn_callWorld|]. intros cards _. cbv zeta.
      apply mayReturn_of_returns. destruct (_ =? 0).
      * apply returns_ret. exact I.
      * eapply returns_bind; [apply returns_liftWorld with (Q := fun _ => True); auto|].
        intros _ _. apply returns_ret. exact I.
    + intros [|more] _; [apply returns_ret; exact I | apply IH].
Qed.

Lemma freshBatch_snoc (U0 : gset jsstring) (doctors : list DoctorData) (d : DoctorData)
  (s s' : Store W) :
  freshBatch U0 doctors s ->
  profileUrl d ∉ scrapedUrls s ->
  scrapedUrls s' = {[profileUrl d]} ∪ scrapedUrls s ->
  freshBatch U0 (doctors ++ [d]) s'.
Proof.
  intros (Hsub & Hnd & Hin) Hnew Hs'. unfold freshBatch. rewrite Hs', map_app.
  split; [set_solver|]. split.
  - apply NoDup_app. split; [exact Hnd|]. split.
    + intros u Hu Hu'. apply list_elem_of_singleton in Hu'. subst u.
      apply Hin in Hu. tauto.
    + apply NoDup_singleton.
  - intros u Hu. apply elem_of_app in Hu as [Hu|Hu].
    + apply Hin in Hu. set_solver.
    + apply list_elem_of_singleton in Hu. subst u. set_solver.
Qed.

Lemma city_scrapeProfiles_batch (U0 : gset jsstring)
  (searchResults : list CityScraper.DoctorSearchResult.t) :
  forall processed doctors,
    triple (freshBatch U0 doctors)
      (CityScraper.scrapeProfiles host cfg searchResults processed doctors)
      (fun ds s' => freshBatch U0 ds s') (fun _ _ => False).
Proof.
  induction searchResults as [|result rest IH]; intros processed doctors s Hs;
    cbn [CityScraper.scrapeProfiles].
  - exact Hs.
  - destruct (numGe processed _); [exact Hs|].
    unfold bind at 1. unfold hasUrl at 1. case_bool_decide as Hseen.
    + apply IH, Hs.
    + unfold bind at 1. unfold tryCatch at 1. unfold bind at 1.
      pose proof (city_scrapeDoctorProfile_returns result (scrapedUrls s) s eq_refl) as Hp.
      destruct (CityScraper.scrapeDoctorProfile host cfg result s) as [[[d|]|e] s1];
        [| |destruct Hp].
      * destruct Hp as [Hd Hu]. destruct (Hd d eq_refl) as [Hurl _].
        destruct (CityScraper.isValidDoctor d).
        -- unfold bind, addUrl, liftWorld, ret. cbv beta iota. cbn [world].
           destruct (CityScraper.sleep host 400 (world s1)) as [[] w2].
           cbv beta iota. apply IH. eapply freshBatch_snoc; [| |cbn [scrapedUrls]; rewrite Hurl, Hu; reflexivity].
           ++ destruct Hs as (H1 & H2 & H3). repeat split; try assumption; apply H3; assumption.
           ++ rewrite Hurl. exact Hseen.
        -- unfold ret. cbv beta iota. apply IH. destruct Hs as (H1 & H2 & H3).
           unfold freshBatch. rewrite Hu. auto.
      * unfold ret. cbv beta iota. apply IH. destruct Hs as (H1 & H2 & H3). destruct Hp as [_ Hu].
        unfold freshBatch. rewrite Hu. auto.
Qed.


Lemma city_scrapeDoctorsByCity_batch (U0 : gset jsstring) (city : jsstring) :
  triple (fun s => U0 ⊆ scrapedUrls s)
    (CityScraper.scrapeDoctorsByCity host cfg city)
    (fun ds s' => freshBatch U0 ds s') (fun _ _ => False).
Proof.
  intros s Hs. unfold CityScraper.scrapeDoctorsByCity, bind.
  pose proof (city_fetchPages_returns
                (countFrom 1 (Z.to_nat (CityScraper.maxPages cfg))) city []
                (scrapedUrls s) s eq_refl) as Hp.
  destruct (CityScraper.fetchPages _ _ _ _ s) as [[found|e] s1]; [|destruct Hp].
  destruct Hp as [_ Hu]. apply city_scrapeProfiles_batch.
  unfold freshBatch. rewrite Hu. split; [exact Hs|]. split; [constructor|].
  intros u Hin. inversion Hin.
Qed.

Lemma distinctUrls_app (all batch : list DoctorData) (s s' : Store W) :
  distinctUrls all s -> freshBatch (scrapedUrls s) batch s' ->
  distinctUrls (all ++ batch) s'.
Proof.
  intros [Hnd Hin] (Hsub & Hnd' & Hin'). unfold distinctUrls. rewrite map_app. split.
  - apply NoDup_app. split; [exact Hnd|]. split; [|exact Hnd'].
    intros u Hu Hu'. apply Hin' in Hu'. apply Hin in Hu. tauto.
  - intros u Hu. apply elem_of_app in Hu as [Hu|Hu].
    + apply Hsub, Hin, Hu.
    + apply Hin', Hu.
Qed.

Lemma city_scrapeCities_distinct (cities : list jsstring) :
  forall allDoctors,
    triple (distinctUrls allDoctors)
      (CityScraper.scrapeCities host cfg cities allDoctors)
      (fun ds s' => distinctUrls ds s') (fun _ _ => False).
Proof.
  induction cities as [|city rest IH]; intros allDoctors s Hs;
    cbn [CityScraper.scrapeCities].
  - exact Hs.
  - unfold bind.
    assert (Hsub : scrapedUrls s ⊆ scrapedUrls s) by reflexivity.
    pose proof (city_scrapeDoctorsByCity_batch (scrapedUrls s) (trim city) s Hsub) as Hc.
    destruct (CityScraper.scrapeDoctorsByCity host cfg (trim city) s)
      as [[cityDoctors|e] s1]; [|destruct Hc].
    apply IH. exact (distinctUrls_app _ _ _ _ Hs Hc).
Qed.

Lemma city_saveJsonFiles_returns (doctors : list DoctorData) :
  returns (CityScraper.saveJsonFiles host doctors) (fun _ => True).
Proof.
  unfold CityScraper.saveJsonFiles.
  apply returns_tryCatch; [apply mayReturn_callWorld|].
  intros e. apply returns_ret. exact I.
Qed.

Lemma city_scrapeDoctors_cases (st : Store W) :
  exists all st1,
    CityScraper.scrapeCities host cfg (CityScraper.cities cfg) [] st = (Return all, st1)
    /\ ((all = [] /\ CityScraper.scrapeDoctors host cfg st = (Throw NoDoctorsFound, st1))
        \/ (all <> [] /\ exists st2,
               CityScraper.scrapeDoctors host cfg st = (Return all, st2))).
Proof.
  pose proof (city_scrapeCities_distinct (CityScraper.cities cfg) [] st) as Hc.
  unfold CityScraper.scrapeDoctors, tryCatch, bind.
  destruct (CityScraper.scrapeCities host cfg (CityScraper.cities cfg) [] st)
    as [[all|e] st1].
  - exists all, st1. split; [reflexivity|]. destruct all as [|d all].
    + left. split; reflexivity.
    + right. split; [discriminate|].
      cbn [length]. rewrite Nat2Z.inj_succ.
      destruct (Z.eqb_spec (Z.succ (Z.of_nat (length all))) 0) as [?|_]; [lia|].
      pose proof (city_saveJsonFiles_returns (d :: all) (scrapedUrls st1) st1 eq_refl) as Hsv.
      destruct (CityScraper.saveJsonFiles host (d :: all) st1) as [[[]|e] st2];
        [|destruct Hsv].
      exists st2. reflexivity.
  - exfalso. apply Hc. split; [constructor|]. intros u Hu. inversion Hu.
Qed.

End CityCrawl.

(** ** The specialty-indexed crawl *)

Section SpecialtyCrawl.
Context {W : Type}.
Variable host : SpecialtyScraper.Host W.
Variable cfg : SpecialtyScraper.Config.

Lemma specialty_generateMockAvailability_returns :
  returns (SpecialtyScraper.generateMockAvailability host cfg) slotsOrdered.
Proof.
  unfold SpecialtyScraper.generateMockAvailability.
  eapply returns_bind; [apply returns_liftWorld with (Q := fun _ => True); auto|].
  intros today _. apply returns_ret. apply specialty_mockAvailability_ordered.
Qed.

Lemma specialty_draw_returns {A : Type} (f : Unit01 -> A) :
  returns (bind (liftWorld (SpecialtyScraper.random host)) (fun r => ret (f r)))
    (fun _ => True).
Proof.
  eapply returns_bind; [apply returns_liftWorld with (Q := fun _ => True); auto|].
  intros r _. apply returns_ret. exact I.
Qed.

Lemma specialty_parseDoctorCard_returns (card : SpecialtyScraper.Card)
  (defaultSpecialty defaultCity : jsstring) :
  returns (SpecialtyScraper.parseDoctorCard host cfg card defaultSpecialty defaultCity)
    (fun o => forall d, o = Some d -> slotsOrdered (availability d)).
Proof.
  unfold SpecialtyScraper.parseDoctorCard.
  apply returns_tryCatch; [|intros e; apply returns_ret; discriminate].
  eapply mayReturn_bind; [apply mayReturn_outcome|]. intros elt _. cbv zeta.
  apply mayReturn_of_returns.
  destruct (negb (truthy (orElse (SpecialtyScraper.linkHref elt) [])));
    [apply returns_ret; discriminate|].
  match goal with |- returns (if ?c then _ else _) _ => destruct c end;
    [apply returns_ret; discriminate|].
  eapply returns_bind with (R := fun _ => True).
  { match goal with |- returns (match ?c with _ => _ end) _ => destruct c end.
    - apply returns_ret. exact I.
    - apply specialty_draw_returns. }
  intros rating _.
  eapply returns_bind with (R := fun _ => True).
  { match goal with |- returns (if ?c then _ else _) _ => destruct c end.
    - apply returns_ret. exact I.
    - eapply returns_bind; [apply specialty_draw_returns|].
      intros n _. apply returns_ret. exact I. }
  intros reviewCount _.
  eapply returns_bind; [apply specialty_draw_returns|]. intros phone _.
  eapply returns_bind with (R := fun _ => True).
  { destruct reviewCount; [apply returns_ret; exact I | apply specialty_draw_returns]. }
  intros finalCount _.
  eapply returns_bind with (R := fun _ => True).
  { apply returns_liftWorld. auto. }
  intros ts _.
  eapply returns_bind; [apply specialty_generateMockAvailability_returns|].
  intros av Hav. apply returns_ret. intros d [= <-]. exact Hav.
Qed.

Lemma specialty_parseStandardCards_batch (U0 : gset jsstring)
  (cards : list SpecialtyScraper.Card) (specialty city : jsstring) :
  forall parsed doctors,
    triple (freshBatch U0 doctors)
      (SpecialtyScraper.parseStandardCards host cfg cards specialty city parsed doctors)
      (fun ds s' => freshBatch U0 ds s') (fun _ _ => False).
Proof.
  induction cards as [|card rest IH]; intros parsed doctors s Hs;
    cbn [SpecialtyScraper.parseStandardCards].
  - exact Hs.
  - destruct (negb _); [exact Hs|].
    unfold bind at 1. unfold tryCatch at 1. unfold bind at 1.
    pose proof (specialty_parseDoctorCard_returns card specialty city
                  (scrapedUrls s) s eq_refl) as Hp.
    destruct (SpecialtyScraper.parseDoctorCard host cfg card specialty city s)
      as [[[d|]|e] s1]; [| |destruct Hp]; destruct Hp as [_ Hu].
    + unfold bind at 1. unfold hasUrl at 1. case_bool_decide as Hseen; cbn [negb].
      * unfold ret. cbv beta iota. apply IH.
        destruct Hs as (H1 & H2 & H3). unfold freshBatch. rewrite Hu. auto.
      * destruct (SpecialtyScraper.isValidDoctor d).
        -- unfold bind, addUrl, ret. cbv beta iota. apply IH.
           eapply freshBatch_snoc; [| |cbn [scrapedUrls]; rewrite Hu; reflexivity].
           ++ exact Hs.
           ++ rewrite <- Hu. exact Hseen.
        -- unfold ret. cbv beta iota. apply IH.
           destruct Hs as (H1 & H2 & H3). unfold freshBatch. rewrite Hu. auto.
    + unfold ret. cbv beta iota. apply IH.
      destruct Hs as (H1 & H2 & H3). unfold freshBatch. rewrite Hu. auto.
Qed.

Lemma freshBatch_nil (U0 : gset jsstring) (s : Store W) :
  U0 ⊆ scrapedUrls s -> freshBatch U0 [] s.
Proof.
  intros H. split; [exact H|]. split; [constructor|]. intros u Hu. inversion Hu.
Qed.

Lemma specialty_scrapeDoctorsFromHomepage_batch (U0 : gset jsstring)
  (specialty city : jsstring) :
  triple (fun s => U0 ⊆ scrapedUrls s)
    (SpecialtyScraper.scrapeDoctorsFromHomepage host cfg specialty city)
    (fun ds s' => freshBatch U0 ds s') (fun _ _ => False).
Proof.
  intros s Hs. unfold SpecialtyScraper.scrapeDoctorsFromHomepage, tryCatch, bind.
  pose proof (mayReturn_callWorld
                (SpecialtyScraper.getHomepage host (SpecialtyScraper.baseUrl cfg))
                (scrapedUrls s) s eq_refl) as Hp.
  destruct (callWorld _ s) as [[cards|e] s1].
  - destruct Hp as [_ Hu].
    pose proof (specialty_parseStandardCards_batch U0 cards specialty city 0 [] s1) as Hb.
    destruct (SpecialtyScraper.parseStandardCards _ _ _ _ _ _ _ s1) as [[ds|e] s2].
    + apply Hb, freshBatch_nil. rewrite Hu. exact Hs.
    + exfalso. apply Hb, freshBatch_nil. rewrite Hu. exact Hs.
  - unfold ret. apply freshBatch_nil. rewrite Hp. exact Hs.
Qed.

Lemma specialty_scrapeDoctorsBySpecialtyAndCity_batch (U0 : gset jsstring)
  (specialty city : jsstring) :
  triple (fun s => U0 ⊆ scrapedUrls s)
    (SpecialtyScraper.scrapeDoctorsBySpecialtyAndCity host cfg specialty city)
    (fun ds s' => freshBatch U0 ds s') (fun _ _ => False).
Proof.
  unfold SpecialtyScraper.scrapeDoctorsBySpecialtyAndCity. cbv zeta.
  eapply triple_tryCatch with (R := fun _ s => U0 ⊆ scrapedUrls s).
  - eapply triple_bind with (R := fun _ s => U0 ⊆ scrapedUrls s).
    + intros s Hs.
      match goal with |- context [callWorld ?f s] =>
        pose proof (mayReturn_callWorld f (scrapedUrls s) s eq_refl) as Hp;
        destruct (callWorld f s) as [[page|e] s1] end.
      * destruct Hp as [_ Hu]. rewrite Hu. exact Hs.
      * rewrite Hp. exact Hs.
    + intros page. destruct (0 <? _).
      * eapply triple_conseq;
          [apply (specialty_parseStandardCards_batch U0) | | auto | intros e s []].
        intros s Hs. apply freshBatch_nil, Hs.
      * eapply triple_bind with (R := fun _ s => U0 ⊆ scrapedUrls s).
        -- intros s Hs. destruct (SpecialtyScraper.filterLinks _); exact Hs.
        -- intros alt. destruct (0 <? _).
           ++ eapply triple_conseq;
                [apply (specialty_parseStandardCards_batch U0) | | auto | intros e s []].
              intros s Hs. apply freshBatch_nil, Hs.
           ++ apply triple_ret. intros s Hs. apply freshBatch_nil, Hs.
  - intros e.
    assert (Hret : triple (fun s : Store W => U0 ⊆ scrapedUrls s) (ret [])
                     (fun ds s' => freshBatch U0 ds s') (fun _ _ => False)).
    { apply triple_ret. intros s Hs. apply freshBatch_nil, Hs. }
    destruct e as [|[status|]|]; try exact Hret.
    destruct status as [|p|p]; try exact Hret.
    do 9 (destruct p as [p|p|]; try exact Hret).
    apply specialty_scrapeDoctorsFromHomepage_batch.
Qed.

Lemma specialty_scrapeCities_distinct (specialty : jsstring) (cities : list jsstring) :
  forall doctors,
    triple (distinctUrls doctors)
      (SpecialtyScraper.scrapeCities host cfg specialty cities doctors)
      (fun ds s' => distinctUrls ds s') (fun _ _ => False).
Proof.
  induction cities as [|city rest IH]; intros doctors s Hs;
    cbn [SpecialtyScraper.scrapeCities].
  - exact Hs.
  - unfold bind.
    assert (Hsub : scrapedUrls s ⊆ scrapedUrls s) by reflexivity.
    pose proof (specialty_scrapeDoctorsBySpecialtyAndCity_batch (scrapedUrls s)
                  (trim specialty) (trim city) s Hsub) as Hc.
    destruct (SpecialtyScraper.scrapeDoctorsBySpecialtyAndCity _ _ _ _ s)
      as [[cityDoctors|e] s1]; [|destruct Hc].
    apply IH. exact (distinctUrls_app _ _ _ _ Hs Hc).
Qed.

Lemma specialty_scrapeSpecialties_distinct (specialties : list jsstring) :
  forall doctors,
    triple (distinctUrls doctors)
      (SpecialtyScraper.scrapeSpecialties host cfg specialties doctors)
      (fun ds s' => distinctUrls ds s') (fun _ _ => False).
Proof.
  induction specialties as [|specialty rest IH]; intros doctors;
    cbn [SpecialtyScraper.scrapeSpecialties].
  - apply triple_ret. auto.
  - eapply triple_bind; [apply specialty_scrapeCities_distinct | intros ds; apply IH].
Qed.

Lemma specialty_scrapeDoctors_cases (st : Store W) :
  exists all st1,
    SpecialtyScraper.scrapeSpecialties host cfg (SpecialtyScraper.specialties cfg) [] st
    = (Return all, st1)
    /\ ((all = [] /\ SpecialtyScraper.scrapeDoctors host cfg st = (Throw NoDoctorsFound, st1))
        \/ (all <> [] /\ SpecialtyScraper.scrapeDoctors host cfg st = (Return all, st1))).
Proof.
  pose proof (specialty_scrapeSpecialties_distinct (SpecialtyScraper.specialties cfg) [] st)
    as Hc.
  unfold SpecialtyScraper.scrapeDoctors, tryCatch, bind.
  destruct (SpecialtyScraper.scrapeSpecialties _ _ _ _ st) as [[all|e] st1].
  - exists all, st1. split; [reflexivity|]. destruct all as [|d all].
    + left. split; reflexivity.
    + right. split; [discriminate|].
      cbn [length]. rewrite Nat2Z.inj_succ.
      destruct (Z.eqb_spec (Z.succ (Z.of_nat (length all))) 0) as [?|_]; [lia|].
      reflexivity.
  - exfalso. apply Hc. split; [constructor|]. intros u Hu. inversion Hu.
Qed.

End SpecialtyCrawl.

(** ** Running a computation *)

Lemma returns_run {W A : Type} (m : M (Store W) A) (Q : A -> Prop) (st : Store W) :
  returns m Q -> exists a st', m st = (Return a, st') /\ Q a.
Proof.
  intros H. specialize (H (scrapedUrls st) st eq_refl).
  destruct (m st) as [[a|e] st']; [|destruct H]. exists a, st'. tauto.
Qed.

Lemma returns_value {W A : Type} (m : M (Store W) A) (Q : A -> Prop)
  (st st' : Store W) (a : A) :
  returns m Q -> m st = (Return a, st') -> Q a.
Proof.
  intros H E. specialize (H (scrapedUrls st) st eq_refl). rewrite E in H. tauto.
Qed.

Lemma triple_run {S A : Type} (P : S -> Prop) (m : M S A) (Q : A -> S -> Prop) (s : S) :
  triple P m Q (fun _ _ => False) -> P s -> exists a s', m s = (Return a, s') /\ Q a s'.
Proof.
  intros H Hs. specialize (H s Hs).
  destruct (m s) as [[a|e] s']; [|destruct H]. exists a, s'. tauto.
Qed.

Lemma bind_inv {S A B : Type} (m : M S A) (k : A -> M S B) (s s' : S) (b : B) :
  bind m k s = (Return b, s') ->
  exists a s1, m s = (Return a, s1) /\ k a s1 = (Return b, s').
Proof.
  unfold bind. destruct (m s) as [[a|e] s1]; [eauto | discriminate].
Qed.

Lemma tryCatch_inv {S A : Type} (m : M S A) (h : Error -> M S A) (s s' : S) (a : A) :
  tryCatch m h s = (Return a, s') ->
  m s = (Return a, s') \/ exists e s1, m s = (Throw e, s1) /\ h e s1 = (Return a, s').
Proof.
  unfold tryCatch. destruct (m s) as [[x|e] s1]; [auto | eauto].
Qed.

(** ** The address of a record *)

Lemma extractAddress_total (doc : CityScraper.ProfileDoc) :
  exists r, CityScraper.extractAddress doc = Return r.
Proof.
  unfold CityScraper.extractAddress.
  destruct (CityScraper.addressBlocks doc) as [blocks|e]; cbn [andThen attempt]; [|eauto].
  destruct (truthy _); cbn [attempt]; [eauto|].
  destruct (CityScraper.streetAddressSpan doc) as [node|e]; cbn [andThen attempt]; [|eauto].
  destruct (CityScraper.addressFromStreetNode node); cbn [attempt]; [eauto|].
  destruct (CityScraper.metaStreetAddress doc) as [meta|e]; cbn [andThen attempt]; [|eauto].
  destruct (CityScraper.addressFromMeta meta); cbn [attempt]; [eauto|].
  destruct (CityScraper.layoutSpans doc) as [containers|e]; cbn [andThen attempt]; [|eauto].
  destruct (truthy _); cbn [attempt]; [eauto|].
  destruct (CityScraper.paragraphSpans doc) as [paragraphs|e]; cbn [andThen attempt]; [|eauto].
  destruct (truthy _); cbn [attempt]; eauto.
Qed.

Lemma scrapeDoctorProfile_address {W : Type} (host : CityScraper.Host W)
  (cfg : CityScraper.Config) (result : CityScraper.DoctorSearchResult.t)
  (st st' : Store W) (d : DoctorData) :
  CityScraper.scrapeDoctorProfile host cfg result st = (Return (Some d), st') ->
  exists doc w',
    CityScraper.getProfile host (CityScraper.DoctorSearchResult.doctorUrl result) (world st)
    = (Return doc, w')
    /\ (CityScraper.extractAddress doc = Return None ->
        address d = lit "Consultorio en " ++ CityScraper.DoctorSearchResult.city result).
Proof.
  unfold CityScraper.scrapeDoctorProfile. intros H.
  apply tryCatch_inv in H as [H|(e & s1 & _ & H)]; [|discriminate].
  apply bind_inv in H as (doc & s1 & Hdoc & H). cbv zeta in H.
  apply bind_inv in H as (extracted & s2 & Hex & H).
  apply bind_inv in H as (phone & s3 & _ & H).
  apply bind_inv in H as (ts & s4 & _ & H).
  apply bind_inv in H as (av & s5 & _ & H).
  injection H as Hd _. subst d. cbn [address].
  unfold callWorld in Hdoc.
  destruct (CityScraper.getProfile host _ (world st)) as [o w'] eqn:Hget.
  injection Hdoc as -> _. exists doc, w'. split; [reflexivity|].
  intros Hnone. rewrite Hnone in Hex. injection Hex as <- _. reflexivity.
Qed.

(** C6. The address extractor never raises: for any parsed document, also
    one whose queries throw, extractAddress returns a string or null. And
    whenever it returns null for the profile page of a listing, the record
    produced for that listing has the address "Consultorio en <city>" with
    the city of the listing. *)
Theorem address_never_raises_and_falls_back (W : Type) (host : CityScraper.Host W)
  (cfg : CityScraper.Config) :
  (forall doc, exists r, CityScraper.extractAddress doc = Return r)
  /\ (forall result st d st',
         CityScraper.scrapeDoctorProfile host cfg result st = (Return (Some d), st') ->
         exists doc w',
           CityScraper.getProfile host
             (CityScraper.DoctorSearchResult.doctorUrl result) (world st)
           = (Return doc, w')
           /\ (CityScraper.extractAddress doc = Return None ->
               address d
               = lit "Consultorio en " ++ CityScraper.DoctorSearchResult.city result)).
Proof.
  split; [apply extractAddress_total|].
  intros result st d st'. apply scrapeDoctorProfile_address.
Qed.

Lemma address_never_raises_and_falls_back_witness :
  exists d st',
    CityScraper.scrapeDoctorProfile sampleCityHost sampleCityConfig sampleResult emptyStore
    = (Return (Some d), st')
    /\ CityScraper.extractAddress sampleProfile = Return None
    /\ address d = lit "Consultorio en Lima".
Proof.
  destruct (CityScraper.scrapeDoctorProfile sampleCityHost sampleCityConfig
              sampleResult emptyStore) as [[[d|]|e] st'] eqn:E;
    [|vm_compute in E; discriminate|vm_compute in E; discriminate].
  exists d, st'. split; [reflexivity|]. split; [reflexivity|].
  destruct (proj2 (address_never_raises_and_falls_back nat sampleCityHost sampleCityConfig)
              sampleResult emptyStore d st' E) as (doc & w' & Hdoc & Haddr).
  injection Hdoc as <- _. exact (Haddr eq_refl).
Defined.




(** ** Duplicates *)

Lemma city_skip_seen {W : Type} (host : CityScraper.Host W) (cfg : CityScraper.Config)
  (result : CityScraper.DoctorSearchResult.t)
  (rest : list CityScraper.DoctorSearchResult.t) (processed : Z)
  (doctors : list DoctorData) (st : Store W) :
  CityScraper.DoctorSearchResult.doctorUrl result ∈ scrapedUrls st ->
  CityScraper.scrapeProfiles host cfg (result :: rest) processed doctors st
  = CityScraper.scrapeProfiles host cfg rest processed doctors st.
Proof.
  intros Hseen. cbn [CityScraper.scrapeProfiles].
  destruct (numGe processed _) eqn:Hcap.
  - destruct rest; cbn [CityScraper.scrapeProfiles]; [reflexivity|].
    rewrite Hcap. reflexivity.
  - unfold bind at 1. unfold hasUrl at 1.
    rewrite bool_decide_eq_true_2 by exact Hseen. reflexivity.
Qed.

Lemma city_duplicate_listing {W : Type} (host : CityScraper.Host W)
  (cfg : CityScraper.Config) (result : CityScraper.DoctorSearchResult.t)
  (st st1 : Store W) (d : DoctorData) :
  numGe 0 (CityScraper.maxDoctorsPerCity cfg) = false ->
  CityScraper.DoctorSearchResult.doctorUrl result ∉ scrapedUrls st ->
  CityScraper.scrapeDoctorProfile host cfg result st = (Return (Some d), st1) ->
  CityScraper.isValidDoctor d = true ->
  exists st', CityScraper.scrapeProfiles host cfg [result; result] 0 [] st
              = (Return [d], st').
Proof.
  intros Hcap Hnew Hp Hv. cbn [CityScraper.scrapeProfiles]. rewrite Hcap.
  unfold bind at 1. unfold hasUrl at 1.
  rewrite bool_decide_eq_false_2 by exact Hnew.
  unfold bind at 1. unfold tryCatch at 1. unfold bind at 1. rewrite Hp, Hv.
  unfold bind at 1. unfold addUrl at 1. unfold bind at 1. unfold liftWorld at 1.
  cbn [world scrapedUrls].
  destruct (CityScraper.sleep host 400 (world st1)) as [[] w2].
  unfold ret at 1. cbv beta iota. cbn [app].
  destruct (numGe (0 + 1) _); [eexists; reflexivity|].
  unfold bind at 1. unfold hasUrl at 1. cbn [scrapedUrls].
  rewrite bool_decide_eq_true_2.
  - eexists. reflexivity.
  - pose proof (city_scrapeDoctorProfile_returns host cfg result (scrapedUrls st) st eq_refl)
      as Hk.
    rewrite Hp in Hk. destruct Hk as [Hd _]. rewrite <- (proj1 (Hd d eq_refl)).
    apply elem_of_union_l, elem_of_singleton. reflexivity.
Qed.

Lemma specialty_duplicate_card {W : Type} (host : SpecialtyScraper.Host W)
  (cfg : SpecialtyScraper.Config) (card1 card2 : SpecialtyScraper.Card)
  (specialty city : jsstring) (st st1 st2 : Store W) (d1 d2 : DoctorData) :
  numLt 0 (SpecialtyScraper.maxDoctorsPerSpecialty cfg) = true ->
  SpecialtyScraper.parseDoctorCard host cfg card1 specialty city st
  = (Return (Some d1), st1) ->
  profileUrl d1 ∉ scrapedUrls st ->
  SpecialtyScraper.isValidDoctor d1 = true ->
  SpecialtyScraper.parseDoctorCard host cfg card2 specialty city
    {| world := world st1; scrapedUrls := {[profileUrl d1]} ∪ scrapedUrls st1 |}
  = (Return (Some d2), st2) ->
  profileUrl d2 = profileUrl d1 ->
  exists st',
    SpecialtyScraper.parseStandardCards host cfg [card1; card2] specialty city 0 [] st
    = (Return [d1], st').
Proof.
  intros Hcap Hp1 Hnew Hv Hp2 Hsame. cbn [SpecialtyScraper.parseStandardCards].
  rewrite Hcap. cbn [negb].
  unfold bind at 1. unfold tryCatch at 1. unfold bind at 1. rewrite Hp1.
  unfold bind at 1. unfold hasUrl at 1.
  pose proof (specialty_parseDoctorCard_returns host cfg card1 specialty city
                (scrapedUrls st) st eq_refl) as Hk. rewrite Hp1 in Hk.
  destruct Hk as [_ Hu].
  rewrite bool_decide_eq_false_2 by (rewrite Hu; exact Hnew).
  cbn [negb]. rewrite Hv.
  unfold bind at 1. unfold addUrl at 1. unfold ret at 1. cbv beta iota. cbn [app].
  destruct (negb (numLt (0 + 1) _)); [eexists; reflexivity|].
  unfold bind at 1. unfold tryCatch at 1. unfold bind at 1. rewrite Hp2.
  unfold bind at 1. unfold hasUrl at 1.
  pose proof (specialty_parseDoctorCard_returns host cfg card2 specialty city
                ({[profileUrl d1]} ∪ scrapedUrls st1)
                {| world := world st1;
                   scrapedUrls := {[profileUrl d1]} ∪ scrapedUrls st1 |} eq_refl) as Hk.
  rewrite Hp2 in Hk. destruct Hk as [_ Hu2].
  rewrite bool_decide_eq_true_2
    by (rewrite Hu2, Hsame; apply elem_of_union_l, elem_of_singleton; reflexivity).
  cbn [negb]. unfold ret. eexists. reflexivity.
Qed.

(** C2. The records that a run of scrapeDoctors returns have pairwise
    distinct profile URLs, in both scrapers, from any state of the
    process-scoped set scrapedUrls. A listing whose URL is already in the set
    is skipped; and of two listings with the same URL, the first of which is
    accepted, exactly one record results. *)
Theorem accepted_urls_distinct (W : Type)
  (hc : CityScraper.Host W) (cc : CityScraper.Config)
  (hs : SpecialtyScraper.Host W) (cs : SpecialtyScraper.Config) (st : Store W) :
  (forall doctors st',
      CityScraper.scrapeDoctors hc cc st = (Return doctors, st') ->
      NoDup (List.map profileUrl doctors))
  /\ (forall doctors st',
         SpecialtyScraper.scrapeDoctors hs cs st = (Return doctors, st') ->
         NoDup (List.map profileUrl doctors))
  /\ (forall result rest processed doctors,
         CityScraper.DoctorSearchResult.doctorUrl result ∈ scrapedUrls st ->
         CityScraper.scrapeProfiles hc cc (result :: rest) processed doctors st
         = CityScraper.scrapeProfiles hc cc rest processed doctors st)
  /\ (forall result d st1,
         numGe 0 (CityScraper.maxDoctorsPerCity cc) = false ->
         CityScraper.DoctorSearchResult.doctorUrl result ∉ scrapedUrls st ->
         CityScraper.scrapeDoctorProfile hc cc result st = (Return (Some d), st1) ->
         CityScraper.isValidDoctor d = true ->
         exists st', CityScraper.scrapeProfiles hc cc [result; result] 0 [] st
                     = (Return [d], st'))
  /\ (forall card1 card2 specialty city d1 st1 d2 st2,
         numLt 0 (SpecialtyScraper.maxDoctorsPerSpecialty cs) = true ->
         SpecialtyScraper.parseDoctorCard hs cs card1 specialty city st
         = (Return (Some d1), st1) ->
         profileUrl d1 ∉ scrapedUrls st ->
         SpecialtyScraper.isValidDoctor d1 = true ->
         SpecialtyScraper.parseDoctorCard hs cs card2 specialty city
           {| world := world st1; scrapedUrls := {[profileUrl d1]} ∪ scrapedUrls st1 |}
         = (Return (Some d2), st2) ->
         profileUrl d2 = profileUrl d1 ->
         exists st',
           SpecialtyScraper.parseStandardCards hs cs [card1; card2] specialty city 0 [] st
           = (Return [d1], st')).
Proof.
  split; [|split; [|split; [|split]]].
  - intros doctors st' E.
    destruct (city_scrapeDoctors_cases hc cc st) as (all & st1 & Hall & Hcase).
    pose proof (city_scrapeCities_distinct hc cc (CityScraper.cities cc) [] st) as Hd.
    rewrite Hall in Hd.
    assert (Hinit : distinctUrls (W := W) [] st).
    { split; [constructor|]. intros u Hu. inversion Hu. }
    destruct (Hd Hinit) as [Hnd _].
    destruct Hcase as [[_ Ht]|[_ (st2 & Hr)]]; congruence.
  - intros doctors st' E.
    destruct (specialty_scrapeDoctors_cases hs cs st) as (all & st1 & Hall & Hcase).
    pose proof (specialty_scrapeSpecialties_distinct hs cs
                  (SpecialtyScraper.specialties cs) [] st) as Hd.
    rewrite Hall in Hd.
    assert (Hinit : distinctUrls (W := W) [] st).
    { split; [constructor|]. intros u Hu. inversion Hu. }
    destruct (Hd Hinit) as [Hnd _].
    destruct Hcase as [[_ Ht]|[_ Hr]]; congruence.
  - intros. apply city_skip_seen. assumption.
  - intros. eapply city_duplicate_listing; eassumption.
  - intros. eapply specialty_duplicate_card; eassumption.
Qed.

(** C3. scrapeDoctors throws if and only if the loops over its scopes have
    collected no record: the collection itself always returns, with an empty
    list scrapeDoctors throws 'No doctors found', with a non-empty list it
    returns that list. Below the root nothing throws, whatever the page
    fetches, the profile fetches and the card reads do: scrapeDoctorsByCity,
    scrapeDoctorProfile, scrapeDoctorsBySpecialtyAndCity and parseDoctorCard
    all return. *)
Theorem scrapeDoctors_throws_only_when_empty (W : Type)
  (hc : CityScraper.Host W) (cc : CityScraper.Config)
  (hs : SpecialtyScraper.Host W) (cs : SpecialtyScraper.Config) (st : Store W) :
  (exists all st1,
      CityScraper.scrapeCities hc cc (CityScraper.cities cc) [] st = (Return all, st1)
      /\ ((all = [] /\ CityScraper.scrapeDoctors hc cc st = (Throw NoDoctorsFound, st1))
          \/ (all <> [] /\ exists st2,
                 CityScraper.scrapeDoctors hc cc st = (Return all, st2))))
  /\ (exists all st1,
         SpecialtyScraper.scrapeSpecialties hs cs (SpecialtyScraper.specialties cs) [] st
         = (Return all, st1)
         /\ ((all = []
              /\ SpecialtyScraper.scrapeDoctors hs cs st = (Throw NoDoctorsFound, st1))
             \/ (all <> [] /\ SpecialtyScraper.scrapeDoctors hs cs st = (Return all, st1))))
  /\ (forall city, exists doctors st',
         CityScraper.scrapeDoctorsByCity hc cc city st = (Return doctors, st'))
  /\ (forall result, exists doctor st',
         CityScraper.scrapeDoctorProfile hc cc result st = (Return doctor, st'))
  /\ (forall specialty city, exists doctors st',
         SpecialtyScraper.scrapeDoctorsBySpecialtyAndCity hs cs specialty city st
         = (Return doctors, st'))
  /\ (forall card specialty city, exists doctor st',
         SpecialtyScraper.parseDoctorCard hs cs card specialty city st
         = (Return doctor, st')).
Proof.
  split; [apply city_scrapeDoctors_cases|].
  split; [apply specialty_scrapeDoctors_cases|].
  assert (Hsub : scrapedUrls st ⊆ scrapedUrls st) by reflexivity.
  split; [|split; [|split]].
  - intros city.
    destruct (triple_run _ _ _ st
                (city_scrapeDoctorsByCity_batch hc cc (scrapedUrls st) city) Hsub)
      as (ds & st' & E & _). eauto.
  - intros result.
    destruct (returns_run _ _ st (city_scrapeDoctorProfile_returns hc cc result))
      as (o & st' & E & _). eauto.
  - intros specialty city.
    destruct (triple_run _ _ _ st
                (specialty_scrapeDoctorsBySpecialtyAndCity_batch hs cs (scrapedUrls st)
                   specialty city) Hsub)
      as (ds & st' & E & _). eauto.
  - intros card specialty city.
    destruct (returns_run _ _ st
                (specialty_parseDoctorCard_returns hs cs card specialty city))
      as (o & st' & E & _). eauto.
Qed.

(** ** Appointments *)

Lemma index_In {A : Type} (xs : list A) (i : Z) (x : A) :
  index xs i = Some x -> In x xs.
Proof.
  unfold index. destruct (i <? 0); [discriminate|]. apply nth_error_In.
Qed.

Section Appointments.

Context {W : Type}.
Variable random : W -> Unit01 * W.
Variable numAppointmentsPerDoctor : option Z.

Lemma generateAppointment_inside (doctor : AppointmentGenerator.Doctor)
  (patients : list Z) (w w' : W) (a : AppointmentGenerator.AppointmentData) :
  AppointmentGenerator.generateAppointment random doctor patients w
  = (Return (Some a), w') ->
  AppointmentGenerator.doctorId a = AppointmentGenerator.id doctor
  /\ exists block,
       In block (AppointmentGenerator.availability doctor) /\ insideBlock a block.
Proof.
  unfold AppointmentGenerator.generateAppointment.
  destruct (random w) as [r1 w1]. destruct (random w1) as [r2 w2].
  destruct (random w2) as [r3 w3].
  destruct (index (AppointmentGenerator.availability doctor) _) as [block|] eqn:Hb;
    [|discriminate].
  cbv zeta.
  destruct (Z.leb_spec
              ((AppointmentGenerator.end_at block - AppointmentGenerator.start_at block)
               / AppointmentGenerator.slotDuration) 0) as [?|Hpos]; [discriminate|].
  destruct (random w3) as [r4 w4].
  destruct (Z.ltb_spec (AppointmentGenerator.end_at block)
              (AppointmentGenerator.start_at block
               + floorScaled r4
                   ((AppointmentGenerator.end_at block - AppointmentGenerator.start_at block)
                    / AppointmentGenerator.slotDuration)
                 * AppointmentGenerator.slotDuration
               + AppointmentGenerator.slotDuration)) as [?|Hfit]; [discriminate|].
  destruct (random w4) as [rand w5].
  destruct (index patients _) as [p|]; [|discriminate].
  destruct (index (AppointmentGenerator.treatments doctor) _) as [t|]; [|discriminate].
  intros [= <- _]. split; [reflexivity|].
  exists block. split; [exact (index_In _ _ _ Hb)|].
  unfold insideBlock.
  cbn [AppointmentGenerator.startAt AppointmentGenerator.endAt].
  pose proof (floorScaled_range r4 _ Hpos) as Hr.
  unfold AppointmentGenerator.slotDuration in *. split; [nia|]. split; [lia|lia].
Qed.

Lemma attempts_wellPlaced (doctors : list AppointmentGenerator.Doctor)
  (doctor : AppointmentGenerator.Doctor) (patients : list Z) (n : nat) :
  In doctor doctors ->
  forall appointments w,
    Forall (wellPlaced doctors) appointments ->
    Forall (wellPlaced doctors)
      (fst (AppointmentGenerator.attempts random n doctor patients appointments w)).
Proof.
  intros Hin. induction n as [|n IH]; intros appointments w Hall;
    cbn [AppointmentGenerator.attempts]; [exact Hall|].
  destruct (AppointmentGenerator.generateAppointment random doctor patients w)
    as [[[a|]|e] w'] eqn:E; try (apply IH; exact Hall).
  apply IH. apply Forall_app. split; [exact Hall|]. constructor; [|constructor].
  destruct (generateAppointment_inside _ _ _ _ _ E) as (Hid & block & Hb & Hins).
  exists doctor, block. auto.
Qed.

Lemma generateFrom_wellPlaced (all : list AppointmentGenerator.Doctor)
  (patients : list Z) (doctors : list AppointmentGenerator.Doctor) :
  (forall doctor, In doctor doctors -> In doctor all) ->
  forall appointments w,
    Forall (wellPlaced all) appointments ->
    Forall (wellPlaced all)
      (fst (AppointmentGenerator.generateFrom random numAppointmentsPerDoctor
              doctors patients appointments w)).
Proof.
  induction doctors as [|doctor rest IH]; intros Hsub appointments w Hall;
    cbn [AppointmentGenerator.generateFrom]; [exact Hall|].
  assert (Hrest : forall d, In d rest -> In d all) by (intros d Hd; apply Hsub; right; exact Hd).
  destruct (_ =? 0); [apply IH; assumption|].
  destruct (_ =? 0); [apply IH; assumption|].
  cbv zeta.
  pose proof (attempts_wellPlaced all doctor patients
                (turns
                   (mathMin numAppointmentsPerDoctor
                      (Z.of_nat (length (AppointmentGenerator.availability doctor)) * 4)))
                (Hsub doctor (or_introl eq_refl)) appointments w Hall) as Hstep.
  destruct (AppointmentGenerator.attempts _ _ _ _ _ _) as [appointments' w'].
  apply IH; assumption.
Qed.

End Appointments.

(** C10. Every appointment that generateAppointment returns lies inside the
    availability block it was drawn from: it starts at or after the start of
    the block, ends exactly 30 minutes after it starts and ends at or before
    the end of the block; and every appointment in the list that generate
    returns is such an appointment of one of the given doctors. This holds for
    every doctor, every list of patients and every random source. *)
Theorem appointments_inside_blocks (W : Type) (random : W -> Unit01 * W)
  (numAppointmentsPerDoctor : option Z) (patients : list Z) (w : W) :
  (forall doctor a w',
      AppointmentGenerator.generateAppointment random doctor patients w
      = (Return (Some a), w') ->
      exists block,
        In block (AppointmentGenerator.availability doctor) /\ insideBlock a block)
  /\ (forall doctors,
         Forall (wellPlaced doctors)
           (fst (AppointmentGenerator.generate random numAppointmentsPerDoctor
                   doctors patients w))).
Proof.
  split.
  - intros doctor a w' E. exact (proj2 (generateAppointment_inside _ _ _ _ _ _ E)).
  - intros doctors. unfold AppointmentGenerator.generate.
    apply generateFrom_wellPlaced; [auto | constructor].
Qed.

Lemma appointments_inside_blocks_witness :
  exists a w',
    AppointmentGenerator.generateAppointment sampleRandom sampleStoredDoctor [7; 8; 9] 3%nat
    = (Return (Some a), w')
    /\ exists block,
         In block (AppointmentGenerator.availability sampleStoredDoctor)
         /\ insideBlock a block.
Proof.
  destruct (AppointmentGenerator.generateAppointment sampleRandom sampleStoredDoctor
              [7; 8; 9] 3%nat) as [[[a|]|e] w'] eqn:E;
    [|vm_compute in E; discriminate|vm_compute in E; discriminate].
  exists a, w'. split; [reflexivity|].
  exact (proj1 (appointments_inside_blocks nat sampleRandom (Some 10) [7; 8; 9] 3%nat)
           sampleStoredDoctor a w' E).
Defined.

Lemma validator_accepts_by_default_witness :
  CityScraper.isValidDoctor (sampleDoctor (lit "Rosa") (lit "Cardiología")) = false
  /\ CityScraper.isValidDoctor (sampleDoctor (lit "Juan Pérez García") (lit "Cardiólogo"))
     = true.
Proof.
  split.
  - apply (proj1 (validator_accepts_by_default
                    (sampleDoctor (lit "Rosa") (lit "Cardiología")))).
    vm_compute. lia.
  - apply (proj1 (proj2 (validator_accepts_by_default
                           (sampleDoctor (lit "Juan Pérez García") (lit "Cardiólogo"))))).
    + intros H. apply containsTerm_existsb in H. vm_compute in H. discriminate.
    + intros H. apply upperMultiWord_test in H. vm_compute in H. discriminate.
    + vm_compute. lia.
Defined.

Lemma synthesized_services_witness :
  exists ts st' t,
    CityScraper.generateMockTreatments sampleCityHost (lit "Traumatólogo") emptyStore
    = (Return ts, st')
    /\ ts = [t] /\ name t = lit "Consulta general".
Proof.
  destruct (proj1 (synthesized_services nat sampleCityHost sampleSpecialtyHost
                     (lit "Traumatólogo") emptyStore))
    as (ts & st' & E & _ & Hone).
  destruct Hone as (t & Ht & Hn).
  - intros key Hkey. vm_compute in Hkey.
    repeat (destruct Hkey as [<-|Hkey]; [vm_compute; reflexivity|]). destruct Hkey.
  - exists ts, st', t. auto.
Defined.

Lemma accepted_urls_distinct_witness :
  exists doctors st',
    CityScraper.scrapeDoctors sampleCityHost sampleCityConfig emptyStore
    = (Return doctors, st')
    /\ NoDup (List.map profileUrl doctors)
    /\ length doctors = 1%nat.
Proof.
  destruct (CityScraper.scrapeDoctors sampleCityHost sampleCityConfig emptyStore)
    as [[doctors|e] st'] eqn:E; [|vm_compute in E; discriminate].
  exists doctors, st'. split; [reflexivity|]. split.
  - exact (proj1 (accepted_urls_distinct nat sampleCityHost sampleCityConfig
                    sampleSpecialtyHost sampleSpecialtyConfig emptyStore) doctors st' E).
  - vm_compute in E. injection E as <- _. reflexivity.
Defined.

(** The city-indexed validator splits on the space character only: a name
    whose two words are separated by a tab has two tokens and trips no other
    rule, and is rejected. *)
Example city_rejects_tab_separated_name :
  tokenCount (trim [74; 117; 97; 110; 9; 80; 233; 114; 101; 122]) = 2%nat
  /\ CityScraper.isValidDoctor
       (sampleDoctor [74; 117; 97; 110; 9; 80; 233; 114; 101; 122] (lit "Cardiólogo"))
     = false.
Proof. split; vm_compute; reflexivity. Qed.

(** Of three leading commas one is left. *)
Example cleanAddress_leading_commas :
  CityScraper.cleanAddress (lit ",,,a") = lit ",a".
Proof. vm_compute. reflexivity. Qed.

(** The sample run: the second page fails, the listing comes twice, the
    slot endpoint and the disk fail; one record is returned. *)
Example sample_run_returns_one_record :
  exists d st',
    CityScraper.scrapeDoctors sampleCityHost sampleCityConfig emptyStore
    = (Return [d], st')
    /\ fullName d = lit "Ana Torres Vega"
    /\ address d = lit "Consultorio en Lima".
Proof.
  destruct (CityScraper.scrapeDoctors sampleCityHost sampleCityConfig emptyStore)
    as [[doctors|e] st'] eqn:E; [|vm_compute in E; discriminate].
  vm_compute in E. injection E as <- _. eexists _, _.
  split; [reflexivity|]. split; reflexivity.
Qed.

(** A run that finds nothing throws. *)
Example empty_run_throws :
  fst (CityScraper.scrapeDoctors sampleCityHost
         {| CityScraper.baseUrl := lit "https://www.doctoralia.pe";
            CityScraper.cities := [];
            CityScraper.maxDoctorsPerCity := Some 45;
            CityScraper.maxPages := 3;
            CityScraper.useRealAvailability := false;
            CityScraper.tzOffset := 0 |} emptyStore)
  = Throw NoDoctorsFound.
Proof. vm_compute. reflexivity. Qed.

(** The specialty-indexed sample run: three cards, one that cannot be read
    and one duplicate; one record is returned. *)
Example sample_specialty_run_returns_one_record :
  exists d st',
    SpecialtyScraper.scrapeDoctors sampleSpecialtyHost sampleSpecialtyConfig emptyStore
    = (Return [d], st')
    /\ profileUrl d = lit "https://www.doctoralia.pe/ana-torres-vega".
Proof.
  destruct (SpecialtyScraper.scrapeDoctors sampleSpecialtyHost sampleSpecialtyConfig
              emptyStore) as [[doctors|e] st'] eqn:E; [|vm_compute in E; discriminate].
  vm_compute in E. injection E as <- _. eexists _, _.
  split; reflexivity.
Qed.

(** The extractors on a page that has what they look for, and on a page
    whose every query raises. *)
Example extractAddress_from_block :
  CityScraper.extractAddress sampleFullProfile
  = Return (Some (lit "Av. Javier Prado Este 1066, San Isidro")).
Proof. vm_compute. reflexivity. Qed.

Example extractPhone_from_text :
  fst (CityScraper.extractPhone sampleCityHost sampleFullProfile emptyStore)
  = Return (lit "987654321").
Proof. vm_compute. reflexivity. Qed.

Example extractTreatments_once_per_name :
  List.map name (CityScraper.extractTreatments sampleFullProfile) = [lit "Consulta"].
Proof. vm_compute. reflexivity. Qed.

Example extractAddress_broken_page :
  CityScraper.extractAddress brokenProfile = Return None.
Proof. reflexivity. Qed.

Example extractPhone_broken_page :
  fst (CityScraper.extractPhone sampleCityHost brokenProfile emptyStore)
  = Return (lit "910000000").
Proof. vm_compute. reflexivity. Qed.

(** ** More on replacement *)

Lemma In_skipn_list {A : Type} (x : A) (k : nat) (l : list A) :
  In x (skipn k l) -> In x l.
Proof.
  intros H. rewrite <- (firstn_skipn k l). apply in_or_app. right. exact H.
Qed.

Lemma skipWhile_In (p : Z -> bool) (x : Z) (s : jsstring) :
  In x (skipWhile p s) -> In x s.
Proof.
  destruct (skipWhile_suffix p s) as (l & E & _). intros H.
  rewrite E. apply in_or_app. right. exact H.
Qed.

Lemma spanLen_le (p : Z -> bool) (s : jsstring) : (spanLen p s <= length s)%nat.
Proof. induction s as [|c r IH]; simpl; [lia|]. destruct (p c); simpl; lia. Qed.

Lemma spanLen_skipWhile (p : Z -> bool) (s : jsstring) :
  (spanLen p s + length (skipWhile p s) = length s)%nat.
Proof. induction s as [|c r IH]; simpl; [lia|]. destruct (p c); simpl; lia. Qed.

Lemma replaceAll_length (m : matcher) (b : jsstring) :
  (forall s n, m s = Some n -> (length b <= n <= length s)%nat) ->
  forall s, (length (replaceAll m b s) <= length s)%nat.
Proof.
  intros Hm.
  apply (replaceAll_ind m b (fun s o => (length o <= length s)%nat)).
  - simpl. lia.
  - intros c r _ IH. simpl. lia.
  - intros c r k Hk IH. apply Hm in Hk. simpl in Hk.
    rewrite length_app. rewrite length_skipn in IH. simpl. lia.
Qed.

Lemma replaceAll_In (m : matcher) (b : jsstring) (x : Z) :
  (forall s n, m s = Some n -> In x b -> x = 32 \/ In x s) ->
  forall s, In x (replaceAll m b s) -> x = 32 \/ In x s.
Proof.
  intros Hm.
  apply (replaceAll_ind m b (fun s o => In x o -> x = 32 \/ In x s)).
  - auto.
  - intros c r _ IH [->|H]; [right; left; reflexivity|].
    destruct (IH H) as [?|?]; [auto | right; right; assumption].
  - intros c r k Hk IH H. apply in_app_or in H as [H|H].
    + exact (Hm _ _ Hk H).
    + destruct (IH H) as [?|H']; [auto|]. right. right. exact (In_skipn_list _ _ _ H').
Qed.

Lemma replaceAll_unmatched (m : matcher) (b : jsstring) (P : jsstring -> Prop) :
  (forall c r, P (c :: r) -> P r) ->
  (forall s k, P s -> m s <> Some (S k)) ->
  forall s, P s -> replaceAll m b s = s.
Proof.
  intros Htail Hno.
  apply (replaceAll_ind m b (fun s o => P s -> o = s)).
  - reflexivity.
  - intros c r _ IH H. f_equal. apply IH. exact (Htail _ _ H).
  - intros c r k Hk _ H. exfalso. exact (Hno _ _ H Hk).
Qed.

(** What the matchers of [cleanAddress] match. *)

Lemma reSpaces_bounds (s : jsstring) (n : nat) :
  reSpaces s = Some n -> (1 <= n <= length s)%nat.
Proof.
  unfold reSpaces. pose proof (spanLen_le isWhiteSpace s).
  destruct (spanLen isWhiteSpace s) eqn:E; [discriminate|]. intros [= <-]. lia.
Qed.

Lemma reUnit_bounds (c0 : Z) (s : jsstring) (n : nat) :
  reUnit c0 s = Some n -> (0 <= n <= length s)%nat.
Proof.
  unfold reUnit. destruct s as [|c r]; [discriminate|].
  destruct (c =? c0); [|discriminate]. intros [= <-]. simpl. lia.
Qed.

Lemma head_comma (s : jsstring) (A : Type) (x y : A) (f : jsstring -> A) :
  match s with 44 :: r => f r | _ => y end = x -> x <> y ->
  exists r, s = 44 :: r /\ f r = x.
Proof.
  destruct s as [|c r]; [congruence|].
  destruct (Z.eq_dec c 44) as [->|Hne]; [eauto|].
  intros H Hxy. exfalso.
  destruct c as [|p|p]; try congruence.
  do 6 (destruct p as [p|p|]; try congruence).
Qed.

Lemma reCommaSpacesComma_inv (s : jsstring) (n : nat) :
  reCommaSpacesComma s = Some n ->
  exists r t, s = 44 :: r /\ skipWhile isWhiteSpace r = 44 :: t
              /\ n = S (S (spanLen isWhiteSpace r)).
Proof.
  unfold reCommaSpacesComma. intros H.
  apply head_comma in H as (r & -> & H); [|discriminate].
  apply head_comma in H as (t & Ht & H); [|discriminate].
  exists r, t. split; [reflexivity|]. split; [exact Ht | congruence].
Qed.

Lemma reCommaSpacesComma_bounds (s : jsstring) (n : nat) :
  reCommaSpacesComma s = Some n -> (1 <= n <= length s)%nat.
Proof.
  intros H. apply reCommaSpacesComma_inv in H as (r & t & -> & Ht & ->).
  pose proof (spanLen_skipWhile isWhiteSpace r) as E. rewrite Ht in E.
  simpl in *. lia.
Qed.

Lemma reSpacesComma_inv (s : jsstring) (n : nat) :
  reSpacesComma s = Some n ->
  exists t, skipWhile isWhiteSpace s = 44 :: t
            /\ n = S (spanLen isWhiteSpace s) /\ (1 <= spanLen isWhiteSpace s)%nat.
Proof.
  unfold reSpacesComma. destruct (spanLen isWhiteSpace s) as [|k] eqn:E; [discriminate|].
  intros H. apply head_comma in H as (t & Ht & H); [|discriminate].
  exists t. split; [exact Ht|]. split; [congruence | lia].
Qed.

Lemma reSpacesComma_bounds (s : jsstring) (n : nat) :
  reSpacesComma s = Some n -> (1 <= n <= length s)%nat.
Proof.
  intros H. apply reSpacesComma_inv in H as (t & Ht & -> & Hk).
  pose proof (spanLen_skipWhile isWhiteSpace s) as E. rewrite Ht in E.
  simpl in *. lia.
Qed.

Lemma reCommaSpaces_inv (s : jsstring) (n : nat) :
  reCommaSpaces s = Some n ->
  exists r, s = 44 :: r /\ n = S (spanLen isWhiteSpace r)
            /\ (1 <= spanLen isWhiteSpace r)%nat.
Proof.
  unfold reCommaSpaces. intros H.
  apply head_comma in H as (r & -> & H); [|discriminate].
  destruct (spanLen isWhiteSpace r) as [|k] eqn:E; [discriminate|].
  exists r. split; [reflexivity|]. split; [congruence | lia].
Qed.

Lemma reCommaSpaces_bounds (s : jsstring) (n : nat) :
  reCommaSpaces s = Some n -> (2 <= n <= length s)%nat.
Proof.
  intros H. apply reCommaSpaces_inv in H as (r & -> & -> & Hk).
  pose proof (spanLen_le isWhiteSpace r). simpl. lia.
Qed.

Lemma replaceFirst_prefix_length (s : jsstring) :
  (length (replaceFirst reTrailingComma [] s) <= length s)%nat.
Proof.
  destruct (strip_trailing_comma_prefix s) as (r & E).
  rewrite E at 2. rewrite length_app. lia.
Qed.

Lemma trim_length (s : jsstring) : (length (trim s) <= length s)%nat.
Proof.
  destruct (trim_infix s) as (l & r & E). rewrite E at 2.
  rewrite !length_app. lia.
Qed.

Lemma trim_In (x : Z) (s : jsstring) : In x (trim s) -> In x s.
Proof.
  destruct (trim_infix s) as (l & r & E). intros H. rewrite E.
  apply in_or_app. right. apply in_or_app. left. exact H.
Qed.

Lemma cleanAddress_length (raw : jsstring) :
  (length (CityScraper.cleanAddress raw) <= length raw)%nat.
Proof.
  unfold CityScraper.cleanAddress.
  etransitivity; [apply trim_length|].
  etransitivity; [apply replaceAll_length|].
  { intros s n H. apply reCommaSpaces_bounds in H. exact H. }
  etransitivity; [apply replaceAll_length|].
  { intros s n H. apply reSpacesComma_bounds in H. exact H. }
  etransitivity; [apply replaceFirst_prefix_length|].
  etransitivity.
  { destruct (replaceAtStart_suffix reLeadingComma
                (replaceAll reCommaSpacesComma (lit ",")
                   (replaceAll (reUnit 9) [] (replaceAll (reUnit 10) []
                      (replaceAll reSpaces (lit " ") raw))))) as (k & ->).
    rewrite length_skipn. apply Nat.le_sub_l. }
  etransitivity; [apply replaceAll_length|].
  { intros s n H. apply reCommaSpacesComma_bounds in H. exact H. }
  etransitivity; [apply replaceAll_length|].
  { intros s n H. apply reUnit_bounds in H. exact H. }
  etransitivity; [apply replaceAll_length|].
  { intros s n H. apply reUnit_bounds in H. exact H. }
  apply replaceAll_length.
  intros s n H. apply reSpaces_bounds in H. exact H.
Qed.

Lemma cleanAddress_In (raw : jsstring) (x : Z) :
  In x (CityScraper.cleanAddress raw) -> x = 32 \/ In x raw.
Proof.
  unfold CityScraper.cleanAddress. intros H.
  apply trim_In in H.
  apply replaceAll_In in H.
  2:{ intros s n Hm Hb. apply reCommaSpaces_inv in Hm as (r & -> & _).
      destruct Hb as [<-|[<-|[]]]; [right; left; reflexivity | left; reflexivity]. }
  destruct H as [H|H]; [auto|].
  apply replaceAll_In in H.
  2:{ intros s n Hm Hb. apply reSpacesComma_inv in Hm as (t & Ht & _).
      destruct Hb as [<-|[]]. right. apply (skipWhile_In isWhiteSpace).
      rewrite Ht. left. reflexivity. }
  destruct H as [H|H]; [auto|].
  destruct (strip_trailing_comma_prefix
              (replaceAtStart reLeadingComma []
                 (replaceAll reCommaSpacesComma (lit ",")
                    (replaceAll (reUnit 9) [] (replaceAll (reUnit 10) []
                       (replaceAll reSpaces (lit " ") raw)))))) as (r & E).
  assert (H' : In x (replaceAtStart reLeadingComma []
                 (replaceAll reCommaSpacesComma (lit ",")
                    (replaceAll (reUnit 9) [] (replaceAll (reUnit 10) []
                       (replaceAll reSpaces (lit " ") raw)))))).
  { rewrite E. apply in_or_app. left. exact H. }
  clear H E.
  destruct (replaceAtStart_suffix reLeadingComma
              (replaceAll reCommaSpacesComma (lit ",")
                 (replaceAll (reUnit 9) [] (replaceAll (reUnit 10) []
                    (replaceAll reSpaces (lit " ") raw))))) as (k & E).
  rewrite E in H'. apply In_skipn_list in H'.
  apply replaceAll_In in H'.
  2:{ intros s n Hm Hb. apply reCommaSpacesComma_inv in Hm as (r' & t & -> & _).
      destruct Hb as [<-|[]]. right. left. reflexivity. }
  destruct H' as [H|H]; [auto|].
  apply replaceAll_In in H; [|intros s n _ []].
  destruct H as [H|H]; [auto|].
  apply replaceAll_In in H; [|intros s n _ []].
  destruct H as [H|H]; [auto|].
  apply replaceAll_In in H; [exact H|].
  intros s n _ [<-|[]]. left. reflexivity.
Qed.

(** X1. cleanAddress only removes: its result is never longer than the raw string,
    and every code unit of the result is a space or occurs in the raw string
    (white space may have become a space, nothing else is put in). *)
Theorem cleanAddress_only_removes (raw : jsstring) :
  (length (CityScraper.cleanAddress raw) <= length raw)%nat
  /\ forall x, In x (CityScraper.cleanAddress raw) -> x = 32 \/ In x raw.
Proof. split; [apply cleanAddress_length | intros x; apply cleanAddress_In]. Qed.

Lemma cleanAddress_normal (raw : jsstring) :
  normalAddress (CityScraper.cleanAddress raw) = true.
Proof.
  unfold normalAddress, CityScraper.cleanAddress.
  destruct (collapse_spaces raw) as (P1 & S1 & _).
  set (s1 := replaceAll reSpaces (lit " ") raw) in *.
  rewrite (replaceAll_reUnit_absent 10 [] s1)
    by (apply onlyPlainSpaces_not_in; [exact P1 | reflexivity | lia]).
  rewrite (replaceAll_reUnit_absent 9 [] s1)
    by (apply onlyPlainSpaces_not_in; [exact P1 | reflexivity | lia]).
  set (s4 := replaceAll reCommaSpacesComma (lit ",") s1).
  assert (P4 : onlyPlainSpaces s4 = true)
    by (apply replaceAll_forallb; [reflexivity | exact P1]).
  assert (S4 : singleSpaced s4 = true)
    by (apply (replaceAll_singleSpaced_unit _ 44); [reflexivity | exact S1]).
  destruct (replaceAtStart_suffix reLeadingComma s4) as (k & E5).
  set (s5 := replaceAtStart reLeadingComma [] s4) in *.
  assert (P5 : onlyPlainSpaces s5 = true)
    by (rewrite E5; apply forallb_skipn, P4).
  assert (S5 : singleSpaced s5 = true)
    by (rewrite E5; apply adjacentAll_skipn, S4).
  destruct (strip_trailing_comma_prefix s5) as (r & E6).
  set (s6 := replaceFirst reTrailingComma [] s5) in *.
  assert (P6 : onlyPlainSpaces s6 = true).
  { unfold onlyPlainSpaces in *. rewrite E6, forallb_app in P5.
    apply andb_true_iff in P5. tauto. }
  assert (S6 : singleSpaced s6 = true).
  { unfold singleSpaced in *. rewrite E6 in S5.
    exact (adjacentAll_app_l _ _ _ S5). }
  destruct (strip_space_before_comma s6) as (C7 & _).
  set (s7 := replaceAll reSpacesComma (lit ",") s6) in *.
  assert (P7 : onlyPlainSpaces s7 = true)
    by (apply replaceAll_forallb; [reflexivity | exact P6]).
  assert (S7 : singleSpaced s7 = true)
    by (apply (replaceAll_singleSpaced_unit _ 44); [reflexivity | exact S6]).
  set (s8 := replaceAll reCommaSpaces (lit ", ") s7).
  assert (P8 : onlyPlainSpaces s8 = true)
    by (apply replaceAll_forallb; [reflexivity | exact P7]).
  assert (S8 : singleSpaced s8 = true)
    by (apply space_after_comma_singleSpaced, S7).
  assert (C8 : noSpaceBeforeComma s8 = true)
    by (apply space_after_comma_noSpaceBefore, C7).
  rewrite !andb_true_iff. split; [split; [split|]|].
  - apply forallb_trim, P8.
  - apply adjacentAll_trim, S8.
  - apply noOuterSpace_trim.
  - apply adjacentAll_trim, C8.
Qed.

Lemma normalAddress_inv (s : jsstring) :
  normalAddress s = true ->
  onlyPlainSpaces s = true /\ singleSpaced s = true
  /\ noOuterSpace s = true /\ noSpaceBeforeComma s = true.
Proof.
  unfold normalAddress. rewrite !andb_true_iff. tauto.
Qed.

Lemma skipWhile_id (p : Z -> bool) (s : jsstring) :
  headIs p s = false -> skipWhile p s = s.
Proof. destruct s as [|c r]; simpl; [reflexivity|]. intros ->. reflexivity. Qed.

Lemma onlyPlainSpaces_cons (c : Z) (r : jsstring) :
  onlyPlainSpaces (c :: r) = true ->
  (isWhiteSpace c = true -> c = 32) /\ onlyPlainSpaces r = true.
Proof.
  unfold onlyPlainSpaces. cbn [forallb]. rewrite andb_true_iff.
  intros [Hc Hr]. split; [|exact Hr]. intros Hw. rewrite Hw in Hc.
  apply Z.eqb_eq. exact Hc.
Qed.

Lemma singleSpaced_after_space (c : Z) (r : jsstring) :
  singleSpaced (c :: r) = true -> isWhiteSpace c = true ->
  headIs isWhiteSpace r = false.
Proof.
  intros H Hc. destruct r as [|d r']; [reflexivity|].
  apply adjacentAll_head in H. cbv beta in H. rewrite Hc in H.
  simpl. destruct (isWhiteSpace d); [discriminate | reflexivity].
Qed.

(** Step 1 changes nothing when every run of white space is one space. *)
Lemma collapse_spaces_id (s : jsstring) :
  onlyPlainSpaces s = true -> singleSpaced s = true ->
  replaceAll reSpaces (lit " ") s = s.
Proof.
  apply (replaceAll_ind reSpaces (lit " ")
           (fun s o => onlyPlainSpaces s = true -> singleSpaced s = true -> o = s)).
  - reflexivity.
  - intros c r _ IH HP HS. f_equal.
    apply IH; [apply (onlyPlainSpaces_cons c r HP) | exact (adjacentAll_tail _ _ _ HS)].
  - intros c r k Hm IH HP HS.
    apply reSpaces_match in Hm as (Hc & Hk).
    pose proof (singleSpaced_after_space c r HS Hc) as Hr.
    rewrite (skipWhile_id _ _ Hr) in Hk.
    destruct (onlyPlainSpaces_cons c r HP) as (Hc32 & HPr).
    rewrite Hk in *. rewrite IH; [|exact HPr|exact (adjacentAll_tail _ _ _ HS)].
    rewrite (Hc32 Hc). reflexivity.
Qed.

(** Step 8 changes nothing either. *)
Lemma space_after_comma_id (s : jsstring) :
  onlyPlainSpaces s = true -> singleSpaced s = true ->
  replaceAll reCommaSpaces (lit ", ") s = s.
Proof.
  apply (replaceAll_ind reCommaSpaces (lit ", ")
           (fun s o => onlyPlainSpaces s = true -> singleSpaced s = true -> o = s)).
  - reflexivity.
  - intros c r _ IH HP HS. f_equal.
    apply IH; [apply (onlyPlainSpaces_cons c r HP) | exact (adjacentAll_tail _ _ _ HS)].
  - intros c r k Hm IH HP HS.
    apply reCommaSpaces_match in Hm as (-> & Hw & Hk).
    destruct r as [|d r']; [discriminate|]. simpl in Hw.
    destruct (onlyPlainSpaces_cons _ _ HP) as (_ & HPr).
    destruct (onlyPlainSpaces_cons _ _ HPr) as (Hd & HPr').
    assert (HSr : singleSpaced (d :: r') = true)
      by exact (adjacentAll_tail _ 44 (d :: r') HS).
    pose proof (singleSpaced_after_space d r' HSr Hw) as Hr'.
    change (skipWhile isWhiteSpace (d :: r'))
      with (if isWhiteSpace d then skipWhile isWhiteSpace r' else d :: r') in Hk.
    rewrite Hw, (skipWhile_id _ _ Hr') in Hk.
    rewrite Hk in *. rewrite IH; [|exact HPr'|exact (adjacentAll_tail _ _ _ HSr)].
    rewrite (Hd Hw). reflexivity.
Qed.

Lemma headIs_spanLen (p : Z -> bool) (s : jsstring) :
  (1 <= spanLen p s)%nat -> headIs p s = true.
Proof. destruct s as [|c r]; simpl; [lia|]. destruct (p c); [reflexivity | lia]. Qed.

Lemma comma_headIs (t : jsstring) : headIs (Z.eqb 44) (44 :: t) = true.
Proof. reflexivity. Qed.

(** Step 4 finds nothing without a doubled comma or a space before a comma. *)
Lemma merge_commas_id (s : jsstring) :
  noDoubledComma s = true -> noSpaceBeforeComma s = true ->
  replaceAll reCommaSpacesComma (lit ",") s = s.
Proof.
  intros HD HC.
  apply (replaceAll_unmatched reCommaSpacesComma (lit ",")
           (fun s => noDoubledComma s = true /\ noSpaceBeforeComma s = true)).
  - intros c r [H1 H2]. split; eapply adjacentAll_tail; eassumption.
  - intros t k [H1 H2] Hm.
    apply reCommaSpacesComma_inv in Hm as (r & u & -> & Hu & _).
    destruct (headIs isWhiteSpace r) eqn:Hr.
    + pose proof (spaces_then_comma r (adjacentAll_tail _ _ _ H2) Hr) as Hno.
      rewrite Hu, comma_headIs in Hno. discriminate.
    + rewrite (skipWhile_id _ _ Hr) in Hu. subst r.
      apply adjacentAll_head in H1. discriminate.
  - split; assumption.
Qed.

Lemma reLeadingComma_none (s : jsstring) :
  headIs isWhiteSpace s = false -> headIs (Z.eqb 44) s = false ->
  reLeadingComma s = None.
Proof.
  intros Hw Hc. unfold reLeadingComma. rewrite (skipWhile_id _ _ Hw).
  destruct (match s with 44 :: r => _ | _ => None end) eqn:E; [|reflexivity].
  apply head_comma in E as (r & -> & _); [|discriminate].
  rewrite comma_headIs in Hc. discriminate.
Qed.

Lemma replaceFirst_unmatched (m : matcher) (b : jsstring) (P : jsstring -> Prop) :
  (forall c r, P (c :: r) -> P r) ->
  (forall s n, P s -> m s <> Some n) ->
  forall s, P s -> replaceFirst m b s = s.
Proof.
  intros Htail Hno s. induction s as [|c r IH]; intros H.
  - simpl. destruct (m []) eqn:E; [exfalso; exact (Hno _ _ H E) | reflexivity].
  - simpl. destruct (m (c :: r)) eqn:E; [exfalso; exact (Hno _ _ H E)|].
    f_equal. apply IH. exact (Htail _ _ H).
Qed.

Lemma headIs_app_all (p : Z -> bool) (a b : jsstring) (x : Z) :
  Forall (fun c => p c = true) a -> p x = true -> headIs p (a ++ x :: b) = true.
Proof. intros Ha Hx. destruct a as [|c a']; simpl; [exact Hx|]. inversion Ha; assumption. Qed.

Lemma reTrailingComma_loose (s : jsstring) (n : nat) :
  reTrailingComma s = Some n -> endsLoose s = true.
Proof.
  unfold reTrailingComma. intros H.
  apply head_comma in H as (r & Hs & H); [|discriminate].
  destruct (skipWhile isWhiteSpace r) eqn:Hr; [|discriminate].
  destruct (skipWhile_suffix isWhiteSpace s) as (l & El & _).
  destruct (skipWhile_suffix isWhiteSpace r) as (l' & El' & Fl').
  rewrite Hr, app_nil_r in El'. subst l'.
  rewrite Hs in El. rewrite El. unfold endsLoose.
  rewrite rev_app_distr. cbn [rev]. rewrite <- app_assoc. cbn [app].
  apply headIs_app_all.
  - apply List.Forall_rev. eapply List.Forall_impl; [|exact Fl'].
    cbv beta. intros a ->. reflexivity.
  - reflexivity.
Qed.

Lemma endsLoose_tail (c : Z) (r : jsstring) :
  endsLoose (c :: r) = false -> endsLoose r = false.
Proof.
  unfold endsLoose. cbn [rev]. destruct (rev r) as [|x l]; [reflexivity|].
  simpl. auto.
Qed.

Lemma strip_trailing_comma_id (s : jsstring) :
  endsLoose s = false -> replaceFirst reTrailingComma [] s = s.
Proof.
  apply (replaceFirst_unmatched reTrailingComma []
           (fun s => endsLoose s = false)).
  - exact endsLoose_tail.
  - intros t n H Hm. apply reTrailingComma_loose in Hm. congruence.
Qed.

Lemma strip_space_before_comma_id (s : jsstring) :
  noSpaceBeforeComma s = true -> replaceAll reSpacesComma (lit ",") s = s.
Proof.
  apply (replaceAll_unmatched reSpacesComma (lit ",")
           (fun s => noSpaceBeforeComma s = true)).
  - intros c r H. exact (adjacentAll_tail _ _ _ H).
  - intros t k H Hm. apply reSpacesComma_inv in Hm as (u & Hu & _ & Hk).
    pose proof (spaces_then_comma t H (headIs_spanLen _ _ Hk)) as Hno.
    rewrite Hu, comma_headIs in Hno. discriminate.
Qed.

Lemma trim_id (s : jsstring) : noOuterSpace s = true -> trim s = s.
Proof.
  unfold noOuterSpace. rewrite andb_true_iff, !negb_true_iff. intros [H1 H2].
  unfold trim, trimEnd, trimStart. rewrite (skipWhile_id _ _ H1), (skipWhile_id _ _ H2).
  apply rev_involutive.
Qed.

Lemma noOuter_endsLoose (s : jsstring) :
  noOuterSpace s = true -> noOuterComma s = true -> endsLoose s = false.
Proof.
  unfold noOuterSpace, noOuterComma, endsLoose.
  rewrite !andb_true_iff, !negb_true_iff. intros [_ H1] [_ H2].
  destruct (rev s) as [|x l]; [reflexivity|]. simpl in *.
  rewrite H1. rewrite Z.eqb_sym. exact H2.
Qed.

Lemma alreadyClean_fixed (s : jsstring) :
  alreadyClean s = true -> CityScraper.cleanAddress s = s.
Proof.
  unfold alreadyClean. rewrite !andb_true_iff. intros [[HN HO] HD].
  destruct (normalAddress_inv s HN) as (HP & HS & HT & HC).
  unfold CityScraper.cleanAddress.
  rewrite (collapse_spaces_id s HP HS).
  rewrite (replaceAll_reUnit_absent 10 [] s)
    by (apply onlyPlainSpaces_not_in; [exact HP | reflexivity | lia]).
  rewrite (replaceAll_reUnit_absent 9 [] s)
    by (apply onlyPlainSpaces_not_in; [exact HP | reflexivity | lia]).
  rewrite (merge_commas_id s HD HC).
  assert (E5 : replaceAtStart reLeadingComma [] s = s).
  { unfold replaceAtStart. rewrite reLeadingComma_none; [reflexivity| |].
    - unfold noOuterSpace in HT. apply andb_true_iff in HT as [HT _].
      apply negb_true_iff in HT. exact HT.
    - unfold noOuterComma in HO. apply andb_true_iff in HO as [HO _].
      apply negb_true_iff in HO. exact HO. }
  rewrite E5, (strip_trailing_comma_id s (noOuter_endsLoose s HT HO)).
  rewrite (strip_space_before_comma_id s HC), (space_after_comma_id s HP HS).
  apply trim_id, HT.
Qed.

(** Conversely: a step that keeps the length found nothing to remove. *)

Lemma merge_commas_same_length (s : jsstring) :
  length (replaceAll reCommaSpacesComma (lit ",") s) = length s ->
  noDoubledComma s = true.
Proof.
  apply (replaceAll_ind reCommaSpacesComma (lit ",")
           (fun s o => length o = length s -> noDoubledComma s = true)).
  - reflexivity.
  - intros c r Hno IH H. simpl in H. injection H as H.
    unfold noDoubledComma in *. cbn [adjacentAll]. rewrite (IH H), andb_true_r.
    destruct r as [|d r']; [reflexivity|].
    apply negb_true_iff, andb_false_iff.
    destruct (c =? 44) eqn:Hc; [|left; reflexivity]. right.
    destruct (d =? 44) eqn:Hd; [|reflexivity]. exfalso.
    apply Z.eqb_eq in Hc, Hd. subst c d. apply (Hno 1%nat). reflexivity.
  - intros c r k Hm _ H. exfalso.
    apply reCommaSpacesComma_inv in Hm as (r' & u & [= -> <-] & Hu & [= ->]).
    pose proof (spanLen_skipWhile isWhiteSpace r) as Hs.
    rewrite Hu in Hs. cbn [length] in Hs.
    rewrite length_app in H.
    pose proof (replaceAll_length reCommaSpacesComma (lit ",")
                  reCommaSpacesComma_bounds
                  (skipn (S (spanLen isWhiteSpace r)) r)) as Hle.
    rewrite length_skipn in Hle.
    change (length (lit ",")) with 1%nat in H. cbn [length] in H. lia.
Qed.

Lemma strip_leading_comma_same_length (s : jsstring) :
  length (replaceAtStart reLeadingComma [] s) = length s ->
  headIs (Z.eqb 44) s = false.
Proof.
  destruct (headIs (Z.eqb 44) s) eqn:Hh; [|reflexivity]. intros H. exfalso.
  apply headIs_comma_inv in Hh as (t & ->).
  unfold replaceAtStart in H.
  change (reLeadingComma (44 :: t))
    with (Some (0 + 1 + spanLen isWhiteSpace t)%nat) in H.
  cbn [app] in H. rewrite length_skipn in H. simpl in H. lia.
Qed.

Lemma strip_trailing_comma_shorter (l : jsstring) :
  (length (replaceFirst reTrailingComma [] (l ++ [44%Z])) < length (l ++ [44%Z]))%nat.
Proof.
  induction l as [|c l IH].
  - vm_compute. lia.
  - cbn [app replaceFirst].
    destruct (reTrailingComma (c :: l ++ [44])) as [n|] eqn:E.
    + apply reTrailingComma_to_end in E. subst n.
      rewrite skipn_all. simpl. lia.
    + simpl. simpl in IH. lia.
Qed.

Lemma strip_trailing_comma_same_length (s : jsstring) :
  length (replaceFirst reTrailingComma [] s) = length s ->
  headIs (Z.eqb 44) (rev s) = false.
Proof.
  destruct (headIs (Z.eqb 44) (rev s)) eqn:Hh; [|reflexivity]. intros H. exfalso.
  apply headIs_comma_inv in Hh as (t & Ht).
  assert (E : s = rev t ++ [44]).
  { rewrite <- (rev_involutive s), Ht. reflexivity. }
  pose proof (strip_trailing_comma_shorter (rev t)) as Hlt.
  rewrite <- E in Hlt. lia.
Qed.

Lemma fixed_alreadyClean (s : jsstring) :
  CityScraper.cleanAddress s = s -> alreadyClean s = true.
Proof.
  intros H.
  pose proof (cleanAddress_normal s) as HN. rewrite H in HN.
  destruct (normalAddress_inv s HN) as (HP & HS & HT & HC).
  unfold CityScraper.cleanAddress in H.
  rewrite (collapse_spaces_id s HP HS) in H.
  rewrite (replaceAll_reUnit_absent 10 [] s) in H
    by (apply onlyPlainSpaces_not_in; [exact HP | reflexivity | lia]).
  rewrite (replaceAll_reUnit_absent 9 [] s) in H
    by (apply onlyPlainSpaces_not_in; [exact HP | reflexivity | lia]).
  set (s4 := replaceAll reCommaSpacesComma (lit ",") s) in *.
  set (s5 := replaceAtStart reLeadingComma [] s4) in *.
  set (s6 := replaceFirst reTrailingComma [] s5) in *.
  set (s7 := replaceAll reSpacesComma (lit ",") s6) in *.
  set (s8 := replaceAll reCommaSpaces (lit ", ") s7) in *.
  pose proof (trim_length s8) as L9.
  pose proof (replaceAll_length reCommaSpaces (lit ", ") reCommaSpaces_bounds s7) as L8.
  pose proof (replaceAll_length reSpacesComma (lit ",") reSpacesComma_bounds s6) as L7.
  pose proof (replaceFirst_prefix_length s5) as L6.
  assert (L5 : (length s5 <= length s4)%nat).
  { destruct (replaceAtStart_suffix reLeadingComma s4) as (k & E).
    subst s5. rewrite E, length_skipn. lia. }
  pose proof (replaceAll_length reCommaSpacesComma (lit ",")
                reCommaSpacesComma_bounds s) as L4.
  fold s8 s7 s6 s5 s4 in L8, L7, L6, L4.
  assert (L : length (trim s8) = length s) by (rewrite H; reflexivity).
  assert (HD : noDoubledComma s = true).
  { apply merge_commas_same_length; fold s4. lia. }
  assert (E4 : s4 = s) by (apply merge_commas_id; assumption).
  assert (HH : headIs (Z.eqb 44) s = false).
  { apply strip_leading_comma_same_length. rewrite <- E4. fold s5. lia. }
  assert (E5 : s5 = s).
  { subst s5. rewrite E4. unfold replaceAtStart.
    rewrite reLeadingComma_none; [reflexivity| |exact HH].
    unfold noOuterSpace in HT. apply andb_true_iff in HT as [HT _].
    apply negb_true_iff in HT. exact HT. }
  assert (HL : headIs (Z.eqb 44) (rev s) = false).
  { apply strip_trailing_comma_same_length. rewrite <- E5. fold s6. lia. }
  unfold alreadyClean, noOuterComma. rewrite HN, HD, HH, HL. reflexivity.
Qed.

(** X2. cleanAddress leaves a string as it is exactly when the string is
    already clean: its only white space is single spaces, with none at either
    end and none before a comma, it neither starts nor ends with a comma and
    has no two commas in a row. A comma that no space follows is no obstacle. *)
Theorem cleanAddress_fixed_points (s : jsstring) :
  CityScraper.cleanAddress s = s <-> alreadyClean s = true.
Proof. split; [apply fixed_alreadyClean | apply alreadyClean_fixed]. Qed.

Lemma cleanAddress_fixed_points_witness :
  alreadyClean (lit "Jr. Cusco 425,Lima") = true
  /\ CityScraper.cleanAddress (lit "Jr. Cusco 425,Lima") = lit "Jr. Cusco 425,Lima".
Proof.
  split; [reflexivity|].
  apply (cleanAddress_fixed_points (lit "Jr. Cusco 425,Lima")). reflexivity.
Defined.

(** ** The address of a profile page *)

Lemma addressFromBlocks_normal (blocks : list jsstring) :
  normalAddress (CityScraper.addressFromBlocks blocks) = true.
Proof.
  induction blocks as [|raw rest IH]; [reflexivity|].
  cbn [CityScraper.addressFromBlocks]. cbv zeta.
  destruct (truthy (trim raw) && (10 <? Z.of_nat (length (trim raw)))); [|exact IH].
  destruct (truthy _ && negb _); [apply cleanAddress_normal | exact IH].
Qed.

Lemma addressFromStreetNode_normal (node : option jsstring) (a : jsstring) :
  CityScraper.addressFromStreetNode node = Some a -> normalAddress a = true.
Proof.
  unfold CityScraper.addressFromStreetNode. destruct node as [raw|]; [|discriminate].
  cbv zeta. destruct (truthy _ && _); [|discriminate].
  intros [= <-]. apply cleanAddress_normal.
Qed.

Lemma addressFromMeta_normal (metaStreet : option jsstring) (a : jsstring) :
  CityScraper.addressFromMeta metaStreet = Some a -> normalAddress a = true.
Proof.
  unfold CityScraper.addressFromMeta. destruct metaStreet as [content|]; [|discriminate].
  destruct (truthy _ && _); [|discriminate].
  intros [= <-]. apply cleanAddress_normal.
Qed.

Lemma addressFromSpans_normal (spans : list jsstring) (a : jsstring) :
  CityScraper.addressFromSpans spans = Some a -> normalAddress a = true.
Proof.
  induction spans as [|raw rest IH]; [discriminate|].
  cbn [CityScraper.addressFromSpans]. cbv zeta.
  destruct (_ && _ && _ && _); [|exact IH].
  intros [= <-]. apply cleanAddress_normal.
Qed.

Lemma addressFromContainers_normal (containers : list (list jsstring)) :
  forall addr, normalAddress addr = true ->
    normalAddress (CityScraper.addressFromContainers containers addr) = true.
Proof.
  induction containers as [|spans rest IH]; intros addr H; [exact H|].
  cbn [CityScraper.addressFromContainers]. cbv zeta.
  destruct (CityScraper.addressFromSpans spans) as [found|] eqn:E.
  - pose proof (addressFromSpans_normal _ _ E) as Hf.
    destruct (truthy found); [exact Hf | exact (IH _ Hf)].
  - destruct (truthy addr); [exact H | exact (IH _ H)].
Qed.

Lemma addressFromParagraphs_normal (paragraphs : list jsstring) :
  forall addr, normalAddress addr = true ->
    normalAddress (CityScraper.addressFromParagraphs paragraphs addr) = true.
Proof.
  induction paragraphs as [|raw rest IH]; intros addr H; [exact H|].
  cbn [CityScraper.addressFromParagraphs]. cbv zeta.
  destruct (_ && _ && _ && _ && _); [apply cleanAddress_normal | exact (IH _ H)].
Qed.

(** X3. Whatever method finds it, an address that extractAddress returns has
    been through cleanAddress: it has only plain spaces, no two in a row,
    none at either end and none before a comma. *)
Theorem extractAddress_normal (doc : CityScraper.ProfileDoc) (a : jsstring) :
  CityScraper.extractAddress doc = Return (Some a) -> normalAddress a = true.
Proof.
  unfold CityScraper.extractAddress, attempt, andThen.
  destruct (CityScraper.addressBlocks doc) as [blocks|]; [|discriminate].
  pose proof (addressFromBlocks_normal blocks) as H1.
  destruct (truthy (CityScraper.addressFromBlocks blocks)); [intros [= <-]; exact H1|].
  destruct (CityScraper.streetAddressSpan doc) as [node|]; [|discriminate].
  destruct (CityScraper.addressFromStreetNode node) as [addr2|] eqn:E2.
  { intros [= <-]. exact (addressFromStreetNode_normal _ _ E2). }
  destruct (CityScraper.metaStreetAddress doc) as [metaStreet|]; [|discriminate].
  destruct (CityScraper.addressFromMeta metaStreet) as [addr3|] eqn:E3.
  { intros [= <-]. exact (addressFromMeta_normal _ _ E3). }
  destruct (CityScraper.layoutSpans doc) as [containers|]; [|discriminate].
  pose proof (addressFromContainers_normal containers _ H1) as H4.
  destruct (truthy (CityScraper.addressFromContainers containers _));
    [intros [= <-]; exact H4|].
  destruct (CityScraper.paragraphSpans doc) as [paragraphs|]; [|discriminate].
  pose proof (addressFromParagraphs_normal paragraphs _ H4) as H5.
  destruct (truthy (CityScraper.addressFromParagraphs paragraphs _));
    [intros [= <-]; exact H5 | discriminate].
Qed.

Lemma extractAddress_normal_witness :
  CityScraper.extractAddress sampleFullProfile
  = Return (Some (lit "Av. Javier Prado Este 1066, San Isidro"))
  /\ normalAddress (lit "Av. Javier Prado Este 1066, San Isidro") = true.
Proof.
  split; [vm_compute; reflexivity|].
  apply (extractAddress_normal sampleFullProfile). vm_compute. reflexivity.
Defined.

(** ** The synthetic schedule *)

Lemma In_countFrom (k : Z) (n : nat) :
  forall a, In k (countFrom a n) <-> a <= k < a + Z.of_nat n.
Proof.
  induction n as [|n IH]; intros a.
  - simpl. lia.
  - cbn [countFrom In]. rewrite IH. lia.
Qed.

Lemma localDay_addDays (tz t n : Z) :
  localDay (fixedZone tz) (addDays (fixedZone tz) t n) = localDay (fixedZone tz) t + n.
Proof.
  unfold localDay, addDays, localTime, utc, fixedZone. cbn [offsetAt offsetFor].
  replace (t + tz + n * msPerDay - tz + tz) with (t + tz + n * msPerDay) by ring.
  apply Z.div_add. discriminate.
Qed.

Lemma getDay_addDays (tz t n : Z) :
  getDay (fixedZone tz) (addDays (fixedZone tz) t n) = (getDay (fixedZone tz) t + n) mod 7.
Proof.
  unfold getDay. rewrite localDay_addDays.
  rewrite Zplus_mod_idemp_l. f_equal. ring.
Qed.

Lemma getDay_range (tz t : Z) : 0 <= getDay (fixedZone tz) t < 7.
Proof. unfold getDay. apply Z.mod_pos_bound. lia. Qed.

Lemma localDay_setHoursSharp (tz t h : Z) :
  0 <= h < 24 ->
  localDay (fixedZone tz) (setHoursSharp (fixedZone tz) t h) = localDay (fixedZone tz) t.
Proof.
  intros Hh. unfold setHoursSharp.
  set (d := localDay (fixedZone tz) t).
  unfold localDay, localTime, utc, fixedZone. cbn [offsetAt offsetFor].
  replace (d * msPerDay + h * msPerHour - tz + tz)
    with (h * msPerHour + d * msPerDay) by ring.
  rewrite Z.div_add by discriminate.
  rewrite Z.div_small; [ring|]. unfold msPerHour, msPerDay. lia.
Qed.

Lemma timeInDay_setHoursSharp (tz t h : Z) :
  0 <= h < 24 -> timeInDay (fixedZone tz) (setHoursSharp (fixedZone tz) t h) = h * msPerHour.
Proof.
  intros Hh. unfold setHoursSharp, timeInDay, localTime, utc.
  cbn [fixedZone offsetAt offsetFor].
  replace (localDay (fixedZone tz) t * msPerDay + h * msPerHour - tz + tz)
    with (h * msPerHour + localDay (fixedZone tz) t * msPerDay) by ring.
  rewrite Z.mod_add by discriminate.
  apply Z.mod_small. unfold msPerHour, msPerDay. lia.
Qed.

Lemma getDay_setHoursSharp (tz t h : Z) :
  0 <= h < 24 -> getDay (fixedZone tz) (setHoursSharp (fixedZone tz) t h) = getDay (fixedZone tz) t.
Proof. intros Hh. unfold getDay. rewrite localDay_setHoursSharp by exact Hh. reflexivity. Qed.

Lemma weekday_range (g : Z) :
  0 <= g < 7 -> (g =? 0) || (g =? 6) = false -> 1 <= g <= 5.
Proof. intros Hg H. apply orb_false_iff in H as [H0 H6]. lia. Qed.

Lemma startOfBlock (tz today day h : Z) (m : Modality) :
  1 <= day <= 14 -> h = 9 \/ h = 15 ->
  (getDay (fixedZone tz) (addDays (fixedZone tz) today day) =? 0)
  || (getDay (fixedZone tz) (addDays (fixedZone tz) today day) =? 6) = false ->
  officeBlock tz today m
    {| startAt := DateOf (setHoursSharp (fixedZone tz) (addDays (fixedZone tz) today day) h);
       endAt :=
         DateOf (setHoursSharp (fixedZone tz) (addDays (fixedZone tz) today day) (h + 4));
       modality := m |}.
Proof.
  intros Hday Hh Hw. unfold officeBlock. cbn [startAt endAt modality].
  exists (setHoursSharp (fixedZone tz) (addDays (fixedZone tz) today day) h).
  split; [reflexivity|].
  assert (H24 : 0 <= h < 24) by lia.
  rewrite timeInDay_setHoursSharp, getDay_setHoursSharp, localDay_setHoursSharp
    by exact H24.
  rewrite localDay_addDays.
  split; [destruct Hh as [-> | ->]; [left | right]; reflexivity|].
  split; [f_equal; unfold setHoursSharp, utc, fixedZone; cbn [offsetFor]; ring|].
  split; [exact (weekday_range _ (getDay_range _ _) Hw)|].
  split; [lia | reflexivity].
Qed.

Lemma Forall_flat_map_In {A B : Type} (P : B -> Prop) (f : A -> list B) (xs : list A) :
  (forall x, In x xs -> List.Forall P (f x)) -> List.Forall P (flat_map f xs).
Proof.
  induction xs as [|x xs IH]; intros H; [constructor|].
  cbn [flat_map]. apply List.Forall_app. split.
  - apply H. left. reflexivity.
  - apply IH. intros y Hy. apply H. right. exact Hy.
Qed.

Lemma city_dayBlocks_office (tz today day : Z) (isOnline : bool) :
  1 <= day <= 14 ->
  List.Forall (officeBlock tz today (if isOnline then online else in_person))
    (CityScraper.dayBlocks (fixedZone tz) (addDays (fixedZone tz) today day) isOnline).
Proof.
  intros Hday. unfold CityScraper.dayBlocks.
  destruct (_ || _) eqn:Hw; [constructor|]. cbv zeta.
  constructor; [|constructor; [|constructor]].
  - apply (startOfBlock tz today day 9); [exact Hday | left; reflexivity | exact Hw].
  - apply (startOfBlock tz today day 15); [exact Hday | right; reflexivity | exact Hw].
Qed.

Lemma specialty_dayBlocks_office (tz today day : Z) :
  1 <= day <= 14 ->
  List.Forall (officeBlock tz today in_person)
    (SpecialtyScraper.dayBlocks (fixedZone tz) (addDays (fixedZone tz) today day)).
Proof.
  intros Hday. unfold SpecialtyScraper.dayBlocks.
  destruct (_ || _) eqn:Hw; [constructor|]. cbv zeta.
  constructor; [|constructor; [|constructor]].
  - apply (startOfBlock tz today day 9); [exact Hday | left; reflexivity | exact Hw].
  - apply (startOfBlock tz today day 15); [exact Hday | right; reflexivity | exact Hw].
Qed.

(** Of fourteen days in a row ten are working days, whatever the day of the
    week they start after. *)
Lemma ten_working_days (g : Z) :
  0 <= g < 7 ->
  fold_right (fun day n => (blocksOn g day + n)%nat) 0%nat (countFrom 1 14) = 20%nat.
Proof.
  intros Hg.
  assert (H : g = 0 \/ g = 1 \/ g = 2 \/ g = 3 \/ g = 4 \/ g = 5 \/ g = 6) by lia.
  destruct H as [->|[->|[->|[->|[->|[->| ->]]]]]]; vm_compute; reflexivity.
Qed.

Lemma length_flat_map {A B : Type} (f : A -> list B) (xs : list A) :
  length (flat_map f xs) = fold_right (fun x n => (length (f x) + n)%nat) 0%nat xs.
Proof.
  induction xs as [|x xs IH]; [reflexivity|].
  cbn [flat_map fold_right]. rewrite length_app, IH. reflexivity.
Qed.

Lemma fold_right_ext_sum {A : Type} (f g : A -> nat) (xs : list A) :
  (forall x, f x = g x) ->
  fold_right (fun x n => (f x + n)%nat) 0%nat xs
  = fold_right (fun x n => (g x + n)%nat) 0%nat xs.
Proof.
  intros H. induction xs as [|x xs IH]; [reflexivity|].
  cbn [fold_right]. rewrite H, IH. reflexivity.
Qed.

Lemma city_mockAvailability_length (tz today : Z) (isOnline : bool) :
  length (CityScraper.mockAvailabilityFrom (fixedZone tz) today isOnline) = 20%nat.
Proof.
  unfold CityScraper.mockAvailabilityFrom. rewrite length_flat_map.
  rewrite (fold_right_ext_sum _ (blocksOn (getDay (fixedZone tz) today))).
  - apply ten_working_days, getDay_range.
  - intros day. unfold CityScraper.dayBlocks, blocksOn.
    rewrite getDay_addDays. destruct (_ || _); reflexivity.
Qed.

Lemma specialty_mockAvailability_length (tz today : Z) :
  length (SpecialtyScraper.mockAvailabilityFrom (fixedZone tz) today) = 20%nat.
Proof.
  unfold SpecialtyScraper.mockAvailabilityFrom. rewrite length_flat_map.
  rewrite (fold_right_ext_sum _ (blocksOn (getDay (fixedZone tz) today))).
  - apply ten_working_days, getDay_range.
  - intros day. unfold SpecialtyScraper.dayBlocks, blocksOn.
    rewrite getDay_addDays. destruct (_ || _); reflexivity.
Qed.

(** X4. The synthetic schedule of both scrapers has exactly 20 blocks, whatever
    the day and the time it is made at: every block starts at 9:00 or at
    15:00 local time, ends four hours later, and lies on a day from Monday to
    Friday, one to fourteen days after today. In the city-indexed scraper
    the modality is online when isOnline is set and in_person else; in the
    specialty-indexed scraper it is always in_person. *)
Theorem mock_schedule_shape (tz today : Z) (isOnline : bool) :
  (length (CityScraper.mockAvailabilityFrom (fixedZone tz) today isOnline) = 20%nat
   /\ List.Forall (officeBlock tz today (if isOnline then online else in_person))
        (CityScraper.mockAvailabilityFrom (fixedZone tz) today isOnline))
  /\ (length (SpecialtyScraper.mockAvailabilityFrom (fixedZone tz) today) = 20%nat
      /\ List.Forall (officeBlock tz today in_person)
           (SpecialtyScraper.mockAvailabilityFrom (fixedZone tz) today)).
Proof.
  split; split.
  - apply city_mockAvailability_length.
  - apply Forall_flat_map_In. intros day Hd. apply In_countFrom in Hd.
    apply city_dayBlocks_office. simpl in Hd. lia.
  - apply specialty_mockAvailability_length.
  - apply Forall_flat_map_In. intros day Hd. apply In_countFrom in Hd.
    apply specialty_dayBlocks_office. simpl in Hd. lia.
Qed.

(** ** The services of a profile page *)

Lemma forallb_firstn_spanLen (p : Z -> bool) (s : jsstring) :
  forallb p (firstn (spanLen p s) s) = true.
Proof.
  induction s as [|c r IH]; [reflexivity|]. cbn [spanLen].
  destruct (p c) eqn:Hc; [|reflexivity]. cbn [firstn forallb]. rewrite Hc. exact IH.
Qed.

Lemma priceAt_digits (s digits : jsstring) :
  CityScraper.priceAt s = Some digits -> forallb isDigit digits = true.
Proof.
  unfold CityScraper.priceAt. intros H.
  destruct s as [|c1 [|c2 r]].
  - discriminate.
  - destruct c1 as [|p|p]; try discriminate.
    do 7 (destruct p as [p|p|]; try discriminate).
  - assert (E : match spanLen isDigit (skipWhile isWhiteSpace r) with
                | O => None
                | S n => Some (firstn (S n) (skipWhile isWhiteSpace r))
                end = Some digits).
    { destruct c1 as [|p|p]; try discriminate.
      do 7 (destruct p as [p|p|]; try discriminate).
      destruct c2 as [|q|q]; try discriminate.
      do 6 (destruct q as [q|q|]; try discriminate).
      exact H. }
    destruct (spanLen isDigit (skipWhile isWhiteSpace r)) as [|n] eqn:En; [discriminate|].
    injection E as <-. rewrite <- En. apply forallb_firstn_spanLen.
Qed.

Lemma firstPrice_digits (s digits : jsstring) :
  CityScraper.firstPrice s = Some digits -> forallb isDigit digits = true.
Proof.
  induction s as [|c r IH]; cbn [CityScraper.firstPrice].
  - destruct (CityScraper.priceAt []) eqn:E; [|discriminate].
    intros [= <-]. exact (priceAt_digits _ _ E).
  - destruct (CityScraper.priceAt (c :: r)) eqn:E; [|exact IH].
    intros [= <-]. exact (priceAt_digits _ _ E).
Qed.

Lemma parseDigits_nonneg (digits : jsstring) :
  forallb isDigit digits = true -> 0 <= CityScraper.parseDigits digits.
Proof.
  unfold CityScraper.parseDigits.
  assert (H : forall acc, 0 <= acc -> forallb isDigit digits = true ->
                0 <= fold_left (fun acc c => acc * 10 + (c - 48)) digits acc).
  { induction digits as [|c r IH]; intros acc Hacc Hd; [exact Hacc|].
    cbn [fold_left]. cbn [forallb] in Hd. apply andb_true_iff in Hd as [Hc Hr].
    apply IH; [|exact Hr]. unfold isDigit in Hc.
    apply andb_true_iff in Hc as [H1 H2]. lia. }
  apply H. lia.
Qed.

Lemma serviceOf_listed (nm priceText : jsstring) :
  truthy nm = true -> noOuterSpace nm = true ->
  listedService (CityScraper.serviceOf nm priceText).
Proof.
  intros Ht Ho. unfold listedService, CityScraper.serviceOf.
  cbn [name price currency durationMinutes].
  split; [exact Ht|]. split; [exact Ho|]. split; [reflexivity|].
  destruct (CityScraper.firstPrice (trim priceText)) as [digits|] eqn:E.
  - right. eexists. split; [reflexivity|]. split; [|reflexivity].
    apply parseDigits_nonneg. exact (firstPrice_digits _ _ E).
  - left. split; reflexivity.
Qed.

Lemma servicesSeen_push (seen : gset jsstring) (ts : list TreatmentData)
  (t : TreatmentData) :
  servicesSeen seen ts -> toLowerCase (name t) ∉ seen -> listedService t ->
  servicesSeen ({[toLowerCase (name t)]} ∪ seen) (ts ++ [t]).
Proof.
  intros (Hnd & Hin & Hall) Hnew Ht. unfold servicesSeen, foldedNames in *.
  rewrite map_app. cbn [List.map]. split; [|split].
  - apply NoDup_app. split; [exact Hnd|]. split; [|apply NoDup_singleton].
    intros n Hn Hn'. apply list_elem_of_singleton in Hn'. subst n.
    apply Hnew, Hin, Hn.
  - intros n Hn. apply elem_of_app in Hn as [Hn|Hn].
    + apply elem_of_union_r, Hin, Hn.
    + apply list_elem_of_singleton in Hn. subst n.
      apply elem_of_union_l, elem_of_singleton. reflexivity.
  - apply List.Forall_app. split; [exact Hall|]. constructor; [exact Ht | constructor].
Qed.

Lemma readServices_seen (items : list (Outcome (jsstring * jsstring))) :
  forall seen ts, servicesSeen seen ts ->
    servicesSeen (snd (fst (CityScraper.readServices items seen ts)))
                 (snd (CityScraper.readServices items seen ts)).
Proof.
  induction items as [|item rest IH]; intros seen ts H; [exact H|].
  cbn [CityScraper.readServices]. destruct item as [[rawName priceText]|e]; [|exact H].
  cbv zeta. destruct (truthy (trim rawName)) eqn:Ht; cbn [negb]; [|apply IH, H].
  case_bool_decide as Hseen; [apply IH, H|].
  apply IH.
  apply (servicesSeen_push seen ts (CityScraper.serviceOf (trim rawName) priceText));
    [exact H | exact Hseen|].
  apply serviceOf_listed; [exact Ht | apply noOuterSpace_trim].
Qed.

Lemma extractTreatments_seen (doc : CityScraper.ProfileDoc) :
  exists seen, servicesSeen seen (CityScraper.extractTreatments doc).
Proof.
  assert (H0 : servicesSeen ∅ []).
  { split; [constructor|]. split; [intros n Hn; inversion Hn | constructor]. }
  unfold CityScraper.extractTreatments.
  destruct (CityScraper.serviceItems doc) as [items|e]; [|exists ∅; exact H0].
  pose proof (readServices_seen items ∅ [] H0) as H1.
  destruct (CityScraper.readServices items ∅ []) as [[flag seen] ts].
  cbn [fst snd] in H1. destruct flag; [exists seen; exact H1|].
  destruct (_ =? 0); [|exists seen; exact H1].
  destruct (CityScraper.serviceHeadings doc) as [headings|e]; [|exists seen; exact H1].
  eexists. apply readServices_seen. exact H1.
Qed.

Lemma extractTreatments_distinct (doc : CityScraper.ProfileDoc) :
  NoDup (foldedNames (CityScraper.extractTreatments doc)).
Proof. destruct (extractTreatments_seen doc) as (seen & Hnd & _). exact Hnd. Qed.

(** X5. The services that extractTreatments reads from a profile page have
    pairwise distinct names, whatever their case; every one of them has a
    trimmed, non-empty name, lasts 30 minutes, and has either no price and no
    currency or a non-negative price in PEN. *)
Theorem extractTreatments_listed (doc : CityScraper.ProfileDoc) :
  NoDup (foldedNames (CityScraper.extractTreatments doc))
  /\ List.Forall listedService (CityScraper.extractTreatments doc).
Proof.
  destruct (extractTreatments_seen doc) as (seen & Hnd & _ & Hall).
  split; assumption.
Qed.

(** ** The slots of the endpoint *)


(** ** The entries of a search page *)

Lemma orElse_truthy (o : option jsstring) :
  truthy (orElse o []) = true -> exists v, o = Some v /\ orElse o [] = v.
Proof.
  unfold orElse. destruct o as [v|]; [|discriminate].
  destruct (truthy v); [eauto | discriminate].
Qed.

Lemma length_flat_map_le {A B : Type} (f : A -> list B) (xs : list A) :
  (forall x, (length (f x) <= 1)%nat) -> (length (flat_map f xs) <= length xs)%nat.
Proof.
  intros H. induction xs as [|x xs IH]; [reflexivity|].
  cbn [flat_map]. rewrite length_app. specialize (H x). simpl. lia.
Qed.

Lemma parseSearchResults_listed {W : Type} (host : CityScraper.Host W)
  (cards : list CityScraper.ResultCard) (city : jsstring) :
  List.Forall (listedResult city) (CityScraper.parseSearchResults host cards city).
Proof.
  unfold CityScraper.parseSearchResults. apply Forall_flat_map_In.
  intros card _. cbv zeta.
  destruct (truthy (orElse (CityScraper.dataResultId card) [])) eqn:H1; [|constructor].
  destruct (truthy (orElse (CityScraper.dataDoctorName card) [])) eqn:H2; [|constructor].
  destruct (truthy (orElse (CityScraper.dataDoctorUrl card) [])) eqn:H3; [|constructor].
  cbn [andb]. constructor; [|constructor]. unfold listedResult.
  cbn [CityScraper.DoctorSearchResult.doctorId CityScraper.DoctorSearchResult.doctorName
       CityScraper.DoctorSearchResult.doctorUrl CityScraper.DoctorSearchResult.city
       CityScraper.DoctorSearchResult.rating].
  split; [exact H1|]. split; [exact H2|]. split; [exact H3|]. split; [reflexivity|].
  destruct (if truthy _ then CityScraper.parseFloat host _ else None) as [q|];
    [|exact I].
  destruct (negb (Qeq_bool q 0) && Qle_bool 0 q && Qle_bool q (inject_Z 5)) eqn:Hq;
    [|exact I].
  apply andb_true_iff in Hq as [Hq H5]. apply andb_true_iff in Hq as [Hz H0].
  apply negb_true_iff, Qeq_bool_neq in Hz.
  apply Qle_bool_iff in H0, H5. cbn [positiveRating]. split; [|exact H5].
  apply Qle_lteq in H0 as [Hlt|Heq]; [exact Hlt|]. exfalso. apply Hz. symmetry. exact Heq.
Qed.

(** X6. Every entry that parseSearchResults returns has a non-empty id, name
    and URL, carries the city that was searched, and has a rating that is
    null or greater than 0 and at most 5; there is at most one entry per
    card of the page. *)
Theorem parseSearchResults_entries {W : Type} (host : CityScraper.Host W)
  (cards : list CityScraper.ResultCard) (city : jsstring) :
  List.Forall (listedResult city) (CityScraper.parseSearchResults host cards city)
  /\ (length (CityScraper.parseSearchResults host cards city) <= length cards)%nat.
Proof.
  split; [apply parseSearchResults_listed|].
  unfold CityScraper.parseSearchResults. apply length_flat_map_le.
  intros card. cbv zeta. destruct (_ && _ && _); simpl; lia.
Qed.

(** ** The telephone of a profile page *)

Lemma isDigit_not_space (c : Z) : isDigit c = true -> isWhiteSpace c = false.
Proof.
  unfold isDigit, isWhiteSpace. rewrite andb_true_iff, !Z.leb_le. intros [H1 H2].
  rewrite !orb_false_iff, !andb_false_iff, !Z.eqb_neq, !Z.leb_gt. lia.
Qed.

Lemma digits_noWhiteSpace (s : jsstring) :
  forallb isDigit s = true -> noWhiteSpace s = true.
Proof.
  unfold noWhiteSpace. induction s as [|c r IH]; [reflexivity|].
  cbn [forallb]. rewrite !andb_true_iff. intros [Hc Hr].
  split; [|exact (IH Hr)]. rewrite (isDigit_not_space c Hc). reflexivity.
Qed.

Lemma nine_inv (s : jsstring) (A : Type) (x y : A) (f : jsstring -> A) :
  match s with 57 :: r => f r | _ => y end = x -> x <> y ->
  exists r, s = 57 :: r /\ f r = x.
Proof.
  destruct s as [|c r]; [congruence|].
  destruct (Z.eq_dec c 57) as [->|Hne]; [eauto|].
  intros H Hxy. exfalso.
  destruct c as [|p|p]; try congruence.
  do 6 (destruct p as [p|p|]; try congruence).
Qed.

Lemma phonePattern_noWhiteSpace (s : jsstring) :
  isPhonePattern s = true -> noWhiteSpace s = true.
Proof.
  unfold isPhonePattern. intros H.
  apply nine_inv in H as (r & -> & H); [|discriminate].
  apply andb_true_iff in H as [_ H].
  apply digits_noWhiteSpace. cbn [forallb]. rewrite H. reflexivity.
Qed.

Lemma phonePattern_digits (s : jsstring) :
  isPhonePattern s = true -> forallb isDigit s = true.
Proof.
  unfold isPhonePattern. intros H.
  apply nine_inv in H as (r & -> & H); [|discriminate].
  apply andb_true_iff in H as [_ H]. cbn [forallb]. rewrite H. reflexivity.
Qed.

Lemma nineDigits_pattern (s : jsstring) :
  CityScraper.nineDigits s = true -> isPhonePattern (firstn 9 s) = true.
Proof.
  unfold CityScraper.nineDigits. intros H.
  apply nine_inv in H as (r & -> & H); [|discriminate].
  apply andb_true_iff in H as [Hl Hd]. apply Nat.leb_le in Hl.
  change (firstn 9 (57 :: r)) with (57 :: firstn 8 r).
  change (isPhonePattern (57 :: firstn 8 r))
    with ((length (firstn 8 r) =? 8)%nat && forallb isDigit (firstn 8 r)).
  rewrite Hd, andb_true_r. apply Nat.eqb_eq. rewrite length_firstn. lia.
Qed.

(** What [/\s/g] replaced by nothing leaves. *)
Lemma strip_spaces_filter (s : jsstring) :
  replaceAll CityScraper.reOneSpace [] s
  = List.filter (fun c => negb (isWhiteSpace c)) s.
Proof.
  apply (replaceAll_ind CityScraper.reOneSpace []
           (fun s o => o = List.filter (fun c => negb (isWhiteSpace c)) s)).
  - reflexivity.
  - intros c r Hno IH. cbn [List.filter].
    destruct (isWhiteSpace c) eqn:Hc.
    + exfalso. apply (Hno 0%nat). unfold CityScraper.reOneSpace. rewrite Hc. reflexivity.
    + cbn [negb]. rewrite IH. reflexivity.
  - intros c r k Hm IH. unfold CityScraper.reOneSpace in Hm.
    destruct (isWhiteSpace c) eqn:Hc; [|discriminate]. injection Hm as <-.
    cbn [List.filter skipn app] in *. rewrite Hc. cbn [negb]. exact IH.
Qed.

Lemma strip_spaces_noWhiteSpace (s : jsstring) :
  noWhiteSpace (replaceAll CityScraper.reOneSpace [] s) = true.
Proof.
  rewrite strip_spaces_filter. unfold noWhiteSpace.
  induction s as [|c r IH]; [reflexivity|]. cbn [List.filter].
  destruct (isWhiteSpace c) eqn:Hc; cbn [negb]; [exact IH|].
  cbn [forallb]. rewrite Hc, IH. reflexivity.
Qed.

Lemma filter_noWhiteSpace_id (s : jsstring) :
  noWhiteSpace s = true -> List.filter (fun c => negb (isWhiteSpace c)) s = s.
Proof.
  unfold noWhiteSpace. induction s as [|c r IH]; [reflexivity|].
  cbn [forallb List.filter]. rewrite andb_true_iff. intros [-> Hr].
  rewrite (IH Hr). reflexivity.
Qed.

Lemma firstMatch_inv (m : matcher) (s matched : jsstring) :
  CityScraper.firstMatch m s = Some matched ->
  exists s' n, m s' = Some n /\ matched = firstn n s'.
Proof.
  induction s as [|c r IH]; cbn [CityScraper.firstMatch].
  - destruct (m []) as [n|] eqn:E; [|discriminate]. intros [= <-]. eauto.
  - destruct (m (c :: r)) as [n|] eqn:E; [|exact IH]. intros [= <-]. eauto.
Qed.

(** The three shapes of a match of the telephone pattern. *)
Lemma rePhone_inv (s : jsstring) (n : nat) :
  CityScraper.rePhone s = Some n ->
  exists d, isPhonePattern d = true
    /\ (firstn n s = d
        \/ firstn n s = lit "+51" ++ d
        \/ exists w, isWhiteSpace w = true /\ firstn n s = lit "+51" ++ w :: d).
Proof.
  unfold CityScraper.rePhone. cbv zeta.
  assert (Hbare : (if CityScraper.nineDigits s then Some 9%nat else None) = Some n ->
                  exists d, isPhonePattern d = true
                    /\ (firstn n s = d
                        \/ firstn n s = lit "+51" ++ d
                        \/ exists w, isWhiteSpace w = true
                                     /\ firstn n s = lit "+51" ++ w :: d)).
  { destruct (CityScraper.nineDigits s) eqn:E; [|discriminate]. intros [= <-].
    exists (firstn 9 s). split; [exact (nineDigits_pattern _ E) | left; reflexivity]. }
  destruct (startsWith s (lit "+51")) eqn:Hs; [|exact Hbare].
  apply startsWith_inv in Hs as (r & ->).
  change (skipn 3 (lit "+51" ++ r)) with r.
  destruct (headIs isWhiteSpace r) eqn:Hw.
  - destruct r as [|w r']; [discriminate|]. cbn [headIs] in Hw.
    change (skipn 1 (w :: r')) with r'.
    destruct (CityScraper.nineDigits r') eqn:E; [|exact Hbare]. intros [= <-].
    exists (firstn 9 r'). split; [exact (nineDigits_pattern _ E)|].
    right. right. exists w. split; [exact Hw | reflexivity].
  - destruct (CityScraper.nineDigits r) eqn:E; [|exact Hbare]. intros [= <-].
    exists (firstn 9 r). split; [exact (nineDigits_pattern _ E)|].
    right. left. reflexivity.
Qed.

Lemma strip_country_code (d : jsstring) :
  replaceFirst (CityScraper.reLiteral (lit "+51")) [] (lit "+51" ++ d) = d.
Proof.
  change (lit "+51" ++ d) with (43 :: 53 :: 49 :: d).
  cbn [replaceFirst]. unfold CityScraper.reLiteral.
  pose proof (startsWith_app (lit "+51") d) as H.
  change (lit "+51" ++ d) with (43 :: 53 :: 49 :: d) in H. rewrite H. reflexivity.
Qed.

Lemma strip_country_code_absent (d : jsstring) :
  forallb isDigit d = true ->
  replaceFirst (CityScraper.reLiteral (lit "+51")) [] d = d.
Proof.
  apply (replaceFirst_unmatched (CityScraper.reLiteral (lit "+51")) []
           (fun s => forallb isDigit s = true)).
  - intros c r H. cbn [forallb] in H. apply andb_true_iff in H. tauto.
  - intros s n H Hm. unfold CityScraper.reLiteral in Hm.
    destruct (startsWith s (lit "+51")) eqn:E; [|discriminate].
    apply startsWith_inv in E as (r & ->). discriminate.
Qed.

Lemma matched_phone (body matched : jsstring) :
  CityScraper.firstMatch CityScraper.rePhone body = Some matched ->
  isPhonePattern
    (replaceFirst (CityScraper.reLiteral (lit "+51")) []
       (replaceAll CityScraper.reOneSpace [] matched)) = true.
Proof.
  intros H. apply firstMatch_inv in H as (s' & n & Hm & ->).
  apply rePhone_inv in Hm as (d & Hd & Hshape).
  pose proof (phonePattern_noWhiteSpace d Hd) as Hn.
  pose proof (phonePattern_digits d Hd) as Hdig.
  rewrite strip_spaces_filter.
  destruct Hshape as [-> | [-> | (w & Hw & ->)]].
  - rewrite (filter_noWhiteSpace_id d Hn), (strip_country_code_absent d Hdig). exact Hd.
  - rewrite List.filter_app.
    change (List.filter (fun c => negb (isWhiteSpace c)) (lit "+51")) with (lit "+51").
    rewrite (filter_noWhiteSpace_id d Hn), (strip_country_code d). exact Hd.
  - rewrite List.filter_app.
    change (List.filter (fun c => negb (isWhiteSpace c)) (lit "+51")) with (lit "+51").
    cbn [List.filter]. rewrite Hw. cbn [negb].
    rewrite (filter_noWhiteSpace_id d Hn), (strip_country_code d). exact Hd.
Qed.

Section CityExtractors.
Context {W : Type}.
Variable host : CityScraper.Host W.
Variable cfg : CityScraper.Config.

Lemma city_extractPhone_shape (doc : CityScraper.ProfileDoc) :
  returns (CityScraper.extractPhone host doc)
    (fun p => noWhiteSpace p = true
              /\ (hasTelephoneMeta doc = false -> isPhonePattern p = true)).
Proof.
  assert (Hgen : returns (CityScraper.generatePhone host)
                   (fun p => noWhiteSpace p = true
                             /\ (hasTelephoneMeta doc = false -> isPhonePattern p = true))).
  { eapply returns_weaken; [apply city_generatePhone_returns|].
    intros p Hp. split; [exact (phonePattern_noWhiteSpace p Hp) | intros _; exact Hp]. }
  unfold CityScraper.extractPhone.
  apply returns_tryCatch; [|intros e; exact Hgen].
  eapply mayReturn_bind; [apply mayReturn_outcome|]. intros phoneMeta Hmeta.
  destruct (truthy (orElse phoneMeta [])) eqn:Ht.
  - apply mayReturn_of_returns, returns_ret. split; [apply strip_spaces_noWhiteSpace|].
    unfold hasTelephoneMeta. rewrite Hmeta.
    destruct phoneMeta as [v|]; [|discriminate Ht].
    destruct (truthy v) eqn:Hv; [discriminate|].
    unfold orElse in Ht. rewrite Hv in Ht. discriminate Ht.
  - eapply mayReturn_bind; [apply mayReturn_outcome|]. intros body _.
    apply mayReturn_of_returns.
    destruct (CityScraper.firstMatch CityScraper.rePhone body) as [matched|] eqn:E;
      [|exact Hgen].
    apply returns_ret. pose proof (matched_phone body matched E) as Hp.
    split; [exact (phonePattern_noWhiteSpace _ Hp) | intros _; exact Hp].
Qed.


End CityExtractors.

(** X7. extractPhone never throws, and the number it returns has no white
    space in it. When the page gives no telephone in its meta data (also when
    reading it raises), the number is a 9 followed by eight digits, whether
    it was found in the text of the page or synthesized. *)
Theorem extractPhone_shape (W : Type) (host : CityScraper.Host W)
  (doc : CityScraper.ProfileDoc) (st : Store W) :
  exists p st',
    CityScraper.extractPhone host doc st = (Return p, st')
    /\ noWhiteSpace p = true
    /\ (hasTelephoneMeta doc = false -> isPhonePattern p = true).
Proof.
  pose proof (city_extractPhone_shape host doc (scrapedUrls st) st eq_refl) as H.
  destruct (CityScraper.extractPhone host doc st) as [[p|e] st']; [|destruct H].
  exists p, st'. split; [reflexivity|]. tauto.
Qed.


(** ** What a computation returns *)

Section Always.
Context {S : Type}.

Lemma always_ret {A : Type} (a : A) (Q : A -> Prop) :
  Q a -> always (S := S) (ret a) Q.
Proof. intros H s a' s' [= <- _]. exact H. Qed.

Lemma always_throw {A : Type} (e : Error) (Q : A -> Prop) :
  always (S := S) (throw e) Q.
Proof. intros s a s' E. discriminate E. Qed.

Lemma always_weaken {A : Type} (m : M S A) (Q Q' : A -> Prop) :
  always m Q' -> (forall a, Q' a -> Q a) -> always m Q.
Proof. intros H HQ s a s' E. exact (HQ _ (H _ _ _ E)). Qed.

Lemma always_bind {A B : Type} (m : M S A) (k : A -> M S B)
  (R : A -> Prop) (Q : B -> Prop) :
  always m R -> (forall a, R a -> always (k a) Q) -> always (bind m k) Q.
Proof.
  intros Hm Hk s b s' E. unfold bind in E.
  destruct (m s) as [[a|e] s1] eqn:Em; [|discriminate E].
  exact (Hk a (Hm _ _ _ Em) _ _ _ E).
Qed.

Lemma always_tryCatch {A : Type} (m : M S A) (h : Error -> M S A) (Q : A -> Prop) :
  always m Q -> (forall e, always (h e) Q) -> always (tryCatch m h) Q.
Proof.
  intros Hm Hh s a s' E. unfold tryCatch in E.
  destruct (m s) as [[a'|e] s1] eqn:Em.
  - injection E as <- _. exact (Hm _ _ _ Em).
  - exact (Hh e _ _ _ E).
Qed.

Lemma always_true {A : Type} (m : M S A) : always m (fun _ => True).
Proof. intros s a s' _. exact I. Qed.

End Always.

Lemma always_of_returns {W A : Type} (m : M (Store W) A) (Q : A -> Prop) :
  returns m Q -> always m Q.
Proof. intros H s a s' E. exact (returns_value m Q s s' a H E). Qed.

(** ** The records of the city-indexed scraper *)

Lemma orElse_fallback_truthy (o : option jsstring) (fallback : jsstring) :
  truthy fallback = true -> truthy (orElse o fallback) = true.
Proof.
  intros H. unfold orElse. destruct o as [v|]; [|exact H].
  destruct (truthy v) eqn:Hv; [exact Hv | exact H].
Qed.

Lemma lookupTreatments_cases (mapping : list (jsstring * list jsstring))
  (specialty : jsstring) :
  lookupTreatments mapping specialty = [lit "Consulta general"]
  \/ exists entry, In entry mapping /\ lookupTreatments mapping specialty = snd entry.
Proof.
  unfold lookupTreatments. cbv zeta.
  destruct (find _ mapping) as [entry|] eqn:E; [|left; reflexivity].
  right. exists entry. split; [|reflexivity]. exact (proj1 (find_some _ _ E)).
Qed.

Lemma lookupTreatments_distinct (mapping : list (jsstring * list jsstring))
  (specialty : jsstring) :
  distinctEntries mapping = true ->
  NoDup (List.map toLowerCase (lookupTreatments mapping specialty))
  /\ lookupTreatments mapping specialty <> [].
Proof.
  intros H. destruct (lookupTreatments_cases mapping specialty) as [-> | (entry & Hin & ->)].
  - split; [apply NoDup_singleton | discriminate].
  - unfold distinctEntries in H. rewrite forallb_forall in H.
    specialize (H entry Hin). apply andb_true_iff in H as [H1 H2].
    apply bool_decide_eq_true in H1. split; [exact H1|].
    intros E. rewrite E in H2. discriminate H2.
Qed.

Lemma mockTreatments_distinct {W : Type} (random : W -> Unit01 * W)
  (names : list jsstring) (w : W) :
  NoDup (List.map toLowerCase names) -> names <> [] ->
  NoDup (foldedNames (fst (mockTreatments random names w)))
  /\ fst (mockTreatments random names w) <> [].
Proof.
  intros Hnd Hne. destruct (mockTreatments_spec random names w) as [Hnames _].
  unfold foldedNames. split.
  - rewrite <- (List.map_map name toLowerCase), Hnames. exact Hnd.
  - intros E. rewrite E in Hnames. cbn [List.map] in Hnames. congruence.
Qed.

Section CityRecords.
Context {W : Type}.
Variable host : CityScraper.Host W.
Variable cfg : CityScraper.Config.

Lemma city_generateMockTreatments_distinct (specialty : jsstring) :
  returns (CityScraper.generateMockTreatments host specialty)
    (fun ts => ts <> [] /\ NoDup (foldedNames ts)).
Proof.
  unfold CityScraper.generateMockTreatments. apply returns_liftWorld. intros w.
  destruct (lookupTreatments_distinct CityScraper.mapping specialty) as [Hnd Hne];
    [vm_compute; reflexivity|].
  destruct (mockTreatments_distinct (CityScraper.random host) _ w Hnd Hne).
  split; assumption.
Qed.

Lemma city_generateMockAvailability_full (isOnline : bool) :
  returns (CityScraper.generateMockAvailability host cfg isOnline)
    (fun slots => length slots = 20%nat).
Proof.
  unfold CityScraper.generateMockAvailability.
  eapply returns_bind; [apply returns_liftWorld with (Q := fun _ => True); auto|].
  intros today _. apply returns_ret. apply city_mockAvailability_length.
Qed.

Lemma nonempty_of_length {A : Type} (l : list A) (n : nat) :
  length l = Datatypes.S n -> l <> [].
Proof. intros H ->. discriminate H. Qed.

Lemma city_scrapeDoctorProfile_record (result : CityScraper.DoctorSearchResult.t) :
  returns (CityScraper.scrapeDoctorProfile host cfg result)
    (fun o => forall d, o = Some d ->
       completeRecord d
       /\ city d = CityScraper.DoctorSearchResult.city result
       /\ rating d = CityScraper.DoctorSearchResult.rating result
       /\ specialty d = CityScraper.DoctorSearchResult.specialty result
       /\ reviewCount d = CityScraper.DoctorSearchResult.reviewCount result).
Proof.
  unfold CityScraper.scrapeDoctorProfile.
  apply returns_tryCatch; [|intros e; apply returns_ret; discriminate].
  eapply mayReturn_bind; [apply mayReturn_callWorld|]. intros doc _. cbv zeta.
  eapply mayReturn_bind; [apply mayReturn_outcome|]. intros extracted _.
  apply mayReturn_of_returns.
  eapply returns_bind; [apply city_extractPhone_shape|]. intros phone [Hphone _].
  eapply returns_bind with (R := fun ts => ts <> [] /\ NoDup (foldedNames ts)).
  { destruct (0 <? _) eqn:Hlen.
    - apply returns_ret. split.
      + intros E. rewrite E in Hlen. discriminate Hlen.
      + apply extractTreatments_distinct.
    - apply city_generateMockTreatments_distinct. }
  intros ts [Hts Hnd].
  eapply returns_bind with (R := fun av => av <> []).
  { assert (Hmock : forall isOnline,
              returns (CityScraper.generateMockAvailability host cfg isOnline)
                (fun av : list AvailabilityData => av <> [])).
    { intros isOnline. eapply returns_weaken; [apply city_generateMockAvailability_full|].
      intros av Hav. exact (nonempty_of_length _ _ Hav). }
    destruct (_ && _); [|apply Hmock].
    eapply returns_bind with (R := fun _ => True);
      [eapply returns_weaken; [apply city_fetchAvailability_returns | auto]|].
    intros fetched _. destruct (_ =? 0) eqn:Hf; [apply Hmock|].
    apply returns_ret. intros E. rewrite E in Hf. discriminate Hf. }
  intros av Hav. apply returns_ret. intros d [= <-].
  unfold completeRecord.
  cbn [fullName address phoneCountryCode phoneNumber treatments availability
       city rating specialty reviewCount].
  repeat split; try assumption.
  - apply noOuterSpace_trim.
  - apply orElse_fallback_truthy. reflexivity.
Qed.

Lemma city_fetchPages_listed (pages : list Z) (city : jsstring) :
  forall found, List.Forall (listedResult city) found ->
    returns (CityScraper.fetchPages host pages city found)
      (List.Forall (listedResult city)).
Proof.
  induction pages as [|page rest IH]; intros found Hfound; cbn [CityScraper.fetchPages].
  - apply returns_ret. exact Hfound.
  - eapply returns_bind
      with (R := fun step => match step with
                             | CityScraper.StopPaging => True
                             | CityScraper.NextPage more =>
                                 List.Forall (listedResult city) more
                             end).
    + apply returns_tryCatch; [|intros e; apply returns_ret; constructor].
      eapply mayReturn_bind; [apply mayReturn_callWorld|]. intros cards _. cbv zeta.
      apply mayReturn_of_returns. destruct (_ =? 0).
      * apply returns_ret. exact I.
      * eapply returns_bind; [apply returns_liftWorld with (Q := fun _ => True); auto|].
        intros _ _. apply returns_ret. apply parseSearchResults_listed.
    + intros [|more] Hmore; [apply returns_ret; exact Hfound|].
      apply IH. apply List.Forall_app. split; assumption.
Qed.

(** The loop over the search results keeps what holds of every accepted
    record, and stops at the cap. *)
Lemma city_scrapeProfiles_all (P : DoctorData -> Prop)
  (R : CityScraper.DoctorSearchResult.t -> Prop) :
  (forall result, R result ->
     always (CityScraper.scrapeDoctorProfile host cfg result)
       (fun o => forall d, o = Some d -> CityScraper.isValidDoctor d = true -> P d)) ->
  forall searchResults processed doctors,
    List.Forall R searchResults -> List.Forall P doctors ->
    always (CityScraper.scrapeProfiles host cfg searchResults processed doctors)
      (fun ds => List.Forall P ds
                 /\ forall cap, CityScraper.maxDoctorsPerCity cfg = Some cap ->
                      Z.of_nat (length ds)
                      <= Z.of_nat (length doctors) + Z.max 0 (cap - processed)).
Proof.
  intros Hprof searchResults.
  induction searchResults as [|result rest IH]; intros processed doctors HR HP;
    cbn [CityScraper.scrapeProfiles].
  - apply always_ret. split; [exact HP | intros cap _; lia].
  - destruct (numGe processed (CityScraper.maxDoctorsPerCity cfg)) eqn:Hcap;
      [apply always_ret; split; [exact HP | intros cap _; lia]|].
    inversion HR as [|? ? Hresult Hrest]; subst.
    eapply always_bind; [apply always_true|]. intros seen _.
    destruct seen; [apply IH; assumption|].
    eapply always_bind
      with (R := fun accepted => forall d, accepted = Some d -> P d).
    + apply always_tryCatch; [|intros e; apply always_ret; discriminate].
      eapply always_bind; [apply (Hprof result Hresult)|]. intros [d|] Hd.
      * destruct (CityScraper.isValidDoctor d) eqn:Hv;
          [|apply always_ret; discriminate].
        eapply always_bind; [apply always_true|]. intros _ _.
        eapply always_bind; [apply always_true|]. intros _ _.
        apply always_ret. intros d' [= <-]. exact (Hd d eq_refl Hv).
      * apply always_ret. discriminate.
    + intros [d|] Hd.
      * eapply always_weaken.
        -- apply (IH (processed + 1) (doctors ++ [d])); [exact Hrest|].
           apply List.Forall_app. split; [exact HP|].
           constructor; [exact (Hd d eq_refl) | constructor].
        -- cbv beta. intros ds [H1 H2]. split; [exact H1|].
           intros cap Hc. specialize (H2 cap Hc).
           rewrite Hc in Hcap. cbn [numGe] in Hcap. apply Z.leb_gt in Hcap.
           rewrite length_app in H2. cbn [length] in H2. lia.
      * eapply always_weaken; [apply IH; assumption|].
        cbv beta. intros ds [H1 H2]. split; [exact H1|].
        intros cap Hc. specialize (H2 cap Hc). lia.
Qed.

Lemma city_scrapeDoctorsByCity_records (city : jsstring) :
  In city (List.map trim (CityScraper.cities cfg)) ->
  always (CityScraper.scrapeDoctorsByCity host cfg city)
    (fun ds => List.Forall (cityRecord cfg) ds
               /\ forall cap, CityScraper.maxDoctorsPerCity cfg = Some cap ->
                    Z.of_nat (length ds) <= Z.max 0 cap).
Proof.
  intros Hcity. unfold CityScraper.scrapeDoctorsByCity.
  eapply always_bind.
  { apply always_of_returns, (city_fetchPages_listed _ city []). constructor. }
  intros searchResults Hlisted.
  eapply always_weaken.
  - apply (city_scrapeProfiles_all (cityRecord cfg) (listedResult city));
      [|exact Hlisted|constructor].
    intros result (_ & _ & _ & Hc & Hr).
    eapply always_weaken;
      [apply always_of_returns, city_scrapeDoctorProfile_record|].
    cbv beta. intros o Ho d -> Hv.
    destruct (Ho d eq_refl) as (Hcomplete & Hdc & Hdr & _).
    unfold cityRecord. rewrite Hdc, Hdr, Hc. tauto.
  - cbv beta. intros ds [H1 H2]. split; [exact H1|].
    intros cap Hc. specialize (H2 cap Hc). cbn [length] in H2. lia.
Qed.

Lemma city_scrapeCities_records (cities : list jsstring) :
  (forall c, In c cities -> In c (CityScraper.cities cfg)) ->
  forall allDoctors,
    List.Forall (cityRecord cfg) allDoctors ->
    always (CityScraper.scrapeCities host cfg cities allDoctors)
      (fun ds => List.Forall (cityRecord cfg) ds
                 /\ forall cap, CityScraper.maxDoctorsPerCity cfg = Some cap ->
                      Z.of_nat (length ds)
                      <= Z.of_nat (length allDoctors)
                         + Z.of_nat (length cities) * Z.max 0 cap).
Proof.
  induction cities as [|city rest IH]; intros Hsub allDoctors Hall;
    cbn [CityScraper.scrapeCities].
  - apply always_ret. split; [exact Hall | intros cap _; cbn [length]; lia].
  - eapply always_bind.
    { apply city_scrapeDoctorsByCity_records. apply in_map, Hsub. left. reflexivity. }
    cbv beta. intros cityDoctors [Hc Hlen].
    eapply always_weaken.
    + apply IH; [intros c Hin; apply Hsub; right; exact Hin|].
      apply List.Forall_app. split; assumption.
    + cbv beta. intros ds [H1 H2]. split; [exact H1|].
      intros cap Hcap. specialize (H2 cap Hcap). specialize (Hlen cap Hcap).
      rewrite length_app in H2. cbn [length]. lia.
Qed.

Lemma city_scrapeDoctors_records :
  always (CityScraper.scrapeDoctors host cfg)
    (fun ds => List.Forall (cityRecord cfg) ds
               /\ forall cap, CityScraper.maxDoctorsPerCity cfg = Some cap ->
                    Z.of_nat (length ds)
                    <= Z.of_nat (length (CityScraper.cities cfg)) * Z.max 0 cap).
Proof.
  unfold CityScraper.scrapeDoctors.
  apply always_tryCatch; [|intros e; apply always_throw].
  eapply always_bind.
  { apply (city_scrapeCities_records (CityScraper.cities cfg)); [auto | constructor]. }
  cbv beta. intros allDoctors Hall.
  destruct (_ =? 0); [apply always_throw|].
  eapply always_bind; [apply always_true|]. intros _ _.
  apply always_ret. destruct Hall as [H1 H2]. split; [exact H1|].
  intros cap Hcap. specialize (H2 cap Hcap). cbn [length] in H2. exact H2.
Qed.

End CityRecords.

(** ** The records of the specialty-indexed scraper *)

Lemma randomRating_range (r : Unit01) :
  30 <= mathRound ((draw r * inject_Z 2 + inject_Z 3) * inject_Z 10) <= 50.
Proof.
  destruct r as [q [H0 H1]]. cbn [draw]. unfold mathRound.
  assert (30 <= Qfloor ((q * inject_Z 2 + inject_Z 3) * inject_Z 10 + (1 # 2)) < 51);
    [|lia].
  apply floor_bounds; unfold inject_Z; lra.
Qed.

Lemma tenth_range (z lo hi : Z) :
  lo * 10 <= z <= hi * 10 ->
  (inject_Z lo <= inject_Z z / inject_Z 10)%Q
  /\ (inject_Z z / inject_Z 10 <= inject_Z hi)%Q.
Proof.
  intros [H1 H2]. split.
  - apply Qle_shift_div_l; [reflexivity|].
    rewrite <- inject_Z_mult, <- Zle_Qle. exact H1.
  - apply Qle_shift_div_r; [reflexivity|].
    rewrite <- inject_Z_mult, <- Zle_Qle. exact H2.
Qed.

Section SpecialtyRecords.
Context {W : Type}.
Variable host : SpecialtyScraper.Host W.
Variable cfg : SpecialtyScraper.Config.

Lemma specialty_generateRandomRating_range :
  returns (SpecialtyScraper.generateRandomRating host)
    (fun q => (inject_Z 3 <= q)%Q /\ (q <= inject_Z 5)%Q
              /\ exists tenths, q = (inject_Z tenths / inject_Z 10)%Q).
Proof.
  unfold SpecialtyScraper.generateRandomRating.
  eapply returns_bind; [apply returns_liftWorld with (Q := fun _ => True); auto|].
  intros r _. apply returns_ret.
  pose proof (randomRating_range r) as Hr.
  destruct (tenth_range
              (mathRound ((draw r * inject_Z 2 + inject_Z 3) * inject_Z 10)) 3 5)
    as [H3 H5]; [lia|].
  split; [exact H3|]. split; [exact H5|]. eexists. reflexivity.
Qed.

Lemma specialty_generateRandomReviewCount_range :
  returns (SpecialtyScraper.generateRandomReviewCount host)
    (fun n => 10 <= n <= 209).
Proof.
  unfold SpecialtyScraper.generateRandomReviewCount.
  eapply returns_bind; [apply returns_liftWorld with (Q := fun _ => True); auto|].
  intros r _. apply returns_ret.
  pose proof (floorScaled_range r 200 ltac:(lia)). lia.
Qed.

Lemma specialty_generatePhoneNumber_pattern :
  returns (SpecialtyScraper.generatePhoneNumber host)
    (fun p => isPhonePattern p = true).
Proof.
  unfold SpecialtyScraper.generatePhoneNumber.
  eapply returns_bind; [apply returns_liftWorld with (Q := fun _ => True); auto|].
  intros r _. apply returns_ret. apply phoneOf_pattern.
Qed.

Lemma specialty_generateMockTreatments_distinct (specialty : jsstring) :
  returns (SpecialtyScraper.generateMockTreatments host specialty)
    (fun ts => ts <> [] /\ NoDup (foldedNames ts) /\ List.Forall wellFormedService ts).
Proof.
  unfold SpecialtyScraper.generateMockTreatments. apply returns_liftWorld. intros w.
  destruct (lookupTreatments_distinct SpecialtyScraper.treatmentsBySpecialty specialty)
    as [Hnd Hne]; [vm_compute; reflexivity|].
  destruct (mockTreatments_distinct (SpecialtyScraper.random host) _ w Hnd Hne)
    as [H1 H2].
  destruct (mockTreatments_spec (SpecialtyScraper.random host)
              (lookupTreatments SpecialtyScraper.treatmentsBySpecialty specialty) w)
    as [_ Hw].
  split; [exact H2|]. split; [exact H1 | exact Hw].
Qed.

Lemma specialty_generateMockAvailability_full :
  returns (SpecialtyScraper.generateMockAvailability host cfg)
    (fun slots => length slots = 20%nat).
Proof.
  unfold SpecialtyScraper.generateMockAvailability.
  eapply returns_bind; [apply returns_liftWorld with (Q := fun _ => True); auto|].
  intros today _. apply returns_ret. apply specialty_mockAvailability_length.
Qed.

Lemma specialty_parseDoctorCard_record (card : SpecialtyScraper.Card)
  (defaultSpecialty defaultCity : jsstring) :
  returns (SpecialtyScraper.parseDoctorCard host cfg card defaultSpecialty defaultCity)
    (fun o => forall d, o = Some d ->
       SpecialtyScraper.isValidDoctor d = true -> specialtyRecord cfg d).
Proof.
  unfold SpecialtyScraper.parseDoctorCard.
  apply returns_tryCatch; [|intros e; apply returns_ret; discriminate].
  eapply mayReturn_bind; [apply mayReturn_outcome|]. intros elt _. cbv zeta.
  apply mayReturn_of_returns.
  destruct (negb (truthy (orElse (SpecialtyScraper.linkHref elt) [])));
    [apply returns_ret; discriminate|].
  match goal with |- returns (if ?c then _ else _) _ => destruct c end;
    [apply returns_ret; discriminate|].
  eapply returns_bind
    with (R := fun q => (0 <= q)%Q /\ (q <= inject_Z 5)%Q).
  { match goal with |- returns (match ?c with _ => _ end) _ =>
      destruct c as [q|] eqn:Eq end.
    - apply returns_ret.
      destruct (truthy _); [|discriminate Eq].
      destruct (SpecialtyScraper.parseFloat host _) as [q'|]; [|discriminate Eq].
      destruct (Qle_bool 0 q' && Qle_bool q' (inject_Z 5)) eqn:Hq; [|discriminate Eq].
      injection Eq as <-. apply andb_true_iff in Hq as [H0 H5].
      apply Qle_bool_iff in H0, H5. split; assumption.
    - eapply returns_weaken; [apply specialty_generateRandomRating_range|].
      cbv beta. intros q (H3 & H5 & _). split; [|exact H5].
      eapply Qle_trans; [|exact H3]. discriminate. }
  intros rated Hrated.
  eapply returns_bind with (R := fun _ => True).
  { match goal with |- returns (if ?c then _ else _) _ => destruct c end.
    - apply returns_ret. exact I.
    - eapply returns_bind; [apply specialty_draw_returns|].
      intros n _. apply returns_ret. exact I. }
  intros reviewCount _.
  eapply returns_bind; [apply specialty_generatePhoneNumber_pattern|]. intros phone Hphone.
  eapply returns_bind with (R := fun _ => True).
  { destruct reviewCount; [apply returns_ret; exact I | apply specialty_draw_returns]. }
  intros finalCount _.
  eapply returns_bind; [apply specialty_generateMockTreatments_distinct|].
  intros ts (Hne & Hnd & Hwf).
  eapply returns_bind; [apply specialty_generateMockAvailability_full|].
  intros av Hav. apply returns_ret. intros d [= <-] Hv.
  unfold specialtyRecord, completeRecord.
  cbn [fullName address phoneCountryCode phoneNumber treatments availability
       city rating profileUrl].
  split; [exact Hv|]. split.
  { split; [apply noOuterSpace_trim|]. split; [reflexivity|]. split; [reflexivity|].
    split; [exact (phonePattern_noWhiteSpace _ Hphone)|].
    split; [exact Hne|]. split; [exact Hnd|]. exact (nonempty_of_length _ _ Hav). }
  split; [exists rated; split; [reflexivity | exact Hrated]|].
  split; [exact Hphone|]. split; [reflexivity|]. split; [exact Hwf|].
  split; [exact Hav|].
  unfold absoluteUrl.
  destruct (startsWith (orElse (SpecialtyScraper.linkHref elt) []) (lit "http")) eqn:Hh;
    [left; exact Hh|]. right.
  destruct (startsWith (orElse (SpecialtyScraper.linkHref elt) []) (lit "/")) eqn:Hs.
  - apply startsWith_inv in Hs as (path & ->). exists path. reflexivity.
  - eexists. reflexivity.
Qed.

Lemma specialty_parseStandardCards_all (cards : list SpecialtyScraper.Card)
  (specialty city : jsstring) :
  forall parsed doctors,
    List.Forall (specialtyRecord cfg) doctors ->
    always (SpecialtyScraper.parseStandardCards host cfg cards specialty city parsed doctors)
      (fun ds => List.Forall (specialtyRecord cfg) ds
                 /\ Z.of_nat (length ds)
                    <= Z.of_nat (length doctors)
                       + Z.max 0 (numOr0 (SpecialtyScraper.maxDoctorsPerSpecialty cfg) - parsed)).
Proof.
  induction cards as [|card rest IH]; intros parsed doctors HP;
    cbn [SpecialtyScraper.parseStandardCards].
  - apply always_ret. split; [exact HP | lia].
  - destruct (numLt parsed (SpecialtyScraper.maxDoctorsPerSpecialty cfg)) eqn:Hcap;
      cbn [negb]; [|apply always_ret; split; [exact HP | lia]].
    apply numLt_numOr0 in Hcap.
    eapply always_bind
      with (R := fun accepted => forall d, accepted = Some d -> specialtyRecord cfg d).
    + apply always_tryCatch; [|intros e; apply always_ret; discriminate].
      eapply always_bind;
        [apply always_of_returns, specialty_parseDoctorCard_record|].
      cbv beta. intros [d|] Hd; [|apply always_ret; discriminate].
      eapply always_bind; [apply always_true|]. intros seen _.
      destruct seen; cbn [negb]; [apply always_ret; discriminate|].
      destruct (SpecialtyScraper.isValidDoctor d) eqn:Hv;
        [|apply always_ret; discriminate].
      eapply always_bind; [apply always_true|]. intros _ _.
      apply always_ret. intros d' [= <-]. exact (Hd d eq_refl Hv).
    + intros [d|] Hd.
      * eapply always_weaken.
        -- apply (IH (parsed + 1) (doctors ++ [d])).
           apply List.Forall_app. split; [exact HP|].
           constructor; [exact (Hd d eq_refl) | constructor].
        -- cbv beta. intros ds [H1 H2]. split; [exact H1|].
           rewrite length_app in H2. cbn [length] in H2. lia.
      * apply IH; assumption.
Qed.

Lemma specialty_parseStandardCards_fresh (cards : list SpecialtyScraper.Card)
  (specialty city : jsstring) :
  always (SpecialtyScraper.parseStandardCards host cfg cards specialty city 0 [])
    (fun ds => List.Forall (specialtyRecord cfg) ds
               /\ Z.of_nat (length ds)
                  <= Z.max 0 (numOr0 (SpecialtyScraper.maxDoctorsPerSpecialty cfg))).
Proof.
  eapply always_weaken; [apply specialty_parseStandardCards_all; constructor|].
  cbv beta. intros ds [H1 H2]. split; [exact H1|]. cbn [length] in H2. lia.
Qed.

Lemma specialty_nothing :
  always (S := Store W) (ret ([] : list DoctorData))
    (fun ds => List.Forall (specialtyRecord cfg) ds
               /\ Z.of_nat (length ds)
                  <= Z.max 0 (numOr0 (SpecialtyScraper.maxDoctorsPerSpecialty cfg))).
Proof. apply always_ret. split; [constructor | cbn [length]; lia]. Qed.

Lemma specialty_scrapeDoctorsFromHomepage_records (specialty city : jsstring) :
  always (SpecialtyScraper.scrapeDoctorsFromHomepage host cfg specialty city)
    (fun ds => List.Forall (specialtyRecord cfg) ds
               /\ Z.of_nat (length ds)
                  <= Z.max 0 (numOr0 (SpecialtyScraper.maxDoctorsPerSpecialty cfg))).
Proof.
  unfold SpecialtyScraper.scrapeDoctorsFromHomepage.
  apply always_tryCatch; [|intros e; apply specialty_nothing].
  eapply always_bind; [apply always_true|]. intros cards _.
  apply specialty_parseStandardCards_fresh.
Qed.

Lemma specialty_scrapeDoctorsBySpecialtyAndCity_records (specialty city : jsstring) :
  always (SpecialtyScraper.scrapeDoctorsBySpecialtyAndCity host cfg specialty city)
    (fun ds => List.Forall (specialtyRecord cfg) ds
               /\ Z.of_nat (length ds)
                  <= Z.max 0 (numOr0 (SpecialtyScraper.maxDoctorsPerSpecialty cfg))).
Proof.
  unfold SpecialtyScraper.scrapeDoctorsBySpecialtyAndCity. cbv zeta.
  apply always_tryCatch.
  - eapply always_bind; [apply always_true|]. intros page _.
    destruct (0 <? _); [apply specialty_parseStandardCards_fresh|].
    eapply always_bind; [apply always_true|]. intros alt _.
    destruct (0 <? _); [apply specialty_parseStandardCards_fresh | apply specialty_nothing].
  - intros e.
    destruct e as [|[status|]|]; try apply specialty_nothing.
    destruct status as [|p|p]; try apply specialty_nothing.
    do 9 (destruct p as [p|p|]; try apply specialty_nothing).
    apply specialty_scrapeDoctorsFromHomepage_records.
Qed.

Lemma specialty_scrapeCities_records (specialty : jsstring) (cities : list jsstring) :
  forall doctors,
    List.Forall (specialtyRecord cfg) doctors ->
    always (SpecialtyScraper.scrapeCities host cfg specialty cities doctors)
      (fun ds => List.Forall (specialtyRecord cfg) ds
                 /\ Z.of_nat (length ds)
                    <= Z.of_nat (length doctors)
                       + Z.of_nat (length cities)
                         * Z.max 0 (numOr0 (SpecialtyScraper.maxDoctorsPerSpecialty cfg))).
Proof.
  induction cities as [|city rest IH]; intros doctors Hall;
    cbn [SpecialtyScraper.scrapeCities].
  - apply always_ret. split; [exact Hall | cbn [length]; lia].
  - eapply always_bind; [apply specialty_scrapeDoctorsBySpecialtyAndCity_records|].
    cbv beta. intros cityDoctors [Hc Hlen].
    eapply always_weaken.
    + apply IH. apply List.Forall_app. split; assumption.
    + cbv beta. intros ds [H1 H2]. split; [exact H1|].
      rewrite length_app in H2. cbn [length]. lia.
Qed.

Lemma specialty_scrapeSpecialties_records (specialties : list jsstring) :
  forall doctors,
    List.Forall (specialtyRecord cfg) doctors ->
    always (SpecialtyScraper.scrapeSpecialties host cfg specialties doctors)
      (fun ds => List.Forall (specialtyRecord cfg) ds
                 /\ Z.of_nat (length ds)
                    <= Z.of_nat (length doctors)
                       + Z.of_nat (length specialties)
                         * (Z.of_nat (length (SpecialtyScraper.cities cfg))
                            * Z.max 0 (numOr0 (SpecialtyScraper.maxDoctorsPerSpecialty cfg)))).
Proof.
  induction specialties as [|specialty rest IH]; intros doctors Hall;
    cbn [SpecialtyScraper.scrapeSpecialties].
  - apply always_ret. split; [exact Hall | cbn [length]; lia].
  - eapply always_bind; [apply specialty_scrapeCities_records, Hall|].
    cbv beta. intros doctors' [Hc Hlen].
    eapply always_weaken; [apply IH, Hc|].
    cbv beta. intros ds [H1 H2]. split; [exact H1|]. cbn [length]. lia.
Qed.

Lemma specialty_scrapeDoctors_records :
  always (SpecialtyScraper.scrapeDoctors host cfg)
    (fun ds => List.Forall (specialtyRecord cfg) ds
               /\ Z.of_nat (length ds)
                  <= Z.of_nat (length (SpecialtyScraper.specialties cfg))
                     * (Z.of_nat (length (SpecialtyScraper.cities cfg))
                        * Z.max 0 (numOr0 (SpecialtyScraper.maxDoctorsPerSpecialty cfg)))).
Proof.
  unfold SpecialtyScraper.scrapeDoctors.
  apply always_tryCatch; [|intros e; apply always_throw].
  eapply always_bind.
  { apply (specialty_scrapeSpecialties_records (SpecialtyScraper.specialties cfg)).
    constructor. }
  cbv beta. intros doctors Hall.
  destruct (_ =? 0); [apply always_throw|].
  apply always_ret. cbn [length] in Hall. exact Hall.
Qed.

End SpecialtyRecords.

(** ** The records of a run *)

(** The two sample runs return one record each. *)
Lemma sample_city_run :
  exists doctors st',
    CityScraper.scrapeDoctors sampleCityHost sampleCityConfig emptyStore
    = (Return doctors, st')
    /\ length doctors = 1%nat.
Proof.
  destruct (CityScraper.scrapeDoctors sampleCityHost sampleCityConfig emptyStore)
    as [[doctors|e] st'] eqn:E; [|vm_compute in E; discriminate].
  exists doctors, st'. split; [reflexivity|].
  vm_compute in E. injection E as <- _. reflexivity.
Qed.

Lemma sample_specialty_run :
  exists doctors st',
    SpecialtyScraper.scrapeDoctors sampleSpecialtyHost sampleSpecialtyConfig emptyStore
    = (Return doctors, st')
    /\ length doctors = 1%nat.
Proof.
  destruct (SpecialtyScraper.scrapeDoctors sampleSpecialtyHost sampleSpecialtyConfig
              emptyStore) as [[doctors|e] st'] eqn:E; [|vm_compute in E; discriminate].
  exists doctors, st'. split; [reflexivity|].
  vm_compute in E. injection E as <- _. reflexivity.
Qed.

(** X9. Every record that a run of scrapeDoctors returns has passed
    isValidDoctor, in both scrapers. *)
Theorem scraped_records_valid (W : Type)
  (hc : CityScraper.Host W) (cc : CityScraper.Config)
  (hs : SpecialtyScraper.Host W) (cs : SpecialtyScraper.Config) (st : Store W) :
  (forall doctors st',
      CityScraper.scrapeDoctors hc cc st = (Return doctors, st') ->
      List.Forall (fun d => CityScraper.isValidDoctor d = true) doctors)
  /\ (forall doctors st',
         SpecialtyScraper.scrapeDoctors hs cs st = (Return doctors, st') ->
         List.Forall (fun d => SpecialtyScraper.isValidDoctor d = true) doctors).
Proof.
  split; intros doctors st' E.
  - destruct (city_scrapeDoctors_records hc cc st doctors st' E) as [H _].
    eapply List.Forall_impl; [|exact H]. intros d Hd. apply Hd.
  - destruct (specialty_scrapeDoctors_records hs cs st doctors st' E) as [H _].
    eapply List.Forall_impl; [|exact H]. intros d Hd. apply Hd.
Qed.

Lemma scraped_records_valid_witness :
  (exists doctors st',
      CityScraper.scrapeDoctors sampleCityHost sampleCityConfig emptyStore
      = (Return doctors, st')
      /\ length doctors = 1%nat
      /\ List.Forall (fun d => CityScraper.isValidDoctor d = true) doctors)
  /\ (exists doctors st',
         SpecialtyScraper.scrapeDoctors sampleSpecialtyHost sampleSpecialtyConfig emptyStore
         = (Return doctors, st')
         /\ length doctors = 1%nat
         /\ List.Forall (fun d => SpecialtyScraper.isValidDoctor d = true) doctors).
Proof.
  split.
  - destruct sample_city_run as (doctors & st' & E & Hlen).
    exists doctors, st'. split; [exact E|]. split; [exact Hlen|].
    exact (proj1 (scraped_records_valid nat sampleCityHost sampleCityConfig
                    sampleSpecialtyHost sampleSpecialtyConfig emptyStore) doctors st' E).
  - destruct sample_specialty_run as (doctors & st' & E & Hlen).
    exists doctors, st'. split; [exact E|]. split; [exact Hlen|].
    exact (proj2 (scraped_records_valid nat sampleCityHost sampleCityConfig
                    sampleSpecialtyHost sampleSpecialtyConfig emptyStore) doctors st' E).
Defined.

(** X10. Every record that a run of scrapeDoctors returns is complete, in both
    scrapers: its name is trimmed, its address is not empty, its country code
    is +51, its phone number has no white space, it has at least one service,
    the names of its services are pairwise distinct whatever their case, and
    it has at least one availability slot. *)
Theorem scraped_records_complete (W : Type)
  (hc : CityScraper.Host W) (cc : CityScraper.Config)
  (hs : SpecialtyScraper.Host W) (cs : SpecialtyScraper.Config) (st : Store W) :
  (forall doctors st',
      CityScraper.scrapeDoctors hc cc st = (Return doctors, st') ->
      List.Forall completeRecord doctors)
  /\ (forall doctors st',
         SpecialtyScraper.scrapeDoctors hs cs st = (Return doctors, st') ->
         List.Forall completeRecord doctors).
Proof.
  split; intros doctors st' E.
  - destruct (city_scrapeDoctors_records hc cc st doctors st' E) as [H _].
    eapply List.Forall_impl; [|exact H]. intros d Hd. apply Hd.
  - destruct (specialty_scrapeDoctors_records hs cs st doctors st' E) as [H _].
    eapply List.Forall_impl; [|exact H]. intros d Hd. apply Hd.
Qed.

Lemma scraped_records_complete_witness :
  (exists doctors st',
      CityScraper.scrapeDoctors sampleCityHost sampleCityConfig emptyStore
      = (Return doctors, st')
      /\ length doctors = 1%nat
      /\ List.Forall completeRecord doctors)
  /\ (exists doctors st',
         SpecialtyScraper.scrapeDoctors sampleSpecialtyHost sampleSpecialtyConfig emptyStore
         = (Return doctors, st')
         /\ length doctors = 1%nat
         /\ List.Forall completeRecord doctors).
Proof.
  split.
  - destruct sample_city_run as (doctors & st' & E & Hlen).
    exists doctors, st'. split; [exact E|]. split; [exact Hlen|].
    exact (proj1 (scraped_records_complete nat sampleCityHost sampleCityConfig
                    sampleSpecialtyHost sampleSpecialtyConfig emptyStore) doctors st' E).
  - destruct sample_specialty_run as (doctors & st' & E & Hlen).
    exists doctors, st'. split; [exact E|]. split; [exact Hlen|].
    exact (proj2 (scraped_records_complete nat sampleCityHost sampleCityConfig
                    sampleSpecialtyHost sampleSpecialtyConfig emptyStore) doctors st' E).
Defined.

(** X11. The rating of every record of a run is null or within [0,5]: in the
    city-indexed scraper it is null or greater than 0 and at most 5, in the
    specialty-indexed scraper it is always a number from 0 to 5. *)
Theorem scraped_ratings_in_range (W : Type)
  (hc : CityScraper.Host W) (cc : CityScraper.Config)
  (hs : SpecialtyScraper.Host W) (cs : SpecialtyScraper.Config) (st : Store W) :
  (forall doctors st',
      CityScraper.scrapeDoctors hc cc st = (Return doctors, st') ->
      List.Forall (fun d => positiveRating (rating d)) doctors)
  /\ (forall doctors st',
         SpecialtyScraper.scrapeDoctors hs cs st = (Return doctors, st') ->
         List.Forall
           (fun d => exists q, rating d = Some q /\ (0 <= q)%Q /\ (q <= inject_Z 5)%Q)
           doctors).
Proof.
  split; intros doctors st' E.
  - destruct (city_scrapeDoctors_records hc cc st doctors st' E) as [H _].
    eapply List.Forall_impl; [|exact H]. intros d Hd. apply Hd.
  - destruct (specialty_scrapeDoctors_records hs cs st doctors st' E) as [H _].
    eapply List.Forall_impl; [|exact H]. intros d Hd. apply Hd.
Qed.

Lemma scraped_ratings_in_range_witness :
  (exists doctors st',
      CityScraper.scrapeDoctors sampleCityHost sampleCityConfig emptyStore
      = (Return doctors, st')
      /\ length doctors = 1%nat
      /\ List.Forall (fun d => positiveRating (rating d)) doctors)
  /\ (exists doctors st',
         SpecialtyScraper.scrapeDoctors sampleSpecialtyHost sampleSpecialtyConfig emptyStore
         = (Return doctors, st')
         /\ length doctors = 1%nat
         /\ List.Forall
              (fun d => exists q, rating d = Some q /\ (0 <= q)%Q /\ (q <= inject_Z 5)%Q)
              doctors).
Proof.
  split.
  - destruct sample_city_run as (doctors & st' & E & Hlen).
    exists doctors, st'. split; [exact E|]. split; [exact Hlen|].
    exact (proj1 (scraped_ratings_in_range nat sampleCityHost sampleCityConfig
                    sampleSpecialtyHost sampleSpecialtyConfig emptyStore) doctors st' E).
  - destruct sample_specialty_run as (doctors & st' & E & Hlen).
    exists doctors, st'. split; [exact E|]. split; [exact Hlen|].
    exact (proj2 (scraped_ratings_in_range nat sampleCityHost sampleCityConfig
                    sampleSpecialtyHost sampleSpecialtyConfig emptyStore) doctors st' E).
Defined.

(** X12. Every record that a run of the city-indexed scraper returns carries
    one of the configured cities, trimmed. *)
Theorem scraped_cities_configured (W : Type)
  (hc : CityScraper.Host W) (cc : CityScraper.Config) (st : Store W)
  (doctors : list DoctorData) (st' : Store W) :
  CityScraper.scrapeDoctors hc cc st = (Return doctors, st') ->
  List.Forall (fun d => In (city d) (List.map trim (CityScraper.cities cc))) doctors.
Proof.
  intros E. destruct (city_scrapeDoctors_records hc cc st doctors st' E) as [H _].
  eapply List.Forall_impl; [|exact H]. intros d Hd. apply Hd.
Qed.

Lemma scraped_cities_configured_witness :
  exists doctors st',
    CityScraper.scrapeDoctors sampleCityHost sampleCityConfig emptyStore
    = (Return doctors, st')
    /\ length doctors = 1%nat
    /\ List.Forall (fun d => In (city d) (List.map trim [lit "Lima"])) doctors.
Proof.
  destruct sample_city_run as (doctors & st' & E & Hlen).
  exists doctors, st'. split; [exact E|]. split; [exact Hlen|].
  exact (scraped_cities_configured nat sampleCityHost sampleCityConfig emptyStore
           doctors st' E).
Defined.

Lemma bind_ext {S A B : Type} (m : M S A) (k k' : A -> M S B) (s : S) :
  (forall a s', k a s' = k' a s') -> bind m k s = bind m k' s.
Proof.
  intros H. unfold bind. destruct (m s) as [[a|e] s']; [apply H | reflexivity].
Qed.

(** Without a cap the loop over the listings runs as under a cap that the
    listings cannot reach. *)
Lemma city_scrapeProfiles_uncapped {W : Type} (host : CityScraper.Host W)
  (cfg : CityScraper.Config) (cap : Z) :
  CityScraper.maxDoctorsPerCity cfg = None ->
  forall searchResults processed doctors st,
    processed + Z.of_nat (length searchResults) <= cap ->
    CityScraper.scrapeProfiles host cfg searchResults processed doctors st
    = CityScraper.scrapeProfiles host (withCap cfg (Some cap)) searchResults
        processed doctors st.
Proof.
  intros Hnan searchResults.
  induction searchResults as [|result rest IH]; intros processed doctors st Hcap;
    cbn [CityScraper.scrapeProfiles]; [reflexivity|].
  rewrite Hnan. cbn [withCap CityScraper.maxDoctorsPerCity numGe].
  cbn [length] in Hcap.
  destruct (Z.leb_spec cap processed) as [?|_]; [lia|].
  change (CityScraper.scrapeDoctorProfile host (withCap cfg (Some cap)) result)
    with (CityScraper.scrapeDoctorProfile host cfg result).
  apply bind_ext. intros seen s1. destruct seen; [apply IH; lia|].
  apply bind_ext. intros [d|] s2; apply IH; lia.
Qed.

(** X13. The caps are what parseInt made of the environment. When
    maxDoctorsPerCity is a number, scrapeDoctorsByCity returns at most that
    many records (none when it is not positive) and a run at most that many
    for each configured city. When it is NaN there is no cap: the test
    processed >= NaN never holds, and the loop over the listings runs as
    under any cap that the listings cannot reach. scrapeDoctorsBySpecialtyAndCity
    returns at most maxDoctorsPerSpecialty records and a run at most that
    many for each pair of a configured specialty and a configured city; when
    maxDoctorsPerSpecialty is NaN the test parsed < NaN never holds, and no
    card is taken, as with a cap of 0. *)
Theorem scraped_records_capped (W : Type)
  (hc : CityScraper.Host W) (cc : CityScraper.Config)
  (hs : SpecialtyScraper.Host W) (cs : SpecialtyScraper.Config) (st : Store W) :
  (forall cap city doctors st',
      CityScraper.maxDoctorsPerCity cc = Some cap ->
      CityScraper.scrapeDoctorsByCity hc cc city st = (Return doctors, st') ->
      Z.of_nat (length doctors) <= Z.max 0 cap)
  /\ (forall cap doctors st',
         CityScraper.maxDoctorsPerCity cc = Some cap ->
         CityScraper.scrapeDoctors hc cc st = (Return doctors, st') ->
         Z.of_nat (length doctors)
         <= Z.of_nat (length (CityScraper.cities cc)) * Z.max 0 cap)
  /\ (forall cap searchResults processed doctors,
         CityScraper.maxDoctorsPerCity cc = None ->
         processed + Z.of_nat (length searchResults) <= cap ->
         CityScraper.scrapeProfiles hc cc searchResults processed doctors st
         = CityScraper.scrapeProfiles hc (withCap cc (Some cap)) searchResults
             processed doctors st)
  /\ (forall specialty city doctors st',
         SpecialtyScraper.scrapeDoctorsBySpecialtyAndCity hs cs specialty city st
         = (Return doctors, st') ->
         Z.of_nat (length doctors)
         <= Z.max 0 (numOr0 (SpecialtyScraper.maxDoctorsPerSpecialty cs)))
  /\ (forall doctors st',
         SpecialtyScraper.scrapeDoctors hs cs st = (Return doctors, st') ->
         Z.of_nat (length doctors)
         <= Z.of_nat (length (SpecialtyScraper.specialties cs))
            * (Z.of_nat (length (SpecialtyScraper.cities cs))
               * Z.max 0 (numOr0 (SpecialtyScraper.maxDoctorsPerSpecialty cs)))).
Proof.
  split; [|split; [|split; [|split]]].
  - intros cap city doctors st' Hcap E.
    assert (H : always (CityScraper.scrapeDoctorsByCity hc cc city)
                  (fun ds => Z.of_nat (length ds) <= Z.max 0 cap)).
    { unfold CityScraper.scrapeDoctorsByCity.
      eapply always_bind; [apply always_true|]. intros searchResults _.
      eapply always_weaken.
      - apply (city_scrapeProfiles_all hc cc (fun _ => True) (fun _ => True)).
        + intros result _ s o s' _ d _ _. exact I.
        + apply List.Forall_forall. auto.
        + constructor.
      - cbv beta. intros ds [_ H]. specialize (H cap Hcap). cbn [length] in H. lia. }
    exact (H st doctors st' E).
  - intros cap doctors st' Hcap E.
    exact (proj2 (city_scrapeDoctors_records hc cc st doctors st' E) cap Hcap).
  - intros cap searchResults processed doctors Hnan Hcap.
    apply city_scrapeProfiles_uncapped; assumption.
  - intros specialty city doctors st' E.
    exact (proj2 (specialty_scrapeDoctorsBySpecialtyAndCity_records hs cs specialty city
                    st doctors st' E)).
  - intros doctors st' E.
    exact (proj2 (specialty_scrapeDoctors_records hs cs st doctors st' E)).
Qed.

Lemma scraped_records_capped_witness :
  (exists doctors st',
      CityScraper.scrapeDoctors sampleCityHost sampleCityConfig emptyStore
      = (Return doctors, st')
      /\ Z.of_nat (length doctors) <= 1 * Z.max 0 45)
  /\ (exists doctors st',
         SpecialtyScraper.scrapeDoctors sampleSpecialtyHost sampleSpecialtyConfig emptyStore
         = (Return doctors, st')
         /\ Z.of_nat (length doctors) <= 1 * (1 * Z.max 0 15)).
Proof.
  split.
  - destruct sample_city_run as (doctors & st' & E & Hlen).
    exists doctors, st'. split; [exact E|].
    exact (proj1 (proj2 (scraped_records_capped nat sampleCityHost sampleCityConfig
                           sampleSpecialtyHost sampleSpecialtyConfig emptyStore))
             45 doctors st' eq_refl E).
  - destruct sample_specialty_run as (doctors & st' & E & Hlen).
    exists doctors, st'. split; [exact E|].
    exact (proj2 (proj2 (proj2 (proj2
             (scraped_records_capped nat sampleCityHost sampleCityConfig
                sampleSpecialtyHost sampleSpecialtyConfig emptyStore))))
             doctors st' E).
Defined.

(** X14. In every record of a run of the specialty-indexed scraper the phone
    number is a 9 followed by eight digits, the address is "Consultorio en"
    and the city of the record, every service has a price from 50 to 250 in
    PEN and a duration of 30, 45 or 60 minutes, there are exactly 20
    availability blocks, and the profile URL starts with http or is the base
    URL, a slash and a path. *)
Theorem specialty_records_synthesized (W : Type)
  (hs : SpecialtyScraper.Host W) (cs : SpecialtyScraper.Config) (st : Store W)
  (doctors : list DoctorData) (st' : Store W) :
  SpecialtyScraper.scrapeDoctors hs cs st = (Return doctors, st') ->
  List.Forall
    (fun d => isPhonePattern (phoneNumber d) = true
              /\ address d = lit "Consultorio en " ++ city d
              /\ List.Forall wellFormedService (treatments d)
              /\ length (availability d) = 20%nat
              /\ absoluteUrl cs (profileUrl d))
    doctors.
Proof.
  intros E. destruct (specialty_scrapeDoctors_records hs cs st doctors st' E) as [H _].
  eapply List.Forall_impl; [|exact H]. intros d Hd.
  destruct Hd as (_ & _ & _ & H1 & H2 & H3 & H4 & H5). tauto.
Qed.

Lemma specialty_records_synthesized_witness :
  exists doctors st',
    SpecialtyScraper.scrapeDoctors sampleSpecialtyHost sampleSpecialtyConfig emptyStore
    = (Return doctors, st')
    /\ length doctors = 1%nat
    /\ List.Forall
         (fun d => isPhonePattern (phoneNumber d) = true
                   /\ address d = lit "Consultorio en " ++ city d
                   /\ List.Forall wellFormedService (treatments d)
                   /\ length (availability d) = 20%nat
                   /\ absoluteUrl sampleSpecialtyConfig (profileUrl d))
         doctors.
Proof.
  destruct sample_specialty_run as (doctors & st' & E & Hlen).
  exists doctors, st'. split; [exact E|]. split; [exact Hlen|].
  exact (specialty_records_synthesized nat sampleSpecialtyHost sampleSpecialtyConfig
           emptyStore doctors st' E).
Defined.

(** ** The set of accepted URLs *)

Lemma urlsOf_app (a b : list DoctorData) : urlsOf (a ++ b) = urlsOf a ∪ urlsOf b.
Proof. unfold urlsOf. rewrite map_app. apply leibniz_equiv, list_to_set_app. Qed.

Lemma urlsOf_snoc (a : list DoctorData) (d : DoctorData) :
  urlsOf (a ++ [d]) = urlsOf a ∪ {[profileUrl d]}.
Proof.
  rewrite urlsOf_app. unfold urlsOf at 2. cbn [List.map list_to_set].
  apply leibniz_equiv. set_solver.
Qed.

Lemma elem_of_urlsOf (u : jsstring) (doctors : list DoctorData) :
  u ∈ urlsOf doctors <-> u ∈ List.map profileUrl doctors.
Proof. unfold urlsOf. apply elem_of_list_to_set. Qed.

Section UrlAccounts.
Context {W : Type}.

Lemma triple_and {A : Type} (P P' : Store W -> Prop) (m : M (Store W) A)
  (Q Q' : A -> Store W -> Prop) :
  triple P m Q (fun _ _ => False) -> triple P' m Q' (fun _ _ => False) ->
  triple (fun s => P s /\ P' s) m (fun a s => Q a s /\ Q' a s) (fun _ _ => False).
Proof.
  intros H H' s [Hs Hs']. specialize (H s Hs). specialize (H' s Hs').
  destruct (m s) as [[a|e] s']; [split; assumption | exact H].
Qed.

Lemma onlyBatch_same (U0 : gset jsstring) (doctors : list DoctorData) (s s' : Store W) :
  onlyBatch U0 doctors s -> scrapedUrls s' = scrapedUrls s -> onlyBatch U0 doctors s'.
Proof. unfold onlyBatch. intros H ->. exact H. Qed.

Lemma onlyBatch_snoc (U0 : gset jsstring) (doctors : list DoctorData) (d : DoctorData)
  (s s' : Store W) :
  onlyBatch U0 doctors s ->
  scrapedUrls s' = {[profileUrl d]} ∪ scrapedUrls s ->
  onlyBatch U0 (doctors ++ [d]) s'.
Proof.
  unfold onlyBatch. intros H ->. rewrite urlsOf_snoc. set_solver.
Qed.

Lemma freshBatch_app (U0 : gset jsstring) (all batch : list DoctorData) (s s' : Store W) :
  freshBatch U0 all s -> freshBatch (scrapedUrls s) batch s' ->
  freshBatch U0 (all ++ batch) s'.
Proof.
  intros (Hsub & Hnd & Hin) (Hsub' & Hnd' & Hin'). unfold freshBatch.
  rewrite map_app. split; [set_solver|]. split.
  - apply NoDup_app. split; [exact Hnd|]. split; [|exact Hnd'].
    intros u Hu Hu'. apply Hin' in Hu'. apply Hin in Hu. tauto.
  - intros u Hu. apply elem_of_app in Hu as [Hu|Hu].
    + destruct (Hin u Hu) as [H1 H2]. split; [apply Hsub', H1 | exact H2].
    + destruct (Hin' u Hu) as [H1 H2]. split; [exact H1|].
      intros H0. apply H2, Hsub, H0.
Qed.

Lemma onlyBatch_app (U0 : gset jsstring) (all batch : list DoctorData) (s s' : Store W) :
  onlyBatch U0 all s -> onlyBatch (scrapedUrls s) batch s' ->
  onlyBatch U0 (all ++ batch) s'.
Proof. unfold onlyBatch. rewrite urlsOf_app. set_solver. Qed.

Lemma onlyBatch_nil (s : Store W) : onlyBatch (scrapedUrls s) [] s.
Proof. unfold onlyBatch. set_solver. Qed.

(** A run that ends in a fresh batch that is all that was added: the set is
    the one before and the URLs of the batch, none of which was in it. *)
Lemma batch_accounts (U0 : gset jsstring) (doctors : list DoctorData) (s : Store W) :
  freshBatch U0 doctors s -> onlyBatch U0 doctors s ->
  scrapedUrls s = U0 ∪ urlsOf doctors
  /\ List.Forall (fun d => profileUrl d ∉ U0) doctors.
Proof.
  intros (Hsub & _ & Hin) Honly. split.
  - apply leibniz_equiv. apply set_equiv_subseteq. split; [exact Honly|].
    apply union_subseteq. split; [exact Hsub|].
    intros u Hu. apply elem_of_urlsOf in Hu. apply Hin, Hu.
  - apply List.Forall_forall. intros d Hd. apply Hin.
    apply list_elem_of_In, in_map, Hd.
Qed.

End UrlAccounts.

Section CityUrls.
Context {W : Type}.
Variable host : CityScraper.Host W.
Variable cfg : CityScraper.Config.

Lemma city_scrapeProfiles_only (U0 : gset jsstring)
  (searchResults : list CityScraper.DoctorSearchResult.t) :
  forall processed doctors,
    triple (onlyBatch U0 doctors)
      (CityScraper.scrapeProfiles host cfg searchResults processed doctors)
      (fun ds s' => onlyBatch U0 ds s') (fun _ _ => False).
Proof.
  induction searchResults as [|result rest IH]; intros processed doctors s Hs;
    cbn [CityScraper.scrapeProfiles].
  - exact Hs.
  - destruct (numGe processed _); [exact Hs|].
    unfold bind at 1. unfold hasUrl at 1. case_bool_decide as Hseen.
    + apply IH, Hs.
    + unfold bind at 1. unfold tryCatch at 1. unfold bind at 1.
      pose proof (city_scrapeDoctorProfile_returns host cfg result (scrapedUrls s) s eq_refl)
        as Hp.
      destruct (CityScraper.scrapeDoctorProfile host cfg result s) as [[[d|]|e] s1];
        [| |destruct Hp].
      * destruct Hp as [Hd Hu]. destruct (Hd d eq_refl) as [Hurl _].
        destruct (CityScraper.isValidDoctor d).
        -- unfold bind, addUrl, liftWorld, ret. cbv beta iota. cbn [world].
           destruct (CityScraper.sleep host 400 (world s1)) as [[] w2].
           cbv beta iota. apply IH.
           apply (onlyBatch_snoc U0 doctors d s); [exact Hs|].
           cbn [scrapedUrls]. rewrite Hurl, Hu. reflexivity.
        -- unfold ret. cbv beta iota. apply IH. exact (onlyBatch_same _ _ _ _ Hs Hu).
      * unfold ret. cbv beta iota. apply IH. destruct Hp as [_ Hu].
        exact (onlyBatch_same _ _ _ _ Hs Hu).
Qed.

Lemma city_scrapeDoctorsByCity_only (city : jsstring) (s : Store W) :
  match CityScraper.scrapeDoctorsByCity host cfg city s with
  | (Return ds, s') => onlyBatch (scrapedUrls s) ds s'
  | (Throw _, _) => False
  end.
Proof.
  unfold CityScraper.scrapeDoctorsByCity, bind.
  pose proof (city_fetchPages_returns host
                (countFrom 1 (Z.to_nat (CityScraper.maxPages cfg))) city []
                (scrapedUrls s) s eq_refl) as Hp.
  destruct (CityScraper.fetchPages _ _ _ _ s) as [[found|e] s1]; [|destruct Hp].
  destruct Hp as [_ Hu]. apply city_scrapeProfiles_only.
  rewrite <- Hu. apply onlyBatch_nil.
Qed.

Lemma city_scrapeCities_accounts (U0 : gset jsstring) (cities : list jsstring) :
  forall allDoctors,
    triple (fun s => freshBatch U0 allDoctors s /\ onlyBatch U0 allDoctors s)
      (CityScraper.scrapeCities host cfg cities allDoctors)
      (fun ds s' => freshBatch U0 ds s' /\ onlyBatch U0 ds s') (fun _ _ => False).
Proof.
  induction cities as [|city rest IH]; intros allDoctors s Hs;
    cbn [CityScraper.scrapeCities].
  - exact Hs.
  - unfold bind.
    assert (Hsub : scrapedUrls s ⊆ scrapedUrls s) by reflexivity.
    pose proof (city_scrapeDoctorsByCity_batch host cfg (scrapedUrls s) (trim city) s Hsub)
      as Hc.
    pose proof (city_scrapeDoctorsByCity_only (trim city) s) as Ho.
    destruct (CityScraper.scrapeDoctorsByCity host cfg (trim city) s)
      as [[cityDoctors|e] s1]; [|destruct Hc].
    apply IH. destruct Hs as [Hf Hb]. split.
    + exact (freshBatch_app _ _ _ _ _ Hf Hc).
    + exact (onlyBatch_app _ _ _ _ _ Hb Ho).
Qed.

Lemma city_scrapeDoctors_accounts (st : Store W) :
  match CityScraper.scrapeDoctors host cfg st with
  | (Return ds, st') =>
      scrapedUrls st' = scrapedUrls st ∪ urlsOf ds
      /\ List.Forall (fun d => profileUrl d ∉ scrapedUrls st) ds
  | (Throw _, st') => scrapedUrls st' = scrapedUrls st
  end.
Proof.
  pose proof (city_scrapeCities_accounts (scrapedUrls st) (CityScraper.cities cfg) [] st)
    as Hc.
  unfold CityScraper.scrapeDoctors, tryCatch, bind.
  destruct (CityScraper.scrapeCities host cfg (CityScraper.cities cfg) [] st)
    as [[all|e] st1].
  - destruct Hc as [Hf Ho].
    { split; [apply freshBatch_nil; reflexivity | apply onlyBatch_nil]. }
    destruct (batch_accounts _ _ _ Hf Ho) as [Hset Hnew].
    destruct (_ =? 0) eqn:Hlen.
    + unfold throw. destruct all; [|discriminate Hlen].
      rewrite Hset. unfold urlsOf. cbn [List.map list_to_set].
      apply leibniz_equiv. set_solver.
    + pose proof (city_saveJsonFiles_returns host all (scrapedUrls st1) st1 eq_refl) as Hsv.
      destruct (CityScraper.saveJsonFiles host all st1) as [[[]|e] st2]; [|destruct Hsv].
      destruct Hsv as [_ Hu]. unfold ret. rewrite Hu. split; assumption.
  - exfalso. apply Hc.
    split; [apply freshBatch_nil; reflexivity | apply onlyBatch_nil].
Qed.

End CityUrls.

Section SpecialtyUrls.
Context {W : Type}.
Variable host : SpecialtyScraper.Host W.
Variable cfg : SpecialtyScraper.Config.

Lemma specialty_parseStandardCards_only (U0 : gset jsstring)
  (cards : list SpecialtyScraper.Card) (specialty city : jsstring) :
  forall parsed doctors,
    triple (onlyBatch U0 doctors)
      (SpecialtyScraper.parseStandardCards host cfg cards specialty city parsed doctors)
      (fun ds s' => onlyBatch U0 ds s') (fun _ _ => False).
Proof.
  induction cards as [|card rest IH]; intros parsed doctors s Hs;
    cbn [SpecialtyScraper.parseStandardCards].
  - exact Hs.
  - destruct (negb _); [exact Hs|].
    unfold bind at 1. unfold tryCatch at 1. unfold bind at 1.
    pose proof (specialty_parseDoctorCard_returns host cfg card specialty city
                  (scrapedUrls s) s eq_refl) as Hp.
    destruct (SpecialtyScraper.parseDoctorCard host cfg card specialty city s)
      as [[[d|]|e] s1]; [| |destruct Hp]; destruct Hp as [_ Hu].
    + unfold bind at 1. unfold hasUrl at 1. case_bool_decide as Hseen; cbn [negb].
      * unfold ret. cbv beta iota. apply IH. exact (onlyBatch_same _ _ _ _ Hs Hu).
      * destruct (SpecialtyScraper.isValidDoctor d).
        -- unfold bind, addUrl, ret. cbv beta iota. apply IH.
           apply (onlyBatch_snoc U0 doctors d s); [exact Hs|].
           cbn [scrapedUrls]. rewrite Hu. reflexivity.
        -- unfold ret. cbv beta iota. apply IH. exact (onlyBatch_same _ _ _ _ Hs Hu).
    + unfold ret. cbv beta iota. apply IH. exact (onlyBatch_same _ _ _ _ Hs Hu).
Qed.

Lemma specialty_scrapeDoctorsFromHomepage_only (U0 : gset jsstring)
  (specialty city : jsstring) :
  triple (onlyBatch U0 [])
    (SpecialtyScraper.scrapeDoctorsFromHomepage host cfg specialty city)
    (fun ds s' => onlyBatch U0 ds s') (fun _ _ => False).
Proof.
  intros s Hs. unfold SpecialtyScraper.scrapeDoctorsFromHomepage, tryCatch, bind.
  pose proof (mayReturn_callWorld
                (SpecialtyScraper.getHomepage host (SpecialtyScraper.baseUrl cfg))
                (scrapedUrls s) s eq_refl) as Hp.
  destruct (callWorld _ s) as [[cards|e] s1].
  - destruct Hp as [_ Hu].
    pose proof (specialty_parseStandardCards_only U0 cards specialty city 0 [] s1) as Hb.
    destruct (SpecialtyScraper.parseStandardCards _ _ _ _ _ _ _ s1) as [[ds|e] s2];
      [|exfalso]; apply Hb; exact (onlyBatch_same _ _ _ _ Hs Hu).
  - unfold ret. exact (onlyBatch_same _ _ _ _ Hs Hp).
Qed.

Lemma specialty_scrapeDoctorsBySpecialtyAndCity_only (U0 : gset jsstring)
  (specialty city : jsstring) :
  triple (onlyBatch U0 [])
    (SpecialtyScraper.scrapeDoctorsBySpecialtyAndCity host cfg specialty city)
    (fun ds s' => onlyBatch U0 ds s') (fun _ _ => False).
Proof.
  unfold SpecialtyScraper.scrapeDoctorsBySpecialtyAndCity. cbv zeta.
  eapply triple_tryCatch with (R := fun _ s => onlyBatch U0 [] s).
  - eapply triple_bind with (R := fun _ s => onlyBatch U0 [] s).
    + intros s Hs.
      match goal with |- context [callWorld ?f s] =>
        pose proof (mayReturn_callWorld f (scrapedUrls s) s eq_refl) as Hp;
        destruct (callWorld f s) as [[page|e] s1] end.
      * destruct Hp as [_ Hu]. exact (onlyBatch_same _ _ _ _ Hs Hu).
      * exact (onlyBatch_same _ _ _ _ Hs Hp).
    + intros page. destruct (0 <? _).
      * eapply triple_conseq;
          [apply (specialty_parseStandardCards_only U0) | auto | auto | intros e s []].
      * eapply triple_bind with (R := fun _ s => onlyBatch U0 [] s).
        -- intros s Hs. destruct (SpecialtyScraper.filterLinks _); exact Hs.
        -- intros alt. destruct (0 <? _).
           ++ eapply triple_conseq;
                [apply (specialty_parseStandardCards_only U0) | auto | auto
                | intros e s []].
           ++ apply triple_ret. auto.
  - intros e.
    assert (Hret : triple (onlyBatch (W := W) U0 []) (ret [])
                     (fun ds s' => onlyBatch U0 ds s') (fun _ _ => False)).
    { apply triple_ret. auto. }
    destruct e as [|[status|]|]; try exact Hret.
    destruct status as [|p|p]; try exact Hret.
    do 9 (destruct p as [p|p|]; try exact Hret).
    apply specialty_scrapeDoctorsFromHomepage_only.
Qed.

Lemma specialty_scrapeCities_accounts (U0 : gset jsstring) (specialty : jsstring)
  (cities : list jsstring) :
  forall doctors,
    triple (fun s => freshBatch U0 doctors s /\ onlyBatch U0 doctors s)
      (SpecialtyScraper.scrapeCities host cfg specialty cities doctors)
      (fun ds s' => freshBatch U0 ds s' /\ onlyBatch U0 ds s') (fun _ _ => False).
Proof.
  induction cities as [|city rest IH]; intros doctors s Hs;
    cbn [SpecialtyScraper.scrapeCities].
  - exact Hs.
  - unfold bind.
    assert (Hsub : scrapedUrls s ⊆ scrapedUrls s) by reflexivity.
    pose proof (specialty_scrapeDoctorsBySpecialtyAndCity_batch host cfg (scrapedUrls s)
                  (trim specialty) (trim city) s Hsub) as Hc.
    pose proof (specialty_scrapeDoctorsBySpecialtyAndCity_only (scrapedUrls s)
                  (trim specialty) (trim city) s (onlyBatch_nil s)) as Ho.
    destruct (SpecialtyScraper.scrapeDoctorsBySpecialtyAndCity _ _ _ _ s)
      as [[cityDoctors|e] s1]; [|destruct Hc].
    apply IH. destruct Hs as [Hf Hb]. split.
    + exact (freshBatch_app _ _ _ _ _ Hf Hc).
    + exact (onlyBatch_app _ _ _ _ _ Hb Ho).
Qed.

Lemma specialty_scrapeSpecialties_accounts (U0 : gset jsstring)
  (specialties : list jsstring) :
  forall doctors,
    triple (fun s => freshBatch U0 doctors s /\ onlyBatch U0 doctors s)
      (SpecialtyScraper.scrapeSpecialties host cfg specialties doctors)
      (fun ds s' => freshBatch U0 ds s' /\ onlyBatch U0 ds s') (fun _ _ => False).
Proof.
  induction specialties as [|specialty rest IH]; intros doctors;
    cbn [SpecialtyScraper.scrapeSpecialties].
  - apply triple_ret. auto.
  - eapply triple_bind; [apply specialty_scrapeCities_accounts | intros ds; apply IH].
Qed.

Lemma specialty_scrapeDoctors_accounts (st : Store W) :
  match SpecialtyScraper.scrapeDoctors host cfg st with
  | (Return ds, st') =>
      scrapedUrls st' = scrapedUrls st ∪ urlsOf ds
      /\ List.Forall (fun d => profileUrl d ∉ scrapedUrls st) ds
  | (Throw _, st') => scrapedUrls st' = scrapedUrls st
  end.
Proof.
  pose proof (specialty_scrapeSpecialties_accounts (scrapedUrls st)
                (SpecialtyScraper.specialties cfg) [] st) as Hc.
  unfold SpecialtyScraper.scrapeDoctors, tryCatch, bind.
  destruct (SpecialtyScraper.scrapeSpecialties _ _ _ _ st) as [[all|e] st1].
  - destruct Hc as [Hf Ho].
    { split; [apply freshBatch_nil; reflexivity | apply onlyBatch_nil]. }
    destruct (batch_accounts _ _ _ Hf Ho) as [Hset Hnew].
    destruct (_ =? 0) eqn:Hlen.
    + unfold throw. destruct all; [|discriminate Hlen].
      rewrite Hset. unfold urlsOf. cbn [List.map list_to_set].
      apply leibniz_equiv. set_solver.
    + unfold ret. split; assumption.
  - exfalso. apply Hc.
    split; [apply freshBatch_nil; reflexivity | apply onlyBatch_nil].
Qed.

End SpecialtyUrls.

(** X15. The set scrapedUrls after a run of scrapeDoctors that returns is the
    set before the run and the profile URLs of the records returned, none of
    which was in the set before; a run that throws leaves the set as it was.
    This holds for both scrapers and from any state of the set, so a second
    run of the same scraper returns no URL of the first. *)
Theorem accepted_urls_accounted (W : Type)
  (hc : CityScraper.Host W) (cc : CityScraper.Config)
  (hs : SpecialtyScraper.Host W) (cs : SpecialtyScraper.Config) (st : Store W) :
  (forall doctors st',
      CityScraper.scrapeDoctors hc cc st = (Return doctors, st') ->
      scrapedUrls st' = scrapedUrls st ∪ urlsOf doctors
      /\ List.Forall (fun d => profileUrl d ∉ scrapedUrls st) doctors)
  /\ (forall e st',
         CityScraper.scrapeDoctors hc cc st = (Throw e, st') ->
         scrapedUrls st' = scrapedUrls st)
  /\ (forall doctors st',
         SpecialtyScraper.scrapeDoctors hs cs st = (Return doctors, st') ->
         scrapedUrls st' = scrapedUrls st ∪ urlsOf doctors
         /\ List.Forall (fun d => profileUrl d ∉ scrapedUrls st) doctors)
  /\ (forall e st',
         SpecialtyScraper.scrapeDoctors hs cs st = (Throw e, st') ->
         scrapedUrls st' = scrapedUrls st).
Proof.
  pose proof (city_scrapeDoctors_accounts hc cc st) as Hc.
  pose proof (specialty_scrapeDoctors_accounts hs cs st) as Hs.
  split; [|split; [|split]].
  - intros doctors st' E. rewrite E in Hc. exact Hc.
  - intros e st' E. rewrite E in Hc. exact Hc.
  - intros doctors st' E. rewrite E in Hs. exact Hs.
  - intros e st' E. rewrite E in Hs. exact Hs.
Qed.

Lemma accepted_urls_accounted_witness :
  (exists doctors st',
      CityScraper.scrapeDoctors sampleCityHost sampleCityConfig emptyStore
      = (Return doctors, st')
      /\ length doctors = 1%nat
      /\ scrapedUrls st' = scrapedUrls emptyStore ∪ urlsOf doctors)
  /\ (exists doctors st',
         SpecialtyScraper.scrapeDoctors sampleSpecialtyHost sampleSpecialtyConfig emptyStore
         = (Return doctors, st')
         /\ length doctors = 1%nat
         /\ scrapedUrls st' = scrapedUrls emptyStore ∪ urlsOf doctors).
Proof.
  split.
  - destruct sample_city_run as (doctors & st' & E & Hlen).
    exists doctors, st'. split; [exact E|]. split; [exact Hlen|].
    exact (proj1 (proj1 (accepted_urls_accounted nat sampleCityHost sampleCityConfig
                    sampleSpecialtyHost sampleSpecialtyConfig emptyStore) doctors st' E)).
  - destruct sample_specialty_run as (doctors & st' & E & Hlen).
    exists doctors, st'. split; [exact E|]. split; [exact Hlen|].
    exact (proj1 (proj1 (proj2 (proj2 (accepted_urls_accounted nat sampleCityHost
                    sampleCityConfig sampleSpecialtyHost sampleSpecialtyConfig
                    emptyStore))) doctors st' E)).
Defined.

(** ** More on the appointment generator *)

Lemma index_Some {A : Type} (xs : list A) (i : Z) :
  0 <= i < Z.of_nat (length xs) -> exists x, index xs i = Some x.
Proof.
  intros Hi. unfold index. destruct (Z.ltb_spec i 0) as [?|_]; [lia|].
  destruct (nth_error xs (Z.to_nat i)) as [x|] eqn:E; [eauto|].
  apply nth_error_None in E. lia.
Qed.

Lemma index_draw {A : Type} (xs : list A) (r : Unit01) :
  xs <> [] -> exists x, index xs (floorScaled r (Z.of_nat (length xs))) = Some x.
Proof.
  intros Hne. apply index_Some. apply floorScaled_range.
  destruct xs; [congruence | cbn [length]; lia].
Qed.

Lemma index_draw_nil {A : Type} (r : Unit01) :
  index ([] : list A) (floorScaled r (Z.of_nat (length ([] : list A)))) = None.
Proof.
  unfold index. destruct (_ <? 0); [reflexivity|].
  destruct (Z.to_nat _); reflexivity.
Qed.

Section MoreAppointments.

Context {W : Type}.
Variable random : W -> Unit01 * W.
Variable numAppointmentsPerDoctor : option Z.

Lemma generateAppointment_booked (doctor : AppointmentGenerator.Doctor)
  (patients : list Z) (w w' : W) (a : AppointmentGenerator.AppointmentData) :
  AppointmentGenerator.generateAppointment random doctor patients w
  = (Return (Some a), w') ->
  bookedWith doctor patients a.
Proof.
  unfold AppointmentGenerator.generateAppointment.
  destruct (random w) as [r1 w1]. destruct (random w1) as [r2 w2].
  destruct (random w2) as [r3 w3].
  destruct (index (AppointmentGenerator.availability doctor) _) as [block|] eqn:Hb;
    [|discriminate].
  cbv zeta.
  destruct (Z.leb_spec
              ((AppointmentGenerator.end_at block - AppointmentGenerator.start_at block)
               / AppointmentGenerator.slotDuration) 0) as [?|Hpos]; [discriminate|].
  destruct (random w3) as [r4 w4].
  destruct (Z.ltb_spec (AppointmentGenerator.end_at block)
              (AppointmentGenerator.start_at block
               + floorScaled r4
                   ((AppointmentGenerator.end_at block - AppointmentGenerator.start_at block)
                    / AppointmentGenerator.slotDuration)
                 * AppointmentGenerator.slotDuration
               + AppointmentGenerator.slotDuration)) as [?|Hfit]; [discriminate|].
  destruct (random w4) as [rand w5].
  destruct (index patients _) as [p|] eqn:Hp; [|discriminate].
  destruct (index (AppointmentGenerator.treatments doctor) _) as [t|] eqn:Ht;
    [|discriminate].
  intros [= <- _]. unfold bookedWith.
  cbn [AppointmentGenerator.doctorId AppointmentGenerator.treatmentId
       AppointmentGenerator.patientId AppointmentGenerator.startAt
       AppointmentGenerator.endAt].
  split; [reflexivity|]. split; [exact (index_In _ _ _ Ht)|].
  split; [exact (index_In _ _ _ Hp)|].
  exists block, (floorScaled r4
                   ((AppointmentGenerator.end_at block - AppointmentGenerator.start_at block)
                    / AppointmentGenerator.slotDuration)).
  pose proof (floorScaled_range r4 _ Hpos) as Hr.
  split; [exact (index_In _ _ _ Hb)|]. split; [lia|]. split; [reflexivity|].
  split; [ring | exact Hfit].
Qed.

(** With a patient to draw and room in every block an attempt succeeds: the
    test [endAt > endDate] never fires. *)
Lemma generateAppointment_succeeds (doctor : AppointmentGenerator.Doctor)
  (patients : list Z) (w : W) :
  patients <> [] ->
  AppointmentGenerator.availability doctor <> [] ->
  AppointmentGenerator.treatments doctor <> [] ->
  (forall block, In block (AppointmentGenerator.availability doctor) ->
     AppointmentGenerator.start_at block + AppointmentGenerator.slotDuration
     <= AppointmentGenerator.end_at block) ->
  exists a w',
    AppointmentGenerator.generateAppointment random doctor patients w
    = (Return (Some a), w').
Proof.
  intros Hp Ha Ht Hroom. unfold AppointmentGenerator.generateAppointment.
  destruct (random w) as [r1 w1]. destruct (random w1) as [r2 w2].
  destruct (random w2) as [r3 w3].
  destruct (index_draw _ r1 Ha) as (block & Hb).
  destruct (index_draw _ r2 Ht) as (t & Htr).
  destruct (index_draw _ r3 Hp) as (p & Hpat).
  rewrite Hb, Htr, Hpat. cbv zeta.
  pose proof (Hroom block (index_In _ _ _ Hb)) as Hblock.
  unfold AppointmentGenerator.slotDuration in *.
  assert (Hpos : 0 < (AppointmentGenerator.end_at block
                      - AppointmentGenerator.start_at block) / (30 * 60 * 1000)).
  { apply Z.div_str_pos. lia. }
  destruct (Z.leb_spec
              ((AppointmentGenerator.end_at block - AppointmentGenerator.start_at block)
               / (30 * 60 * 1000)) 0) as [?|_]; [lia|].
  destruct (random w3) as [r4 w4].
  pose proof (floorScaled_range r4 _ Hpos) as Hr.
  pose proof (Z.mul_div_le (AppointmentGenerator.end_at block
                            - AppointmentGenerator.start_at block)
                (30 * 60 * 1000) ltac:(lia)) as Hdiv.
  destruct (Z.ltb_spec (AppointmentGenerator.end_at block)
              (AppointmentGenerator.start_at block
               + floorScaled r4
                   ((AppointmentGenerator.end_at block - AppointmentGenerator.start_at block)
                    / (30 * 60 * 1000))
                 * (30 * 60 * 1000)
               + 30 * 60 * 1000)) as [Hover|_]; [nia|].
  destruct (random w4) as [rand w5]. eexists _, _. reflexivity.
Qed.

Lemma attempts_booked (doctor : AppointmentGenerator.Doctor) (patients : list Z)
  (P : AppointmentGenerator.AppointmentData -> Prop) (n : nat) :
  (forall a, bookedWith doctor patients a -> P a) ->
  forall appointments w,
    List.Forall P appointments ->
    List.Forall P
      (fst (AppointmentGenerator.attempts random n doctor patients appointments w))
    /\ (length (fst (AppointmentGenerator.attempts random n doctor patients appointments w))
        <= length appointments + n)%nat.
Proof.
  intros HP. induction n as [|n IH]; intros appointments w Hall;
    cbn [AppointmentGenerator.attempts]; [split; [exact Hall | cbn [fst]; lia]|].
  destruct (AppointmentGenerator.generateAppointment random doctor patients w)
    as [[[a|]|e] w'] eqn:E;
    try (destruct (IH appointments w' Hall) as [H1 H2]; split; [exact H1 | lia]).
  destruct (IH (appointments ++ [a]) w') as [H1 H2].
  { apply List.Forall_app. split; [exact Hall|]. constructor; [|constructor].
    apply HP. exact (generateAppointment_booked _ _ _ _ _ E). }
  split; [exact H1|]. rewrite length_app in H2. cbn [length] in H2. lia.
Qed.

Lemma attempts_all_succeed (doctor : AppointmentGenerator.Doctor) (patients : list Z)
  (n : nat) :
  patients <> [] ->
  AppointmentGenerator.availability doctor <> [] ->
  AppointmentGenerator.treatments doctor <> [] ->
  (forall block, In block (AppointmentGenerator.availability doctor) ->
     AppointmentGenerator.start_at block + AppointmentGenerator.slotDuration
     <= AppointmentGenerator.end_at block) ->
  forall appointments w,
    length (fst (AppointmentGenerator.attempts random n doctor patients appointments w))
    = (length appointments + n)%nat.
Proof.
  intros Hp Ha Ht Hroom. induction n as [|n IH]; intros appointments w;
    cbn [AppointmentGenerator.attempts]; [cbn [fst]; lia|].
  destruct (generateAppointment_succeeds doctor patients w Hp Ha Ht Hroom)
    as (a & w' & ->).
  rewrite IH, length_app. cbn [length]. lia.
Qed.

Lemma attempts_no_patient (doctor : AppointmentGenerator.Doctor) (n : nat) :
  forall appointments w,
    fst (AppointmentGenerator.attempts random n doctor [] appointments w) = appointments.
Proof.
  induction n as [|n IH]; intros appointments w;
    cbn [AppointmentGenerator.attempts]; [reflexivity|].
  destruct (AppointmentGenerator.generateAppointment random doctor [] w)
    as [[[a|]|e] w'] eqn:E; try apply IH.
  exfalso. apply generateAppointment_booked in E as (_ & _ & Hin & _). exact Hin.
Qed.

Lemma quota_skip_availability (doctor : AppointmentGenerator.Doctor) :
  (Z.of_nat (length (AppointmentGenerator.availability doctor)) =? 0) = true ->
  quota numAppointmentsPerDoctor doctor = 0%nat.
Proof.
  unfold quota. destruct (AppointmentGenerator.availability doctor); [reflexivity|].
  cbn [length]. intros H. apply Z.eqb_eq in H. lia.
Qed.

Lemma quota_skip_treatments (doctor : AppointmentGenerator.Doctor) :
  (Z.of_nat (length (AppointmentGenerator.treatments doctor)) =? 0) = true ->
  quota numAppointmentsPerDoctor doctor = 0%nat.
Proof.
  unfold quota. destruct (AppointmentGenerator.treatments doctor).
  - destruct (AppointmentGenerator.availability doctor); reflexivity.
  - cbn [length]. intros H. apply Z.eqb_eq in H. lia.
Qed.

Lemma quota_attempts (doctor : AppointmentGenerator.Doctor) :
  (Z.of_nat (length (AppointmentGenerator.availability doctor)) =? 0) = false ->
  (Z.of_nat (length (AppointmentGenerator.treatments doctor)) =? 0) = false ->
  quota numAppointmentsPerDoctor doctor
  = turns
      (mathMin numAppointmentsPerDoctor
         (Z.of_nat (length (AppointmentGenerator.availability doctor)) * 4))
  /\ AppointmentGenerator.availability doctor <> []
  /\ AppointmentGenerator.treatments doctor <> [].
Proof.
  unfold quota. intros Ha Ht.
  destruct (AppointmentGenerator.availability doctor) as [|b bs]; [discriminate Ha|].
  destruct (AppointmentGenerator.treatments doctor) as [|t ts]; [discriminate Ht|].
  split; [destruct numAppointmentsPerDoctor; reflexivity|].
  split; discriminate.
Qed.

Lemma generateFrom_booked (all : list AppointmentGenerator.Doctor)
  (patients : list Z) (doctors : list AppointmentGenerator.Doctor) :
  (forall doctor, In doctor doctors -> In doctor all) ->
  forall appointments w,
    List.Forall (booked all patients) appointments ->
    List.Forall (booked all patients)
      (fst (AppointmentGenerator.generateFrom random numAppointmentsPerDoctor
              doctors patients appointments w)).
Proof.
  induction doctors as [|doctor rest IH]; intros Hsub appointments w Hall;
    cbn [AppointmentGenerator.generateFrom]; [exact Hall|].
  assert (Hrest : forall d, In d rest -> In d all)
    by (intros d Hd; apply Hsub; right; exact Hd).
  destruct (_ =? 0); [apply IH; assumption|].
  destruct (_ =? 0); [apply IH; assumption|].
  cbv zeta.
  destruct (attempts_booked doctor patients (booked all patients)
              (turns
                 (mathMin numAppointmentsPerDoctor
                    (Z.of_nat (length (AppointmentGenerator.availability doctor)) * 4)))
              ltac:(intros a Hb; exists doctor; split;
                    [apply Hsub; left; reflexivity | exact Hb])
              appointments w Hall) as [H1 _].
  destruct (AppointmentGenerator.attempts _ _ _ _ _ _) as [appointments' w'].
  cbn [fst] in H1. apply IH; assumption.
Qed.

(** The attempts for one doctor add to the appointments made before. *)
Lemma attempts_acc (doctor : AppointmentGenerator.Doctor) (patients : list Z) (n : nat) :
  forall appointments w,
    AppointmentGenerator.attempts random n doctor patients appointments w
    = (appointments
       ++ fst (AppointmentGenerator.attempts random n doctor patients [] w),
       snd (AppointmentGenerator.attempts random n doctor patients [] w)).
Proof.
  induction n as [|n IH]; intros appointments w; cbn [AppointmentGenerator.attempts].
  - cbn [fst snd]. rewrite app_nil_r. reflexivity.
  - destruct (AppointmentGenerator.generateAppointment random doctor patients w)
      as [[[a|]|e] w']; try apply IH.
    rewrite (IH (appointments ++ [a])), (IH ([] ++ [a])). cbn [fst snd].
    rewrite <- app_assoc. reflexivity.
Qed.

Lemma attempts_share (doctor : AppointmentGenerator.Doctor) (patients : list Z) (w : W) :
  (Z.of_nat (length (AppointmentGenerator.availability doctor)) =? 0) = false ->
  (Z.of_nat (length (AppointmentGenerator.treatments doctor)) =? 0) = false ->
  doctorShare numAppointmentsPerDoctor patients doctor
    (fst (AppointmentGenerator.attempts random
            (turns
               (mathMin numAppointmentsPerDoctor
                  (Z.of_nat (length (AppointmentGenerator.availability doctor)) * 4)))
            doctor patients [] w)).
Proof.
  intros Ha Ht. unfold doctorShare.
  destruct (quota_attempts doctor Ha Ht) as (-> & Hne & Hnt).
  set (n := turns _).
  destruct (attempts_booked doctor patients (bookedWith doctor patients) n
              ltac:(auto) [] w ltac:(constructor)) as [H1 H2].
  split; [cbn [length] in H2; lia|]. split; [exact H1|].
  intros Hp Hroom.
  rewrite (attempts_all_succeed doctor patients n Hp Hne Hnt Hroom [] w).
  reflexivity.
Qed.

(** The appointments of [generate] are those of its doctors, one share
    after the other. *)
Lemma generateFrom_shares (patients : list Z)
  (doctors : list AppointmentGenerator.Doctor) :
  forall appointments w,
    exists shares,
      fst (AppointmentGenerator.generateFrom random numAppointmentsPerDoctor
             doctors patients appointments w)
      = appointments ++ concat shares
      /\ Forall2 (doctorShare numAppointmentsPerDoctor patients) doctors shares.
Proof.
  induction doctors as [|doctor rest IH]; intros appointments w;
    cbn [AppointmentGenerator.generateFrom].
  - exists []. split; [cbn [fst concat]; rewrite app_nil_r; reflexivity | constructor].
  - assert (Hskip : quota numAppointmentsPerDoctor doctor = 0%nat ->
                    doctorShare numAppointmentsPerDoctor patients doctor []).
    { intros Hq. unfold doctorShare. rewrite Hq.
      split; [cbn [length]; lia|]. split; [constructor | reflexivity]. }
    destruct (_ =? 0) eqn:Ha.
    { destruct (IH appointments w) as (shares & E & H).
      exists ([] :: shares). split; [exact E|].
      constructor; [exact (Hskip (quota_skip_availability doctor Ha)) | exact H]. }
    destruct (Z.of_nat (length (AppointmentGenerator.treatments doctor)) =? 0) eqn:Ht.
    { destruct (IH appointments w) as (shares & E & H).
      exists ([] :: shares). split; [exact E|].
      constructor; [exact (Hskip (quota_skip_treatments doctor Ht)) | exact H]. }
    cbv zeta. rewrite attempts_acc.
    pose proof (attempts_share doctor patients w Ha Ht) as Hshare.
    set (made := AppointmentGenerator.attempts random _ doctor patients [] w) in *.
    destruct (IH (appointments ++ fst made) (snd made)) as (shares & E & H).
    exists (fst made :: shares). split; [|constructor; assumption].
    rewrite E. cbn [concat]. rewrite <- app_assoc. reflexivity.
Qed.

Lemma generateFrom_no_patient (doctors : list AppointmentGenerator.Doctor) :
  forall appointments w,
    fst (AppointmentGenerator.generateFrom random numAppointmentsPerDoctor
           doctors [] appointments w) = appointments.
Proof.
  induction doctors as [|doctor rest IH]; intros appointments w;
    cbn [AppointmentGenerator.generateFrom]; [reflexivity|].
  destruct (_ =? 0); [apply IH|]. destruct (_ =? 0); [apply IH|]. cbv zeta.
  pose proof (attempts_no_patient doctor
                (turns
                   (mathMin numAppointmentsPerDoctor
                      (Z.of_nat (length (AppointmentGenerator.availability doctor)) * 4)))
                appointments w) as Hsame.
  destruct (AppointmentGenerator.attempts _ _ _ _ _ _) as [appointments' w'].
  cbn [fst] in Hsame. subst appointments'. apply IH.
Qed.

End MoreAppointments.

(** X16. Every appointment that generate returns refers to what it was given:
    its doctor is one of the doctors, its treatment one of the treatments of
    that doctor, its patient one of the patients; and it takes one of the
    half-hour slots counted from the start of one of that doctor's blocks,
    ending within the block. *)
Theorem appointments_booked (W : Type) (random : W -> Unit01 * W)
  (numAppointmentsPerDoctor : option Z) (doctors : list AppointmentGenerator.Doctor)
  (patients : list Z) (w : W) :
  List.Forall (booked doctors patients)
    (fst (AppointmentGenerator.generate random numAppointmentsPerDoctor doctors patients w)).
Proof.
  unfold AppointmentGenerator.generate.
  apply generateFrom_booked; [auto | constructor].
Qed.

(** X17. The appointments that generate returns are, in the order of its
    doctors, the shares made for each doctor of the list. The share of a
    doctor holds at most min(numAppointmentsPerDoctor, 4 times the number of
    the doctor's blocks) appointments, all of them with that doctor, and none
    when the doctor has no block or no treatment, or when
    numAppointmentsPerDoctor is NaN or not positive. It holds exactly that
    many when there is a patient and every block of the doctor lasts half an
    hour or more: no attempt fails then, the test endAt > endDate never
    fires. Without any patient generate returns no appointment at all. *)
Theorem appointments_counted (W : Type) (random : W -> Unit01 * W)
  (numAppointmentsPerDoctor : option Z) (doctors : list AppointmentGenerator.Doctor)
  (patients : list Z) (w : W) :
  (exists shares,
      fst (AppointmentGenerator.generate random numAppointmentsPerDoctor
             doctors patients w)
      = concat shares
      /\ Forall2 (doctorShare numAppointmentsPerDoctor patients) doctors shares)
  /\ fst (AppointmentGenerator.generate random numAppointmentsPerDoctor doctors [] w) = [].
Proof.
  unfold AppointmentGenerator.generate. split.
  - exact (generateFrom_shares random numAppointmentsPerDoctor patients doctors [] w).
  - apply generateFrom_no_patient.
Qed.

Lemma appointments_counted_witness :
  exists share1 share2,
    fst (AppointmentGenerator.generate sampleRandom (Some 10)
           [sampleStoredDoctor; sampleIdleDoctor] [7; 8; 9] 3%nat)
    = share1 ++ share2
    /\ List.Forall (bookedWith sampleStoredDoctor [7; 8; 9]) share1
    /\ length share1 = 4%nat
    /\ share2 = [].
Proof.
  destruct (proj1 (appointments_counted nat sampleRandom (Some 10)
                     [sampleStoredDoctor; sampleIdleDoctor] [7; 8; 9] 3%nat))
    as (shares & E & H).
  inversion H as [|d1 share1 ds ss H1 Hrest]; subst.
  inversion Hrest as [|d2 share2 ds' ss' H2 Hnil]; subst.
  inversion Hnil; subst.
  exists share1, share2.
  split; [rewrite E; cbn [concat]; rewrite app_nil_r; reflexivity|].
  destruct H1 as (_ & Hbooked & Hfull). destruct H2 as (Hnone & _).
  split; [exact Hbooked|]. split.
  - rewrite Hfull; [reflexivity | discriminate|].
    intros block Hb. cbn [sampleStoredDoctor AppointmentGenerator.availability In] in Hb.
    destruct Hb as [<-|[]]. vm_compute. discriminate.
  - destruct share2 as [|a rest]; [reflexivity|].
    vm_compute in Hnone. lia.
Defined.

(** ** The patients *)

Lemma digitsFrom_head (k : nat) :
  forall (fuel : nat) (n : Z) (acc : jsstring),
    (k < fuel)%nat ->
    10 ^ Z.of_nat k <= n < 10 ^ Z.of_nat (S k) ->
    exists c rest, digitsFrom fuel n acc = c :: rest /\ c <> 48.
Proof.
  induction k as [|k IH]; intros fuel n acc Hf Hn;
    (destruct fuel as [|f]; [lia|]); cbn [digitsFrom].
  - change (10 ^ Z.of_nat 1) with 10 in Hn. change (10 ^ Z.of_nat 0) with 1 in Hn.
    destruct (Z.ltb_spec n 10) as [_|?]; [|lia].
    eexists _, _. split; [reflexivity|]. rewrite Z.mod_small by lia. lia.
  - rewrite (Nat2Z.inj_succ (S k)), Z.pow_succ_r in Hn by lia.
    rewrite (Nat2Z.inj_succ k), Z.pow_succ_r in Hn by lia.
    assert (Hp : 0 < 10 ^ Z.of_nat k) by (apply Z.pow_pos_nonneg; lia).
    destruct (Z.ltb_spec n 10) as [?|_]; [nia|].
    apply IH; [lia|]. rewrite (Nat2Z.inj_succ k), Z.pow_succ_r by lia. split.
    + apply Z.div_le_lower_bound; lia.
    + apply Z.div_lt_upper_bound; lia.
Qed.

Lemma numberToString_small (n : Z) :
  0 <= n < 1000 ->
  forallb isDigit (numberToString n) = true
  /\ (1 <= length (numberToString n) <= 3)%nat.
Proof.
  intros Hn. unfold numberToString.
  assert (Hcase : n < 10 \/ 10 <= n < 100 \/ 100 <= n) by lia.
  destruct Hcase as [H|[H|H]].
  - destruct (digitsFrom_digits 0 (S (Z.to_nat (Z.log2 n))) n []) as (ds & E & Hlen & Hd);
      [lia | change (10 ^ Z.of_nat 1) with 10; lia | left; reflexivity|].
    rewrite E, app_nil_r, Hlen, Hd. split; [reflexivity | lia].
  - destruct (digitsFrom_digits 1 (S (Z.to_nat (Z.log2 n))) n []) as (ds & E & Hlen & Hd).
    + assert (Z.log2 10 <= Z.log2 n) by (apply Z.log2_le_mono; lia).
      change (Z.log2 10) with 3 in H0. lia.
    + change (10 ^ Z.of_nat 2) with 100. lia.
    + right. change (10 ^ Z.of_nat 1) with 10. lia.
    + rewrite E, app_nil_r, Hlen, Hd. split; [reflexivity | lia].
  - destruct (digitsFrom_digits 2 (S (Z.to_nat (Z.log2 n))) n []) as (ds & E & Hlen & Hd).
    + assert (Z.log2 100 <= Z.log2 n) by (apply Z.log2_le_mono; lia).
      change (Z.log2 100) with 6 in H0. lia.
    + change (10 ^ Z.of_nat 3) with 1000. lia.
    + right. change (10 ^ Z.of_nat 2) with 100. lia.
    + rewrite E, app_nil_r, Hlen, Hd. split; [reflexivity | lia].
Qed.

Lemma documentNumber_digits (r : Unit01) :
  let dni := numberToString (Qfloor (draw r * inject_Z 90000000 + inject_Z 10000000)) in
  length dni = 8%nat /\ forallb isDigit dni = true /\ headIs (Z.eqb 48) dni = false.
Proof.
  cbv zeta. unfold numberToString.
  pose proof (phone_number_range r) as Hn.
  set (n := Qfloor _) in *.
  destruct (digitsFrom_digits 7 (S (Z.to_nat (Z.log2 n))) n []) as (ds & E & Hlen & Hd).
  - assert (Z.log2 10000000 <= Z.log2 n) by (apply Z.log2_le_mono; lia).
    change (Z.log2 10000000) with 23 in H. lia.
  - change (10 ^ Z.of_nat 8) with 100000000. lia.
  - right. change (10 ^ Z.of_nat 7) with 10000000. lia.
  - rewrite E, app_nil_r. split; [exact Hlen|]. split; [exact Hd|].
    destruct (digitsFrom_head 7 (S (Z.to_nat (Z.log2 n))) n []) as (c & rest & E' & Hc).
    + assert (Z.log2 10000000 <= Z.log2 n) by (apply Z.log2_le_mono; lia).
      change (Z.log2 10000000) with 23 in H. lia.
    + change (10 ^ Z.of_nat 8) with 100000000. change (10 ^ Z.of_nat 7) with 10000000.
      lia.
    + rewrite app_nil_r in E. rewrite <- E, E'. cbn [headIs].
      apply Z.eqb_neq. intros Heq. apply Hc. symmetry. exact Heq.
Qed.

Section Patients.

Context {W : Type}.
Variable random : W -> Unit01 * W.
Variable numPatients : option Z.

Lemma generatePatient_generated (w : W) :
  exists p w',
    PatientGenerator.generatePatient random w = (Return p, w') /\ generatedPatient p.
Proof.
  unfold PatientGenerator.generatePatient, PatientGenerator.generateDNI,
    PatientGenerator.generatePhoneNumber, PatientGenerator.generateEmail.
  destruct (random w) as [r1 w1]. destruct (random w1) as [r2 w2].
  destruct (random w2) as [r3 w3]. destruct (random w3) as [r4 w4].
  destruct (random w4) as [r5 w5]. destruct (random w5) as [r6 w6].
  destruct (random w6) as [r7 w7].
  destruct (index_draw PatientGenerator.firstNames r1 ltac:(discriminate))
    as (first & Hf).
  destruct (index_draw PatientGenerator.lastNames r2 ltac:(discriminate))
    as (last1 & Hl1).
  destruct (index_draw PatientGenerator.lastNames r3 ltac:(discriminate))
    as (last2 & Hl2).
  destruct (index_draw PatientGenerator.domains r6 ltac:(discriminate))
    as (domain & Hd).
  cbv zeta. rewrite Hf, Hl1, Hl2, Hd. eexists _, _. split; [reflexivity|].
  unfold generatedPatient.
  cbn [PatientGenerator.fullName PatientGenerator.documentNumber
       PatientGenerator.phoneNumber PatientGenerator.email PatientGenerator.orUndefined].
  split; [|split; [apply documentNumber_digits | apply phoneOf_pattern]].
  exists first, last1, last2.
  split; [exact (index_In _ _ _ Hf)|]. split; [exact (index_In _ _ _ Hl1)|].
  split; [exact (index_In _ _ _ Hl2)|]. split; [reflexivity|].
  exists (numberToString (floorScaled r7 999)), domain.
  split; [reflexivity|].
  destruct (numberToString_small (floorScaled r7 999)) as [H1 H2].
  { pose proof (floorScaled_range r7 999 ltac:(lia)). lia. }
  split; [exact H1|]. split; [exact H2 | exact (index_In _ _ _ Hd)].
Qed.

Lemma generateLoop_generated (n : nat) :
  forall patients w,
    List.Forall generatedPatient patients ->
    exists ps w',
      PatientGenerator.generateLoop random n patients w = (Return ps, w')
      /\ List.Forall generatedPatient ps
      /\ length ps = (length patients + n)%nat.
Proof.
  induction n as [|n IH]; intros patients w Hall;
    cbn [PatientGenerator.generateLoop].
  - exists patients, w. split; [reflexivity|]. split; [exact Hall | lia].
  - destruct (generatePatient_generated w) as (p & w' & -> & Hp).
    destruct (IH (patients ++ [p]) w') as (ps & w'' & E & Hps & Hlen).
    { apply List.Forall_app. split; [exact Hall|]. constructor; [exact Hp | constructor]. }
    exists ps, w''. split; [exact E|]. split; [exact Hps|].
    rewrite length_app in Hlen. cbn [length] in Hlen. lia.
Qed.

End Patients.

(** X18. generate of the patient generator never throws and returns exactly
    numPatients patients (none when that is negative or NaN). The name of
    each is a first name and two last names of the lists; the document number has
    eight digits and does not start with 0; the phone number is a 9 followed
    by eight digits; the email is the first name and the first last name in
    lower case with a dot between them, a number of one to three digits, an
    at sign and one of the four domains. *)
Theorem patients_generated (W : Type) (random : W -> Unit01 * W)
  (numPatients : option Z) (w : W) :
  exists patients w',
    PatientGenerator.generate random numPatients w = (Return patients, w')
    /\ Z.of_nat (length patients) = Z.max 0 (numOr0 numPatients)
    /\ List.Forall generatedPatient patients.
Proof.
  unfold PatientGenerator.generate.
  destruct (generateLoop_generated random (turns numPatients) [] w)
    as (ps & w' & E & Hps & Hlen); [constructor|].
  exists ps, w'. split; [exact E|]. split; [|exact Hps].
  rewrite Hlen. cbn [length]. destruct numPatients as [n|]; cbn [turns numOr0]; lia.
Qed.

(** Nothing makes two patients differ: with a source that repeats itself
    every patient is the same. *)
Lemma generateLoop_constant {W : Type} (r : Unit01) (p : PatientGenerator.PatientData)
  (w : W) :
  PatientGenerator.generatePatient (constantSource r) w = (Return p, w) ->
  forall n patients,
    PatientGenerator.generateLoop (constantSource r) n patients w
    = (Return (patients ++ repeat p n), w).
Proof.
  intros Hp. induction n as [|n IH]; intros patients;
    cbn [PatientGenerator.generateLoop repeat].
  - rewrite app_nil_r. reflexivity.
  - rewrite Hp, IH, <- app_assoc. reflexivity.
Qed.

(** X19. Nothing keeps the patients of a run apart: with a random source that
    draws the same value every time, a run returns numPatients times the same
    patient, with the same document number and the same email. *)
Theorem patients_not_kept_apart (W : Type) (r : Unit01) (numPatients : option Z)
  (w : W) :
  exists p,
    generatedPatient p
    /\ PatientGenerator.generate (constantSource r) numPatients w
       = (Return (repeat p (turns numPatients)), w).
Proof.
  unfold PatientGenerator.generate.
  destruct (generatePatient_generated (constantSource r) w) as (p & w' & E & Hp).
  assert (w' = w).
  { pose proof (f_equal snd E) as Hw. cbn [snd] in Hw. rewrite <- Hw.
    unfold PatientGenerator.generatePatient, PatientGenerator.generateDNI,
      PatientGenerator.generatePhoneNumber, PatientGenerator.generateEmail,
      constantSource.
    cbv beta iota zeta.
    destruct (index PatientGenerator.firstNames
                (floorScaled r (Z.of_nat (length PatientGenerator.firstNames))));
      destruct (index PatientGenerator.lastNames
                  (floorScaled r (Z.of_nat (length PatientGenerator.lastNames))));
      reflexivity. }
  subst w'. exists p. split; [exact Hp|].
  rewrite (generateLoop_constant r p w E). reflexivity.
Qed.

(** ** Waiting for the database *)

Section Waiting.

Context {W : Type}.
Variable h : WaitForDb.Host W.

Lemma waitLoop_not_available (fuel : nat) :
  forall attempt dbHost dbPort maxAttempts delayMs w n w',
    WaitForDb.waitLoop h fuel attempt dbHost dbPort maxAttempts delayMs w
    = (WaitForDb.NotAvailable n, w') ->
    n = maxAttempts /\ attempt <= maxAttempts.
Proof.
  induction fuel as [|k IH]; intros attempt dbHost dbPort maxAttempts delayMs w n w';
    cbn [WaitForDb.waitLoop]; [discriminate|].
  destruct (Z.leb_spec attempt maxAttempts) as [Hle|_]; [|discriminate].
  destruct (WaitForDb.connect h dbHost dbPort w) as [[[]|e] w1].
  - destruct (WaitForDb.sleep h 3000 w1). discriminate.
  - destruct (attempt =? maxAttempts).
    + intros [= <- _]. split; [reflexivity | exact Hle].
    + destruct (WaitForDb.sleep h delayMs w1) as [[] w2]. intros E.
      apply IH in E. lia.
Qed.

End Waiting.

(** X20. WaitForDb.wait with maxAttempts at 0 or below returns at once, without
    one attempt to connect and with the world as it was. And when wait throws,
    maxAttempts (30 when it is not given) is 1 or more and is the number that
    the error gives. *)
Theorem wait_without_attempts (W : Type) (h : WaitForDb.Host W)
  (options : WaitForDb.Options) (w : W) :
  (forall n, WaitForDb.maxAttempts options = Some n -> n <= 0 ->
     WaitForDb.wait h options w = (WaitForDb.Ready, w))
  /\ (forall n w',
        WaitForDb.wait h options w = (WaitForDb.NotAvailable n, w') ->
        1 <= n
        /\ n = match WaitForDb.maxAttempts options with Some m => m | None => 30 end).
Proof.
  split.
  - intros n Hn Hle. unfold WaitForDb.wait. rewrite Hn. cbv zeta.
    replace (Z.to_nat n) with 0%nat by lia. reflexivity.
  - intros n w' E. unfold WaitForDb.wait in E. cbv zeta in E.
    apply waitLoop_not_available in E. lia.
Qed.

Lemma wait_without_attempts_witness :
  WaitForDb.wait (loggingHost 1)
    {| WaitForDb.host := lit "db"; WaitForDb.port := 5432;
       WaitForDb.maxAttempts := Some 0; WaitForDb.delayMs := None |} []
  = (WaitForDb.Ready, []).
Proof.
  apply (proj1 (wait_without_attempts (list WaitEvent) (loggingHost 1)
                  {| WaitForDb.host := lit "db"; WaitForDb.port := 5432;
                     WaitForDb.maxAttempts := Some 0; WaitForDb.delayMs := None |} [])
           0); [reflexivity | lia].
Defined.

(** The log of a run, attempt by attempt. *)
Lemma connectionsIn_app (a b : list WaitEvent) :
  connectionsIn (a ++ b) = (connectionsIn a + connectionsIn b)%nat.
Proof. unfold connectionsIn. rewrite List.filter_app, length_app. reflexivity. Qed.

Lemma connectionsIn_failed (n : nat) (delayMs : Z) :
  connectionsIn (failedAttempts n delayMs) = n.
Proof.
  induction n as [|n IH]; [reflexivity|].
  unfold connectionsIn in *. cbn [failedAttempts List.filter length]. rewrite IH.
  reflexivity.
Qed.

Lemma waitLoop_log (opensAt : nat) (dbHost : jsstring) (dbPort maxAttempts delayMs : Z)
  (fuel : nat) :
  forall (done : nat) (log : list WaitEvent),
    connectionsIn log = done ->
    Z.of_nat (done + fuel) = maxAttempts ->
    WaitForDb.waitLoop (loggingHost opensAt) fuel (Z.of_nat done + 1) dbHost dbPort
      maxAttempts delayMs log
    = if (opensAt <=? done)%nat then
        match fuel with
        | O => (WaitForDb.Ready, log)
        | S _ => (WaitForDb.Ready, log ++ [Connected true; Slept 3000])
        end
      else if (opensAt <=? done + fuel)%nat then
        (WaitForDb.Ready,
         log ++ failedAttempts (opensAt - 1 - done) delayMs
             ++ [Connected true; Slept 3000])
      else
        match fuel with
        | O => (WaitForDb.Ready, log)
        | S k =>
            (WaitForDb.NotAvailable maxAttempts,
             log ++ failedAttempts k delayMs ++ [Connected false])
        end.
Proof.
  induction fuel as [|k IH]; intros done log Hlog Hmax; cbn [WaitForDb.waitLoop].
  - rewrite Nat.add_0_r. destruct (opensAt <=? done)%nat; reflexivity.
  - destruct (Z.leb_spec (Z.of_nat done + 1) maxAttempts) as [_|?]; [|lia].
    cbn [loggingHost WaitForDb.connect WaitForDb.sleep]. rewrite Hlog.
    destruct (Nat.leb_spec opensAt (S done)) as [Hopen|Hclosed].
    + rewrite <- app_assoc. cbn [app].
      destruct (Nat.leb_spec opensAt done) as [_|Hlate]; [reflexivity|].
      destruct (Nat.leb_spec opensAt (done + S k)) as [_|?]; [|lia].
      replace (opensAt - 1 - done)%nat with 0%nat by lia. reflexivity.
    + destruct (Nat.leb_spec opensAt done) as [?|_]; [lia|].
      destruct (Z.eqb_spec (Z.of_nat done + 1) maxAttempts) as [Hlast|Hmore].
      * assert (k = 0%nat) by lia. subst k.
        destruct (Nat.leb_spec opensAt (done + 1)) as [?|_]; [lia|]. reflexivity.
      * destruct k as [|k']; [lia|].
        specialize (IH (S done) (log ++ [Connected false] ++ [Slept delayMs])).
        rewrite Nat2Z.inj_succ in IH.
        replace (Z.succ (Z.of_nat done) + 1) with (Z.of_nat done + 1 + 1) in IH by lia.
        rewrite <- app_assoc in IH |- *. rewrite IH; clear IH.
        -- destruct (Nat.leb_spec opensAt (S done)) as [?|_]; [lia|].
           replace (S done + S k')%nat with (done + S (S k'))%nat by lia.
           destruct (Nat.leb_spec opensAt (done + S (S k'))) as [Hin|Hout].
           ++ replace (opensAt - 1 - done)%nat with (S (opensAt - 1 - S done)) by lia.
              cbn [failedAttempts]. rewrite <- !app_assoc. reflexivity.
           ++ cbn [failedAttempts]. rewrite <- !app_assoc. reflexivity.
        -- rewrite !connectionsIn_app, Hlog. cbn. lia.
        -- lia.
Qed.

(** X21. What wait does, attempt by attempt, in a world that logs what is asked
    of it and whose port opens at the attempt opensAt, with maxAttempts at 1
    or more. When the port opens in time, wait makes opensAt - 1 failed
    attempts, each followed by a sleep of delayMs, then the attempt that
    connects and a sleep of 3000 ms, and returns. Else it makes maxAttempts
    failed attempts with a sleep of delayMs after each but the last, and
    throws. *)
Theorem wait_log (opensAt : nat) (options : WaitForDb.Options) :
  let maxAttempts :=
    match WaitForDb.maxAttempts options with Some n => n | None => 30 end in
  let delayMs := match WaitForDb.delayMs options with Some n => n | None => 2000 end in
  (1 <= opensAt)%nat -> 1 <= maxAttempts ->
  WaitForDb.wait (loggingHost opensAt) options []
  = if Z.of_nat opensAt <=? maxAttempts then
      (WaitForDb.Ready,
       failedAttempts (opensAt - 1) delayMs ++ [Connected true; Slept 3000])
    else
      (WaitForDb.NotAvailable maxAttempts,
       failedAttempts (Z.to_nat maxAttempts - 1) delayMs ++ [Connected false]).
Proof.
  cbv zeta. intros Hopen Hmax. unfold WaitForDb.wait. cbv zeta.
  set (maxAttempts := match WaitForDb.maxAttempts options with
                      | Some n => n | None => 30 end) in *.
  set (delayMs := match WaitForDb.delayMs options with
                  | Some n => n | None => 2000 end).
  pose proof (waitLoop_log opensAt (WaitForDb.host options) (WaitForDb.port options)
                maxAttempts delayMs (Z.to_nat maxAttempts) 0 [] eq_refl ltac:(lia)) as H.
  change (Z.of_nat 0 + 1) with 1 in H. rewrite H. clear H.
  destruct (Nat.leb_spec opensAt 0) as [?|_]; [lia|].
  cbn [app Nat.add].
  destruct (Nat.leb_spec opensAt (Z.to_nat maxAttempts)) as [Hin|Hout];
    destruct (Z.leb_spec (Z.of_nat opensAt) maxAttempts) as [?|?]; try lia.
  - rewrite Nat.sub_0_r. reflexivity.
  - destruct (Z.to_nat maxAttempts) as [|k] eqn:Ek; [lia|].
    replace (S k - 1)%nat with k by lia. reflexivity.
Qed.

Lemma wait_log_witness :
  (1 <= 3)%nat /\ 1 <= 30
  /\ WaitForDb.wait (loggingHost 3) defaultOptions []
     = (WaitForDb.Ready,
        [Connected false; Slept 2000; Connected false; Slept 2000;
         Connected true; Slept 3000]).
Proof.
  split; [lia|]. split; [lia|].
  apply (wait_log 3 defaultOptions); [lia | cbn; lia].
Defined.

(** ** The migration service *)

Section Reports.
Context {W : Type}.
Variable host : MigrationService.Host W.

Lemma reports_ret {A : Type} (steps : list jsstring) (a : A)
  (Q : A -> list ErrorTracker.ErrorReport -> Prop) :
  Q a [] -> reports (W := W) steps (ret a) Q.
Proof.
  intros H st. exists a, st, []. split; [reflexivity|].
  split; [rewrite app_nil_r; reflexivity|]. split; [constructor | exact H].
Qed.

Lemma reports_weaken {A : Type} (steps steps' : list jsstring)
  (m : M (MigrationService.Process W) A)
  (Q Q' : A -> list ErrorTracker.ErrorReport -> Prop) :
  reports steps' m Q' ->
  (forall s, In s steps' -> In s steps) ->
  (forall a new, Q' a new -> Q a new) ->
  reports steps m Q.
Proof.
  intros H Hsteps HQ st. destruct (H st) as (a & st' & new & E & Herr & Hall & Ha).
  exists a, st', new. split; [exact E|]. split; [exact Herr|]. split; [|exact (HQ _ _ Ha)].
  eapply List.Forall_impl; [|exact Hall]. intros e He. exact (Hsteps _ He).
Qed.

Lemma reports_bind {A B : Type} (steps : list jsstring)
  (m : M (MigrationService.Process W) A) (k : A -> M (MigrationService.Process W) B)
  (R : A -> list ErrorTracker.ErrorReport -> Prop)
  (Q : B -> list ErrorTracker.ErrorReport -> Prop) :
  reports steps m R ->
  (forall a new1, R a new1 -> reports steps (k a) (fun b new2 => Q b (new1 ++ new2))) ->
  reports steps (bind m k) Q.
Proof.
  intros Hm Hk st. destruct (Hm st) as (a & st1 & new1 & E1 & Herr1 & Hall1 & Ha).
  destruct (Hk a new1 Ha st1) as (b & st2 & new2 & E2 & Herr2 & Hall2 & Hb).
  exists b, st2, (new1 ++ new2). unfold bind. rewrite E1. split; [exact E2|].
  split; [rewrite Herr2, Herr1, app_assoc; reflexivity|].
  split; [apply List.Forall_app; split; assumption | exact Hb].
Qed.

Lemma reports_steps {A : Type} (steps : list jsstring)
  (m : M (MigrationService.Process W) A)
  (Q : A -> list ErrorTracker.ErrorReport -> Prop) :
  reports steps m Q ->
  reports steps m
    (fun a new => Q a new /\ List.Forall (fun e => In (ErrorTracker.step e) steps) new).
Proof.
  intros H st. destruct (H st) as (a & st' & new & E & Herr & Hall & Ha).
  exists a, st', new. auto.
Qed.

(** A call of the client inside a [try] whose handler reports. *)
Lemma reports_try_call {A B : Type} (steps : list jsstring)
  (f : W -> Outcome A * W) (k : A -> M (MigrationService.Process W) B)
  (h : Error -> M (MigrationService.Process W) B)
  (Q : B -> list ErrorTracker.ErrorReport -> Prop) :
  (forall a, reports steps (k a) Q) ->
  (forall e, reports steps (h e) Q) ->
  reports steps (tryCatch (bind (MigrationService.callDb f) k) h) Q.
Proof.
  intros Hk Hh st. unfold tryCatch, bind, MigrationService.callDb.
  destruct (f (MigrationService.outside st)) as [[a|e] w].
  - destruct (Hk a {| MigrationService.outside := w;
                      MigrationService.errors := MigrationService.errors st |})
      as (b & st' & new & E & Herr & Hall & Hb).
    rewrite E. exists b, st', new. auto.
  - destruct (Hh e {| MigrationService.outside := w;
                      MigrationService.errors := MigrationService.errors st |})
      as (b & st' & new & E & Herr & Hall & Hb).
    exists b, st', new. auto.
Qed.

Lemma reports_addError (steps : list jsstring) (step message : jsstring) (error : Error)
  (Q : unit -> list ErrorTracker.ErrorReport -> Prop) :
  In step steps ->
  (forall report, ErrorTracker.step report = step -> Q tt [report]) ->
  reports steps (MigrationService.addError host step message error) Q.
Proof.
  intros Hin HQ st. unfold MigrationService.addError.
  destruct (MigrationService.clock host (MigrationService.outside st)) as [now w].
  eexists tt, _, [_]. split; [reflexivity|]. split; [reflexivity|].
  split; [constructor; [exact Hin | constructor]|]. apply HQ. reflexivity.
Qed.

(** The handler of every loop: one report, the variable as it was. *)
Lemma reports_handler {B : Type} (steps : list jsstring) (step message : jsstring)
  (error : Error) (acc : B) (Q : B -> list ErrorTracker.ErrorReport -> Prop) :
  In step steps ->
  (forall report, ErrorTracker.step report = step -> Q acc [report]) ->
  reports steps
    (bind (MigrationService.addError host step message error) (fun _ => ret acc)) Q.
Proof.
  intros Hin HQ.
  eapply reports_bind
    with (R := fun _ new => exists report, new = [report]
                                           /\ ErrorTracker.step report = step).
  - apply reports_addError; [exact Hin|]. intros report Hr. exists report. auto.
  - intros [] new1 (report & -> & Hr). apply reports_ret.
    rewrite app_nil_r. apply HQ, Hr.
Qed.

Lemma reports_forEach {A B : Type} (steps : list jsstring)
  (body : A -> B -> M (MigrationService.Process W) B)
  (I : list A -> B -> list ErrorTracker.ErrorReport -> Prop) :
  (forall x done acc new0, I done acc new0 ->
     reports steps (body x acc) (fun acc' new => I (done ++ [x]) acc' (new0 ++ new))) ->
  forall items done acc new0, I done acc new0 ->
    reports steps (MigrationService.forEach items body acc)
      (fun b new => I (done ++ items) b (new0 ++ new)).
Proof.
  intros Hbody items. induction items as [|x rest IH]; intros done acc new0 HI;
    cbn [MigrationService.forEach].
  - apply reports_ret. rewrite !app_nil_r. exact HI.
  - eapply reports_bind; [apply (Hbody x done acc new0 HI)|].
    cbv beta. intros acc' new1 HI'.
    eapply reports_weaken; [apply (IH _ _ _ HI') | auto|].
    cbv beta. intros b new2. rewrite <- !app_assoc. cbn [app]. auto.
Qed.

End Reports.

Lemma reportsFor_app (wanted : jsstring) (a b : list ErrorTracker.ErrorReport) :
  reportsFor wanted (a ++ b) = (reportsFor wanted a + reportsFor wanted b)%nat.
Proof.
  unfold reportsFor, ErrorTracker.getErrorsByStep.
  rewrite List.filter_app, length_app. reflexivity.
Qed.

Lemma reportsFor_others (wanted : jsstring) (steps : list jsstring)
  (new : list ErrorTracker.ErrorReport) :
  ~ In wanted steps ->
  List.Forall (fun e => In (ErrorTracker.step e) steps) new ->
  reportsFor wanted new = 0%nat.
Proof.
  intros Hout Hall. unfold reportsFor, ErrorTracker.getErrorsByStep.
  induction Hall as [|e new He _ IH]; [reflexivity|].
  cbn [List.filter]. destruct (strictEq (ErrorTracker.step e) wanted) eqn:E; [|exact IH].
  apply strictEq_spec in E. rewrite E in He. contradiction.
Qed.

Lemma reportsFor_one (wanted : jsstring) (report : ErrorTracker.ErrorReport) :
  ErrorTracker.step report = wanted -> reportsFor wanted [report] = 1%nat.
Proof.
  intros H. unfold reportsFor, ErrorTracker.getErrorsByStep. cbn [List.filter].
  rewrite (proj2 (strictEq_spec _ _) H). reflexivity.
Qed.

Section Inserts.
Context {W : Type}.
Variable host : MigrationService.Host W.

Lemma insertTreatments_reports (doctorId : Z) (treatments : list TreatmentData) :
  reports [lit "INSERT_TREATMENTS"]
    (MigrationService.insertTreatments host doctorId treatments)
    (fun ids new =>
       (length ids + length new)%nat = length (MigrationService.unique treatments)).
Proof.
  unfold MigrationService.insertTreatments.
  eapply reports_weaken;
    [apply (reports_forEach [lit "INSERT_TREATMENTS"] _
              (fun done (acc : list Z) new =>
                 (length acc + length new)%nat = length done))
           with (done := []) (new0 := []) | auto | cbv beta; auto].
  - intros x done acc new0 HI. apply reports_try_call.
    + intros id. apply reports_ret. cbv beta. rewrite !length_app. cbn [length]. lia.
    + intros e. apply reports_handler; [left; reflexivity|].
      intros report _. cbv beta. rewrite !length_app. cbn [length]. lia.
  - reflexivity.
Qed.

Lemma insertAvailability_reports (doctorId : Z) (availability : list AvailabilityData) :
  reports [lit "INSERT_AVAILABILITY"]
    (MigrationService.insertAvailability host doctorId availability)
    (fun rows new => (length rows + length new)%nat = length availability).
Proof.
  unfold MigrationService.insertAvailability.
  eapply reports_weaken;
    [apply (reports_forEach [lit "INSERT_AVAILABILITY"] _
              (fun done (acc : list AppointmentGenerator.AvailabilityRow) new =>
                 (length acc + length new)%nat = length done))
           with (done := []) (new0 := []) | auto | cbv beta; auto].
  - intros x done acc new0 HI. apply reports_try_call.
    + intros row. apply reports_ret. cbv beta. rewrite !length_app. cbn [length]. lia.
    + intros e. apply reports_handler; [left; reflexivity|].
      intros report _. cbv beta. rewrite !length_app. cbn [length]. lia.
  - reflexivity.
Qed.

Lemma insertPatients_reports (patients : list PatientGenerator.PatientData) :
  reports [lit "INSERT_PATIENTS"]
    (MigrationService.insertPatients host patients)
    (fun ids new => (length ids + length new)%nat = length patients).
Proof.
  unfold MigrationService.insertPatients.
  eapply reports_weaken;
    [apply (reports_forEach [lit "INSERT_PATIENTS"] _
              (fun done (acc : list Z) new =>
                 (length acc + length new)%nat = length done))
           with (done := []) (new0 := []) | auto | cbv beta; auto].
  - intros x done acc new0 HI. apply reports_try_call.
    + intros id. apply reports_ret. cbv beta. rewrite !length_app. cbn [length]. lia.
    + intros e. apply reports_handler; [left; reflexivity|].
      intros report _. cbv beta. rewrite !length_app. cbn [length]. lia.
  - reflexivity.
Qed.

Lemma countAppointments_reports
  (appointments : list AppointmentGenerator.AppointmentData) :
  reports [lit "INSERT_APPOINTMENTS"]
    (MigrationService.countAppointments host appointments)
    (fun count new =>
       0 <= count /\ count + Z.of_nat (length new) = Z.of_nat (length appointments)).
Proof.
  unfold MigrationService.countAppointments.
  eapply reports_weaken;
    [apply (reports_forEach [lit "INSERT_APPOINTMENTS"] _
              (fun done (count : Z) new =>
                 0 <= count /\ count + Z.of_nat (length new) = Z.of_nat (length done)))
           with (done := []) (new0 := []) | auto | cbv beta; auto].
  - intros x done acc new0 HI. apply reports_try_call.
    + intros []. apply reports_ret. cbv beta. rewrite !length_app. cbn [length]. lia.
    + intros e. apply reports_handler; [left; reflexivity|].
      intros report _. cbv beta. rewrite !length_app. cbn [length]. lia.
  - cbn [length]. lia.
Qed.

Lemma insertDoctors_reports (doctors : list DoctorData) :
  reports [lit "INSERT_DOCTORS"; lit "INSERT_TREATMENTS"; lit "INSERT_AVAILABILITY"]
    (MigrationService.insertDoctors host doctors)
    (fun inserted new =>
       (length inserted + reportsFor (lit "INSERT_DOCTORS") new)%nat = length doctors
       /\ exists kept, sublist kept doctors /\ Forall2 insertedFrom kept inserted).
Proof.
  unfold MigrationService.insertDoctors.
  eapply reports_weaken;
    [apply (reports_forEach
              [lit "INSERT_DOCTORS"; lit "INSERT_TREATMENTS"; lit "INSERT_AVAILABILITY"] _
              (fun done (acc : list AppointmentGenerator.Doctor) new =>
                 (length acc + reportsFor (lit "INSERT_DOCTORS") new)%nat = length done
                 /\ exists kept, sublist kept done /\ Forall2 insertedFrom kept acc))
           with (done := []) (new0 := []) | auto | cbv beta; auto].
  - intros doctor done acc new0 (Hcount & kept & Hsub & Hkept).
    apply reports_try_call.
    + intros id.
      eapply reports_bind.
      { eapply reports_weaken;
          [apply reports_steps, insertTreatments_reports| |intros a new H; exact H].
        intros s Hs. cbn [In] in Hs. destruct Hs as [<-|[]]. right. left. reflexivity. }
      cbv beta. intros ids new1 [Hids Hnew1].
      eapply reports_bind.
      { eapply reports_weaken;
          [apply reports_steps, insertAvailability_reports| |intros a new H; exact H].
        intros s Hs. cbn [In] in Hs. destruct Hs as [<-|[]].
        right. right. left. reflexivity. }
      cbv beta. intros rows new2 [Hrows Hnew2].
      apply reports_ret. rewrite app_nil_r, !reportsFor_app, !length_app.
      rewrite (reportsFor_others (lit "INSERT_DOCTORS") [lit "INSERT_TREATMENTS"] new1)
        by (exact Hnew1 || (intros H; cbn [In] in H; destruct H as [H|[]];
                            vm_compute in H; discriminate H)).
      rewrite (reportsFor_others (lit "INSERT_DOCTORS") [lit "INSERT_AVAILABILITY"] new2)
        by (exact Hnew2 || (intros H; cbn [In] in H; destruct H as [H|[]];
                            vm_compute in H; discriminate H)).
      cbn [length]. split; [lia|].
      exists (kept ++ [doctor]). split.
      * apply sublist_app; [exact Hsub | reflexivity].
      * apply Forall2_app; [exact Hkept|]. constructor; [|constructor].
        unfold insertedFrom.
        cbn [AppointmentGenerator.treatments AppointmentGenerator.availability]. lia.
    + intros e. apply reports_handler; [left; reflexivity|].
      intros report Hr. cbv beta. rewrite reportsFor_app, (reportsFor_one _ _ Hr).
      rewrite length_app. cbn [length]. split; [lia|].
      exists kept. split; [|exact Hkept]. apply sublist_inserts_r. exact Hsub.
  - split; [reflexivity|]. exists []. split; constructor.
Qed.

End Inserts.

(** ** Treatments of one name *)

Lemma seen_folded (acc : list TreatmentData) (t : TreatmentData) :
  existsb (fun x => strictEq (toLowerCase (name x)) (toLowerCase (name t))) acc = true
  <-> In (toLowerCase (name t)) (foldedNames acc).
Proof.
  unfold foldedNames. rewrite existsb_exists, in_map_iff. split.
  - intros (x & Hx & E). apply strictEq_spec in E. eauto.
  - intros (x & E & Hx). exists x. split; [exact Hx|]. apply strictEq_spec. exact E.
Qed.

Lemma unique_from (treatments : list TreatmentData) :
  forall acc,
    NoDup (foldedNames acc) ->
    let result :=
      fold_left
        (fun acc t =>
           if existsb (fun x => strictEq (toLowerCase (name x)) (toLowerCase (name t))) acc
           then acc else acc ++ [t])
        treatments acc in
    NoDup (foldedNames result)
    /\ (exists kept, result = acc ++ kept /\ sublist kept treatments)
    /\ (forall n, In n (foldedNames result)
                  <-> In n (foldedNames acc) \/ In n (foldedNames treatments))
    /\ (NoDup (foldedNames (acc ++ treatments)) -> result = acc ++ treatments).
Proof.
  induction treatments as [|t rest IH]; intros acc Hacc; cbv zeta; cbn [fold_left].
  - split; [exact Hacc|]. split; [exists []; rewrite app_nil_r; split; constructor|].
    split; [cbn; tauto | rewrite app_nil_r; reflexivity].
  - destruct (existsb _ acc) eqn:Hseen.
    + apply seen_folded in Hseen.
      destruct (IH acc Hacc) as (H1 & (kept & H2 & H2') & H3 & H4).
      split; [exact H1|]. split.
      { exists kept. split; [exact H2 | apply sublist_cons; exact H2']. }
      split.
      { intros n. rewrite H3. unfold foldedNames. cbn [List.map In].
        split; [tauto|]. intros [H|[<-|H]]; [tauto | left; exact Hseen | tauto]. }
      intros Hnd. exfalso. unfold foldedNames in Hnd. rewrite map_app in Hnd.
      apply NoDup_app in Hnd as (_ & Hdis & _).
      apply (Hdis (toLowerCase (name t))); [apply list_elem_of_In; exact Hseen|].
      cbn [List.map]. apply list_elem_of_here.
    + assert (Hnew : ~ In (toLowerCase (name t)) (foldedNames acc)).
      { intros H. apply seen_folded in H. congruence. }
      assert (Hacc' : NoDup (foldedNames (acc ++ [t]))).
      { unfold foldedNames. rewrite map_app. apply NoDup_app. split; [exact Hacc|].
        split; [|apply NoDup_singleton].
        intros n Hn Hn'. cbn [List.map] in Hn'. apply list_elem_of_singleton in Hn'.
        subst n. apply Hnew, list_elem_of_In, Hn. }
      destruct (IH (acc ++ [t]) Hacc') as (H1 & (kept & H2 & H2') & H3 & H4).
      split; [exact H1|]. split.
      { exists (t :: kept). split; [rewrite H2, <- app_assoc; reflexivity|].
        apply sublist_skip. exact H2'. }
      split.
      { intros n. rewrite H3. unfold foldedNames. rewrite map_app. cbn [List.map].
        rewrite in_app_iff. cbn [In]. tauto. }
      intros Hnd. rewrite H4; [rewrite <- app_assoc; reflexivity|].
      rewrite <- app_assoc. exact Hnd.
Qed.

(** X22. The treatments that insertTreatments sends to the database, unique,
    have pairwise distinct names whatever their case, are treatments of the
    record in the order of the record, and cover every name of the record;
    a record whose names are already distinct is sent whole. *)
Theorem unique_treatments (treatments : list TreatmentData) :
  NoDup (foldedNames (MigrationService.unique treatments))
  /\ sublist (MigrationService.unique treatments) treatments
  /\ (forall n, In n (foldedNames (MigrationService.unique treatments))
                <-> In n (foldedNames treatments))
  /\ (NoDup (foldedNames treatments) -> MigrationService.unique treatments = treatments).
Proof.
  destruct (unique_from treatments [] ltac:(constructor))
    as (H1 & (kept & H2 & H2') & H3 & H4).
  fold (MigrationService.unique treatments) in *.
  split; [exact H1|]. split; [rewrite H2; exact H2'|]. split.
  - intros n. rewrite H3. cbn. tauto.
  - exact H4.
Qed.

Lemma unique_treatments_witness :
  NoDup (foldedNames (CityScraper.extractTreatments sampleFullProfile))
  /\ MigrationService.unique (CityScraper.extractTreatments sampleFullProfile)
     = CityScraper.extractTreatments sampleFullProfile.
Proof.
  assert (H : NoDup (foldedNames (CityScraper.extractTreatments sampleFullProfile))).
  { vm_compute. apply NoDup_singleton. }
  split; [exact H|].
  exact (proj2 (proj2 (proj2 (unique_treatments
                                (CityScraper.extractTreatments sampleFullProfile)))) H).
Defined.

(** X23. The rating of the row that insertDoctors writes is null or within
    [0,5]: it is the rating of the record when that is within [0,5], and null
    when the record has none or one outside. *)
Theorem stored_rating_in_range (doctor : DoctorData) :
  match MigrationService.DoctorRow.rating (MigrationService.doctorRow doctor) with
  | Some q => (0 <= q)%Q /\ (q <= inject_Z 5)%Q /\ rating doctor = Some q
  | None =>
      match rating doctor with
      | Some q => ~ ((0 <= q)%Q /\ (q <= inject_Z 5)%Q)
      | None => True
      end
  end.
Proof.
  unfold MigrationService.doctorRow, MigrationService.validRating.
  cbn [MigrationService.DoctorRow.rating].
  destruct (rating doctor) as [q|]; [|exact I].
  destruct (Qle_bool q (inject_Z 5)) eqn:H5; destruct (Qle_bool 0 q) eqn:H0;
    cbn [negb orb].
  - apply Qle_bool_iff in H5, H0. auto.
  - intros [H _]. apply Qle_bool_iff in H. congruence.
  - intros [_ H]. apply Qle_bool_iff in H. congruence.
  - intros [_ H]. apply Qle_bool_iff in H. congruence.
Qed.

(** X24. No insert loop of the migration service throws, and every record is
    accounted for: the rows that a loop returns and the reports that it adds
    to the error tracker under its step are together as many as the records
    it was given (for treatments, the records of distinct names). The rows
    that insertDoctors returns are those of a sublist of the doctors, in
    order, each with at most as many treatments as the record has distinct
    names and at most as many slots as the record has; every report that a
    loop adds is for its own step or a step of the loops it calls. *)
Theorem inserts_accounted (W : Type) (host : MigrationService.Host W) :
  (forall doctors,
      reports [lit "INSERT_DOCTORS"; lit "INSERT_TREATMENTS"; lit "INSERT_AVAILABILITY"]
        (MigrationService.insertDoctors host doctors)
        (fun inserted new =>
           (length inserted + reportsFor (lit "INSERT_DOCTORS") new)%nat = length doctors
           /\ exists kept, sublist kept doctors /\ Forall2 insertedFrom kept inserted))
  /\ (forall doctorId treatments,
         reports [lit "INSERT_TREATMENTS"]
           (MigrationService.insertTreatments host doctorId treatments)
           (fun ids new =>
              (length ids + length new)%nat
              = length (MigrationService.unique treatments)))
  /\ (forall doctorId availability,
         reports [lit "INSERT_AVAILABILITY"]
           (MigrationService.insertAvailability host doctorId availability)
           (fun rows new => (length rows + length new)%nat = length availability))
  /\ (forall patients,
         reports [lit "INSERT_PATIENTS"]
           (MigrationService.insertPatients host patients)
           (fun ids new => (length ids + length new)%nat = length patients))
  /\ (forall appointments,
         reports [lit "INSERT_APPOINTMENTS"]
           (MigrationService.countAppointments host appointments)
           (fun count new =>
              0 <= count
              /\ count + Z.of_nat (length new) = Z.of_nat (length appointments))).
Proof.
  split; [exact (insertDoctors_reports host)|].
  split; [exact (insertTreatments_reports host)|].
  split; [exact (insertAvailability_reports host)|].
  split; [exact (insertPatients_reports host) | exact (countAppointments_reports host)].
Qed.

(** ** The pipeline *)

Section PipelineFacts.
Context {W : Type}.
Variable host : Pipeline.Host W.

Lemma insertAppointments_reports
  (appointments : list AppointmentGenerator.AppointmentData) :
  reports [lit "INSERT_APPOINTMENTS"]
    (MigrationService.insertAppointments (Pipeline.service host) appointments)
    (fun _ _ => True).
Proof.
  unfold MigrationService.insertAppointments.
  eapply reports_bind; [apply countAppointments_reports|].
  intros count new1 _. apply reports_ret. exact I.
Qed.

(** Once the scraper has returned records, the steps up to the statistics
    cannot fail: they leave the tracker with the reports of the inserts. *)
Lemma migrate_ends (doctorsData : list DoctorData) (st : MigrationService.Process W) :
  doctorsData <> [] ->
  exists st5 new,
    MigrationService.errors st5 = MigrationService.errors st ++ new
    /\ List.Forall (fun e => In (ErrorTracker.step e) insertSteps) new
    /\ Pipeline.migrate host doctorsData st
       = match MigrationService.getStats (Pipeline.service host) st5 with
         | (Throw e, st6) => (Pipeline.Failed (Pipeline.Raised e), st6)
         | (Return _, st6) => (Pipeline.Completed, st6)
         end.
Proof.
  intros Hne. unfold Pipeline.migrate.
  destruct (Z.eqb_spec (Z.of_nat (length doctorsData)) 0) as [H0|_].
  { destruct doctorsData; [congruence | cbn [length] in H0; lia]. }
  destruct (insertDoctors_reports (Pipeline.service host) doctorsData st)
    as (insertedDoctors & st1 & new1 & -> & Herr1 & Hall1 & _).
  destruct (generateLoop_generated (Pipeline.random host)
              (turns (Pipeline.numPatients host)) [] (MigrationService.outside st1)
              ltac:(constructor)) as (patientsData & w2 & Egen & _).
  unfold PatientGenerator.generate. rewrite Egen.
  destruct (insertPatients_reports (Pipeline.service host) patientsData
              (Pipeline.withWorld st1 w2))
    as (insertedPatients & st3 & new3 & -> & Herr3 & Hall3 & _).
  destruct (AppointmentGenerator.generate _ _ _ _ _) as [appointmentsData w4].
  destruct (insertAppointments_reports appointmentsData (Pipeline.withWorld st3 w4))
    as ([] & st5 & new5 & -> & Herr5 & Hall5 & _).
  exists st5, (new1 ++ new3 ++ new5). split.
  - rewrite Herr5. cbn [Pipeline.withWorld MigrationService.errors].
    rewrite Herr3. cbn [Pipeline.withWorld MigrationService.errors].
    rewrite Herr1, <- !app_assoc. reflexivity.
  - split; [|reflexivity].
    apply List.Forall_app. split; [|apply List.Forall_app; split].
    + eapply List.Forall_impl; [|exact Hall1]. intros e He. cbn [In] in He.
      unfold insertSteps. cbn [In]. tauto.
    + eapply List.Forall_impl; [|exact Hall3]. intros e He. cbn [In] in He.
      unfold insertSteps. cbn [In]. tauto.
    + eapply List.Forall_impl; [|exact Hall5]. intros e He. cbn [In] in He.
      unfold insertSteps. cbn [In]. tauto.
Qed.

End PipelineFacts.

(** X25. When the database answers and already holds doctors, main neither
    scrapes nor inserts: whatever the scraper would do, the run is the same,
    the error tracker is left as it was, and the exit code is 0 when the
    statistics can be read and 1 when reading them raises. *)
Theorem pipeline_skips_populated (W : Type) (host : Pipeline.Host W)
  (scrapeDoctors : M (Store W) (list DoctorData)) (st : MigrationService.Process W)
  (w1 w2 w3 : W) (existingDoctors : Z) :
  WaitForDb.wait (Pipeline.waiting host)
    {| WaitForDb.host := Pipeline.dbHost host; WaitForDb.port := Pipeline.dbPort host;
       WaitForDb.maxAttempts := None; WaitForDb.delayMs := None |}
    (MigrationService.outside st) = (WaitForDb.Ready, w1) ->
  Pipeline.connectDb host w1 = (Return tt, w2) ->
  Pipeline.countDoctors host w2 = (Return existingDoctors, w3) ->
  0 < existingDoctors ->
  exists code st',
    Pipeline.main host scrapeDoctors st = (code, st')
    /\ MigrationService.errors st' = MigrationService.errors st
    /\ (code = 0 \/ code = 1)
    /\ (code = 0 <->
        exists stats w4,
          MigrationService.countRows (Pipeline.service host) w3 = (Return stats, w4))
    /\ forall otherScraper,
         Pipeline.main host otherScraper st = Pipeline.main host scrapeDoctors st.
Proof.
  intros Hwait Hconnect Hcount Hpos.
  assert (Hmain : forall scraper,
            Pipeline.main host scraper st
            = match MigrationService.countRows (Pipeline.service host) w3 with
              | (Return _, w4) => (0, Pipeline.disconnect host (Pipeline.withWorld st w4))
              | (Throw _, w4) => (1, Pipeline.disconnect host (Pipeline.withWorld st w4))
              end).
  { intros scraper. unfold Pipeline.main, Pipeline.tryBlock.
    rewrite Hwait, Hconnect, Hcount.
    destruct (Z.ltb_spec 0 existingDoctors) as [_|?]; [|lia].
    unfold MigrationService.getStats, MigrationService.callDb.
    cbn [Pipeline.withWorld MigrationService.outside MigrationService.errors].
    destruct (MigrationService.countRows (Pipeline.service host) w3) as [[stats|e] w4];
      reflexivity. }
  rewrite (Hmain scrapeDoctors).
  destruct (MigrationService.countRows (Pipeline.service host) w3) as [[stats|e] w4] eqn:E.
  - eexists _, _. split; [reflexivity|]. split; [reflexivity|]. split; [left; reflexivity|].
    split; [split; [eauto | reflexivity]|].
    intros other. rewrite (Hmain other). reflexivity.
  - eexists _, _. split; [reflexivity|]. split; [reflexivity|]. split; [right; reflexivity|].
    split; [split; [discriminate | intros (stats & w' & [=])]|].
    intros other. rewrite (Hmain other). reflexivity.
Qed.

Lemma pipeline_skips_populated_witness :
  exists st',
    Pipeline.main (samplePipelineHost 3)
      (CityScraper.scrapeDoctors sampleCityHost sampleCityConfig) sampleProcess
    = (0, st')
    /\ MigrationService.errors st' = [].
Proof.
  destruct (pipeline_skips_populated nat (samplePipelineHost 3)
              (CityScraper.scrapeDoctors sampleCityHost sampleCityConfig) sampleProcess
              0%nat 0%nat 0%nat 3 eq_refl eq_refl eq_refl ltac:(lia))
    as (code & st' & E & Herr & _ & Hcode & _).
  exists st'. split; [|exact Herr].
  rewrite E. f_equal. apply Hcode. eexists _, _. reflexivity.
Defined.

(** X26. Once the scraper has returned records to an empty database, no failed
    insert ends the run: the try block of main gets to the statistics, with
    nothing in the error tracker but reports of the five insert steps, and
    ends as the reading of the statistics ends; when that cannot raise, main
    exits with code 0. *)
Theorem pipeline_survives_inserts (W : Type) (host : Pipeline.Host W)
  (scrapeDoctors : M (Store W) (list DoctorData)) (st : MigrationService.Process W)
  (w1 w2 w3 w4 : W) (existingDoctors : Z) (doctorsData : list DoctorData) :
  WaitForDb.wait (Pipeline.waiting host)
    {| WaitForDb.host := Pipeline.dbHost host; WaitForDb.port := Pipeline.dbPort host;
       WaitForDb.maxAttempts := None; WaitForDb.delayMs := None |}
    (MigrationService.outside st) = (WaitForDb.Ready, w1) ->
  Pipeline.connectDb host w1 = (Return tt, w2) ->
  Pipeline.countDoctors host w2 = (Return existingDoctors, w3) ->
  existingDoctors <= 0 ->
  Pipeline.runScraper scrapeDoctors w3 = (Return doctorsData, w4) ->
  doctorsData <> [] ->
  exists st5,
    List.Forall (fun e => In (ErrorTracker.step e) insertSteps)
      (MigrationService.errors st5)
    /\ Pipeline.tryBlock host scrapeDoctors st
       = match MigrationService.getStats (Pipeline.service host) st5 with
         | (Throw e, st6) => (Pipeline.Failed (Pipeline.Raised e), st6)
         | (Return _, st6) => (Pipeline.Completed, st6)
         end
    /\ ((forall w, exists stats w',
           MigrationService.countRows (Pipeline.service host) w = (Return stats, w')) ->
        fst (Pipeline.main host scrapeDoctors st) = 0).
Proof.
  intros Hwait Hconnect Hcount Hnone Hscrape Hne.
  destruct (migrate_ends host doctorsData
              (Pipeline.withWorld
                 {| MigrationService.outside := w3;
                    MigrationService.errors :=
                      ErrorTracker.clear (MigrationService.errors st) |} w4) Hne)
    as (st5 & new & Herr & Hall & Hmig).
  assert (Htry : Pipeline.tryBlock host scrapeDoctors st
                 = match MigrationService.getStats (Pipeline.service host) st5 with
                   | (Throw e, st6) => (Pipeline.Failed (Pipeline.Raised e), st6)
                   | (Return _, st6) => (Pipeline.Completed, st6)
                   end).
  { unfold Pipeline.tryBlock. rewrite Hwait, Hconnect, Hcount.
    destruct (Z.ltb_spec 0 existingDoctors) as [?|_]; [lia|].
    cbv zeta. rewrite Hscrape. exact Hmig. }
  exists st5. split; [|split; [exact Htry|]].
  - rewrite Herr. exact Hall.
  - intros Hstats. unfold Pipeline.main. rewrite Htry.
    unfold MigrationService.getStats, MigrationService.callDb.
    destruct (Hstats (MigrationService.outside st5)) as (stats & w' & ->). reflexivity.
Qed.

Lemma pipeline_survives_inserts_witness :
  fst (Pipeline.main (samplePipelineHost 0)
         (CityScraper.scrapeDoctors sampleCityHost sampleCityConfig) sampleProcess) = 0.
Proof.
  destruct sample_city_run as (doctors & st' & E & Hlen).
  assert (Hrun : Pipeline.runScraper
                   (CityScraper.scrapeDoctors sampleCityHost sampleCityConfig) 0%nat
                 = (Return doctors, world st')).
  { unfold Pipeline.runScraper. change {| world := 0%nat; scrapedUrls := ∅ |} with emptyStore.
    rewrite E. reflexivity. }
  assert (Hne : doctors <> []) by (intros ->; discriminate Hlen).
  destruct (pipeline_survives_inserts nat (samplePipelineHost 0)
              (CityScraper.scrapeDoctors sampleCityHost sampleCityConfig) sampleProcess
              0%nat 0%nat 0%nat (world st') 0 doctors
              eq_refl eq_refl eq_refl ltac:(lia) Hrun Hne)
    as (st5 & _ & _ & Hcode).
  apply Hcode. intros w. eexists _, _. reflexivity.
Defined.

(** X27. The check of main for an empty list of doctors never fires: with
    either scraper, the try block never ends in the error "No doctors data
    obtained", since scrapeDoctors throws itself when it has no record. *)
Theorem pipeline_check_is_dead (W : Type) (host : Pipeline.Host W)
  (hc : CityScraper.Host W) (cc : CityScraper.Config)
  (hs : SpecialtyScraper.Host W) (cs : SpecialtyScraper.Config)
  (st : MigrationService.Process W) :
  fst (Pipeline.tryBlock host (CityScraper.scrapeDoctors hc cc) st)
  <> Pipeline.Failed Pipeline.NoDoctorsData
  /\ fst (Pipeline.tryBlock host (SpecialtyScraper.scrapeDoctors hs cs) st)
     <> Pipeline.Failed Pipeline.NoDoctorsData.
Proof.
  assert (Hgen : forall scraper,
            (forall s ds s', scraper s = (Return ds, s') -> ds <> []) ->
            fst (Pipeline.tryBlock host scraper st)
            <> Pipeline.Failed Pipeline.NoDoctorsData).
  { intros scraper Hscraper. unfold Pipeline.tryBlock.
    destruct (WaitForDb.wait _ _ _) as [[|n] w1]; [|discriminate].
    destruct (Pipeline.connectDb host w1) as [[[]|e] w2]; [|discriminate].
    destruct (Pipeline.countDoctors host w2) as [[c|e] w3]; [|discriminate].
    destruct (0 <? c).
    { destruct (MigrationService.getStats _ _) as [[stats|e] st4]; discriminate. }
    cbv zeta. unfold Pipeline.runScraper.
    destruct (scraper _) as [[ds|e] s'] eqn:E; [|discriminate].
    apply Hscraper in E.
    destruct (migrate_ends host ds
                (Pipeline.withWorld
                   {| MigrationService.outside := w3;
                      MigrationService.errors :=
                        ErrorTracker.clear (MigrationService.errors st) |} (world s')) E)
      as (st5 & new & _ & _ & ->).
    destruct (MigrationService.getStats _ st5) as [[stats|e] st6]; discriminate. }
  split; apply Hgen.
  - intros s ds s' E.
    destruct (city_scrapeDoctors_cases hc cc s) as (all & s1 & _ & [[_ Ht]|[Hne (s2 & Hr)]]);
      congruence.
  - intros s ds s' E.
    destruct (specialty_scrapeDoctors_cases hs cs s) as (all & s1 & _ & [[_ Ht]|[Hne Hr]]);
      congruence.
Qed.

(** ** The postal code *)

Lemma spanLen_app_stop (p : Z -> bool) (a b : jsstring) :
  forallb p a = true -> headIs p b = false ->
  spanLen p (a ++ b) = length a /\ skipWhile p (a ++ b) = b.
Proof.
  intros Ha Hb. induction a as [|c a IH]; cbn [app].
  - destruct b as [|d b]; [split; reflexivity|]. cbn [headIs] in Hb.
    cbn [spanLen skipWhile]. rewrite Hb. split; reflexivity.
  - cbn [forallb] in Ha. apply andb_true_iff in Ha as [Hc Ha].
    cbn [spanLen skipWhile length]. rewrite Hc. destruct (IH Ha) as [-> ->].
    split; reflexivity.
Qed.

Lemma skipWhile_app_keep (p : Z -> bool) (a b : jsstring) :
  skipWhile p a <> [] -> skipWhile p (a ++ b) = skipWhile p a ++ b.
Proof.
  induction a as [|c a IH]; cbn [app skipWhile]; [congruence|].
  destruct (p c); [exact IH | reflexivity].
Qed.

Lemma skipWhile_to_end (p : Z -> bool) (a : jsstring) :
  skipWhile p a = [] -> a = [] \/ headIs p (rev a) = true.
Proof.
  intros H. destruct a as [|c a]; [left; reflexivity|]. right.
  destruct (skipWhile_suffix p (c :: a)) as (l & El & Fl).
  rewrite H, app_nil_r in El. subst l.
  pose proof (List.Forall_rev Fl) as Fr.
  destruct (rev (c :: a)) as [|x l] eqn:E.
  - apply (f_equal (@length Z)) in E. rewrite length_rev in E. discriminate E.
  - cbn [headIs]. inversion Fr. assumption.
Qed.

Lemma headIs_rev_tail (p : Z -> bool) (c d : Z) (r : jsstring) :
  headIs p (rev (c :: d :: r)) = headIs p (rev (d :: r)).
Proof.
  cbn [rev]. destruct (rev r) as [|x l]; reflexivity.
Qed.

Lemma postal_code_at (spaces digits : jsstring) :
  spaces <> [] -> forallb isWhiteSpace spaces = true ->
  length digits = 5%nat -> forallb isDigit digits = true ->
  rePostalCode (spaces ++ digits) = Some (length (spaces ++ digits)).
Proof.
  intros Hne Hs Hl Hd. unfold rePostalCode.
  assert (Hhead : headIs isWhiteSpace digits = false).
  { destruct digits as [|d ds]; [reflexivity|]. cbn [forallb] in Hd.
    apply andb_true_iff in Hd as [Hd _]. exact (isDigit_not_space d Hd). }
  destruct (spanLen_app_stop isWhiteSpace spaces digits Hs Hhead) as [-> ->].
  destruct spaces as [|c r]; [congruence|]. cbn [length].
  rewrite Hl, Hd. reflexivity.
Qed.

Lemma no_postal_code_inside (body rest : jsstring) :
  body <> [] -> headIs isWhiteSpace (rev body) = false ->
  (6 <= length rest)%nat ->
  rePostalCode (body ++ rest) = None.
Proof.
  intros Hne Hend Hrest. unfold rePostalCode.
  destruct (spanLen isWhiteSpace (body ++ rest)); [reflexivity|]. cbv zeta.
  assert (Hkeep : skipWhile isWhiteSpace body <> []).
  { intros H. apply skipWhile_to_end in H as [H|H]; congruence. }
  rewrite (skipWhile_app_keep _ _ _ Hkeep), length_app.
  destruct (skipWhile isWhiteSpace body) as [|x l]; [congruence|].
  cbn [length]. destruct (Nat.eqb_spec (S (length l) + length rest) 5); [lia|].
  reflexivity.
Qed.

Lemma beforeFirst_match (m : matcher) (s : jsstring) (n : nat) :
  m s = Some n -> beforeFirst m s = [].
Proof. intros H. destruct s; cbn [beforeFirst]; rewrite H; reflexivity. Qed.

Lemma beforeFirst_no_match (m : matcher) (c : Z) (r : jsstring) :
  m (c :: r) = None -> beforeFirst m (c :: r) = c :: beforeFirst m r.
Proof. intros H. cbn [beforeFirst]. rewrite H. reflexivity. Qed.

Lemma beforeFirst_postal_code (body spaces digits : jsstring) :
  headIs isWhiteSpace (rev body) = false ->
  spaces <> [] -> forallb isWhiteSpace spaces = true ->
  length digits = 5%nat -> forallb isDigit digits = true ->
  beforeFirst rePostalCode (body ++ spaces ++ digits) = body.
Proof.
  intros Hend Hne Hs Hl Hd. induction body as [|c b IH].
  - cbn [app]. exact (beforeFirst_match _ _ _ (postal_code_at spaces digits Hne Hs Hl Hd)).
  - change ((c :: b) ++ spaces ++ digits) with (c :: (b ++ spaces ++ digits)).
    rewrite beforeFirst_no_match.
    + f_equal. apply IH. destruct b as [|d r]; [reflexivity|].
      rewrite <- (headIs_rev_tail isWhiteSpace c d r). exact Hend.
    + apply (no_postal_code_inside (c :: b) (spaces ++ digits));
        [discriminate | exact Hend|].
      rewrite length_app, Hl. destruct spaces; [congruence | cbn [length]; lia].
Qed.

Lemma beforeFirst_prefix (m : matcher) (s : jsstring) :
  exists rest, s = beforeFirst m s ++ rest.
Proof.
  induction s as [|c r IH]; cbn [beforeFirst].
  - destruct (m []); exists []; reflexivity.
  - destruct (m (c :: r)); [exists (c :: r); reflexivity|].
    destruct IH as (rest & E). exists rest. cbn [app]. rewrite <- E. reflexivity.
Qed.

(** X28. What is left when the extractors cut the postal code off,
    text.split(/\s+\d{5}$/)[0], is a prefix of the text; and a text made of a
    body that does not end in white space, then white space, then exactly
    five digits, is cut down to the body. *)
Theorem postal_code_stripped (text : jsstring) :
  (exists rest, text = CityScraper.withoutPostalCode text ++ rest)
  /\ forall body spaces digits,
       text = body ++ spaces ++ digits ->
       headIs isWhiteSpace (rev body) = false ->
       spaces <> [] -> forallb isWhiteSpace spaces = true ->
       length digits = 5%nat -> forallb isDigit digits = true ->
       CityScraper.withoutPostalCode text = body.
Proof.
  unfold CityScraper.withoutPostalCode. split; [apply beforeFirst_prefix|].
  intros body spaces digits -> Hend Hne Hs Hl Hd.
  apply beforeFirst_postal_code; assumption.
Qed.

Lemma postal_code_stripped_witness :
  CityScraper.withoutPostalCode (lit "Av. Javier Prado Este 1066, San Isidro   15036")
  = lit "Av. Javier Prado Este 1066, San Isidro".
Proof.
  apply (proj2 (postal_code_stripped
                  (lit "Av. Javier Prado Este 1066, San Isidro   15036"))
           (lit "Av. Javier Prado Este 1066, San Isidro") (lit "   ") (lit "15036"));
    try reflexivity.
  discriminate.
Defined.

(** ** The pages of a search *)

(** X29. In the page loop of scrapeDoctorsByCity a page that fails is skipped:
    the loop goes on with the next page and the results so far. A page that
    yields no entry ends the loop: the results so far are returned and no
    later page is asked for. A page with entries adds them, sleeps 500 ms
    and goes on. *)
Theorem paging_skips_failures (W : Type) (host : CityScraper.Host W)
  (page : Z) (rest : list Z) (city : jsstring)
  (found : list CityScraper.DoctorSearchResult.t) (st : Store W) :
  (forall e w,
      CityScraper.getSearchPage host city page (world st) = (Throw e, w) ->
      CityScraper.fetchPages host (page :: rest) city found st
      = CityScraper.fetchPages host rest city found
          {| world := w; scrapedUrls := scrapedUrls st |})
  /\ (forall cards w,
         CityScraper.getSearchPage host city page (world st) = (Return cards, w) ->
         CityScraper.parseSearchResults host cards city = [] ->
         CityScraper.fetchPages host (page :: rest) city found st
         = (Return found, {| world := w; scrapedUrls := scrapedUrls st |}))
  /\ (forall cards w,
         CityScraper.getSearchPage host city page (world st) = (Return cards, w) ->
         CityScraper.parseSearchResults host cards city <> [] ->
         CityScraper.fetchPages host (page :: rest) city found st
         = CityScraper.fetchPages host rest city
             (found ++ CityScraper.parseSearchResults host cards city)
             {| world := snd (CityScraper.sleep host 500 w);
                scrapedUrls := scrapedUrls st |}).
Proof.
  split; [|split].
  - intros e w E. cbn [CityScraper.fetchPages].
    unfold bind at 1. unfold tryCatch at 1. unfold bind at 1. unfold callWorld at 1.
    rewrite E. unfold ret at 1. cbv beta iota. rewrite app_nil_r. reflexivity.
  - intros cards w E Hnone. cbn [CityScraper.fetchPages].
    unfold bind at 1. unfold tryCatch at 1. unfold bind at 1. unfold callWorld at 1.
    rewrite E. cbv beta iota zeta. rewrite Hnone. reflexivity.
  - intros cards w E Hsome. cbn [CityScraper.fetchPages].
    unfold bind at 1. unfold tryCatch at 1. unfold bind at 1. unfold callWorld at 1.
    rewrite E. cbv beta iota zeta.
    destruct (CityScraper.parseSearchResults host cards city) as [|r rs] eqn:Ep;
      [congruence|].
    cbn [length]. rewrite Nat2Z.inj_succ.
    destruct (Z.eqb_spec (Z.succ (Z.of_nat (length rs))) 0) as [?|_]; [lia|].
    unfold bind, liftWorld, ret. cbn [world scrapedUrls].
    destruct (CityScraper.sleep host 500 w) as [[] w']. reflexivity.
Qed.

Lemma paging_skips_failures_witness :
  CityScraper.fetchPages sampleCityHost [2; 3] (lit "Lima") [] emptyStore
  = CityScraper.fetchPages sampleCityHost [3] (lit "Lima") [] emptyStore
  /\ CityScraper.fetchPages sampleCityHost [3; 1] (lit "Lima") [] emptyStore
     = (Return [], emptyStore).
Proof.
  split.
  - apply (proj1 (paging_skips_failures nat sampleCityHost 2 [3] (lit "Lima") []
                    emptyStore) (HttpError (Some 500)) 0%nat). reflexivity.
  - apply (proj1 (proj2 (paging_skips_failures nat sampleCityHost 3 [1] (lit "Lima") []
                           emptyStore)) [] 0%nat); reflexivity.
Defined.

(** ** The synthetic rating and review count *)

(** X30. generateRandomRating never throws and returns a number from 3 to 5
    with one decimal; generateRandomReviewCount never throws and returns an
    integer from 10 to 209. *)
Theorem synthesized_rating_and_reviews (W : Type) (host : SpecialtyScraper.Host W)
  (st : Store W) :
  (exists q st',
      SpecialtyScraper.generateRandomRating host st = (Return q, st')
      /\ (inject_Z 3 <= q)%Q /\ (q <= inject_Z 5)%Q
      /\ exists tenths, q = (inject_Z tenths / inject_Z 10)%Q)
  /\ (exists n st',
         SpecialtyScraper.generateRandomReviewCount host st = (Return n, st')
         /\ 10 <= n <= 209).
Proof.
  split.
  - destruct (returns_run _ _ st (specialty_generateRandomRating_range host))
      as (q & st' & E & H). exists q, st'. tauto.
  - destruct (returns_run _ _ st (specialty_generateRandomReviewCount_range host))
      as (n & st' & E & H). exists n, st'. tauto.
Qed.
